(* ===== verification/_CoqProject ===== *)
-Q . S2P
Prelude.v
Text.v
StringPiece.v
Process.v
State.v
StdMap.v
Comm.v
Config.v
Buffer.v
ProtobufCodec.v
Timestamp.v
Date.v
LogStream.v
Logging.v
LogFile.v
SmallFile.v
AsyncLogging.v
Channel.v
EPollPoller.v
TimerQueue.v
Locks.v
ThreadPool.v
Threads.v
AsyncStop.v
ThreadStart.v
ThreadPoolStop.v
EventLoop.v
Reactor.v
TcpConnection.v
Inet.v
Sockets.v
TcpInfo.v
Acceptor.v
TcpServer.v
ConnectionTable.v
Connector.v
LoopLife.v
TcpClient.v
Mysql.v
MysqlInit.v
MysqlLinkPool.v
SqlAnswers.v
CacheConn.v
CachePool.v
PoolThreads.v
RedisLock.v
IM.v
Business.v
Hongbao.v
Accounts.v
Connection.v
CrossThread.v
Dispatcher.v
Server.v
CrossChat.v
Client.v
LoadTest.v
ServerStart.v
ClientStart.v
