(* ===== verification/Prelude.v ===== *)
(** * IM-Server: a verification library

    IM-Server is a chat server in C++: a reactor network library in the style of muduo,
    a protobuf codec over it, pools of redis and MySQL connections, and the business
    code of the chat (accounts, messages, red packets); a client comes with it.  This
    library is a shallow embedding of that code (src/server/src, src/client/src) with
    theorems about it.

    ** How the parts interact

    A client sends frames.  A [TcpConnection] (TcpConnection.v), served by the loop of
    its thread (EventLoop.v, with the poller of EPollPoller.v, the channels of
    Channel.v and the timers of TimerQueue.v, composed in Reactor.v), reads them into a
    [Buffer] (Buffer.v).  The codec (ProtobufCodec.v) cuts the bytes into messages
    (IM.v), the dispatcher (Dispatcher.v) hands each message to the handler of its
    class, and the handlers (Server.v) answer it, calling the business code
    (Business.v, with theorems in Hongbao.v and Accounts.v), which uses redis
    (CacheConn.v, CachePool.v, RedisLock.v) and MySQL (Mysql.v, MysqlLinkPool.v,
    SqlAnswers.v).  Answers go back through the codec and [TcpConnection::send].
    Connections come from the [Acceptor] (Acceptor.v) through the [TcpServer]
    (TcpServer.v), which spreads them over the loops of a pool of threads; on the other
    side a client (Client.v) connects with a [Connector] (Connector.v, TcpClient.v).
    Every part logs (Logging.v, LogStream.v), through AsyncLogging.v into files.
    [main] of the server (ServerStart.v) makes the process a daemon (Process.v), reads the
    configuration (Config.v) and makes and starts these parts; the client's [main] runs a
    load test (LoadTest.v) with clients that each start a thread for their loop
    (ClientStart.v).

    ** Conventions

    - Integers are [Z] with the conversions of their width written out ([u32], [i32],
      ...); bytes are [byte], buffers lists of bytes with integer indices, C strings and
      SQL text [string]; doubles are IEEE 754 ([SpecFloat], Text.v).
    - An operation that can stop the program returns a [res] (this file): a failed
      assertion (the build does not define NDEBUG), a fatal log, an exception,
      undefined behaviour, a wait for another thread, exhausted fuel.  Code that threads
      shared objects uses the state monad of State.v.
    - [std::map] with byte string keys is StdMap.v; text formatting and parsing of the C
      library is Text.v.
    - Code that is not in the repository is a class with laws that state its documented
      behaviour, and every theorem that uses a law has a witness over a concrete
      instance: [Protobuf], [Zlib] (ProtobufCodec.v), [IMWire] (the code generated from
      IM.proto, IM.v), epoll (EPollPoller.v), eventfd (EventLoop.v), [Socket]
      (TcpConnection.v), [Hiredis] (CacheConn.v; [HiredisReliable] for a cache that
      answers), [MysqlClient] (Mysql.v), [Libc] (Business.v), [Sys] (the system calls on sockets,
      Sockets.v; [SysOpen] in Connector.v says which descriptors they leave open), [Stdio]
      (LogFile.v), [Files] (SmallFile.v), fork and its kind (Process.v), [Rand]
      (LoadTest.v), [MysqlOptions] (MysqlInit.v), [SysTcpInfo] (TcpInfo.v).
    - Interfaces between components are classes too: [ChannelLoop] and [FunctorLoop]
      are what a connection asks of its loop (implemented by Reactor.v), [ServerOps]
      what the business code asks of the server (implemented by Server.v),
      [Connection] what server and client ask of a connection (implemented by
      TcpConnection.v, in Connection.v for the loop's own thread and in CrossThread.v for
      others), [Served] what TcpServer.v and TcpClient.v ask of
      the connections they own, [ChannelLife] what an owner of changing channels asks of
      its loop (Connector.v).

    ** The files

    - Prelude, Text, State, StdMap: shared definitions, lemmas, tactics and hints.
    - Buffer: Buffer.h/.cc.  Every sequence of operations acts on the readable bytes, and
      on the room in front of them, as a byte queue; integers are read back as written;
      searches find the first match.
    - ProtobufCodec: codec.h/.cc.  What is sent is received, for every way TCP cuts the
      stream; nothing is dispatched after a malformed frame; the loop waits, dispatches or
      reports an error exactly as the frame is incomplete, good or bad; it ends.
    - Channel, EPollPoller: Channel.h/.cc, Poller.h/.cc, EPollPoller.h/.cc.  The kernel
      watches exactly the channels marked as added, with the events they ask for; the
      order of the callbacks.
    - TimerQueue, Timestamp: Timer*.h/.cc, Timestamp.h/.cc.  An alarm runs exactly the
      due timers, whatever their callbacks do, and sets the next one for the earliest; a
      cancelled timer does not come back.
    - EventLoop, Reactor, LoopLife: EventLoop.h/.cc, TimerQueue.cc.  [queueInLoop] and
      the body of the loop are written as their accesses to what threads share; run through,
      they are the sequential operations, and their interleavings are a step relation, in
      which no wakeup is lost and functors run once, in order, within two iterations.  A
      loop that ends leaves neither channel, descriptor nor timer behind.
    - TcpConnection, Connection, CrossThread, TcpInfo: TcpConnection.h/.cc,
      WeakCallback.h.  The invariant of a connection over every run of events; what is sent
      is appended whole; a shutdown waits for the output; what other threads send arrives
      whole and in the order of the queue; what their closing can do to [state_]; what a
      connection tells of itself fits its buffer.
    - Comm, Config: IMComm.h/.cc, ConfigFileReader.h/.cc, ReadConfig.h.
    - Mysql, MysqlInit, MysqlLinkPool, SqlAnswers: MysqlUtil.h/.cc, MysqlLinkPool.h/.cc.
      Reads of a result refine its table; connections are lent exclusively; no constructor
      returns before the library is initialised.
    - CacheConn, CachePool, PoolThreads, RedisLock: CachePool.h/.cc, RedisLock.h.  Messages
      stored in redis are read back; connections are lent exclusively, and every thread that
      waits for one gets it; the lock excludes when the locked key holds no number.
    - IM: the messages of IM.proto.
    - Business, Hongbao, Accounts: BaseBusiness.h/.cc.  Sending and opening red packets,
      registering and logging in (the answer by what the queries of the run returned),
      messages for absent users.
    - Dispatcher, Server, CrossChat: dispatcher.h, Server.h/.cc.  Casts are to the class of the
      object, for classes such as those the server registers; chat messages travel through the server byte for byte, also to connections of
      other loops; logins.
    - Inet, Sockets, Acceptor, TcpServer, ConnectionTable: InetAddress.h/.cc, SocketsOps.h/.cc,
      Socket.h/.cc, Acceptor.h/.cc, TcpServer.h/.cc, EventLoopThreadPool.h/.cc.  Addresses
      and their text; what becomes of an accepted connection and of a failing accept; the
      table of connections, their loops and their destruction, over every run, and over the
      runs in which the close callback is not called.
    - Connector, TcpClient, Client (client/src): Connector.h/.cc, TcpClient.h/.cc,
      Client.h/.cc.  Connecting with retries leaks no descriptor and fails no assertion;
      at most one connection is open; a chat message travels from one client through the
      server to another and is shown there once, unchanged and in order.
    - LogStream, Logging, LogFile, SmallFile, AsyncLogging, AsyncStop: LogStream.h/.cc,
      Logging.h/.cc, LogFile.h/.cc, FileUtil.h/.cc, AsyncLogging.h/.cc.  A log statement
      is one bounded line with its fields in order; what the asynchronous log writes,
      drops and, when it is stopped, loses.
    - Locks, ThreadPool, ThreadPoolStop, Threads, ThreadStart: Mutex.h, Condition.h/.cc,
      SpinLock.h, ThreadPool.h/.cc, Thread.h/.cc, CountDownLatch.h/.cc,
      EventLoopThread.h/.cc.  The holder of a lock; tasks run in order and once, and no
      caller is forgotten; starting a thread; the pool stops when its tasks are done.
    - Date, StringPiece: Date.h/.cc, StringPiece.h.  Julian day numbers on the Gregorian
      calendar; pieces of a string and their order.
    - Process, ServerStart: Daemon.h/.cc, Exception.h/.cc, main.cc, and the constructor and
      [start] of Server.cc.  What a daemon keeps of its process; from [main] on the server
      reaches its loop, listening, or ends with the reason.
    - ClientStart, LoadTest (client/src): Client.cc, main.cc, test.cc.  [start] returns with
      a connected client whatever the interleaving with the thread of the loop; what each
      client of the load test sends.

    ** Bounds and fuel

    Loops that are not structural run with fuel and have a theorem that the fuel is
    enough: the receive loop of the codec ([onMessage_total]) and the loading of a
    configuration file ([load_total]); the conversions of numbers in LogStream.v run with
    20 decimal and 16 hexadecimal digits, the most a 64-bit number has; [AppendFile.append]
    (LogFile.v) and [readToString] (SmallFile.v) run with the number of bytes that are left,
    since every round moves at least one.  Sizes of buffers are bounded by 2^62 where an
    index could wrap; the limit on a red packet (199 times its cents below 2^31) is
    where the product in [getRandomMoney] overflows.

    ** What is not modelled

    - Code that is generated or vendored: IM.pb.h/.cc, read.h, sds.h, google-inl.h.
    - Types.h and nocopyable.h (casts, deleted members), and the declarations of the other
      headers beyond the members and inline functions.
    - The examples, and [testRobHongbao] of test.cc, which nothing calls.
    - Globals that a call replaces (log level, output): they are arguments, except the
      output of the server in ServerStart.v.
    - Memory: objects are values in a heap of the model, so a destructor is the call the
      program makes, and the lifetime of a [shared_ptr] is not counted.
    - Interleavings of the handlers of the server: [connMap_] is used without a lock in the
      source, so two handlers at once are a data race, which has no defined behaviour to
      model.  Handlers run one at a time; the connection a handler sends to may belong to
      another loop (the instance of [Connection] in CrossThread.v).
    - Failures outside the documented laws: epoll_ctl succeeds on what it can be asked
      (no ENOMEM or ENOSPC); redis answers a command or not at all (no error replies such
      as OOM or MOVED), and keys do not expire; [errno] is what the failed call left, also
      after a log statement; MySQL keeps what the client library says it stored, and what
      an update does to a table is not observed.
    - The dispositions of SIGABRT (main.cc) and SIGPIPE (EventLoop.cc).
    - The memory model: [state_] and the flags of the loop are plain members that several
      threads use; every access is one step, in one order for all threads.
*)
From stdpp Require Export base list gmap strings.
From Stdlib Require Export ZArith Lia.
From Stdlib Require Import Strings.Byte.
#[export] Set Default Goal Selector "!".

Open Scope Z_scope.

(** ** Bytes

    A [char] of the program is a [byte]; strings that are only compared and
    concatenated (user names, redis keys, SQL text) are Rocq [string]s. *)

Abbreviation byte := Init.Byte.byte.
Abbreviation x00 := Init.Byte.x00.

Definition byte_eqb (a b : byte) : bool := Byte.eqb a b.

#[export] Instance byte_eq_dec : EqDecision byte := Byte.byte_eq_dec.
#[export] Instance byte_countable : Countable byte :=
  inj_countable Byte.to_N Byte.of_N Byte.of_to_N.

(** The value of an [unsigned char]. *)
Definition Z_of_byte (b : byte) : Z := Z.of_N (Byte.to_N b).

(** The conversion of an integer to [unsigned char] (modulo 256). *)
Definition byte_of_Z (z : Z) : byte :=
  match Byte.of_N (Z.to_N (z mod 256)) with
  | Some b => b
  | None => x00
  end.

(** The value of a (signed, two's complement) [char]. *)
Definition sZ_of_byte (b : byte) : Z :=
  let z := Z_of_byte b in if z <? 128 then z else z - 256.

Lemma Z_of_byte_range b : 0 <= Z_of_byte b < 256.
Proof.
  unfold Z_of_byte. pose proof (Byte.to_N_bounded b). lia.
Qed.

Lemma Z_of_byte_of_Z z : Z_of_byte (byte_of_Z z) = z mod 256.
Proof.
  unfold Z_of_byte, byte_of_Z.
  pose proof (Z.mod_pos_bound z 256 ltac:(lia)) as Hb.
  destruct (Byte.of_N (Z.to_N (z mod 256))) as [b|] eqn:E.
  - apply Byte.to_of_N in E. rewrite E. lia.
  - apply Byte.of_N_None_iff in E. lia.
Qed.

Lemma byte_of_Z_of_byte b : byte_of_Z (Z_of_byte b) = b.
Proof.
  unfold byte_of_Z, Z_of_byte.
  pose proof (Byte.to_N_bounded b).
  rewrite Z.mod_small by lia. rewrite N2Z.id, Byte.of_to_N. done.
Qed.

Lemma Z_of_byte_inj a b : Z_of_byte a = Z_of_byte b → a = b.
Proof. intros H. rewrite <-(byte_of_Z_of_byte a), H. apply byte_of_Z_of_byte. Qed.

Lemma byte_eqb_spec a b : byte_eqb a b = bool_decide (a = b).
Proof.
  unfold byte_eqb. destruct (Byte.eqb a b) eqn:E; symmetry.
  - apply bool_decide_eq_true. by apply Byte.byte_dec_bl.
  - apply bool_decide_eq_false. intros ->. by rewrite (Byte.byte_dec_lb (eq_refl b)) in E.
Qed.

(** ** Machine integers *)

(** [uN w z] is the conversion of [z] to a [w]-bit unsigned integer, [sN w z]
    the conversion to a [w]-bit two's complement integer. *)
Definition uN (w z : Z) : Z := z mod 2 ^ w.
Definition sN (w z : Z) : Z := (z + 2 ^ (w - 1)) mod 2 ^ w - 2 ^ (w - 1).

Abbreviation u16 := (uN 16).
Abbreviation u32 := (uN 32).
Abbreviation u64 := (uN 64).
Abbreviation i8 := (sN 8).
Abbreviation i16 := (sN 16).
Abbreviation i32 := (sN 32).
Abbreviation i64 := (sN 64).

(** The range of a [w]-bit signed integer. *)
Definition in_sN (w z : Z) : Prop := - 2 ^ (w - 1) <= z < 2 ^ (w - 1).

Lemma uN_small w z : 0 <= z < 2 ^ w → uN w z = z.
Proof. intros. unfold uN. by apply Z.mod_small. Qed.

Lemma uN_range w z : 0 <= w → 0 <= uN w z < 2 ^ w.
Proof. intros. apply Z.mod_pos_bound. lia. Qed.

Lemma pow2_half w : 0 < w → 2 ^ w = 2 * 2 ^ (w - 1).
Proof. intros. rewrite <-Z.pow_succ_r by lia. f_equal. lia. Qed.

Lemma sN_small w z : 0 < w → in_sN w z → sN w z = z.
Proof.
  unfold in_sN, sN. intros. pose proof (pow2_half w ltac:(lia)).
  rewrite Z.mod_small by lia. lia.
Qed.

Lemma sN_range w z : 0 < w → in_sN w (sN w z).
Proof.
  unfold in_sN, sN. intros.
  pose proof (Z.mod_pos_bound (z + 2 ^ (w - 1)) (2 ^ w) ltac:(lia)).
  pose proof (pow2_half w ltac:(lia)). lia.
Qed.

(** Truncation does not depend on the representative modulo [2 ^ w]. *)
Lemma sN_uN w z : 0 < w → sN w (uN w z) = sN w z.
Proof.
  intros. unfold sN, uN. rewrite Z.add_mod_idemp_l by lia. done.
Qed.

Lemma uN_sN w z : 0 < w → uN w (sN w z) = uN w z.
Proof.
  intros. unfold sN, uN.
  rewrite <-(Z.mod_add ((z + 2 ^ (w-1)) mod 2 ^ w - 2 ^ (w-1)) 1 (2 ^ w)) by lia.
  replace ((z + 2 ^ (w-1)) mod 2 ^ w - 2 ^ (w-1) + 1 * 2 ^ w)
    with ((z + 2 ^ (w-1)) mod 2 ^ w + (2 ^ w - 2 ^ (w-1))) by lia.
  rewrite Z.add_mod_idemp_l by lia.
  replace (z + 2 ^ (w-1) + (2 ^ w - 2 ^ (w-1))) with (z + 1 * 2 ^ w) by lia.
  by rewrite Z.mod_add by lia.
Qed.

Lemma div_bounds a k : 0 < k → k * (a / k) <= a < k * (a / k) + k.
Proof. intros. pose proof (Z.div_mod a k). pose proof (Z.mod_pos_bound a k). lia. Qed.

(** C++ integer division and remainder truncate towards zero. *)
Abbreviation cdiv := Z.quot.
Abbreviation crem := Z.rem.

(** ** Faults

    An operation that can stop the program returns a [res]: a failed [assert]
    (the Makefile does not define [NDEBUG]), a [LOG_FATAL]/[abort]/[exit], an
    exception that nobody catches, undefined behaviour, a wait for another
    thread, or, for the loops that are run with fuel, an exhausted fuel (each
    such loop has a theorem that this does not happen). *)
Inductive fault :=
  | AssertFail
  | Fatal
  | Throw (what : string)
  | UB
  | Blocked
  | OutOfFuel.

Inductive res (A : Type) :=
  | Ok (a : A)
  | Fault (f : fault).
Arguments Ok {A} _.
Arguments Fault {A} _.

#[export] Instance res_ret : MRet res := @Ok.
#[export] Instance res_bind : MBind res := λ A B k m,
  match m with Ok a => k a | Fault f => Fault f end.
#[export] Instance res_fmap : FMap res := λ A B g m,
  match m with Ok a => Ok (g a) | Fault f => Fault f end.

(** C [assert]. *)
Definition cassert (b : bool) : res unit := if b then Ok () else Fault AssertFail.

(** [Ok]-results only: the predicate of the theorems that say an operation
    returns normally. *)
Definition returns {A} (m : res A) : Prop := ∃ a, m = Ok a.

Lemma bind_Ok {A B} (m : res A) (k : A → res B) (b : B) :
  (m ≫= k) = Ok b → ∃ a, m = Ok a ∧ k a = Ok b.
Proof. destruct m as [a|f]; [|done]. intros H. by exists a. Qed.

Lemma cassert_true b : b = true → cassert b = Ok ().
Proof. by intros ->. Qed.

(** ** Lists indexed by integers *)

Definition zlen {A} (l : list A) : Z := Z.of_nat (length l).
Definition ztake {A} (n : Z) (l : list A) : list A := take (Z.to_nat n) l.
Definition zdrop {A} (n : Z) (l : list A) : list A := drop (Z.to_nat n) l.
Definition zrep {A} (n : Z) (x : A) : list A := replicate (Z.to_nat n) x.

(** The elements of [l] at the indices [i <= _ < j]. *)
Definition zslice {A} (i j : Z) (l : list A) : list A := ztake (j - i) (zdrop i l).

Section ZLists.
Context {A : Type}.
Implicit Types (l k : list A) (x : A).

Lemma zlen_nonneg l : 0 <= zlen l.
Proof. unfold zlen. lia. Qed.

Lemma zlen_app l k : zlen (l ++ k) = zlen l + zlen k.
Proof. unfold zlen. rewrite length_app. lia. Qed.

Lemma zlen_cons x l : zlen (x :: l) = 1 + zlen l.
Proof. unfold zlen. cbn [length]. lia. Qed.

Lemma zlen_nil : zlen (@nil A) = 0.
Proof. done. Qed.

Lemma zlen_0 l : zlen l = 0 → l = [].
Proof. destruct l; [done|]. rewrite zlen_cons. pose proof (zlen_nonneg l). lia. Qed.

Lemma zlen_rep n x : 0 <= n → zlen (zrep n x) = n.
Proof. intros. unfold zlen, zrep. rewrite length_replicate. lia. Qed.

Lemma zlen_take n l : 0 <= n <= zlen l → zlen (ztake n l) = n.
Proof. unfold zlen, ztake. rewrite length_take. lia. Qed.

Lemma zlen_drop n l : 0 <= n <= zlen l → zlen (zdrop n l) = zlen l - n.
Proof. unfold zlen, zdrop. rewrite length_drop. lia. Qed.

Lemma zlen_slice i j l :
  0 <= i → i <= j → j <= zlen l → zlen (zslice i j l) = j - i.
Proof.
  intros. unfold zslice. rewrite zlen_take; [done|]. rewrite zlen_drop; lia.
Qed.

Lemma ztake_drop n l : ztake n l ++ zdrop n l = l.
Proof. apply take_drop. Qed.

Lemma ztake_app_exact n l k : n = zlen l → ztake n (l ++ k) = l.
Proof. intros ->. unfold ztake, zlen. rewrite Nat2Z.id. apply take_app_length. Qed.

Lemma zdrop_app_exact n l k : n = zlen l → zdrop n (l ++ k) = k.
Proof. intros ->. unfold zdrop, zlen. rewrite Nat2Z.id. apply drop_app_length. Qed.

Lemma zdrop_drop i j l : 0 <= i → 0 <= j → zdrop i (zdrop j l) = zdrop (j + i) l.
Proof. intros. unfold zdrop. rewrite drop_drop. f_equal. lia. Qed.

Lemma ztake_take i j l : 0 <= i <= j → ztake i (ztake j l) = ztake i l.
Proof. intros. unfold ztake. rewrite take_take. f_equal. lia. Qed.

Lemma ztake_ge n l : zlen l <= n → ztake n l = l.
Proof. unfold zlen, ztake. intros. apply take_ge. lia. Qed.

Lemma zdrop_ge n l : zlen l <= n → zdrop n l = [].
Proof. unfold zlen, zdrop. intros. apply drop_ge. lia. Qed.

Lemma zdrop_0 l : zdrop 0 l = l.
Proof. done. Qed.

Lemma ztake_0 l : ztake 0 l = [].
Proof. done. Qed.

Lemma ztake_app_le n l k : n <= zlen l → ztake n (l ++ k) = ztake n l.
Proof. intros. unfold ztake, zlen in *. apply take_app_le. lia. Qed.

Lemma zdrop_app_le n l k : n <= zlen l → zdrop n (l ++ k) = zdrop n l ++ k.
Proof. intros. unfold zdrop, zlen in *. apply drop_app_le. lia. Qed.

Lemma zdrop_app_ge n l k : zlen l <= n → zdrop n (l ++ k) = zdrop (n - zlen l) k.
Proof.
  intros. unfold zdrop, zlen in *. rewrite drop_app_ge by lia. f_equal. lia.
Qed.

Lemma ztake_app_ge n l k :
  zlen l <= n → ztake n (l ++ k) = l ++ ztake (n - zlen l) k.
Proof.
  intros. unfold ztake, zlen in *. rewrite take_app_ge by lia. do 2 f_equal. lia.
Qed.

Lemma zdrop_take_comm i j l :
  0 <= i <= j → zdrop i (ztake j l) = ztake (j - i) (zdrop i l).
Proof.
  intros. unfold zdrop, ztake. rewrite take_drop_commute. do 2 f_equal. lia.
Qed.

(** A list is the concatenation of what an index interval cuts it into. *)
Lemma zslice_cut i j l :
  0 <= i → i <= j → j <= zlen l → l = ztake i l ++ zslice i j l ++ zdrop j l.
Proof.
  intros. unfold zslice.
  replace (zdrop j l) with (zdrop (j - i) (zdrop i l)).
  2:{ rewrite zdrop_drop by lia. f_equal. lia. }
  by rewrite ztake_drop, ztake_drop.
Qed.

Lemma zslice_app_mid l1 l2 l3 :
  zslice (zlen l1) (zlen l1 + zlen l2) (l1 ++ l2 ++ l3) = l2.
Proof.
  unfold zslice. rewrite (zdrop_app_exact _ l1) by done.
  apply ztake_app_exact. lia.
Qed.

Lemma zslice_split i j m l :
  0 <= i → i <= j → j <= m → m <= zlen l →
  zslice i m l = zslice i j l ++ zslice j m l.
Proof.
  intros. unfold zslice.
  rewrite <-(ztake_drop (j - i) (ztake (m - i) (zdrop i l))). f_equal.
  - rewrite ztake_take by lia. done.
  - rewrite zdrop_take_comm by lia. rewrite zdrop_drop by lia.
    replace (i + (j - i)) with j by lia. f_equal. lia.
Qed.

Lemma zslice_empty i l : zslice i i l = [].
Proof. unfold zslice. by rewrite Z.sub_diag. Qed.

Lemma zslice_app_l i j l k : 0 <= i → i <= j → j <= zlen l → zslice i j (l ++ k) = zslice i j l.
Proof.
  intros. unfold zslice. rewrite zdrop_app_le by lia.
  apply ztake_app_le. rewrite zlen_drop; lia.
Qed.

Lemma zslice_app_r i j l k :
  zlen l <= i → zslice i j (l ++ k) = zslice (i - zlen l) (j - zlen l) k.
Proof.
  intros. unfold zslice. rewrite zdrop_app_ge by lia. f_equal. lia.
Qed.

Lemma zslice_take i j n l :
  0 <= i → i <= j → j <= n → n <= zlen l → zslice i j (ztake n l) = zslice i j l.
Proof.
  intros. unfold zslice. rewrite zdrop_take_comm by lia. apply ztake_take. lia.
Qed.

Lemma zslice_drop i j n l :
  0 <= n → 0 <= i → i <= j → zslice i j (zdrop n l) = zslice (n + i) (n + j) l.
Proof. intros. unfold zslice. rewrite zdrop_drop by lia. f_equal. lia. Qed.

Lemma zslice_all n l : zlen l <= n → zslice 0 n l = l.
Proof. intros. unfold zslice. rewrite zdrop_0. apply ztake_ge. lia. Qed.

Lemma ztake_slice n i j l :
  0 <= n → n <= j - i → ztake n (zslice i j l) = zslice i (i + n) l.
Proof. intros. unfold zslice. rewrite ztake_take by lia. f_equal. lia. Qed.

Lemma zdrop_slice n i j l :
  0 <= i → 0 <= n → n <= j - i → zdrop n (zslice i j l) = zslice (i + n) j l.
Proof.
  intros. unfold zslice. rewrite zdrop_take_comm by lia.
  rewrite zdrop_drop by lia. f_equal. lia.
Qed.

(** Slices of a list in which [d] overwrites the elements from index [i] on. *)
Lemma zslice_write_after r i d l :
  0 <= r → r <= i → i + zlen d <= zlen l →
  zslice r (i + zlen d) (ztake i l ++ d ++ zdrop (i + zlen d) l) = zslice r i l ++ d.
Proof.
  intros. pose proof (zlen_nonneg d).
  assert (Hi : zlen (ztake i l) = i) by (apply zlen_take; lia).
  rewrite (zslice_split r i).
  all: rewrite ?zlen_app, ?Hi, ?zlen_drop by lia; try lia.
  f_equal.
  - rewrite zslice_app_l by lia. apply zslice_take; lia.
  - rewrite <-Hi at 1 2. apply zslice_app_mid.
Qed.

Lemma zslice_write_before i j d l :
  0 <= i → i + zlen d <= j → j <= zlen l →
  zslice i j (ztake i l ++ d ++ zdrop (i + zlen d) l) = d ++ zslice (i + zlen d) j l.
Proof.
  intros. pose proof (zlen_nonneg d).
  assert (Hi : zlen (ztake i l) = i) by (apply zlen_take; lia).
  rewrite (zslice_split i (i + zlen d)).
  all: rewrite ?zlen_app, ?Hi, ?zlen_drop by lia; try lia.
  f_equal.
  - rewrite <-Hi at 1 2. apply zslice_app_mid.
  - rewrite zslice_app_r by lia. rewrite zslice_app_r by lia.
    rewrite Hi, zslice_drop by lia. f_equal; lia.
Qed.
End ZLists.

(** ** Byte arrays

    A [std::vector<char>] or a [char[]] is a list of bytes; a pointer into it is
    its index.  An access outside the array is undefined behaviour. *)

(** [memcpy(dst, a + i, n)]: the [n] bytes at index [i]. *)
Definition mem_read (a : list byte) (i n : Z) : res (list byte) :=
  if (0 <=? i) && (0 <=? n) && (i + n <=? zlen a)
  then Ok (zslice i (i + n) a) else Fault UB.

(** [std::copy(d, d + len, a + i)]. *)
Definition mem_write (a : list byte) (i : Z) (d : list byte) : res (list byte) :=
  if (0 <=? i) && (i + zlen d <=? zlen a)
  then Ok (ztake i a ++ d ++ zdrop (i + zlen d) a) else Fault UB.

Lemma mem_read_ok a i n :
  0 <= i → 0 <= n → i + n <= zlen a → mem_read a i n = Ok (zslice i (i + n) a).
Proof.
  intros. unfold mem_read. rewrite !(proj2 (Z.leb_le _ _)) by lia. done.
Qed.

Lemma mem_write_ok a i d :
  0 <= i → i + zlen d <= zlen a →
  mem_write a i d = Ok (ztake i a ++ d ++ zdrop (i + zlen d) a).
Proof.
  intros. unfold mem_write. rewrite !(proj2 (Z.leb_le _ _)) by lia. done.
Qed.

Lemma mem_read_mid l1 l2 l3 i n :
  i = zlen l1 → n = zlen l2 → mem_read (l1 ++ l2 ++ l3) i n = Ok l2.
Proof.
  intros -> ->. pose proof (zlen_nonneg l1). pose proof (zlen_nonneg l2).
  rewrite mem_read_ok by (rewrite ?zlen_app; pose proof (zlen_nonneg l3); lia).
  by rewrite zslice_app_mid.
Qed.

(** Reading does not see what follows the bytes it reads. *)
Lemma mem_read_app a e i n :
  i + n <= zlen a → mem_read (a ++ e) i n = mem_read a i n.
Proof.
  intros. unfold mem_read. rewrite zlen_app. pose proof (zlen_nonneg e).
  replace (i + n <=? zlen a + zlen e) with true by (symmetry; lia).
  replace (i + n <=? zlen a) with true by (symmetry; lia).
  rewrite !andb_true_r. destruct ((0 <=? i) && (0 <=? n)) eqn:E; [|done].
  f_equal. apply zslice_app_l; lia.
Qed.

Lemma mem_read_in_range a i n d : mem_read a i n = Ok d → 0 <= i ∧ 0 <= n ∧ i + n <= zlen a.
Proof. unfold mem_read. destruct (_ && _ && _) eqn:E; [|done]. intros _. lia. Qed.

(** ** Big-endian integers *)

(** The [n] bytes of [z], most significant first: the object representation of
    [htobeXX(z)] on a little-endian host. *)
Fixpoint be_bytes (n : nat) (z : Z) : list byte :=
  match n with
  | O => []
  | S m => be_bytes m (z / 256) ++ [byte_of_Z z]
  end.

(** The unsigned integer that big-endian bytes denote. *)
Definition be_value (l : list byte) : Z :=
  fold_left (λ acc b, 256 * acc + Z_of_byte b) l 0.

Lemma be_value_snoc l b : be_value (l ++ [b]) = 256 * be_value l + Z_of_byte b.
Proof. unfold be_value. by rewrite fold_left_app. Qed.

Lemma zlen_be_bytes n z : zlen (be_bytes n z) = Z.of_nat n.
Proof.
  revert z. induction n as [|n IH]; intros z; [done|].
  cbn [be_bytes]. rewrite zlen_app, IH. change (zlen [byte_of_Z z]) with 1. lia.
Qed.

Lemma be_value_bytes n z : be_value (be_bytes n z) = z mod 2 ^ (8 * Z.of_nat n).
Proof.
  revert z. induction n as [|n IH]; intros z; [by rewrite Z.mod_1_r|].
  cbn [be_bytes]. rewrite be_value_snoc, IH, Z_of_byte_of_Z.
  replace (8 * Z.of_nat (S n)) with (8 + 8 * Z.of_nat n) by lia.
  rewrite Z.pow_add_r by lia. change (2 ^ 8) with 256.
  rewrite Z.rem_mul_r by lia. lia.
Qed.

Lemma be_bytes_ext n z z' :
  uN (8 * Z.of_nat n) z = uN (8 * Z.of_nat n) z' → be_bytes n z = be_bytes n z'.
Proof.
  unfold uN. revert z z'. induction n as [|n IH]; intros z z' H; [done|].
  replace (8 * Z.of_nat (S n)) with (8 + 8 * Z.of_nat n) in H by lia.
  rewrite !Z.pow_add_r in H by lia. change (2 ^ 8) with 256 in H.
  rewrite !Z.rem_mul_r in H by lia.
  pose proof (Z.mod_pos_bound z 256 ltac:(lia)). pose proof (Z.mod_pos_bound z' 256 ltac:(lia)).
  assert (z mod 256 = z' mod 256) as Hm by lia.
  assert (byte_of_Z z = byte_of_Z z') as Hb by (unfold byte_of_Z; by rewrite Hm).
  cbn [be_bytes]. rewrite Hb. f_equal. apply IH. lia.
Qed.

Lemma be_value_range l : 0 <= be_value l < 2 ^ (8 * zlen l).
Proof.
  induction l as [|b l IH] using rev_ind; [done|].
  rewrite be_value_snoc, zlen_app. change (zlen [b]) with 1.
  pose proof (Z_of_byte_range b). pose proof (zlen_nonneg l).
  replace (8 * (zlen l + 1)) with (8 + 8 * zlen l) by lia.
  rewrite Z.pow_add_r by lia. change (2 ^ 8) with 256. lia.
Qed.

(** ** C strings *)

(** The characters of a [std::string] that a [const char*] obtained by [c_str()]
    shows to [strlen], [%s] and friends: those before the first NUL. *)
Fixpoint c_str (l : list byte) : list byte :=
  match l with
  | [] => []
  | b :: l' => if byte_eqb b x00 then [] else b :: c_str l'
  end.

Lemma c_str_no_nul l : x00 ∉ l → c_str l = l.
Proof.
  induction l as [|b l IH]; [done|]. intros Hn. cbn [c_str].
  rewrite byte_eqb_spec, bool_decide_false by set_solver.
  f_equal. apply IH. set_solver.
Qed.

Lemma c_str_not_nul l : x00 ∉ c_str l.
Proof.
  induction l as [|b l IH]; cbn [c_str]; [set_solver|].
  rewrite byte_eqb_spec. case_bool_decide; set_solver.
Qed.

Lemma c_str_app_nul l k : x00 ∉ l → c_str (l ++ x00 :: k) = l.
Proof.
  induction l as [|b l IH]; [done|]. intros Hn. cbn [c_str app].
  rewrite byte_eqb_spec, bool_decide_false by set_solver. f_equal. apply IH. set_solver.
Qed.

(** The bytes of a Rocq string and back. *)
Definition bytes_of (s : string) : list byte := String.list_byte_of_string s.
Definition string_of (l : list byte) : string := String.string_of_list_byte l.

Lemma bytes_of_string_of l : bytes_of (string_of l) = l.
Proof. apply String.list_byte_of_string_of_list_byte. Qed.

Lemma string_of_bytes_of s : string_of (bytes_of s) = s.
Proof. apply String.string_of_list_byte_of_string. Qed.

Lemma bytes_of_inj s t : bytes_of s = bytes_of t → s = t.
Proof. intros H. by rewrite <-(string_of_bytes_of s), H, string_of_bytes_of. Qed.

Lemma bytes_of_app s t : bytes_of (s +:+ t) = bytes_of s ++ bytes_of t.
Proof.
  induction s as [|a s IH]; [done|].
  change ((String a s +:+ t)%string) with (String a (s +:+ t)). cbn. f_equal. exact IH.
Qed.

(** ** Automation *)

Create Rewrite HintDb zlist.
#[export] Hint Rewrite @zlen_app @zlen_cons @zlen_nil zlen_be_bytes : zlist.
#[export] Hint Rewrite @zlen_take @zlen_drop @zlen_rep using lia : zlist.

(** Arithmetic on list lengths. *)
Ltac zpos :=
  repeat match goal with
  | |- context [zlen ?l] =>
      lazymatch goal with
      | _ : 0 <= zlen l |- _ => fail
      | _ => pose proof (zlen_nonneg l)
      end
  | _ : context [zlen ?l] |- _ =>
      lazymatch goal with
      | _ : 0 <= zlen l |- _ => fail
      | _ => pose proof (zlen_nonneg l)
      end
  end.
Ltac zl := autorewrite with zlist in *; zpos; try lia.

(** Linear arithmetic with divisions and remainders by constants. *)
Ltac dlia := Z.to_euclidean_division_equations; lia.

(** Split the conditionals and matches of the goal, keeping the equations. *)
Ltac split_ifs :=
  repeat match goal with
  | |- context [if ?b then _ else _] => destruct b eqn:?
  end.

(** Decompose a successful monadic computation in the context. *)
Ltac inv_res :=
  repeat match goal with
  | H : Ok _ = Ok _ |- _ => injection H as H
  | H : Fault _ = Ok _ |- _ => discriminate H
  | H : mret _ = Ok _ |- _ => unfold mret, res_ret in H
  | H : (_ ≫= _) = Ok _ |- _ =>
      apply bind_Ok in H; destruct H as (? & ? & H)
  | H : cassert ?b = Ok _ |- _ =>
      unfold cassert in H; destruct b eqn:?; [clear H | discriminate H]
  end.

(** A conditional whose test is decided by linear arithmetic. *)
Ltac zif :=
  match goal with
  | |- context [if ?b then _ else _] =>
      first [ replace b with true by (symmetry; lia)
            | replace b with false by (symmetry; lia) ]
  end; cbv iota.

Create HintDb im discriminated.
#[export] Hint Resolve zlen_nonneg Z_of_byte_range uN_range sN_range : im.
