(* ===== verification/Text.v ===== *)
(** * What the program uses of printf and of double arithmetic

    Decimal and padded integers, [snprintf] into a fixed array, and IEEE binary64
    numbers (the Standard Library's [SpecFloat], which computes) with their
    conversion to integers and their ["%lf"] form. *)
From stdpp Require Import pretty.
From Stdlib Require Import SpecFloat Ascii.
From S2P Require Import Prelude.

(** ** Integers as text *)

(** ["%d"], ["%ld"]. *)
Definition dec (z : Z) : string := pretty z.

Fixpoint zeros (n : nat) : string :=
  match n with O => "" | S m => String "0"%char (zeros m) end.

Definition slen (s : string) : Z := Z.of_nat (String.length s).

(** ["%0wd"]: the sign first, then zeros up to the width. *)
Definition dec0 (w z : Z) : string :=
  let digits := dec (Z.abs z) in
  let sign := if z <? 0 then "-"%string else ""%string in
  (sign +:+ zeros (Z.to_nat (w - slen sign - slen digits)) +:+ digits)%string.

(** ["%wd"]: blanks up to the width. *)
Fixpoint blanks (n : nat) : string :=
  match n with O => "" | S m => String " "%char (blanks m) end.
Definition decw (w z : Z) : string := (blanks (Z.to_nat (w - slen (dec z))) +:+ dec z)%string.

(** [snprintf(buf, n, ...)]: what a [char] array of [n] bytes holds before its NUL. *)
Definition snprintf (n : Z) (s : string) : string := String.substring 0 (Z.to_nat (n - 1)) s.

Lemma slen_app s t : slen (s +:+ t) = slen s + slen t.
Proof.
  unfold slen. induction s as [|a s IH]; [done|].
  change ((String a s +:+ t)%string) with (String a (s +:+ t)). cbn [String.length]. lia.
Qed.

Lemma slen_nonneg s : 0 <= slen s.
Proof. unfold slen. lia. Qed.

Lemma slen_bytes_of s : zlen (bytes_of s) = slen s.
Proof.
  unfold bytes_of, zlen, slen. f_equal. induction s as [|a s IH]; [done|]. cbn. f_equal. exact IH.
Qed.

Lemma slen_string_of l : slen (string_of l) = zlen l.
Proof. by rewrite <-slen_bytes_of, bytes_of_string_of. Qed.

Lemma substring_all s n : (String.length s <= n)%nat → String.substring 0 n s = s.
Proof.
  revert n. induction s as [|a s IH]; intros n; destruct n; cbn; intros; [done..|lia|].
  f_equal. apply IH. lia.
Qed.

Lemma snprintf_fits n s : slen s < n → snprintf n s = s.
Proof. unfold slen, snprintf. intros. apply substring_all. lia. Qed.

Lemma substring_length s n : String.length (String.substring 0 n s) = Nat.min n (String.length s).
Proof. revert n. induction s as [|a s IH]; intros [|n]; cbn; [done..|]. by rewrite IH. Qed.

Lemma snprintf_len n s : 1 <= n → slen (snprintf n s) = Z.min (n - 1) (slen s).
Proof. intros. unfold slen, snprintf. rewrite substring_length. lia. Qed.

(** The number of digits of a printed number. *)
Lemma pretty_go_le (k : nat) (x : N) s :
  (x < 10 ^ N.of_nat k)%N → (String.length (pretty_N_go x s) <= k + String.length s)%nat.
Proof.
  revert x s. induction k as [|k IH]; intros x s Hx.
  - replace x with 0%N by (cbn in Hx; lia). by rewrite pretty_N_go_0.
  - destruct (decide (x = 0%N)) as [->|]; [rewrite pretty_N_go_0; lia|].
    rewrite pretty_N_go_step by lia. etrans; [apply IH|cbn; lia].
    rewrite Nat2N.inj_succ, N.pow_succ_r' in Hx. apply N.Div0.div_lt_upper_bound. lia.
Qed.

Lemma pretty_go_ge (k : nat) (x : N) s :
  (10 ^ N.of_nat k <= x)%N → (S k + String.length s <= String.length (pretty_N_go x s))%nat.
Proof.
  revert x s. induction k as [|k IH]; intros x s Hx.
  - rewrite pretty_N_go_step by (cbn in Hx; lia).
    assert (∀ y t, (String.length t <= String.length (pretty_N_go y t))%nat) as Hmono.
    { intros y. induction (N.lt_wf_0 y) as [y _ IHy]. intros t.
      destruct (decide (y = 0%N)) as [->|]; [by rewrite pretty_N_go_0|].
      rewrite pretty_N_go_step by lia. etrans; [|apply IHy, N.div_lt; lia]. cbn. lia. }
    etrans; [|apply Hmono]. cbn. lia.
  - assert (10 ^ N.of_nat k <= x `div` 10)%N as Hd.
    { rewrite Nat2N.inj_succ, N.pow_succ_r' in Hx. apply N.div_le_lower_bound; lia. }
    rewrite pretty_N_go_step by lia. etrans; [|by apply IH]. cbn. lia.
Qed.

Lemma dec_len (k : nat) z : 10 ^ Z.of_nat k <= z < 10 ^ Z.of_nat (S k) → slen (dec z) = Z.of_nat (S k).
Proof.
  intros [Hl Hu]. unfold dec, slen, pretty, pretty_Z.
  destruct z as [|p|p]; [lia| |lia]. unfold pretty, pretty_positive, pretty, pretty_N.
  rewrite decide_False by done.
  pose proof (pretty_go_le (S k) (Npos p) "") as H1. pose proof (pretty_go_ge k (Npos p) "") as H2.
  cbn [String.length] in *.
  assert (Z.of_N (10 ^ N.of_nat k) = 10 ^ Z.of_nat k) as E1 by (rewrite N2Z.inj_pow, nat_N_Z; done).
  assert (Z.of_N (10 ^ N.of_nat (S k)) = 10 ^ Z.of_nat (S k)) as E2 by (rewrite N2Z.inj_pow, nat_N_Z; done).
  assert (N.pos p < 10 ^ N.of_nat (S k))%N by lia. assert (10 ^ N.of_nat k <= N.pos p)%N by lia. lia.
Qed.

Lemma dec_len_le (k : nat) z : (1 <= k)%nat → 0 <= z < 10 ^ Z.of_nat k → slen (dec z) <= Z.of_nat k.
Proof.
  intros Hk [Hl Hu]. unfold dec, slen, pretty, pretty_Z.
  destruct z as [|p|p]; [cbn; lia| |lia]. unfold pretty, pretty_positive, pretty, pretty_N.
  rewrite decide_False by done.
  pose proof (pretty_go_le k (Npos p) "") as H1. cbn [String.length] in *.
  assert (Z.of_N (10 ^ N.of_nat k) = 10 ^ Z.of_nat k) as E1 by (rewrite N2Z.inj_pow, nat_N_Z; done).
  assert (N.pos p < 10 ^ N.of_nat k)%N by lia. lia.
Qed.

(** Printed numbers are C strings. *)
Lemma pretty_char_no_nul x s : x00 ∉ bytes_of s → x00 ∉ bytes_of (String (pretty_N_char x) s).
Proof.
  intros Hs Hin. change (bytes_of (String (pretty_N_char x) s))
    with (Ascii.byte_of_ascii (pretty_N_char x) :: bytes_of s) in Hin.
  apply elem_of_cons in Hin as [Hin|Hin]; [|done]. revert Hin. unfold pretty_N_char. by repeat case_match.
Qed.

Lemma dec_no_nul z : x00 ∉ bytes_of (dec z).
Proof.
  assert (∀ x s, x00 ∉ bytes_of s → x00 ∉ bytes_of (pretty_N_go x s)) as Hgo.
  { intros x. induction (N.lt_wf_0 x) as [x _ IH]. intros s Hs.
    destruct (decide (x = 0%N)) as [->|]; [by rewrite pretty_N_go_0|].
    rewrite pretty_N_go_step by lia. apply IH; [apply N.div_lt; lia|]. by apply pretty_char_no_nul. }
  assert (∀ x : N, x00 ∉ bytes_of (pretty x)) as HN.
  { intros x. unfold pretty, pretty_N. case_decide; [by vm_compute; set_solver|]. apply Hgo. by vm_compute; set_solver. }
  unfold dec, pretty, pretty_Z. destruct z as [|p|p].
  - apply (HN 0%N).
  - apply (HN (Npos p)).
  - rewrite bytes_of_app. apply not_elem_of_app. split; [by apply (bool_decide_unpack _)|apply (HN (Npos p))].
Qed.

(** The last digit of a number, and the digits before it. *)
Definition digit (d : Z) : byte := byte_of_Z (48 + d).

Lemma pretty_go_app x s : pretty_N_go x s = (pretty_N_go x "" +:+ s)%string.
Proof.
  revert s. induction (N.lt_wf_0 x) as [x _ IH]. intros s.
  destruct (decide (x = 0%N)) as [->|]; [by rewrite !pretty_N_go_0|].
  rewrite !(pretty_N_go_step x) by lia. rewrite IH by (apply N.div_lt; lia).
  rewrite (IH (x `div` 10)%N ltac:(apply N.div_lt; lia) (String _ "")).
  apply bytes_of_inj. by rewrite !bytes_of_app, <-app_assoc.
Qed.

Lemma dec_pos z : 0 < z → dec z = pretty_N_go (Z.to_N z) "".
Proof.
  intros. unfold dec, pretty, pretty_Z. destruct z as [|p|p]; [lia| |lia].
  unfold pretty, pretty_positive, pretty, pretty_N. by rewrite decide_False.
Qed.

Lemma pretty_char_digit (d : N) : (d < 10)%N → bytes_of (String (pretty_N_char d) "") = [digit (Z.of_N d)].
Proof.
  intros. assert (d = 0 ∨ d = 1 ∨ d = 2 ∨ d = 3 ∨ d = 4 ∨ d = 5 ∨ d = 6 ∨ d = 7 ∨ d = 8 ∨ d = 9)%N as Hd by lia.
  by repeat destruct Hd as [->|Hd]; [..|subst d].
Qed.

Lemma dec_snoc z d : 0 < z → 0 <= d < 10 → bytes_of (dec (10 * z + d)) = bytes_of (dec z) ++ [digit d].
Proof.
  intros Hz Hd. rewrite !dec_pos by lia. rewrite pretty_N_go_step by lia.
  replace (Z.to_N (10 * z + d) `div` 10)%N with (Z.to_N z).
  2:{ apply (N.div_unique _ _ _ (Z.to_N d)); lia. }
  replace (Z.to_N (10 * z + d) `mod` 10)%N with (Z.to_N d).
  2:{ apply (N.mod_unique _ _ (Z.to_N z)); lia. }
  rewrite pretty_go_app, bytes_of_app, pretty_char_digit by lia. by rewrite Z2N.id by lia.
Qed.

Lemma dec_digit d : 0 <= d < 10 → bytes_of (dec d) = [digit d].
Proof.
  intros. destruct (decide (d = 0)) as [->|]; [done|]. rewrite dec_pos by lia.
  rewrite pretty_N_go_step by lia.
  rewrite N.div_small, N.mod_small, pretty_N_go_0, pretty_char_digit by lia. by rewrite Z2N.id by lia.
Qed.

Lemma slen_zeros n : slen (zeros n) = Z.of_nat n.
Proof. unfold slen. induction n; cbn [zeros String.length]; lia. Qed.

Lemma slen_blanks n : slen (blanks n) = Z.of_nat n.
Proof. unfold slen. induction n; cbn [blanks String.length]; lia. Qed.

Lemma dec0_len (w : nat) z : (1 <= w)%nat → 0 <= z < 10 ^ Z.of_nat w → slen (dec0 (Z.of_nat w) z) = Z.of_nat w.
Proof.
  intros Hw Hz. unfold dec0. rewrite Z.abs_eq by lia. replace (z <? 0) with false by lia.
  rewrite !slen_app, slen_zeros. pose proof (dec_len_le w z Hw Hz). pose proof (slen_nonneg (dec z)).
  change (slen "") with 0. lia.
Qed.

Lemma decw_len w z : slen (dec z) <= w → slen (decw w z) = w.
Proof. intros. unfold decw. rewrite slen_app, slen_blanks. lia. Qed.

(** ** Text as integers *)

Definition isspace (b : byte) : bool :=
  let z := Z_of_byte b in (z =? 32) || ((9 <=? z) && (z <=? 13)).
Definition isdigit (b : byte) : bool := let z := Z_of_byte b in (48 <=? z) && (z <=? 57).

Fixpoint skip_space (l : list byte) : list byte :=
  match l with
  | b :: l' => if isspace b then skip_space l' else l
  | [] => []
  end.

(** The value of the leading digits, and how many there are. *)
Fixpoint lead_digits (acc : Z) (n : nat) (l : list byte) : Z * nat * list byte :=
  match l with
  | b :: l' =>
      if isdigit b then lead_digits (10 * acc + (Z_of_byte b - 48)) (S n) l' else (acc, n, l)
  | [] => (acc, n, [])
  end.

(** The sign of a number and what follows it. *)
Definition sign_of (l : list byte) : bool * list byte :=
  match l with
  | b :: l' =>
      if Z_of_byte b =? 45 then (true, l') else if Z_of_byte b =? 43 then (false, l') else (false, l)
  | [] => (false, [])
  end.

(** [strtol(s, NULL, 10)] (64 bits, saturating) and [atoi]. *)
Definition strtol (s : list byte) : Z :=
  let '(neg, l) := sign_of (skip_space (c_str s)) in
  let '(v, _, _) := lead_digits 0 0 l in
  Z.max (- 2 ^ 63) (Z.min (2 ^ 63 - 1) (if neg then - v else v)).
Definition atoi (s : list byte) : Z := i32 (strtol s).

(** [std::stoi]: an exception without digits or out of range. *)
Definition stoi (s : list byte) : res Z :=
  let '(neg, l) := sign_of (skip_space (c_str s)) in
  let '(v, n, _) := lead_digits 0 0 l in
  let v := if neg : bool then - v else v in
  match n with
  | O => Fault (Throw "std::invalid_argument: stoi")
  | S _ => if (- 2 ^ 31 <=? v) && (v <? 2 ^ 31) then mret v
           else Fault (Throw "std::out_of_range: stoi")
  end.

(** ** Doubles *)

Abbreviation double := spec_float.

Definition d_of_Z (z : Z) : double :=
  match z with
  | Z0 => S754_zero false
  | Zpos _ | Zneg _ => binary_normalize 53 1024 z 0 false
  end.

Definition dmul : double → double → double := SFmul 53 1024.
Definition ddiv : double → double → double := SFdiv 53 1024.
Definition dadd : double → double → double := SFadd 53 1024.
Definition dsub : double → double → double := SFsub 53 1024.
Definition dltb : double → double → bool := SFltb.
Definition dleb : double → double → bool := SFleb.

(** The truncation of a finite double towards zero. *)
Definition d_trunc (d : double) : option Z :=
  match d with
  | S754_zero _ => Some 0
  | S754_finite s m e =>
      let a := if 0 <=? e then Zpos m * 2 ^ e else Zpos m / 2 ^ (- e) in
      Some (if s then - a else a)
  | S754_infinity _ | S754_nan => None
  end.

(** [static_cast] to a [w]-bit signed integer: undefined when the truncated value
    does not fit. *)
Definition d_to_sN (w : Z) (d : double) : res Z :=
  match d_trunc d with
  | Some z => if (- 2 ^ (w - 1) <=? z) && (z <? 2 ^ (w - 1)) then mret z else Fault UB
  | None => Fault UB
  end.

(** [atof] of a number in decimal notation (sign, digits, fraction): the nearest
    double. *)
Definition atof (s : list byte) : double :=
  let '(neg, l) := sign_of (skip_space (c_str s)) in
  let '(a, _, l) := lead_digits 0 0 l in
  let '(v, k, _) :=
    match l with
    | b :: l' => if Z_of_byte b =? 46 then lead_digits a 0 l' else (a, O, l)
    | [] => (a, O, [])
    end in
  match v with
  | Zpos m =>
      let '(q, e, loc) := SFdiv_core_binary 53 1024 (Zpos m) 0 (10 ^ Z.of_nat k) 0 in
      binary_round_aux 53 1024 neg q e loc
  | _ => S754_zero neg
  end.

(** ["%lf"]: six decimals, rounded half to even. *)
Definition round_half_even (num den : Z) : Z :=
  let q := num / den in
  let r := num - q * den in
  if 2 * r <? den then q
  else if den <? 2 * r then q + 1
  else if Z.even q then q else q + 1.

Definition lf (d : double) : string :=
  match d with
  | S754_nan => "nan"
  | S754_infinity s => if s then "-inf" else "inf"
  | S754_zero s => if s then "-0.000000" else "0.000000"
  | S754_finite s m e =>
      let micro :=
        (if 0 <=? e then Zpos m * 2 ^ e * 1000000
         else round_half_even (Zpos m * 1000000) (2 ^ (- e)))%Z in
      (if s then "-" else "") +:+ dec (micro / 1000000)%Z +:+ "." +:+ dec0 6 (micro mod 1000000)%Z
  end%string.

Example lf_examples :
  lf (ddiv (d_of_Z 29) (d_of_Z 100)) = "0.290000"%string ∧
  lf (d_of_Z (-3)) = "-3.000000"%string ∧
  d_to_sN 32 (dmul (ddiv (d_of_Z 29) (d_of_Z 100)) (d_of_Z 100)) = Ok 28 ∧
  atof (bytes_of " 10000.25x") = ddiv (d_of_Z 1000025) (d_of_Z 100) ∧
  atof (bytes_of "-0.1") = ddiv (d_of_Z (-1)) (d_of_Z 10) ∧
  atoi (bytes_of " -42;") = -42 ∧ stoi (bytes_of "") = Fault (Throw "std::invalid_argument: stoi").
Proof. vm_compute. done. Qed.
