(* ===== verification/StringPiece.v ===== *)
(** * StringPiece.h: strings that are somewhere else

    A piece is a pointer and a length.  Memory is one block of bytes, a pointer an index
    into it, or null; what is read outside the block is undefined behaviour.  The pieces
    are compared with [memcmp], of which the C library promises the sign. *)
From S2P Require Import Prelude Text.

(** The order of byte strings: the first difference decides, as [unsigned char]; a proper
    prefix comes first. *)
Fixpoint lex (l1 l2 : list byte) : comparison :=
  match l1, l2 with
  | [], [] => Eq
  | [], _ :: _ => Lt
  | _ :: _, [] => Gt
  | a :: l1', b :: l2' =>
      match Z_of_byte a ?= Z_of_byte b with
      | Eq => lex l1' l2'
      | c => c
      end
  end.

Definition sign (c : comparison) : Z := match c with Lt => -1 | Eq => 0 | Gt => 1 end.

(** [memcmp] on two arrays of the same size. *)
Class Memcmp := {
  memcmp_of : list byte → list byte → Z;
  memcmp_law l1 l2 : length l1 = length l2 → Z.sgn (memcmp_of l1 l2) = sign (lex l1 l2)
}.

(** The bytes [[p, p + n)] of memory, for a size that was converted from [int]. *)
Definition load (mem : list byte) (p : option Z) (n : Z) : res (list byte) :=
  if n =? 0 then Ok []
  else match p with
       | None => Fault UB
       | Some a =>
           if (0 <=? a) && (0 <=? n) && (a + n <=? zlen mem)
           then Ok (ztake n (zdrop a mem)) else Fault UB
       end.

(** The length of the C string at [p]. *)
Definition strlen (mem : list byte) (p : option Z) : res Z :=
  match p with
  | None => Fault UB
  | Some a =>
      if (0 <=? a) && (a <=? zlen mem) && bool_decide (x00 ∈ zdrop a mem)
      then Ok (zlen (c_str (zdrop a mem))) else Fault UB
  end.

Definition memcmp `{Memcmp} (mem : list byte) (p q : option Z) (n : Z) : res Z :=
  a ← load mem p n;
  b ← load mem q n;
  mret (memcmp_of a b).

(** [int] arithmetic. *)
Definition int_sub (a b : Z) : res Z :=
  if (- 2 ^ 31 <=? a - b) && (a - b <? 2 ^ 31) then Ok (a - b) else Fault UB.

Module StringArg.

(** The C string that is passed on. *)
Record t := mk { str_ : option Z }.

Definition make (str : option Z) : t := mk str.
Definition c_str (s : t) : option Z := str_ s.

End StringArg.

Module StringPiece.

Record t := mk { ptr_ : option Z; length_ : Z }.

Definition make : t := mk None 0.
Definition make_len (offset : option Z) (len : Z) : t := mk offset len.

(** From a C string; from a [string] of [size] bytes at [data]. *)
Definition make_str (mem : list byte) (str : option Z) : res t :=
  n ← strlen mem str;
  mret (mk str (i32 n)).
Definition make_string (data : option Z) (size : Z) : t := mk data (i32 size).

Definition data (s : t) : option Z := ptr_ s.
Definition size (s : t) : Z := length_ s.
Definition empty (s : t) : bool := length_ s =? 0.
Definition begin (s : t) : option Z := ptr_ s.
Definition end_ (s : t) : option Z := a ← ptr_ s; Some (a + length_ s).

Definition clear (s : t) : t := mk None 0.
Definition set (buffer : option Z) (len : Z) (s : t) : t := mk buffer len.
Definition set_str (mem : list byte) (str : option Z) (s : t) : res t :=
  n ← strlen mem str;
  mret (mk str (i32 n)).

(** [operator[]]. *)
Definition at_ (mem : list byte) (s : t) (i : Z) : res byte :=
  l ← load mem ((λ a, a + i) <$> ptr_ s) 1;
  match l with b :: _ => Ok b | [] => Fault UB end.

Definition remove_prefix (n : Z) (s : t) : res t :=
  len ← int_sub (length_ s) n;
  match ptr_ s with
  | None => if n =? 0 then Ok s else Fault UB
  | Some a => Ok (mk (Some (a + n)) len)
  end.

Definition remove_suffix (n : Z) (s : t) : res t :=
  len ← int_sub (length_ s) n;
  mret (mk (ptr_ s) len).

Section Compare.
Context {HM : Memcmp}.
Variable mem : list byte.

Definition eq (s x : t) : res bool :=
  if length_ s =? length_ x then
    r ← memcmp mem (ptr_ s) (ptr_ x) (length_ s);
    mret (r =? 0)
  else mret false.

Definition ne (s x : t) : res bool := negb <$> eq s x.

Definition shorter (s x : t) : Z := if length_ s <? length_ x then length_ s else length_ x.

(** [STRINGPIECE_BINARY_PREDICATE]. *)
Definition binary_predicate (cmp auxcmp : Z → Z → bool) (s x : t) : res bool :=
  r ← memcmp mem (ptr_ s) (ptr_ x) (shorter s x);
  mret (auxcmp r 0 || ((r =? 0) && cmp (length_ s) (length_ x))).

Definition lt : t → t → res bool := binary_predicate Z.ltb Z.ltb.
Definition le : t → t → res bool := binary_predicate Z.leb Z.ltb.
Definition ge : t → t → res bool := binary_predicate Z.geb Z.gtb.
Definition gt : t → t → res bool := binary_predicate Z.gtb Z.gtb.

Definition compare (s x : t) : res Z :=
  r ← memcmp mem (ptr_ s) (ptr_ x) (shorter s x);
  mret (if r =? 0 then
          if length_ s <? length_ x then -1
          else if length_ x <? length_ s then 1
          else r
        else r).

Definition as_string (s : t) : res (list byte) := load mem (data s) (size s).

(** The new contents of [target]. *)
Definition CopyToString (s : t) : res (list byte) := load mem (ptr_ s) (length_ s).

Definition starts_with (s x : t) : res bool :=
  if length_ x <=? length_ s then
    r ← memcmp mem (ptr_ s) (ptr_ x) (length_ x);
    mret (r =? 0)
  else mret false.

End Compare.
End StringPiece.

(** ** The order of byte strings *)

Lemma lex_eq l1 l2 : lex l1 l2 = Eq ↔ l1 = l2.
Proof.
  revert l2. induction l1 as [|a l1 IH]; intros [|b l2]; cbn [lex]; [done..|].
  destruct (Z.compare_spec (Z_of_byte a) (Z_of_byte b)) as [E|E|E].
  - rewrite IH. apply Z_of_byte_inj in E as ->. split; [by intros ->|by intros [= ->]].
  - split; [done|]. intros [= -> _]. lia.
  - split; [done|]. intros [= -> _]. lia.
Qed.

Lemma lex_antisym l1 l2 : lex l2 l1 = CompOpp (lex l1 l2).
Proof.
  revert l2. induction l1 as [|a l1 IH]; intros [|b l2]; cbn [lex]; [done..|].
  rewrite Z.compare_antisym. by destruct (Z_of_byte a ?= Z_of_byte b); cbn.
Qed.

Lemma lex_trans l1 l2 l3 : lex l1 l2 = Lt → lex l2 l3 = Lt → lex l1 l3 = Lt.
Proof.
  revert l2 l3. induction l1 as [|a l1 IH]; intros [|b l2] [|c l3]; cbn [lex]; try done.
  destruct (Z.compare_spec (Z_of_byte a) (Z_of_byte b)) as [E1|E1|E1], (Z.compare_spec (Z_of_byte b) (Z_of_byte c)) as [E2|E2|E2],
    (Z.compare_spec (Z_of_byte a) (Z_of_byte c)) as [E3|E3|E3]; try done; try lia. apply IH.
Qed.

(** The common length decides, then the lengths. *)
Lemma lex_take l1 l2 n :
  n = Nat.min (length l1) (length l2) →
  lex l1 l2 = match lex (take n l1) (take n l2) with Eq => zlen l1 ?= zlen l2 | c => c end.
Proof.
  revert l1 l2. induction n as [|n IH]; intros l1 l2 Hn.
  - destruct l1 as [|a l1], l2 as [|b l2]; done.
  - destruct l1 as [|a l1], l2 as [|b l2]; cbn in Hn; try lia. cbn [take lex]. rewrite !zlen_cons.
    destruct (_ ?= _); [|done..]. rewrite (IH l1 l2) by lia. destruct (lex _ _); [|done..].
    destruct (Z.compare_spec (zlen l1) (zlen l2)); symmetry; apply Z.compare_eq_iff || apply Z.compare_lt_iff || apply Z.compare_gt_iff; lia.
Qed.

Section Order.
Import StringPiece.
Context {HM : Memcmp}.
Variable mem : list byte.

(** [s] shows the bytes [l] of memory. *)
Definition shows (s : t) (l : list byte) : Prop := load mem (ptr_ s) (length_ s) = Ok l.

Lemma load_Ok p n l :
  load mem p n = Ok l ↔ (n = 0 ∧ l = []) ∨ (n ≠ 0 ∧ ∃ a, p = Some a ∧ 0 <= a ∧ 0 <= n ∧ a + n <= zlen mem ∧ l = ztake n (zdrop a mem)).
Proof.
  unfold load. destruct (n =? 0) eqn:En.
  - split; [intros [= <-]; left; split; [lia|done]|]. intros [[_ ->]|[? _]]; [done|lia].
  - destruct p as [a|]; [|split; [done|]; intros [[? _]|(_ & ? & ? & _)]; [lia|done]].
    destruct (_ && _) eqn:Eb.
    + split; [intros [= <-]; right; split; [lia|]; exists a; split_and!; (done || lia)|].
      intros [[? _]|(_ & ? & [= <-] & _ & _ & _ & ->)]; [lia|done].
    + split; [done|]. intros [[? _]|(_ & ? & [= <-] & ? & ? & ? & _)]; lia.
Qed.

Lemma shows_length s l : shows s l → length_ s = zlen l.
Proof.
  intros [[-> ->]|(_ & a & _ & ? & ? & ? & ->)]%load_Ok; [done|]. rewrite zlen_take; [done|]. rewrite zlen_drop; lia.
Qed.

(** The first bytes of a piece. *)
Lemma shows_prefix s l n : shows s l → 0 <= n <= zlen l → load mem (ptr_ s) n = Ok (ztake n l).
Proof.
  intros H Hn. apply load_Ok. pose proof (shows_length s l H) as Hl. apply load_Ok in H as [[E ->]|(E & a & -> & ? & ? & ? & ->)].
  - left. assert (n = 0) as -> by (change (zlen (@nil byte)) with 0 in Hn; lia). done.
  - destruct (decide (n = 0)) as [->|]; [by left|]. right. split; [done|]. exists a. rewrite ztake_take by lia. split_and!; (done || lia).
Qed.

Lemma memcmp_shows s x l k n :
  shows s l → shows x k → 0 <= n <= zlen l → n <= zlen k →
  ∃ r, memcmp mem (ptr_ s) (ptr_ x) n = Ok r ∧ Z.sgn r = sign (lex (ztake n l) (ztake n k)).
Proof.
  intros Hs Hx Hn Hk. unfold memcmp. rewrite (shows_prefix s l), (shows_prefix x k) by (done || lia).
  eexists. split; [reflexivity|]. apply memcmp_law. unfold ztake, zlen in *. rewrite !length_take. lia.
Qed.

Lemma shorter_spec s x l k : shows s l → shows x k → shorter s x = Z.min (zlen l) (zlen k).
Proof. intros Hs%shows_length Hx%shows_length. unfold shorter. rewrite Hs, Hx. destruct (_ <? _) eqn:E; lia. Qed.

(** A comparison of the shorter length with its tie-break. *)
Lemma memcmp_shorter s x l k :
  shows s l → shows x k →
  ∃ r, memcmp mem (ptr_ s) (ptr_ x) (shorter s x) = Ok r ∧
    lex l k = match Z.compare r 0 with Eq => zlen l ?= zlen k | c => c end.
Proof.
  intros Hs Hx. rewrite (shorter_spec s x l k) by done. zpos.
  destruct (memcmp_shows s x l k (Z.min (zlen l) (zlen k)) Hs Hx) as (r & E & Hr); [lia..|]. exists r. split; [done|].
  rewrite (lex_take l k _ eq_refl). unfold ztake, zlen in Hr. rewrite <-Nat2Z.inj_min, Nat2Z.id in Hr.
  destruct (lex (take _ l) _); cbn in Hr; destruct (Z.compare_spec r 0); (done || lia).
Qed.

(** The comparisons of pieces are those of the bytes they show: equality, the four order
    operators and the sign of [compare] agree with the lexicographic order by [unsigned
    char], [starts_with] is the prefix relation; [as_string] copies the bytes. *)
Theorem pieces_compare s x l k :
  shows s l → shows x k →
  eq mem s x = Ok (bool_decide (l = k)) ∧ ne mem s x = Ok (negb (bool_decide (l = k))) ∧
  lt mem s x = Ok (match lex l k with Lt => true | _ => false end) ∧
  le mem s x = Ok (match lex l k with Gt => false | _ => true end) ∧
  gt mem s x = Ok (match lex l k with Gt => true | _ => false end) ∧
  ge mem s x = Ok (match lex l k with Lt => false | _ => true end) ∧
  (∃ r, compare mem s x = Ok r ∧ Z.sgn r = sign (lex l k)) ∧
  starts_with mem s x = Ok (bool_decide (k `prefix_of` l)) ∧
  as_string mem s = Ok l ∧ CopyToString mem s = Ok l.
Proof.
  intros Hs Hx. pose proof (shows_length s l Hs) as Ls. pose proof (shows_length x k Hx) as Lx. zpos.
  assert (eq mem s x = Ok (bool_decide (l = k))) as He.
  { unfold eq. rewrite Ls, Lx. destruct (zlen l =? zlen k) eqn:E; [|rewrite bool_decide_false; [done|intros ->; lia]].
    destruct (memcmp_shows s x l k (zlen l) Hs Hx) as (r & -> & Hr); [lia..|]. cbn [mbind res_bind]. rewrite !ztake_ge in Hr by lia.
    case_bool_decide as Hl; [rewrite (proj2 (lex_eq l k) Hl) in Hr; cbn in Hr; by replace (r =? 0) with true by lia|].
    destruct (lex l k) eqn:El; [by apply lex_eq in El|cbn in Hr; by replace (r =? 0) with false by lia..]. }
  destruct (memcmp_shorter s x l k Hs Hx) as (r & Er & Hlex).
  split; [done|]. split; [unfold ne; by rewrite He|].
  unfold lt, le, gt, ge, compare, binary_predicate. rewrite Er. cbn [mbind res_bind]. rewrite Ls, Lx, Hlex.
  do 4 (split; [destruct (Z.compare_spec r 0), (Z.compare_spec (zlen l) (zlen k)); cbn; f_equal; lia|]). split_and!.
  - eexists. split; [reflexivity|].
    destruct (Z.compare_spec r 0), (Z.compare_spec (zlen l) (zlen k)); cbn [sign]; split_ifs; cbn; lia.
  - unfold starts_with. rewrite Ls, Lx. destruct (zlen k <=? zlen l) eqn:E.
    + destruct (memcmp_shows s x l k (zlen k) Hs Hx) as (r' & -> & Hr'); [lia..|]. cbn [mbind res_bind]. rewrite (ztake_ge _ k) in Hr' by lia.
      destruct (decide (k `prefix_of` l)) as [Hp|Hp]; [rewrite bool_decide_true by done|rewrite bool_decide_false by done].
      * destruct Hp as [m ->]. rewrite ztake_app_exact in Hr' by done. rewrite (proj2 (lex_eq k k) eq_refl) in Hr'. cbn in Hr'.
        by replace (r' =? 0) with true by lia.
      * destruct (lex (ztake (zlen k) l) k) eqn:El; [|cbn in Hr'; by replace (r' =? 0) with false by lia..].
        destruct Hp. apply lex_eq in El. exists (zdrop (zlen k) l). by rewrite <-El at 1; rewrite ztake_drop.
    + rewrite bool_decide_false; [done|]. intros [m ->]. rewrite zlen_app in *. zpos. lia.
  - done.
  - done.
Qed.

(** Removing a prefix or a suffix of a piece drops it from what the piece shows, and reads
    nothing. *)
Theorem pieces_shrink s l n :
  shows s l → 0 <= n <= zlen l → zlen l < 2 ^ 31 →
  (∃ s', remove_prefix n s = Ok s' ∧ shows s' (zdrop n l)) ∧
  (∃ s', remove_suffix n s = Ok s' ∧ shows s' (ztake (zlen l - n) l)).
Proof.
  intros Hs Hn Hmax. pose proof (shows_length s l Hs) as Ls. unfold remove_prefix, remove_suffix, int_sub. rewrite Ls.
  replace ((- 2 ^ 31 <=? zlen l - n) && (zlen l - n <? 2 ^ 31)) with true by lia. cbn [mbind res_bind]. split.
  - pose proof Hs as Hl. apply load_Ok in Hl as [[E ->]|(E & a & Ea & ? & ? & ? & ->)].
    + assert (n = 0) as -> by (change (zlen (@nil byte)) with 0 in Hn; lia).
      destruct (ptr_ s) as [a|]; (eexists; split; [reflexivity|]); [by apply load_Ok; left|done].
    + rewrite Ea. eexists. split; [reflexivity|]. unfold shows. cbn [ptr_ length_]. rewrite <-Ls. apply load_Ok.
      rewrite <-Ls in Hn. destruct (decide (length_ s = n)) as [<-|].
      * left. split; [lia|]. apply zdrop_ge. rewrite zlen_take; [lia|]. rewrite zlen_drop; lia.
      * right. split; [lia|]. exists (a + n). split_and!; try done; try lia. by rewrite zdrop_take_comm, zdrop_drop by lia.
  - eexists. split; [reflexivity|]. unfold shows. cbn [ptr_ length_]. by apply shows_prefix; [done|lia].
Qed.
End Order.

(** The library's [memcmp]: the difference at the first byte that differs. *)
#[local] Instance toy_memcmp : Memcmp.
Proof. refine {| memcmp_of l1 l2 := sign (lex l1 l2) |}. intros l1 l2 _. by destruct (lex l1 l2). Defined.

(** A piece of a name, and what [remove_prefix] of more than its length makes of it: a
    negative length, with which a comparison is undefined. *)
Lemma pieces_compare_witness :
  let mem := bytes_of "alice,alicia" in let s := StringPiece.make_len (Some 0) 5 in let x := StringPiece.make_len (Some 6) 6 in
  StringPiece.lt mem s x = Ok true ∧ StringPiece.starts_with mem x (StringPiece.make_len (Some 0) 4) = Ok true ∧
  (s' ← StringPiece.remove_prefix 6 s; StringPiece.eq mem s' s') = Fault UB.
Proof.
  cbv zeta. destruct (pieces_compare (bytes_of "alice,alicia") (StringPiece.make_len (Some 0) 5) (StringPiece.make_len (Some 6) 6)
    (bytes_of "alice") (bytes_of "alicia")) as (_ & _ & Hlt & _); [vm_compute; reflexivity..|].
  split; [rewrite Hlt; vm_compute; reflexivity|]. split; vm_compute; reflexivity.
Defined.
