(* ===== verification/Process.v ===== *)
(** * Daemon.cc, Exception.cc: becoming a daemon; exceptions

    A process is its numbers, its descriptors and what it ignores.  fork(2) makes one
    process of two; [setDaemon] is what becomes of all of them. *)
From S2P Require Import Prelude Text.

(** ** Processes *)

Inductive file := Terminal | DevNull (writable : bool) | OtherFile (id : Z).

#[export] Instance file_eq_dec : EqDecision file.
Proof. solve_decision. Defined.

Record process := mkprocess {
  pid : Z;
  pgid : Z;               (* the process group *)
  sid : Z;                (* the session *)
  has_terminal : bool;    (* a controlling terminal *)
  fds : gmap Z file;
  ignores_SIGHUP : bool;
  out : list string       (* what it has written to the terminal *)
}.

(** A process that goes on, or has called [_exit]. *)
Inductive fate := Runs (p : process) | Exited (status : Z) (p : process).

Module System.

(** The child gets the number [child], [None] when fork(2) fails.  The result is what
    fork returns, in the parent first. *)
Definition fork (child : option Z) (p : process) : list (Z * process) :=
  match child with
  | None => [(-1, p)]
  | Some c => [(c, p); (0, mkprocess c (pgid p) (sid p) (has_terminal p) (fds p) (ignores_SIGHUP p) (out p))]
  end.

(** A leader of a process group may not make a session. *)
Definition setsid (p : process) : Z * process :=
  if pid p =? pgid p then (-1, p)
  else (pid p, mkprocess (pid p) (pid p) (pid p) false (fds p) (ignores_SIGHUP p) (out p)).

Definition ignore_SIGHUP (p : process) : process :=
  mkprocess (pid p) (pgid p) (sid p) (has_terminal p) (fds p) true (out p).

Definition with_fds (m : gmap Z file) (p : process) : process :=
  mkprocess (pid p) (pgid p) (sid p) (has_terminal p) m (ignores_SIGHUP p) (out p).

Definition close (fd : Z) (p : process) : process := with_fds (delete fd (fds p)) p.

(** The lowest free descriptor, among the first [n]. *)
Fixpoint lowest (n : nat) (fd : Z) (m : gmap Z file) : Z :=
  match n with
  | O => fd
  | S n' => match m !! fd with None => fd | Some _ => lowest n' (fd + 1) m end
  end.

Definition open (f : file) (p : process) : Z * process :=
  let fd := lowest (S (size (fds p))) 0 (fds p) in (fd, with_fds (<[fd := f]> (fds p)) p).

(** Text for the descriptor [fd]; only a terminal shows it. *)
Definition write (fd : Z) (s : string) (p : process) : process :=
  match fds p !! fd with
  | Some Terminal => mkprocess (pid p) (pgid p) (sid p) (has_terminal p) (fds p) (ignores_SIGHUP p) (out p ++ [s])
  | _ => p
  end.

End System.

Module Daemon.
Import System.

Definition failed : string := "set daemon failed" +:+ String (Ascii.ascii_of_nat 10) "server exit...".

(** What follows a fork: the parent exits, a failure is reported; the rest runs on. *)
Definition after_fork (r : Z * process) : fate :=
  let p := if r.1 <? 0 then write 2 failed r.2 else r.2 in
  if 0 <? r.1 then Exited 0 p else Runs p.

(** The part between the two forks. *)
Definition new_session (p : process) : process :=
  let '(r, p) := setsid p in
  let p := if r <? 0 then write 2 failed p else p in
  ignore_SIGHUP p.

(** The part after them. *)
Definition redirect (p : process) : process :=
  let p := close 2 (close 1 (close 0 p)) in
  let '(_, p) := open (DevNull false) p in
  let '(_, p) := open (DevNull true) p in
  let '(_, p) := open (DevNull true) p in
  write 1 "server running as daemon" p.

(** All processes after [setDaemon]; [child1] and [child2] are the outcomes of the two
    forks. *)
Definition setDaemon (child1 child2 : option Z) (p : process) : list fate :=
  f ← after_fork <$> fork child1 p;
  match f with
  | Exited s p => [Exited s p]
  | Runs p =>
      f ← after_fork <$> fork child2 (new_session p);
      match f with
      | Exited s p => [Exited s p]
      | Runs p => [Runs (redirect p)]
      end
  end.

End Daemon.

(** The processes that run on. *)
Definition running (l : list fate) : list process := l ≫= λ f, match f with Runs p => [p] | Exited _ _ => [] end.

Section Daemon.
Import System Daemon.

Lemma lowest_spec n fd m :
  (∃ k, fd <= k < fd + Z.of_nat n ∧ m !! k = None) →
  m !! lowest n fd m = None ∧ fd <= lowest n fd m ∧ ∀ k, fd <= k < lowest n fd m → is_Some (m !! k).
Proof.
  revert fd. induction n as [|n IH]; intros fd (k & Hk & Hm); [lia|]. cbn [lowest].
  destruct (m !! fd) as [f|] eqn:E; [|split_and!; [done|lia|intros; lia]].
  assert (k ≠ fd) as Hne by congruence. destruct (IH (fd + 1)) as (H1 & H2 & H3); [exists k; split; [lia|done]|].
  split_and!; [done|lia|]. intros j Hj. destruct (decide (j = fd)) as [->|]; [by eexists|]. apply H3. lia.
Qed.

(** Among more numbers than there are descriptors one is free. *)
Lemma lowest_free (m : gmap Z file) : ∃ k, 0 <= k < 0 + Z.of_nat (S (size m)) ∧ m !! k = None.
Proof.
  destruct (decide (Exists (λ k, m !! k = None) (Z.of_nat <$> seq 0 (S (size m))))) as [He|Hn].
  - apply Exists_exists in He as (k & Hk & Hm). exists k. split; [|done].
    apply list_elem_of_fmap in Hk as (i & -> & Hi%elem_of_seq). lia.
  - exfalso. assert (size (list_to_set (Z.of_nat <$> seq 0 (S (size m))) : gset Z) <= size (dom m))%nat as Hs.
    { apply subseteq_size. intros k Hk%elem_of_list_to_set. apply elem_of_dom.
      destruct (m !! k) eqn:E; [by eexists|]. destruct Hn. apply Exists_exists. by exists k. }
    rewrite size_dom, size_list_to_set, length_fmap, length_seq in Hs; [lia|].
    apply NoDup_fmap_2; [intros x y; lia|apply NoDup_seq].
Qed.

Lemma open_lowest f p :
  let '(fd, p') := open f p in
  fds p !! fd = None ∧ 0 <= fd ∧ (∀ k, 0 <= k < fd → is_Some (fds p !! k)) ∧ p' = with_fds (<[fd := f]> (fds p)) p.
Proof. unfold open. destruct (lowest_spec _ 0 (fds p) (lowest_free (fds p))) as (? & ? & ?). by split_and!. Qed.

(** The descriptor that [open] takes is determined. *)
Lemma open_is f p fd :
  0 <= fd → fds p !! fd = None → (∀ k, 0 <= k < fd → is_Some (fds p !! k)) → open f p = (fd, with_fds (<[fd := f]> (fds p)) p).
Proof.
  intros Hfd Hn Hs. pose proof (open_lowest f p) as Ho. destruct (open f p) as [fd' p']. destruct Ho as (H1 & H2 & H3 & ->).
  assert (fd' = fd) as ->; [|done]. destruct (Z.lt_trichotomy fd' fd) as [H|[H|H]]; [|done|].
  - destruct (Hs fd') as [? E]; [lia|]. congruence.
  - destruct (H3 fd) as [? E]; [lia|]. congruence.
Qed.

Lemma redirect_fds p :
  redirect p = with_fds (<[2 := DevNull true]> (<[1 := DevNull true]> (<[0 := DevNull false]> (fds p)))) p.
Proof.
  unfold redirect. set (p0 := close 2 (close 1 (close 0 p))).
  assert (fds p0 = delete 2 (delete 1 (delete 0 (fds p)))) as E0 by done.
  rewrite (open_is _ p0 0); [|lia|rewrite E0; by simplify_map_eq|intros; lia].
  set (p1 := with_fds _ p0).
  assert (∀ k, fds p1 !! k = if decide (k = 0) then Some (DevNull false) else fds p0 !! k) as E1.
  { intros k. cbn. destruct (decide (k = 0)) as [->|]; [by rewrite lookup_insert_eq|by rewrite lookup_insert_ne]. }
  rewrite (open_is _ p1 1); [|lia|rewrite E1, decide_False, E0 by done; by simplify_map_eq|].
  2:{ intros k Hk. rewrite E1, decide_True by lia. by eexists. }
  set (p2 := with_fds _ p1).
  assert (∀ k, fds p2 !! k = if decide (k = 1) then Some (DevNull true) else fds p1 !! k) as E2.
  { intros k. cbn. destruct (decide (k = 1)) as [->|]; [by rewrite lookup_insert_eq|by rewrite lookup_insert_ne]. }
  rewrite (open_is _ p2 2); [|lia|rewrite E2, decide_False, E1, decide_False, E0 by done; by simplify_map_eq|].
  2:{ intros k Hk. rewrite E2. case_decide; [by eexists|]. rewrite E1, decide_True by lia. by eexists. }
  assert (fds (with_fds (<[2:=DevNull true]> (fds p2)) p2) !! 1 = Some (DevNull true)) as E3 by (cbn [fds with_fds]; by simplify_map_eq).
  unfold write. rewrite E3. unfold with_fds. cbn. f_equal.
  apply map_eq. intros k. rewrite !lookup_insert, !lookup_delete. repeat case_decide; subst; done.
Qed.

(** The grandchild. *)
Definition daemon_of (c1 c2 : Z) (p : process) : process :=
  mkprocess c2 c1 c1 false (<[2 := DevNull true]> (<[1 := DevNull true]> (<[0 := DevNull false]> (fds p)))) true (out p).

Lemma setDaemon_run p c1 c2 :
  0 < c1 → 0 < c2 → c1 ≠ pgid p →
  ∃ p1, setDaemon (Some c1) (Some c2) p = [Exited 0 p; Exited 0 p1; Runs (daemon_of c1 c2 p)].
Proof.
  intros Hc1 Hc2 Hne. unfold setDaemon, fork. cbn [fmap list_fmap mbind list_bind app]. unfold after_fork. cbn [fst snd].
  replace (c1 <? 0) with false by lia. replace (0 <? c1) with true by lia. cbn [Z.ltb Z.compare app].
  unfold new_session, setsid. cbn [pid pgid]. replace (c1 =? pgid p) with false by lia. replace (c1 <? 0) with false by lia.
  replace (c2 <? 0) with false by lia. replace (0 <? c2) with true by lia. cbn [Z.ltb Z.compare app mbind list_bind].
  eexists. by rewrite redirect_fds.
Qed.

(** Becoming a daemon, started from a shell as the leader of its process group.  When both
    forks succeed, exactly one process goes on, the others exit with status 0: the
    grandchild, which ignores SIGHUP, has no controlling terminal and leads neither its
    session nor its group, so that it cannot get one again, and whose descriptors 0, 1
    and 2 are /dev/null while the others are kept.  When a fork fails, the program says
    that it exits and goes on all the same, in the foreground when the first one failed:
    the session is not made, and the terminal is kept. *)
Theorem daemon_detaches p c1 c2 :
  pid p = pgid p → c1 ≠ pid p → c2 ≠ c1 → 0 < c1 → 0 < c2 → fds p !! 2 = Some Terminal →
  (∃ q, running (setDaemon (Some c1) (Some c2) p) = [q] ∧ length (setDaemon (Some c1) (Some c2) p) = 3%nat ∧
     pid q = c2 ∧ has_terminal q = false ∧ sid q = c1 ∧ pgid q = c1 ∧ pid q ≠ sid q ∧ pid q ≠ pgid q ∧ ignores_SIGHUP q = true ∧
     fds q !! 0 = Some (DevNull false) ∧ fds q !! 1 = Some (DevNull true) ∧ fds q !! 2 = Some (DevNull true) ∧
     (∀ fd, fd < 0 ∨ 2 < fd → fds q !! fd = fds p !! fd)) ∧
  (∃ q, running (setDaemon None None p) = [q] ∧ pid q = pid p ∧ sid q = sid p ∧ has_terminal q = has_terminal p ∧
     fds q !! 1 = Some (DevNull true) ∧ out q = out p ++ [failed; failed; failed]).
Proof.
  intros Hl H1 H2 Hc1 Hc2 Ht. split.
  - destruct (setDaemon_run p c1 c2) as [p1 ->]; [lia..|]. exists (daemon_of c1 c2 p). split; [done|].
    unfold daemon_of. cbn [pid pgid sid has_terminal fds ignores_SIGHUP length]. split_and!; try (done || lia || by simplify_map_eq).
    intros fd Hfd. rewrite !lookup_insert_ne by lia. done.
  - destruct p as [i g s t m h o]. cbn [pid pgid sid has_terminal fds ignores_SIGHUP out] in *. subst g.
    unfold setDaemon, fork, after_fork, new_session, setsid. cbn [fmap list_fmap mbind list_bind app fst snd Z.ltb Z.compare].
    unfold write. repeat (rewrite ?Ht, ?Z.eqb_refl; cbn [fds pid pgid sid has_terminal ignores_SIGHUP out Z.ltb Z.compare ignore_SIGHUP]).
    cbn [app running mbind list_bind].
    rewrite redirect_fds. eexists. split; [reflexivity|]. cbn [pid pgid sid has_terminal fds ignores_SIGHUP with_fds out]. rewrite <-!app_assoc. split_and!; try done. by simplify_map_eq.
Qed.
End Daemon.

(** A shell's process 100, which keeps a file open: the grandchild is 102, and the file stays. *)
Lemma daemon_detaches_witness :
  let p := mkprocess 100 100 50 true {[0 := Terminal; 1 := Terminal; 2 := Terminal; 3 := OtherFile 7]} false [] in
  pid <$> running (Daemon.setDaemon (Some 101) (Some 102) p) = [102] ∧
  pid <$> running (Daemon.setDaemon None None p) = [100] ∧
  (∃ q, running (Daemon.setDaemon (Some 101) (Some 102) p) = [q] ∧ fds q !! 3 = Some (OtherFile 7)).
Proof.
  split; [vm_compute; reflexivity|]. split; [vm_compute; reflexivity|].
  edestruct daemon_detaches as [(q & Hr & Hk) _];
    [..|exists q; split; [exact Hr|]; do 11 (destruct Hk as [_ Hk]); rewrite Hk by lia; vm_compute; reflexivity];
    first [reflexivity | cbn; lia].
Defined.

(** ** Exceptions *)

Module Exception.

Record t := mk { message_ : list byte; stack_ : list byte }.

(** backtrace(3) finds the frames of the stack, at most 200 of them, and
    backtrace_symbols(3) their names; [None] when it has no memory. *)
Definition fillStackTrace (symbols : option (list (list byte))) (e : t) : t :=
  match symbols with
  | None => e
  | Some frames => mk (message_ e) (fold_left (λ stack f, (stack ++ c_str f) ++ [Byte.x0a]) (take 200 frames) (stack_ e))
  end.

(** The constructors: a C string ends at its first NUL, a [std::string] need not. *)
Definition make (symbols : option (list (list byte))) (msg : list byte) : t := fillStackTrace symbols (mk msg []).
Definition make_c (symbols : option (list (list byte))) (msg : list byte) : t := make symbols (c_str msg).

Definition what (e : t) : list byte := c_str (message_ e).
Definition stackTrace (e : t) : list byte := c_str (stack_ e).

End Exception.

Lemma trace_lines frames acc :
  fold_left (λ stack f, (stack ++ c_str f) ++ [Byte.x0a]) frames acc = acc ++ concat ((λ f, c_str f ++ [Byte.x0a]) <$> frames).
Proof.
  revert acc. induction frames as [|f frames IH]; intros acc; cbn [fold_left fmap list_fmap concat]; [by rewrite app_nil_r|].
  by rewrite IH, <-!app_assoc.
Qed.

Lemma lines_no_nul frames : x00 ∉ concat ((λ f, c_str f ++ [Byte.x0a]) <$> frames).
Proof.
  induction frames as [|f frames IH]; cbn [fmap list_fmap concat]; [set_solver|].
  pose proof (c_str_not_nul f). rewrite !not_elem_of_app. split_and!; [done|set_solver|done].
Qed.

(** What an exception says: the message up to its first NUL, which is all of it for a
    message that was a C string; and one line for each of the innermost 200 frames,
    nothing when their names are not to be had. *)
Theorem exception_says symbols msg :
  Exception.what (Exception.make symbols msg) = c_str msg ∧
  Exception.what (Exception.make_c symbols msg) = c_str msg ∧
  Exception.stackTrace (Exception.make symbols msg) =
    match symbols with None => [] | Some frames => concat ((λ f, c_str f ++ [Byte.x0a]) <$> take 200 frames) end.
Proof.
  destruct symbols as [frames|]; unfold Exception.what, Exception.stackTrace, Exception.make_c, Exception.make;
    cbn [Exception.fillStackTrace Exception.message_ Exception.stack_]; split_and!; try done.
  - apply c_str_no_nul, c_str_not_nul.
  - rewrite trace_lines. apply c_str_no_nul, lines_no_nul.
  - apply c_str_no_nul, c_str_not_nul.
Qed.
