(* ===== verification/State.v ===== *)
(** * A state monad with faults

    The code that threads shared objects (a database handle, the pools, the cache)
    through many calls is written in [st S]: a computation takes the state, and
    returns a result with the new state, or a fault of [Prelude]. *)
From S2P Require Import Prelude.

Definition st (S A : Type) : Type := S → res (A * S).

#[export] Instance st_ret {S} : MRet (st S) := λ A a s, Ok (a, s).
#[export] Instance st_bind {S} : MBind (st S) := λ A B k m s,
  match m s with
  | Ok (a, s') => k a s'
  | Fault f => Fault f
  end.

Definition fault {S A} (f : fault) : st S A := λ _, Fault f.
Definition gets {S A} (f : S → A) : st S A := λ s, Ok (f s, s).
Definition modify {S} (f : S → S) : st S unit := λ s, Ok ((), f s).
Definition lift {S A} (m : res A) : st S A := λ s, a ← m; Ok (a, s).

(** A pointer that is dereferenced: undefined behaviour when it is null or its
    object is gone. *)
Definition deref {S A} (o : option A) : st S A :=
  match o with Some a => mret a | None => fault UB end.

(** Run a computation on a part of the state. *)
Definition zoom {S T A} (get : S → T) (put : T → S → S) (m : st T A) : st S A :=
  λ s, '(a, t) ← m (get s); Ok (a, put t s).

(** Run a computation on one object of a heap. *)
Definition on_object {S T A} (get : S → gmap nat T) (put : gmap nat T → S → S) (i : nat)
    (m : st T A) : st S A :=
  λ s, match get s !! i with
       | Some t => '(a, t') ← m t; Ok (a, put (<[i := t']> (get s)) s)
       | None => Fault UB
       end.

Lemma st_bind_Ok {S A B} (m : st S A) (k : A → st S B) s b s'' :
  (m ≫= k) s = Ok (b, s'') ↔ ∃ a s', m s = Ok (a, s') ∧ k a s' = Ok (b, s'').
Proof.
  unfold mbind, st_bind. destruct (m s) as [[a s']|f].
  - split; [by eauto|]. by intros (a' & s1 & [= -> ->] & ?).
  - split; [done|]. by intros (? & ? & ? & ?).
Qed.

Lemma st_bind_run {S A B} (m : st S A) (k : A → st S B) s a s' :
  m s = Ok (a, s') → (m ≫= k) s = k a s'.
Proof. unfold mbind, st_bind. by intros ->. Qed.

Lemma run_gets {S A B} (f : S → A) (k : A → st S B) s : (gets f ≫= k) s = k (f s) s.
Proof. done. Qed.

Lemma run_modify {S B} (f : S → S) (k : unit → st S B) s : (modify f ≫= k) s = k () (f s).
Proof. done. Qed.

Lemma run_mret {S A B} (a : A) (k : A → st S B) s : (mret a ≫= k) s = k a s.
Proof. done. Qed.

Lemma run_bind_assoc {S A B C} (m : st S A) (k : A → st S B) (l : B → st S C) s :
  ((m ≫= k) ≫= l) s = (m ≫= λ x, k x ≫= l) s.
Proof. unfold mbind, st_bind. by destruct (m s) as [[a s']|]. Qed.

Lemma run_some {S A B} (a : A) (k : A → st S B) s : (deref (Some a) ≫= k) s = k a s.
Proof. done. Qed.

(** Run the first step of a computation whose effect is known. *)
Create Rewrite HintDb run.
#[export] Hint Rewrite @run_gets @run_modify @run_mret @run_bind_assoc @run_some : run.

Lemma zoom_Ok {S T A} (get : S → T) (put : T → S → S) (m : st T A) s a t :
  m (get s) = Ok (a, t) → zoom get put m s = Ok (a, put t s).
Proof. unfold zoom. by intros ->. Qed.

Lemma on_object_Ok {S T A} get put i (m : st T A) (s : S) t a t' :
  get s !! i = Some t → m t = Ok (a, t') →
  on_object get put i m s = Ok (a, put (<[i := t']> (get s)) s).
Proof. unfold on_object. intros -> Hm. by rewrite Hm. Qed.

(** Decompose a successful computation of the monad in the context. *)
Ltac inv_st :=
  repeat match goal with
  | H : (_ ≫= _) ?s = Ok (_, _) |- _ =>
      apply st_bind_Ok in H; destruct H as (? & ? & ? & H)
  | H : mret _ _ = Ok _ |- _ => unfold mret, st_ret in H; simplify_eq
  | H : gets _ _ = Ok _ |- _ => unfold gets in H; simplify_eq
  | H : modify _ _ = Ok _ |- _ => unfold modify in H; simplify_eq
  | H : fault _ _ = Ok _ |- _ => discriminate H
  | H : deref ?o _ = Ok _ |- _ => destruct o eqn:?; cbn [deref] in H
  | H : Ok _ = Ok _ |- _ => progress simplify_eq
  end.
