(* ===== verification/StdMap.v ===== *)
(** * std::map<std::string, V>

    A map that the program iterates over is the list of its entries in the order of
    the keys ([std::less] on strings: lexicographic on unsigned characters). *)
From Stdlib Require Import Sorted.
From S2P Require Import Prelude.

Fixpoint blt (a b : list byte) : bool :=
  match a, b with
  | [], [] => false
  | [], _ :: _ => true
  | _ :: _, [] => false
  | x :: a', y :: b' =>
      (Z_of_byte x <? Z_of_byte y) || ((Z_of_byte x =? Z_of_byte y) && blt a' b')
  end.

Section StdMap.
Context {V : Type}.

Abbreviation map := (list (list byte * V)).

(** [find]. *)
Fixpoint map_find (k : list byte) (m : map) : option V :=
  match m with
  | [] => None
  | (k', v) :: m' => if bool_decide (k = k') then Some v else map_find k m'
  end.

(** [insert(make_pair(k, v))]: an entry that is there stays. *)
Fixpoint map_insert (k : list byte) (v : V) (m : map) : map :=
  match m with
  | [] => [(k, v)]
  | (k', v') :: m' =>
      if blt k k' then (k, v) :: m
      else if blt k' k then (k', v') :: map_insert k v m'
      else m
  end.

(** [m[k] = v]. *)
Fixpoint map_assign (k : list byte) (v : V) (m : map) : map :=
  match m with
  | [] => [(k, v)]
  | (k', v') :: m' =>
      if blt k k' then (k, v) :: m
      else if blt k' k then (k', v') :: map_assign k v m'
      else (k', v) :: m'
  end.

(** [erase(k)]; it returns how many entries were there. *)
Definition map_erase (k : list byte) (m : map) : Z * map :=
  (match map_find k m with Some _ => 1 | None => 0 end, filter (λ x, x.1 ≠ k) m).

(** The invariant of the representation. *)
Definition map_sorted (m : map) : Prop := StronglySorted (λ a b, blt a.1 b.1 = true) m.
End StdMap.

(** ** The order *)

Lemma blt_irrefl a : blt a a = false.
Proof. induction a as [|x a IH]; [done|]. cbn. rewrite IH. lia. Qed.

Lemma blt_trans a b c : blt a b = true → blt b c = true → blt a c = true.
Proof.
  revert b c. induction a as [|x a IH]; intros [|y b] [|z c]; cbn; try done.
  intros H1 H2. apply orb_true_iff in H1, H2. apply orb_true_iff.
  destruct H1 as [?|[? H1]%andb_true_iff], H2 as [?|[? H2]%andb_true_iff]; try (left; lia).
  right. apply andb_true_iff. split; [lia|]. by apply (IH b).
Qed.

Lemma blt_asym a b : blt a b = true → blt b a = false.
Proof.
  intros H. apply not_true_is_false. intros H'.
  pose proof (blt_trans _ _ _ H H'). by rewrite blt_irrefl in *.
Qed.

Lemma blt_total a b : blt a b = false → blt b a = false → a = b.
Proof.
  revert b. induction a as [|x a IH]; intros [|y b]; cbn; try done.
  intros H1 H2. apply orb_false_iff in H1 as [? H1], H2 as [? H2].
  assert (Z_of_byte x = Z_of_byte y) as E by lia. apply Z_of_byte_inj in E as ->.
  rewrite Z.eqb_refl in *. f_equal. by apply IH.
Qed.

Section Lemmas.
Context {V : Type}.
Implicit Types (m : list (list byte * V)).

Lemma map_insert_keys k v m x : x ∈ map_insert k v m → x = (k, v) ∨ x ∈ m.
Proof.
  induction m as [|[k' v'] m IH]; cbn; [set_solver|].
  repeat case_match; set_solver.
Qed.

Lemma map_assign_keys k v m x : x ∈ map_assign k v m → x = (k, v) ∨ x ∈ m.
Proof.
  induction m as [|[k' v'] m IH]; cbn; [set_solver|].
  destruct (blt k k') eqn:E1; [set_solver|]. destruct (blt k' k) eqn:E2; [set_solver|].
  rewrite (blt_total _ _ E1 E2). set_solver.
Qed.

Lemma map_sorted_cons k v m :
  map_sorted ((k, v) :: m) ↔ map_sorted m ∧ ∀ x, x ∈ m → blt k x.1 = true.
Proof.
  unfold map_sorted. split.
  - intros H. apply StronglySorted_inv in H as [? H]. rewrite Forall_forall in H. naive_solver.
  - intros [? H]. constructor; [done|]. rewrite Forall_forall. naive_solver.
Qed.

Lemma map_insert_sorted k v m : map_sorted m → map_sorted (map_insert k v m).
Proof.
  induction m as [|[k' v'] m IH]; cbn; intros Hs; [repeat constructor|].
  destruct (blt k k') eqn:E1.
  - rewrite map_sorted_cons. split; [done|]. intros x [->|Hx]%elem_of_cons; [done|].
    apply map_sorted_cons in Hs as [_ Hs]. eapply blt_trans; [done|]. by apply Hs.
  - destruct (blt k' k) eqn:E2; [|done]. apply map_sorted_cons in Hs as [Hs Hk].
    rewrite map_sorted_cons. split; [by apply IH|].
    intros x [->|Hx]%map_insert_keys; [done|by apply Hk].
Qed.

Lemma map_assign_sorted k v m : map_sorted m → map_sorted (map_assign k v m).
Proof.
  induction m as [|[k' v'] m IH]; cbn; intros Hs; [repeat constructor|].
  destruct (blt k k') eqn:E1.
  - rewrite map_sorted_cons. split; [done|]. intros x [->|Hx]%elem_of_cons; [done|].
    apply map_sorted_cons in Hs as [_ Hs]. eapply blt_trans; [done|]. by apply Hs.
  - destruct (blt k' k) eqn:E2; apply map_sorted_cons in Hs as [Hs Hk]; rewrite map_sorted_cons.
    + split; [by apply IH|]. intros x [->|Hx]%map_assign_keys; [done|by apply Hk].
    + split; [done|]. by apply Hk.
Qed.

(** An entry behind all the others goes to the end. *)
Lemma map_insert_last k v m :
  (∀ x, x ∈ m → blt x.1 k = true) → map_insert k v m = m ++ [(k, v)].
Proof.
  induction m as [|[k' v'] m IH]; cbn; intros Hk; [done|].
  assert (blt k' k = true) as E by (by apply (Hk (k', v')); set_solver).
  rewrite E, (blt_asym _ _ E), IH; [done|]. set_solver.
Qed.

(** Inserting the entries of a map in order rebuilds it. *)
Lemma map_rebuild_app m1 m2 :
  map_sorted (m1 ++ m2) → fold_left (λ m x, map_insert x.1 x.2 m) m2 m1 = m1 ++ m2.
Proof.
  revert m1. induction m2 as [|[k v] m2 IH]; intros m1 Hs; cbn; [by rewrite app_nil_r|].
  rewrite map_insert_last.
  - rewrite IH by (by rewrite <-app_assoc). by rewrite <-app_assoc.
  - clear IH. induction m1 as [|[k1 v1] m1 IH1]; [set_solver|].
    cbn in Hs. apply map_sorted_cons in Hs as [Hs Hk].
    intros x [->|Hx]%elem_of_cons; [apply (Hk (k, v)); set_solver|by apply IH1].
Qed.

Lemma map_rebuild m : map_sorted m → fold_left (λ m x, map_insert x.1 x.2 m) m [] = m.
Proof. intros. by rewrite (map_rebuild_app []). Qed.

Lemma map_find_insert k v m k' :
  map_sorted m →
  map_find k' (map_insert k v m) =
    (if bool_decide (k' = k) then Some (default v (map_find k m)) else map_find k' m).
Proof.
  induction m as [|[k1 v1] m IH]; intros Hs; cbn; [done|].
  assert (blt k k1 = true → map_find k ((k1, v1) :: m) = None) as Hnone.
  { intros E. apply map_sorted_cons in Hs as [_ Hk].
    cbn. rewrite bool_decide_false by (intros ->; by rewrite blt_irrefl in E).
    clear IH. induction m as [|[k2 v2] m IHm]; [done|]. cbn.
    assert (blt k1 k2 = true) by (by apply (Hk (k2, v2)); set_solver).
    rewrite bool_decide_false; [apply IHm; set_solver|].
    intros ->. assert (blt k2 k2 = true) by (by eapply blt_trans). by rewrite blt_irrefl in *. }
  destruct (blt k k1) eqn:E1.
  - cbn. case_bool_decide as Ek; [subst|done]. cbn in Hnone. by rewrite Hnone.
  - destruct (blt k1 k) eqn:E2.
    + cbn. apply map_sorted_cons in Hs as [Hs _]. rewrite IH by done.
      assert (k ≠ k1) by (intros ->; by rewrite blt_irrefl in E2).
      rewrite (bool_decide_false (k = k1)) by done.
      repeat case_bool_decide; naive_solver.
    + pose proof (blt_total _ _ E1 E2) as ->. cbn. rewrite (bool_decide_true (k1 = k1)) by done. cbn.
      by case_bool_decide.
Qed.

Lemma map_find_assign k v m k' :
  map_find k' (map_assign k v m) = (if bool_decide (k' = k) then Some v else map_find k' m).
Proof.
  induction m as [|[k1 v1] m IH]; cbn; [done|].
  destruct (blt k k1) eqn:E1; [done|]. destruct (blt k1 k) eqn:E2.
  - cbn. rewrite IH. assert (k ≠ k1) by (intros ->; by rewrite blt_irrefl in E2).
    repeat case_bool_decide; naive_solver.
  - pose proof (blt_total _ _ E1 E2) as ->. cbn. by case_bool_decide.
Qed.

Lemma map_find_erase k m k' :
  map_find k' (map_erase k m).2 = (if bool_decide (k' = k) then None else map_find k' m).
Proof.
  unfold map_erase. cbn [snd]. induction m as [|[k1 v1] m IH]; [cbn; by destruct (bool_decide _)|].
  rewrite filter_cons. destruct (decide ((k1, v1).1 ≠ k)) as [E|E]; cbn in E; cbn [map_find]; rewrite ?IH.
  - repeat case_bool_decide; naive_solver.
  - apply dec_stable in E as ->. repeat case_bool_decide; naive_solver.
Qed.

Lemma map_erase_sorted k m : map_sorted m → map_sorted (map_erase k m).2.
Proof.
  unfold map_erase. cbn [snd]. induction m as [|[k1 v1] m IH]; [done|]. intros [Hs Hk]%map_sorted_cons.
  rewrite filter_cons. destruct (decide _); [|by apply IH]. apply map_sorted_cons. split; [by apply IH|].
  intros x [_ Hx]%list_elem_of_filter. by apply Hk.
Qed.

Lemma map_find_elem k v m : map_find k m = Some v → (k, v) ∈ m.
Proof.
  induction m as [|[k1 v1] m IH]; cbn; [done|]. destruct (bool_decide (k = k1)) eqn:E; [apply bool_decide_eq_true in E|set_solver].
  intros [= ->]. subst. set_solver.
Qed.
End Lemmas.

#[export] Hint Resolve map_insert_sorted map_assign_sorted : im.
