(* ===== verification/Comm.v ===== *)
(** * IMComm.cc: the shard hash and the NUL escaping of cached values

    [DJBHash] picks the redis instance a user lives on; [replaceFromZero] and
    [replaceToZero] escape NUL bytes of a serialized message as ['~'] so that it
    can be passed to redis as a C string. *)
From S2P Require Import Prelude.

(** ** The hash *)

(** One iteration of the loop: [hash = ((hash << 5) + hash) + str[i]] on a
    32-bit [int] ([str[i]] is a signed [char]). *)
Definition DJBHash_step (hash : Z) (c : byte) : Z :=
  i32 (i32 (i32 (Z.shiftl hash 5) + hash) + sZ_of_byte c).

Definition DJBHash (str : list byte) : Z :=
  Z.land (fold_left DJBHash_step str 5381) (2 ^ 31 - 1).

(** The callers' [hashkey % 3 + 1] and ["Master" + to_string(redisid)]. *)
Definition redisid (user : string) : Z := crem (DJBHash (bytes_of user)) 3 + 1.

(** ** The escaping *)

Definition tilde : byte := Init.Byte.x7e.

Definition escape (b : byte) : byte := if byte_eqb b x00 then tilde else b.
Definition unescape (b : byte) : byte := if byte_eqb b tilde then x00 else b.

(** The loop over the first [n] characters; reaching past the end of the string
    writes to memory that is not the string's. *)
Fixpoint replaceFromZero_loop (n : nat) (value : list byte) : res (list byte) :=
  match n with
  | O => Ok value
  | S n' =>
      match value with
      | [] => Fault UB
      | b :: value' =>
          r ← replaceFromZero_loop n' value';
          mret (escape b :: r)
      end
  end.

Definition replaceFromZero (value : list byte) (byte_size : Z) : res (list byte) :=
  replaceFromZero_loop (Z.to_nat byte_size) value.

Definition replaceToZero (value : list byte) : list byte := map unescape value.

(** ** Lemmas *)

Lemma DJBHash_range str : 0 <= DJBHash str < 2 ^ 31.
Proof.
  unfold DJBHash. change (2 ^ 31 - 1) with (Z.ones 31).
  rewrite Z.land_ones by lia. apply Z.mod_pos_bound. lia.
Qed.

Lemma replaceFromZero_loop_all value :
  replaceFromZero_loop (length value) value = Ok (map escape value).
Proof. induction value as [|b v IH]; [done|]. cbn. by rewrite IH. Qed.

Lemma replaceFromZero_all value :
  replaceFromZero value (zlen value) = Ok (map escape value).
Proof. unfold replaceFromZero, zlen. rewrite Nat2Z.id. apply replaceFromZero_loop_all. Qed.

Lemma escape_not_nul b : escape b ≠ x00.
Proof.
  unfold escape. rewrite byte_eqb_spec. case_bool_decide; [|done]. by vm_compute.
Qed.

Lemma map_escape_no_nul value : x00 ∉ map escape value.
Proof.
  rewrite list_elem_of_In, in_map_iff. intros (b & Hb & _). by apply (escape_not_nul b).
Qed.

Lemma unescape_escape b : unescape (escape b) = (if byte_eqb b tilde then x00 else b).
Proof.
  unfold unescape, escape. rewrite !byte_eqb_spec.
  repeat case_bool_decide; subst; try done; by rewrite ?bool_decide_true.
Qed.

Lemma unescape_escape_id b : b ≠ tilde ↔ unescape (escape b) = b.
Proof.
  rewrite unescape_escape, byte_eqb_spec. case_bool_decide as E; subst; [|done].
  split; [done|]. by vm_compute.
Qed.

Lemma replaceToZero_map_escape value :
  replaceToZero (map escape value) = value ↔ tilde ∉ value.
Proof.
  unfold replaceToZero. induction value as [|b v IH]; [set_solver|].
  cbn [map]. rewrite not_elem_of_cons, <-IH. pose proof (unescape_escape_id b) as Hb.
  split.
  - intros [= H1 H2]. split; [|done]. symmetry in H1. rewrite H1 in Hb at 1. naive_solver.
  - intros [H1 H2]. f_equal; [|done]. apply Hb. congruence.
Qed.

Lemma redisid_range user : redisid user ∈ [1; 2; 3].
Proof.
  unfold redisid. pose proof (DJBHash_range (bytes_of user)).
  pose proof (Z.rem_bound_pos (DJBHash (bytes_of user)) 3 ltac:(lia) ltac:(lia)).
  rewrite !elem_of_cons. lia.
Qed.

(** ** Properties *)

(** Escaping a whole value always returns, gives a value without
    NUL bytes (so the C string redis receives is the whole value), and unescaping
    it gives the original back exactly when the original holds no ['~']. *)
Theorem replace_roundtrip (value : list byte) :
  ∃ v, replaceFromZero value (zlen value) = Ok v ∧
       c_str v = v ∧ zlen v = zlen value ∧
       (replaceToZero v = value ↔ tilde ∉ value).
Proof.
  exists (map escape value). split; [apply replaceFromZero_all|].
  split; [apply c_str_no_nul, map_escape_no_nul|].
  split; [unfold zlen; by rewrite length_map|]. apply replaceToZero_map_escape.
Qed.

(** Whatever the user name, the hash is a non-negative [int] and the
    shard number is 1, 2 or 3, one of the redis instances that are configured. *)
Theorem redisid_configured (user : string) :
  0 <= DJBHash (bytes_of user) < 2 ^ 31 ∧ redisid user ∈ [1; 2; 3].
Proof. split; [apply DJBHash_range|apply redisid_range]. Qed.
