(* ===== verification/Config.v ===== *)
(** * ConfigFileReader.cc, ReadConfig.h: the two readers of configuration files

    [ConfigFileReader] reads [key=value] lines of dbproxyserver.conf and can write
    them back; [readConfig] reads the blank-separated lines of server.conf.  A file
    is the list of its bytes, [None] when it cannot be opened. *)
From Stdlib Require Import Sorted.
From S2P Require Import Prelude Text StdMap.

Definition c_nl : byte := Init.Byte.x0a.
Definition c_hash : byte := Init.Byte.x23.
Definition c_eq : byte := Init.Byte.x3d.
Definition c_space : byte := Init.Byte.x20.
Definition c_tab : byte := Init.Byte.x09.

Definition blank (b : byte) : bool := byte_eqb b c_space || byte_eqb b c_tab.

(** The part of [l] before the first [c], and the part behind it if there is one
    ([strchr]). *)
Fixpoint cut_at (c : byte) (l : list byte) : list byte * option (list byte) :=
  match l with
  | [] => ([], None)
  | b :: l' =>
      if byte_eqb b c then ([], Some l')
      else let '(p, q) := cut_at c l' in (b :: p, q)
  end.

Fixpoint skip_blanks (l : list byte) : list byte :=
  match l with
  | [] => []
  | b :: l' => if blank b then skip_blanks l' else l
  end.

Module ConfigFileReader.

Abbreviation config := (list (list byte * list byte)).

(** [m_load_ok] is set only by a successful load: before that it is whatever the
    memory held ([None]). *)
Record t := mk {
  m_load_ok : option bool;
  m_config_map : config;
  m_config_file : string
}.

(** [_TrimSpace(name)], [None] for [NULL]. *)
Definition TrimSpace (name : list byte) : option (list byte) :=
  match skip_blanks name with
  | [] => None
  | start => Some (reverse (skip_blanks (reverse start)))
  end.

Definition ParseLine (m : config) (line : list byte) : config :=
  match cut_at c_eq line with
  | (_, None) => m
  | (k, Some v) =>
      match TrimSpace k, TrimSpace v with
      | Some key, Some value => map_insert key value m
      | _, _ => m
      end
  end.

(** [fgets(buf, n + 1, fp)]: up to [n] characters, through the first newline; what
    is read and what remains of the file. *)
Fixpoint fgets (n : nat) (f : list byte) : list byte * list byte :=
  match n, f with
  | O, _ | _, [] => ([], f)
  | S n', b :: f' =>
      if byte_eqb b c_nl then ([b], f')
      else let '(p, q) := fgets n' f' in (b :: p, q)
  end.

(** What the loop does with one buffer: [buf[len - 1]] is outside the array when the
    buffer begins with a NUL. *)
Definition load_line (m : config) (buf : list byte) : res config :=
  match reverse (c_str buf) with
  | [] => Fault UB
  | last :: front =>
      let line := if byte_eqb last c_nl then reverse front else c_str buf in
      let '(line, _) := cut_at c_hash line in
      mret (match line with [] => m | _ :: _ => ParseLine m line end)
  end.

(** Every [fgets] consumes a character, so the length of the file is fuel enough
    ([load_total]). *)
Fixpoint load_loop (fuel : nat) (m : config) (f : list byte) : res config :=
  match f with
  | [] => mret m
  | _ :: _ =>
      match fuel with
      | O => Fault OutOfFuel
      | S fuel' =>
          let '(buf, f') := fgets 255 f in
          m' ← load_line m buf;
          load_loop fuel' m' f'
      end
  end.

(** [_LoadFile(filename)], which the constructor calls. *)
Definition LoadFile (filename : string) (file : option (list byte)) : res t :=
  match file with
  | None => mret (mk None [] filename)
  | Some f =>
      m ← load_loop (length f) [] f;
      mret (mk (Some true) m filename)
  end.

Definition GetConfigName (c : t) (name : list byte) : res (option (list byte)) :=
  match m_load_ok c with
  | None => Fault UB
  | Some false => mret None
  | Some true => mret (option_map c_str (map_find name (m_config_map c)))
  end.

(** One entry as [_WriteFIle] prints it. *)
Definition entry (x : list byte * list byte) : list byte :=
  bytes_of (snprintf 128 (string_of (c_str x.1 ++ [c_eq] ++ c_str x.2 ++ [c_nl]))).

(** [_WriteFIle()]: the contents of the file; [writable] says whether it can be
    opened and written. *)
Definition WriteFIle (writable : bool) (c : t) : Z * option (list byte) :=
  if writable then (0, Some (concat (map entry (m_config_map c)))) else (-1, None).

Definition SetConfigValue (writable : bool) (c : t) (name value : list byte) :
    res (Z * t * option (list byte)) :=
  match m_load_ok c with
  | None => Fault UB
  | Some false => mret (-1, c, None)
  | Some true =>
      let m := match map_find name (m_config_map c) with
               | Some _ => map_assign name value (m_config_map c)
               | None => map_insert name value (m_config_map c)
               end in
      let c' := mk (m_load_ok c) m (m_config_file c) in
      let '(ret, out) := WriteFIle writable c' in
      mret (ret, c', out)
  end.
End ConfigFileReader.

(** ** ReadConfig.h *)

Module ReadConfig.

Definition knownFields : list string :=
  ["host"; "port"; "ioThreadNumber"; "serverName"; "maxConn"; "tpNum"; "daemon";
   "logFlushInterval"; "logRollSie"]%string.

(** [removeSpace(line)]: the loops stop only at a character that is not a blank, so
    a line of blanks alone is read before its beginning. *)
Definition removeSpace (line : list byte) : res (list byte) :=
  match line with
  | [] => mret []
  | _ :: _ =>
      match skip_blanks line with
      | [] => Fault UB
      | rest => mret (reverse (skip_blanks (reverse rest)))
      end
  end.

(** The loop of [splitArgs] from index [it]; [strBegin] and [strEnd] are the indices
    of the iterators, [size] that of [line.end()]. *)
Fixpoint split_loop (line rest : list byte) (it strBegin strEnd : nat) (store : list (list byte)) :
    nat * nat * list (list byte) :=
  let size := length line in
  match rest with
  | [] => (strBegin, strEnd, store)
  | b :: rest' =>
      if negb (byte_eqb b c_space) && (strBegin =? size)%nat then
        split_loop line rest' (S it) it strEnd store
      else if byte_eqb b c_space then
        if negb (strBegin =? size)%nat then
          split_loop line rest' (S it) size size
            (store ++ [take (it - strBegin) (drop strBegin line)])
        else split_loop line rest' (S it) strBegin it store
      else split_loop line rest' (S it) strBegin strEnd store
  end.

(** [line.substr(strBegin - begin, strEnd - strBegin)]: a negative difference is a
    huge [size_t], so the substring extends to the end. *)
Definition substr (line : list byte) (strBegin strEnd : nat) : list byte :=
  if (strBegin <=? strEnd)%nat then take (strEnd - strBegin) (drop strBegin line)
  else drop strBegin line.

Definition splitArgs (line : list byte) : list byte * list (list byte) :=
  match line with
  | [] => ([], [])
  | _ :: _ =>
      let '(b, e, store) := split_loop line line 0 (length line) (length line) [] in
      match store ++ [substr line b e] with
      | [] => ([], [])
      | first :: values => (first, values)
      end
  end.

(** [isValid(kv, ...)]: an error ends the process. *)
Definition isValid (kv : list byte * list (list byte)) : res bool :=
  match kv.1, kv.2 with
  | [], _ | _, [] => mret false
  | key, value :: more =>
      if negb (bool_decide (more = [])) then Fault Fatal
      else if negb (bool_decide (string_of key ∈ knownFields)) then Fault Fatal
      else if bool_decide (string_of key = "daemon"%string) &&
              negb (bool_decide (string_of value ∈ ["yes"; "no"]%string)) then Fault Fatal
      else mret true
  end.

(** One line, without its newline; the character before it is removed whatever it is
    (the files have CR LF line ends). *)
Definition read_line (m : list (list byte * list byte)) (line : list byte) :
    res (list (list byte * list byte)) :=
  match reverse line with
  | [] => Fault UB
  | _ :: front =>
      line ← removeSpace (reverse front);
      if bool_decide (head line = Some c_hash) || bool_decide (head line = Some c_nl) then mret m
      else
        let kv := splitArgs line in
        ok ← isValid kv;
        if ok : bool then mret (map_insert kv.1 (default [] (head kv.2)) m) else mret m
  end.

(** [getline(fs, line, '\n')]. *)
Fixpoint lines_of (f : list byte) : list (list byte) :=
  match f with
  | [] => []
  | b :: f' =>
      if byte_eqb b c_nl then [] :: lines_of f'
      else match lines_of f' with
           | [] => [[b]]
           | l :: ls => (b :: l) :: ls
           end
  end.

Fixpoint read_lines (m : list (list byte * list byte)) (l : list (list byte)) :
    res (list (list byte * list byte)) :=
  match l with
  | [] => mret m
  | line :: l' => m' ← read_line m line; read_lines m' l'
  end.

Definition readConfig (file : option (list byte)) : res (list (list byte * list byte)) :=
  match file with
  | None => Fault Fatal
  | Some f => read_lines [] (lines_of f)
  end.

Definition is_upper (b : byte) : bool := (65 <=? Z_of_byte b) && (Z_of_byte b <=? 90).

(** A product of [int]s: signed overflow is undefined. *)
Definition imul (a b : Z) : res Z :=
  if (- 2 ^ 31 <=? a * b) && (a * b <? 2 ^ 31) then mret (a * b) else Fault UB.

Definition toByte (str : list byte) : res Z :=
  let number := filter isdigit str in
  let unit := string_of (filter is_upper str) in
  if bool_decide (unit = "B"%string) then stoi number
  else if bool_decide (unit = "KB"%string) then n ← stoi number; imul n 1024
  else if bool_decide (unit = "MB"%string) then
    n ← stoi number; n ← imul n 1024; imul n 1024
  else if bool_decide (unit = "GB"%string) then
    n ← stoi number; n ← imul n 1024; n ← imul n 1024; imul n 1024
  else mret 0.
End ReadConfig.

(** ** Characters and blanks *)

Lemma byte_eqb_true a b : byte_eqb a b = true ↔ a = b.
Proof. rewrite byte_eqb_spec. apply bool_decide_eq_true. Qed.

Lemma byte_eqb_false a b : byte_eqb a b = false ↔ a ≠ b.
Proof. rewrite byte_eqb_spec. apply bool_decide_eq_false. Qed.

Lemma cut_at_none c l : c ∉ l → cut_at c l = (l, None).
Proof.
  induction l as [|b l IH]; cbn; [done|]. intros Hn. apply not_elem_of_cons in Hn as [Hb Hn].
  rewrite (proj2 (byte_eqb_false b c)) by done. by rewrite IH.
Qed.

Lemma cut_at_some c l l' : c ∉ l → cut_at c (l ++ c :: l') = (l, Some l').
Proof.
  induction l as [|b l IH]; cbn; intros Hn.
  - by rewrite (proj2 (byte_eqb_true c c)).
  - apply not_elem_of_cons in Hn as [Hb Hn]. rewrite (proj2 (byte_eqb_false b c)) by done. by rewrite IH.
Qed.

Lemma cut_at_inv c l p q :
  cut_at c l = (p, q) → (c ∉ p) ∧ l = p ++ match q with Some r => c :: r | None => [] end.
Proof.
  revert p q. induction l as [|b l IH]; cbn; intros p q H; [simplify_eq; set_solver|].
  destruct (byte_eqb b c) eqn:E.
  - apply byte_eqb_true in E as ->. simplify_eq. set_solver.
  - apply byte_eqb_false in E. destruct (cut_at c l) as [p' q'] eqn:E'. simplify_eq.
    destruct (IH _ _ eq_refl) as [? ->]. split; [set_solver|done].
Qed.

Lemma skip_blanks_suffix l : ∃ l1, l = l1 ++ skip_blanks l.
Proof.
  induction l as [|b l [l1 IH]]; cbn; [by exists []|].
  destruct (blank b); [exists (b :: l1); cbn; by rewrite <-IH|by exists []].
Qed.

Lemma skip_blanks_head l : ∀ b l', skip_blanks l = b :: l' → blank b = false.
Proof.
  induction l as [|b l IH]; cbn; [done|]. destruct (blank b) eqn:E; [done|].
  by intros ? ? [= <- <-].
Qed.

(** A text without blanks at its ends. *)
Definition trimmed (l : list byte) : Prop :=
  l ≠ [] ∧ (∀ b, head l = Some b → blank b = false) ∧ (∀ b, last l = Some b → blank b = false).

Lemma skip_blanks_id l : (∀ b, head l = Some b → blank b = false) → skip_blanks l = l.
Proof. destruct l as [|b l]; [done|]. cbn. intros H. by rewrite H. Qed.

Lemma head_last_reverse (l : list byte) : head (reverse l) = last l.
Proof. by rewrite head_reverse. Qed.

Lemma trim_id l : trimmed l → ConfigFileReader.TrimSpace l = Some l.
Proof.
  intros (Hne & Hh & Hl). unfold ConfigFileReader.TrimSpace. rewrite skip_blanks_id by done.
  destruct l as [|c l]; [done|].
  rewrite skip_blanks_id by (intros b; rewrite head_last_reverse; apply Hl).
  by rewrite reverse_involutive.
Qed.

Lemma trim_trimmed l k :
  ConfigFileReader.TrimSpace l = Some k → trimmed k ∧ ∀ b, b ∈ k → b ∈ l.
Proof.
  unfold ConfigFileReader.TrimSpace. destruct (skip_blanks l) as [|b l'] eqn:E; [done|]. intros [= <-].
  pose proof (skip_blanks_head _ _ _ E) as Hb. destruct (skip_blanks_suffix l) as [l1 Hl]. rewrite E in Hl.
  destruct (skip_blanks_suffix (reverse (b :: l'))) as [r1 Hr].
  apply (f_equal reverse) in Hr. rewrite reverse_involutive, reverse_app in Hr.
  remember (reverse (skip_blanks (reverse (b :: l')))) as k eqn:Ek.
  assert (k ≠ []) as Hk.
  { intros ->. cbn in Hr. apply (f_equal reverse) in Ek. rewrite reverse_involutive in Ek.
    assert (b ∈ reverse r1) as Hin by (rewrite <-Hr; set_solver).
    clear -Ek Hb. symmetry in Ek. revert Ek. rewrite reverse_cons. generalize (reverse l'). intros l.
    change (reverse []) with (@nil byte).
    induction l as [|c l IH]; cbn; [by rewrite Hb|]. destruct (blank c); [done|]. intros ?. done. }
  split.
  - split; [done|]. split.
    + intros c Hc. destruct k as [|c' k]; [done|]. cbn in Hc. simplify_eq.
      rewrite <-app_comm_cons in Hr. by injection Hr as <- _.
    + intros c Hc. rewrite Ek, last_reverse in Hc.
      destruct (skip_blanks (reverse (b :: l'))) as [|c' k'] eqn:E'; [done|]. cbn in Hc. simplify_eq.
      by eapply skip_blanks_head.
  - intros c Hc. rewrite Hl, Hr. set_solver.
Qed.

(** ** Loading *)

Import ConfigFileReader.

Lemma fgets_app n f p q : fgets n f = (p, q) → f = p ++ q.
Proof.
  revert f p q. induction n as [|n IH]; intros [|b f] p q; cbn; try by intros [= <- <-].
  destruct (byte_eqb b c_nl); [by intros [= <- <-]|].
  destruct (fgets n f) as [p' q'] eqn:E. intros [= <- <-]. cbn. f_equal. by apply IH.
Qed.

Lemma fgets_consumes n f p q : fgets (S n) f = (p, q) → f ≠ [] → (length q < length f)%nat.
Proof.
  intros E Hne. pose proof (fgets_app _ _ _ _ E) as ->. rewrite length_app. destruct p as [|b p]; [|cbn; lia].
  destruct q as [|b q]; [done|]. cbn in E. destruct (byte_eqb b c_nl); [done|]. by destruct (fgets n q).
Qed.

(** A line of a file, its newline included. *)
Lemma fgets_line n l f :
  c_nl ∉ l → (length l < n)%nat → fgets n (l ++ c_nl :: f) = (l ++ [c_nl], f).
Proof.
  revert n. induction l as [|b l IH]; intros [|n] Hn Hlen; cbn in *; try lia.
  - done.
  - apply not_elem_of_cons in Hn as [Hb Hn]. rewrite (proj2 (byte_eqb_false b c_nl)) by done.
    by rewrite IH by (done || lia).
Qed.

Lemma fgets_no_nl n f p q : fgets n f = (p, q) → ∃ l, (c_nl ∉ l) ∧ (p = l ∨ p = l ++ [c_nl]).
Proof.
  revert f p q. induction n as [|n IH]; intros [|b f] p q; cbn.
  1-3: intros [= <- <-]; exists []; set_solver.
  destruct (byte_eqb b c_nl) eqn:E.
  - apply byte_eqb_true in E as ->. intros [= <- <-]. exists []. set_solver.
  - apply byte_eqb_false in E. destruct (fgets n f) as [p' q'] eqn:E'. intros [= <- <-].
    destruct (IH _ _ _ E') as (l & Hl & Hp). exists (b :: l). split; [set_solver|].
    destruct Hp as [->| ->]; [by left|by right].
Qed.

(** The entries a configuration holds. *)
Definition good_key (k : list byte) : Prop :=
  trimmed k ∧ (x00 ∉ k) ∧ (c_nl ∉ k) ∧ (c_hash ∉ k) ∧ (c_eq ∉ k).
Definition good_value (v : list byte) : Prop :=
  trimmed v ∧ (x00 ∉ v) ∧ (c_nl ∉ v) ∧ (c_hash ∉ v).
Definition good_entry (x : list byte * list byte) : Prop := good_key x.1 ∧ good_value x.2.

Definition good (m : config) : Prop := map_sorted m ∧ Forall good_entry m.

(** [_WriteFIle] prints the entry completely. *)
Definition short (x : list byte * list byte) : Prop := zlen x.1 + zlen x.2 + 2 < 128.

Lemma ParseLine_good m line :
  good m → x00 ∉ line → c_nl ∉ line → c_hash ∉ line → good (ParseLine m line).
Proof.
  intros Hm H0 Hn Hh. unfold ParseLine. destruct (cut_at c_eq line) as [k [v|]] eqn:E; [|done].
  destruct (TrimSpace k) as [key|] eqn:Ek; [|done]. destruct (TrimSpace v) as [value|] eqn:Ev; [|done].
  apply cut_at_inv in E as [He ->]. apply trim_trimmed in Ek as [Htk Hk], Ev as [Htv Hv].
  destruct Hm as [Hs Hg]. split; [by apply map_insert_sorted|].
  rewrite Forall_forall in Hg |- *. intros x [->|Hx]%map_insert_keys; [|by apply Hg].
  assert (∀ c, c ∉ k ++ c_eq :: v → (c ∉ key) ∧ (c ∉ value)) as Hsub.
  { intros c Hc. split; intros Hin; apply Hc; apply elem_of_app.
    - left. by apply Hk. - right. apply elem_of_cons. right. by apply Hv. }
  split; split_and!; try done; try (by apply Hsub). intros Hin. by apply He, Hk.
Qed.

Lemma c_str_sub l b : b ∈ c_str l → b ∈ l.
Proof.
  induction l as [|c l IH]; cbn; [done|]. destruct (byte_eqb c x00); set_solver.
Qed.


(** What [load_line] parses: the C string of the buffer without its newline and
    without a comment. *)
Lemma load_line_good m buf m' :
  good m → (∃ l, (c_nl ∉ l) ∧ (buf = l ∨ buf = l ++ [c_nl])) → load_line m buf = Ok m' → good m'.
Proof.
  intros Hm (l & Hl & Hbuf) H. unfold load_line in H.
  destruct (reverse (c_str buf)) as [|z front] eqn:E; [done|].
  apply (f_equal reverse) in E. rewrite reverse_involutive, reverse_cons in E.
  set (line := if byte_eqb z c_nl then reverse front else c_str buf) in H.
  assert ((c_nl ∉ line) ∧ (x00 ∉ line)) as [Hn H0].
  { pose proof (c_str_not_nul buf) as H0. rewrite E in H0.
    assert (c_nl ∉ reverse front) as Hfront.
    { intros Hin. assert (∃ b1 b2, buf = reverse front ++ b1 :: b2) as (b1 & b2 & Hb).
      { clear -E. revert E. generalize (reverse front). intros r. revert buf.
        induction r as [|c r IH]; intros [|b buf]; cbn; try done.
        - intros _. by eexists _, _.
        - destruct (byte_eqb b x00); [done|]. intros [= -> E]. destruct (IH _ E) as (? & ? & ->). by eexists _, _. }
      destruct Hbuf as [->| ->]; [apply Hl; set_solver|].
      apply Hl. assert (∃ b3, l = reverse front ++ b3) as [b3 ->]; [|set_solver].
      clear -Hb. revert Hb. generalize (reverse front). intros r. revert l.
      induction r as [|c r IH]; intros [|b l]; cbn; try (by eexists).
      - intros [= _ Hb]. by destruct r.
      - intros [= -> Hb]. destruct (IH _ Hb) as [? ->]. by eexists. }
    unfold line. destruct (byte_eqb z c_nl) eqn:Ez; [split; set_solver|].
    apply byte_eqb_false in Ez. rewrite E. split; [set_solver|done]. }
  destruct (cut_at c_hash line) as [line' q] eqn:Ec. apply cut_at_inv in Ec as [Hh Hline].
  unfold mret, res_ret in H. injection H as <-. destruct line' as [|b line']; [done|].
  apply ParseLine_good; [done|..|done]; rewrite Hline in *; set_solver.
Qed.

Lemma load_loop_good fuel m f m' : good m → load_loop fuel m f = Ok m' → good m'.
Proof.
  revert m f. induction fuel as [|fuel IH]; intros m [|b f] Hm H; cbn [load_loop] in H.
  1,3: unfold mret, res_ret in H; by simplify_eq.
  - done.
  - destruct (fgets 255 (b :: f)) as [buf f'] eqn:E. apply bind_Ok in H as (m1 & H1 & H2).
    eapply IH; [|done]. eapply load_line_good; [done| |done]. by eapply fgets_no_nl.
Qed.

Lemma LoadFile_good name f c : LoadFile name (Some f) = Ok c → good (m_config_map c).
Proof.
  cbn. intros H. apply bind_Ok in H as (m & H1 & H2). unfold mret, res_ret in H2. simplify_eq. cbn.
  eapply load_loop_good; [|done]. split; [constructor|constructor].
Qed.

(** *** Printing and reading one entry *)

Lemma entry_short k v :
  good_key k → good_value v → short (k, v) → entry (k, v) = (k ++ c_eq :: v) ++ [c_nl].
Proof.
  intros (_ & Hk0 & _) (_ & Hv0 & _) Hs. unfold entry, short in *. cbn [fst snd] in *.
  rewrite !c_str_no_nul by done. rewrite snprintf_fits.
  - rewrite bytes_of_string_of. by rewrite <-app_assoc.
  - rewrite slen_string_of. unfold c_eq, c_nl. zl.
Qed.

Lemma load_entry m k v :
  good_key k → good_value v → load_line m ((k ++ c_eq :: v) ++ [c_nl]) = Ok (map_insert k v m).
Proof.
  intros (Hkt & Hk0 & Hkn & Hkh & Hke) (Hvt & Hv0 & Hvn & Hvh). unfold load_line.
  assert (∀ c, c ∉ k → c ≠ c_eq → c ∉ v → c ∉ k ++ c_eq :: v) as Hnot by set_solver.
  rewrite c_str_no_nul.
  2:{ apply not_elem_of_app. split; [by apply Hnot|]. set_solver. }
  rewrite reverse_snoc. cbv iota beta. rewrite (proj2 (byte_eqb_true c_nl c_nl)) by done. rewrite reverse_involutive.
  rewrite cut_at_none by (by apply Hnot). cbv iota.
  unfold ParseLine. rewrite cut_at_some by done. rewrite !trim_id by done. by destruct k.
Qed.

Lemma load_written m1 m2 fuel :
  map_sorted (m1 ++ m2) → Forall good_entry m2 → Forall short m2 →
  (length (concat (map entry m2)) <= fuel)%nat →
  load_loop fuel m1 (concat (map entry m2)) = Ok (m1 ++ m2).
Proof.
  revert m1 fuel. induction m2 as [|[k v] m2 IH]; intros m1 fuel Hs Hg Hsh Hfuel.
  - destruct fuel; cbn; by rewrite app_nil_r.
  - apply Forall_cons in Hg as [[Hk Hv] Hg], Hsh as [Hkv Hsh]. cbn [map concat] in *.
    rewrite entry_short in * by done. cbn [fst snd] in *.
    destruct fuel as [|fuel]; [rewrite !length_app in Hfuel; cbn in Hfuel; lia|].
    assert (((k ++ c_eq :: v) ++ [c_nl]) ++ concat (map entry m2)
            = (k ++ c_eq :: v) ++ c_nl :: concat (map entry m2)) as -> by (by rewrite <-app_assoc).
    assert (∃ b f, (k ++ c_eq :: v) ++ c_nl :: concat (map entry m2) = b :: f) as (b & f & Ef).
    { destruct k; by eexists _, _. }
    cbn [load_loop]. rewrite Ef. cbv iota. rewrite <-Ef.
    destruct Hk as (Hkt & Hk0 & Hkn & Hkh & Hke), Hv as (Hvt & Hv0 & Hvn & Hvh).
    rewrite (fgets_line 255 (k ++ c_eq :: v)).
    + cbv iota beta. rewrite load_entry by done. cbn [mbind res_bind].
      rewrite map_insert_last.
      * rewrite IH; [by rewrite <-app_assoc|by rewrite <-app_assoc|done|done|].
        rewrite length_app in Hfuel. cbn in Hfuel. rewrite length_app in Hfuel. cbn in Hfuel. lia.
      * clear -Hs. induction m1 as [|[k1 v1] m1 IH1]; [set_solver|].
        cbn in Hs. apply map_sorted_cons in Hs as [Hs Hk].
        intros x [->|Hx]%elem_of_cons; [apply (Hk (k, v)); set_solver|by apply IH1].
    + set_solver.
    + unfold short, zlen in Hkv. cbn in Hkv. rewrite length_app. cbn. lia.
Qed.

(** ** Properties *)

(** Whatever file a configuration was loaded from, writing it with
    [_WriteFIle] and loading the written file gives the same configuration back, as
    long as no entry exceeds the 127 characters that [_WriteFIle] prints. *)
Theorem config_roundtrip (name : string) (f : list byte) (c : ConfigFileReader.t) :
  LoadFile name (Some f) = Ok c → Forall short (m_config_map c) →
  (WriteFIle true c).1 = 0 ∧ LoadFile name (WriteFIle true c).2 = Ok c.
Proof.
  intros Hload Hshort. split; [done|]. destruct (LoadFile_good _ _ _ Hload) as [Hs Hg].
  cbn [WriteFIle snd LoadFile]. rewrite (load_written [] (m_config_map c)) by done.
  cbn [mbind res_bind app]. cbn in Hload. apply bind_Ok in Hload as (m & _ & H).
  unfold mret, res_ret in *. by simplify_eq.
Qed.

(** The fuel is enough and only a NUL byte can make loading fail. *)
Lemma load_total fuel m f :
  x00 ∉ f → (length f <= fuel)%nat → ∃ m', load_loop fuel m f = Ok m'.
Proof.
  revert m f. induction fuel as [|fuel IH]; intros m [|b f] H0 Hlen; cbn [load_loop]; try by eexists.
  - cbn in Hlen. lia.
  - destruct (fgets 255 (b :: f)) as [buf f'] eqn:E.
    pose proof (fgets_app _ _ _ _ E) as Happ. pose proof (fgets_consumes _ _ _ _ E) as Hc.
    assert (∃ m1, load_line m buf = Ok m1) as [m1 ->].
    { unfold load_line. rewrite Happ in H0. rewrite c_str_no_nul by set_solver.
      destruct (reverse buf) as [|z front] eqn:Er; [|by destruct (cut_at c_hash _); eexists].
      apply (f_equal length) in Er. rewrite length_reverse in Er. destruct buf; [|done].
      cbn in Happ. subst f'. specialize (Hc ltac:(done)). lia. }
    cbn [mbind res_bind]. apply IH; [rewrite Happ in H0; set_solver|]. specialize (Hc ltac:(done)). cbn in *. lia.
Qed.

(** ** server.conf *)

(** The words of a line: the maximal runs of characters that are not spaces.
    [cur] is the word being read. *)
Fixpoint words_from (cur line : list byte) : list (list byte) :=
  match line with
  | [] => match cur with [] => [] | _ => [cur] end
  | b :: line' =>
      if byte_eqb b c_space then
        match cur with
        | [] => words_from [] line'
        | _ => cur :: words_from [] line'
        end
      else words_from (cur ++ [b]) line'
  end.

Definition words (line : list byte) : list (list byte) := words_from [] line.

(** What the iterators of the loop delimit: the word being read, if one is. *)
Definition current (line : list byte) (strBegin it : nat) : list byte :=
  if (strBegin =? length line)%nat then [] else take (it - strBegin) (drop strBegin line).

Lemma current_step (line pre : list byte) (b : byte) (rest : list byte) (strBegin : nat) :
  line = pre ++ b :: rest → (strBegin <= length pre)%nat →
  take (S (length pre) - strBegin) (drop strBegin line) = take (length pre - strBegin) (drop strBegin line) ++ [b].
Proof.
  intros -> Hb. replace (S (length pre) - strBegin)%nat with (S (length pre - strBegin)) by lia.
  apply take_S_r. rewrite lookup_drop. replace (strBegin + (length pre - strBegin))%nat with (length pre) by lia.
  by rewrite lookup_app_r, Nat.sub_diag by lia.
Qed.

Lemma split_loop_words line pre rest strBegin strEnd store :
  line = pre ++ rest →
  (strBegin = length line ∨ (strBegin < length pre)%nat) →
  (strEnd = length line ∨ (strEnd < length pre)%nat ∧ (strBegin = length line ∨ strEnd < strBegin)%nat) →
  (∀ b, last line = Some b → b ≠ c_space) → (rest = [] → strBegin ≠ length line) →
  let '(b, e, store') := ReadConfig.split_loop line rest (length pre) strBegin strEnd store in
  store' ++ [ReadConfig.substr line b e] = store ++ words_from (current line strBegin (length pre)) rest.
Proof.
  revert pre strBegin strEnd store. induction rest as [|b rest IH];
    intros pre strBegin strEnd store Hline Hb He Hlast Hne; cbn [ReadConfig.split_loop words_from].
  - rewrite app_nil_r in Hline. subst pre. specialize (Hne eq_refl). unfold ReadConfig.substr, current.
    replace (strBegin =? length line)%nat with false by (symmetry; apply Nat.eqb_neq; lia).
    assert (take (length line - strBegin) (drop strBegin line) = drop strBegin line) as ->.
    { apply take_ge. rewrite length_drop. lia. }
    assert ((if (strBegin <=? strEnd)%nat then take (strEnd - strBegin) (drop strBegin line) else drop strBegin line)
            = drop strBegin line) as ->.
    { destruct (strBegin <=? strEnd)%nat eqn:E; [|done]. apply Nat.leb_le in E. apply take_ge. rewrite length_drop. lia. }
    destruct (drop strBegin line) as [|c w] eqn:E; [|done].
    apply (f_equal length) in E. rewrite length_drop in E. cbn in E. lia.
  - assert (length line = S (length pre + length rest)) as Hlen by (rewrite Hline, length_app; cbn; lia).
    assert (line = (pre ++ [b]) ++ rest) as Hline' by (rewrite <-app_assoc; done).
    assert (length (pre ++ [b]) = S (length pre)) as Hpre by (rewrite length_app; cbn; lia).
    assert (rest = [] → b ≠ c_space) as Hend.
    { intros ->. apply Hlast. by rewrite Hline, last_snoc. }
    unfold current. destruct (byte_eqb b c_space) eqn:Eb; cbn [negb andb].
    + apply byte_eqb_true in Eb. destruct (strBegin =? length line)%nat eqn:Es; cbn [negb].
      * apply Nat.eqb_eq in Es. specialize (IH (pre ++ [b]) strBegin (length pre) store Hline').
        rewrite Hpre in IH. unfold current in IH. rewrite (proj2 (Nat.eqb_eq _ _) Es) in IH.
        apply IH; [by left|right; split; [lia|by left]|done|]. intros ->. by destruct Hend.
      * apply Nat.eqb_neq in Es.
        specialize (IH (pre ++ [b]) (length line) (length line)
          (store ++ [take (length pre - strBegin) (drop strBegin line)]) Hline').
        rewrite Hpre in IH. unfold current in IH. rewrite Nat.eqb_refl in IH.
        destruct (ReadConfig.split_loop _ _ _ _ _ _) as [[b' e'] store'].
        rewrite IH; [|by left|by left|done|intros ->; by destruct Hend].
        rewrite <-app_assoc. f_equal. cbn [app].
        destruct (take (length pre - strBegin) (drop strBegin line)) as [|c w] eqn:E; [|done].
        apply (f_equal length) in E. rewrite length_take, length_drop in E. cbn in E. lia.
    + apply byte_eqb_false in Eb. destruct (strBegin =? length line)%nat eqn:Es; cbn [negb].
      * apply Nat.eqb_eq in Es. specialize (IH (pre ++ [b]) (length pre) strEnd store Hline').
        rewrite Hpre in IH. unfold current in IH.
        replace (length pre =? length line)%nat with false in IH by (symmetry; apply Nat.eqb_neq; lia).
        rewrite (current_step line pre b rest (length pre)) in IH by (done || lia).
        rewrite Nat.sub_diag in IH. cbn [take app] in IH. apply IH; [right; lia| |done|lia].
        destruct He as [?|[? _]]; [by left|right; lia].
      * apply Nat.eqb_neq in Es. specialize (IH (pre ++ [b]) strBegin strEnd store Hline').
        rewrite Hpre in IH. unfold current in IH. rewrite (proj2 (Nat.eqb_neq _ _) Es) in IH.
        rewrite (current_step line pre b rest strBegin) in IH by (done || lia).
        apply IH; [right; lia| |done|lia]. destruct He as [?|[? ?]]; [by left|right; lia].
Qed.

(** On a line that [removeSpace] has left without blanks at its
    end, [splitArgs] returns the words of the line, the first one as the key: the
    iterator that is sometimes left pointing before the last word (and then gives a
    negative length) does no harm. *)
Theorem splitArgs_words (line : list byte) :
  line ≠ [] → (∀ b, last line = Some b → b ≠ c_space) →
  ∃ w ws, words line = w :: ws ∧ ReadConfig.splitArgs line = (w, ws).
Proof.
  intros Hne Hlast.
  assert (∃ b e store, ReadConfig.split_loop line line 0 (length line) (length line) [] = (b, e, store) ∧
    store ++ [ReadConfig.substr line b e] = words line) as (b & e & store & E & Hw).
  { pose proof (split_loop_words line [] line (length line) (length line) [] eq_refl) as H. cbn [length] in H.
    destruct (ReadConfig.split_loop line line 0 (length line) (length line) []) as [[b e] store].
    eexists _, _, _. split; [done|]. rewrite H; [|by left|by left|done|done].
    unfold words, current. by rewrite Nat.eqb_refl. }
  unfold ReadConfig.splitArgs. destruct line as [|c line]; [done|]. rewrite E, Hw.
  destruct (words (c :: line)) as [|w ws]; [by destruct store|]. by eexists _, _.
Qed.

Lemma splitArgs_words_witness :
  ReadConfig.splitArgs (bytes_of "host    0.0.0.0") = (bytes_of "host", [bytes_of "0.0.0.0"]).
Proof.
  destruct (splitArgs_words (bytes_of "host    0.0.0.0")) as (w & ws & Hw & ->); [done| |].
  - intros b [= <-]. done.
  - vm_compute in Hw. by injection Hw as <- <-.
Defined.

(** A file in the format of server.conf. *)
Example readConfig_example :
  ReadConfig.readConfig (Some (bytes_of "#ip" ++ [Init.Byte.x0d; c_nl] ++ bytes_of "host    0.0.0.0" ++
    [Init.Byte.x0d; c_nl; Init.Byte.x0d; c_nl] ++ bytes_of " daemon no " ++ [Init.Byte.x0d; c_nl]))
  = Ok [(bytes_of "daemon", bytes_of "no"); (bytes_of "host", bytes_of "0.0.0.0")].
Proof. vm_compute. reflexivity. Qed.

Lemma config_roundtrip_witness :
  LoadFile "f" (Some (bytes_of "a=b" ++ [c_nl] ++ bytes_of "Z = c=d #x" ++ [c_nl]))
    = Ok (mk (Some true) [(bytes_of "Z", bytes_of "c=d"); (bytes_of "a", bytes_of "b")] "f") ∧
  LoadFile "f" (Some (bytes_of "Z=c=d" ++ [c_nl] ++ bytes_of "a=b" ++ [c_nl]))
    = Ok (mk (Some true) [(bytes_of "Z", bytes_of "c=d"); (bytes_of "a", bytes_of "b")] "f").
Proof.
  split; [vm_compute; reflexivity|].
  apply (config_roundtrip "f" (bytes_of "a=b" ++ [c_nl] ++ bytes_of "Z = c=d #x" ++ [c_nl])
    (mk (Some true) [(bytes_of "Z", bytes_of "c=d"); (bytes_of "a", bytes_of "b")] "f")).
  - vm_compute. reflexivity.
  - repeat constructor.
Defined.
