(* ===== verification/Buffer.v ===== *)
(** * Buffer.h, Buffer.cc: the byte buffer of a connection

    The three regions of [buffer_] (prependable, readable, writable) are delimited
    by two [size_t] indices.  A [const char*] into the buffer is the index it
    points at.  The abstract state of a buffer is the sequence of its readable
    bytes, [Buffer.content]. *)
From S2P Require Import Prelude.

Module Buffer.

Definition kCheapPrepend : Z := 8.
Definition kInitialSize : Z := 1024.

Record t := mk {
  buffer_ : list byte;
  readerIndex_ : Z;
  writerIndex_ : Z
}.

(** ** Operations *)

Definition readableBytes (b : t) : Z := u64 (writerIndex_ b - readerIndex_ b).
Definition writableBytes (b : t) : Z := u64 (zlen (buffer_ b) - writerIndex_ b).
Definition prependableBytes (b : t) : Z := readerIndex_ b.

(** The constructor, with its three assertions. *)
Definition make (initialSize : Z) : res t :=
  let b := mk (zrep (u64 (kCheapPrepend + initialSize)) x00) kCheapPrepend kCheapPrepend in
  _ ← cassert (readableBytes b =? 0);
  _ ← cassert (writableBytes b =? initialSize);
  _ ← cassert (prependableBytes b =? kCheapPrepend);
  mret b.

(** [swap] exchanges the two objects: the pair (this, rhs) after the call. *)
Definition swap (b rhs : t) : t * t :=
  (mk (buffer_ rhs) (readerIndex_ rhs) (writerIndex_ rhs),
   mk (buffer_ b) (readerIndex_ b) (writerIndex_ b)).

Definition peek (b : t) : Z := readerIndex_ b.
Definition beginWrite (b : t) : Z := writerIndex_ b.

(** The bytes at the indices [i <= _ < j], what [std::search] and [memchr] look
    through. *)
Definition range (b : t) (i j : Z) : res (list byte) := mem_read (buffer_ b) i (j - i).

(** [std::search] for the two characters of [kCRLF]: the offset of the first match. *)
Fixpoint search_crlf (l : list byte) : option Z :=
  match l with
  | x :: ((y :: _) as l') =>
      if byte_eqb x Init.Byte.x0d && byte_eqb y Init.Byte.x0a then Some 0
      else Z.succ <$> search_crlf l'
  | _ => None
  end.

(** [memchr]: the offset of the first occurrence of [c]. *)
Fixpoint memchr (c : byte) (l : list byte) : option Z :=
  match l with
  | [] => None
  | x :: l' => if byte_eqb x c then Some 0 else Z.succ <$> memchr c l'
  end.

Definition findCRLF (b : t) : res (option Z) :=
  l ← range b (peek b) (beginWrite b);
  mret (Z.add (peek b) <$> search_crlf l).

Definition findCRLF_from (b : t) (start : Z) : res (option Z) :=
  _ ← cassert (peek b <=? start);
  _ ← cassert (start <=? beginWrite b);
  l ← range b start (beginWrite b);
  mret (Z.add start <$> search_crlf l).

Definition findEOL (b : t) : res (option Z) :=
  l ← mem_read (buffer_ b) (peek b) (readableBytes b);
  mret (Z.add (peek b) <$> memchr Init.Byte.x0a l).

Definition findEOL_from (b : t) (start : Z) : res (option Z) :=
  _ ← cassert (peek b <=? start);
  _ ← cassert (start <=? beginWrite b);
  l ← range b start (beginWrite b);
  mret (Z.add start <$> memchr Init.Byte.x0a l).

Definition retrieveAll (b : t) : t := mk (buffer_ b) kCheapPrepend kCheapPrepend.

Definition retrieve (b : t) (len : Z) : res t :=
  _ ← cassert (len <=? readableBytes b);
  if len <? readableBytes b
  then mret (mk (buffer_ b) (u64 (readerIndex_ b + len)) (writerIndex_ b))
  else mret (retrieveAll b).

Definition retrieveUntil (b : t) (end_ : Z) : res t :=
  _ ← cassert (peek b <=? end_);
  _ ← cassert (end_ <=? beginWrite b);
  retrieve b (end_ - peek b).

Definition retrieveInt64 (b : t) : res t := retrieve b 8.
Definition retrieveInt32 (b : t) : res t := retrieve b 4.
Definition retrieveInt16 (b : t) : res t := retrieve b 2.
Definition retrieveInt8 (b : t) : res t := retrieve b 1.

Definition retrieveAsString (b : t) (len : Z) : res (list byte * t) :=
  _ ← cassert (len <=? readableBytes b);
  result ← mem_read (buffer_ b) (peek b) len;
  b' ← retrieve b len;
  mret (result, b').

Definition retrieveAllAsString (b : t) : res (list byte * t) :=
  retrieveAsString b (readableBytes b).

(** [toString] converts the length to [int] first. *)
Definition toString (b : t) : res (list byte) :=
  mem_read (buffer_ b) (peek b) (i32 (readableBytes b)).

Definition hasWritten (b : t) (len : Z) : res t :=
  _ ← cassert (len <=? writableBytes b);
  mret (mk (buffer_ b) (readerIndex_ b) (u64 (writerIndex_ b + len))).

Definition unwrite (b : t) (len : Z) : res t :=
  _ ← cassert (len <=? readableBytes b);
  mret (mk (buffer_ b) (readerIndex_ b) (u64 (writerIndex_ b - len))).

(** [std::vector<char>::resize]; [max_size()] of a byte vector is [2^63 - 1]. *)
Definition resize (l : list byte) (n : Z) : res (list byte) :=
  if 2 ^ 63 - 1 <? n then Fault (Throw "length_error")
  else mret (ztake n l ++ zrep (n - zlen l) x00).

Definition makeSpace (b : t) (len : Z) : res t :=
  if u64 (writableBytes b + prependableBytes b) <? u64 (len + kCheapPrepend)
  then
    l ← resize (buffer_ b) (u64 (writerIndex_ b + len));
    mret (mk l (readerIndex_ b) (writerIndex_ b))
  else
    _ ← cassert (kCheapPrepend <? readerIndex_ b);
    let readable := readableBytes b in
    d ← range b (readerIndex_ b) (writerIndex_ b);
    l ← mem_write (buffer_ b) kCheapPrepend d;
    let b' := mk l kCheapPrepend (u64 (kCheapPrepend + readable)) in
    _ ← cassert (readable =? readableBytes b');
    mret b'.

Definition ensureWritableBytes (b : t) (len : Z) : res t :=
  b' ← (if writableBytes b <? len then makeSpace b len else mret b);
  _ ← cassert (len <=? writableBytes b');
  mret b'.

Definition append (b : t) (data : list byte) : res t :=
  b1 ← ensureWritableBytes b (zlen data);
  l ← mem_write (buffer_ b1) (beginWrite b1) data;
  hasWritten (mk l (readerIndex_ b1) (writerIndex_ b1)) (zlen data).

Definition appendInt64 (b : t) (x : Z) : res t := append b (be_bytes 8 x).
Definition appendInt32 (b : t) (x : Z) : res t := append b (be_bytes 4 x).
Definition appendInt16 (b : t) (x : Z) : res t := append b (be_bytes 2 x).
Definition appendInt8 (b : t) (x : Z) : res t := append b (be_bytes 1 x).

(** [memcpy] into an [intN_t] followed by [beNtoh]. *)
Definition peekInt (n : nat) (b : t) : res Z :=
  _ ← cassert (Z.of_nat n <=? readableBytes b);
  d ← mem_read (buffer_ b) (peek b) (Z.of_nat n);
  mret (sN (8 * Z.of_nat n) (be_value d)).

Definition peekInt64 : t → res Z := peekInt 8.
Definition peekInt32 : t → res Z := peekInt 4.
Definition peekInt16 : t → res Z := peekInt 2.
Definition peekInt8 : t → res Z := peekInt 1.

Definition readInt64 (b : t) : res (Z * t) :=
  result ← peekInt64 b; b' ← retrieveInt64 b; mret (result, b').
Definition readInt32 (b : t) : res (Z * t) :=
  result ← peekInt32 b; b' ← retrieveInt32 b; mret (result, b').
Definition readInt16 (b : t) : res (Z * t) :=
  result ← peekInt16 b; b' ← retrieveInt16 b; mret (result, b').
Definition readInt8 (b : t) : res (Z * t) :=
  result ← peekInt8 b; b' ← retrieveInt8 b; mret (result, b').

Definition prepend (b : t) (data : list byte) : res t :=
  _ ← cassert (zlen data <=? prependableBytes b);
  let r := u64 (readerIndex_ b - zlen data) in
  l ← mem_write (buffer_ b) r data;
  mret (mk l r (writerIndex_ b)).

Definition prependInt64 (b : t) (x : Z) : res t := prepend b (be_bytes 8 x).
Definition prependInt32 (b : t) (x : Z) : res t := prepend b (be_bytes 4 x).
Definition prependInt16 (b : t) (x : Z) : res t := prepend b (be_bytes 2 x).
Definition prependInt8 (b : t) (x : Z) : res t := prepend b (be_bytes 1 x).

Definition shrink (b : t) (reserve : Z) : res t :=
  other ← make kInitialSize;
  other ← ensureWritableBytes other (u64 (readableBytes b + reserve));
  s ← toString b;
  other ← append other s;
  mret (swap b other).1.

(** The room [readFd] adds on the stack. *)
Definition extrabuf_size : Z := 65536.

(** What [readv] reports: the bytes it delivered, or an error number. *)
Inductive read_result :=
  | ReadBytes (data : list byte)
  | ReadError (errno : Z).

(** The room offered to [readv]: the writable region, and [extrabuf] when that
    region is smaller than [extrabuf]. *)
Definition readFd_room (b : t) : Z :=
  writableBytes b + (if writableBytes b <? extrabuf_size then extrabuf_size else 0).

(** [readFd] given what [readv] did; returns [n], the saved errno and the buffer.
    [readv] fills the writable region first, then [extrabuf]. *)
Definition readFd (b : t) (r : read_result) : res (Z * Z * t) :=
  match r with
  | ReadError errno => mret (-1, errno, b)
  | ReadBytes data =>
      let writable := writableBytes b in
      let n := zlen data in
      if readFd_room b <? n then Fault UB else
      l ← mem_write (buffer_ b) (beginWrite b) (ztake writable data);
      if n <=? writable
      then mret (n, 0, mk l (readerIndex_ b) (u64 (writerIndex_ b + n)))
      else
        let b' := mk l (readerIndex_ b) (zlen l) in
        b'' ← append b' (zdrop writable data);
        mret (n, 0, b'')
  end.

(** ** Invariant and abstract state *)

(** The order of the indices that the header's picture shows, for a buffer of a
    possible size. *)
Record wf (b : t) : Prop := {
  wf_reader : 0 <= readerIndex_ b;
  wf_order : readerIndex_ b <= writerIndex_ b;
  wf_writer : writerIndex_ b <= zlen (buffer_ b);
  wf_prepend : kCheapPrepend <= zlen (buffer_ b);
  wf_size : zlen (buffer_ b) < 2 ^ 62
}.

Definition content (b : t) : list byte :=
  zslice (readerIndex_ b) (writerIndex_ b) (buffer_ b).

End Buffer.

(** ** The operations implement a queue of bytes *)

Section Specs.
Import Buffer.
Implicit Types (b : Buffer.t) (d : list byte).

Lemma readable_wf b : wf b → readableBytes b = writerIndex_ b - readerIndex_ b.
Proof. intros []. unfold readableBytes. apply uN_small. lia. Qed.

Lemma writable_wf b : wf b → writableBytes b = zlen (buffer_ b) - writerIndex_ b.
Proof. intros []. unfold writableBytes. apply uN_small. lia. Qed.

Lemma zlen_content b : wf b → zlen (content b) = readableBytes b.
Proof. intros Hb. rewrite readable_wf by done. destruct Hb. apply zlen_slice; lia. Qed.

Lemma readable_content b : wf b → readableBytes b = zlen (content b).
Proof. intros. by rewrite zlen_content. Qed.

Lemma make_spec n :
  0 <= n → n + 8 < 2 ^ 62 →
  ∃ b, make n = Ok b ∧ wf b ∧ content b = [] ∧ zlen (buffer_ b) = n + 8 ∧
       readerIndex_ b = 8 ∧ writerIndex_ b = 8.
Proof.
  intros. unfold make. rewrite uN_small by (unfold kCheapPrepend; lia).
  set (b := mk _ _ _).
  assert (Hl : zlen (buffer_ b) = n + 8).
  { cbn. unfold kCheapPrepend. rewrite zlen_rep; lia. }
  assert (wf b) as Hwf by (split; cbn -[zrep] in *; unfold kCheapPrepend in *; lia).
  rewrite readable_wf, writable_wf by done. rewrite Hl.
  unfold prependableBytes. cbn -[zrep kCheapPrepend].
  rewrite !cassert_true by (unfold kCheapPrepend; lia). cbn -[zrep].
  exists b. rewrite Hl. by split_and!.
Qed.

Lemma wf_retrieveAll b : wf b → wf (retrieveAll b).
Proof. intros []. split; cbn; unfold kCheapPrepend in *; lia. Qed.

Lemma content_retrieveAll b : content (retrieveAll b) = [].
Proof. apply zslice_empty. Qed.

Lemma retrieve_spec b n :
  wf b → 0 <= n <= zlen (content b) →
  ∃ b', retrieve b n = Ok b' ∧ wf b' ∧ content b' = zdrop n (content b) ∧
        buffer_ b' = buffer_ b.
Proof.
  intros Hwf Hn. rewrite zlen_content in Hn by done. unfold retrieve.
  rewrite cassert_true by lia. cbn -[retrieveAll]. split_ifs.
  - pose proof (readable_wf b Hwf) as Hr. destruct Hwf.
    eexists; split; [done|]. rewrite uN_small by lia.
    split_and!; [split; cbn; lia| |done].
    unfold content; cbn. rewrite zdrop_slice by lia. done.
  - exists (retrieveAll b). split_and!; [done|by apply wf_retrieveAll| |done].
    rewrite content_retrieveAll, zdrop_ge; [done|]. rewrite zlen_content by done. lia.
Qed.

Lemma retrieve_reader b b' n :
  wf b → 0 <= n <= zlen (content b) → retrieve b n = Ok b' →
  readerIndex_ b' = if n <? zlen (content b) then readerIndex_ b + n else 8.
Proof.
  intros Hwf Hn. rewrite zlen_content in * by done. unfold retrieve. rewrite cassert_true by lia.
  cbn [mbind res_bind]. rewrite readable_wf in * by done. destruct Hwf.
  destruct (_ <? _); intros [= <-]; [|done]. cbn. rewrite uN_small; lia.
Qed.

Lemma peek_read_spec b n :
  wf b → 0 <= n <= zlen (content b) →
  mem_read (buffer_ b) (peek b) n = Ok (ztake n (content b)).
Proof.
  intros Hwf Hn. rewrite zlen_content, readable_wf in Hn by done.
  pose proof Hwf as []. unfold peek. rewrite mem_read_ok by lia.
  unfold content. rewrite ztake_slice by lia. done.
Qed.

Lemma range_spec b i :
  wf b → readerIndex_ b <= i <= writerIndex_ b →
  range b i (beginWrite b) = Ok (zdrop (i - readerIndex_ b) (content b)).
Proof.
  intros Hwf Hi. pose proof Hwf as []. unfold range, beginWrite.
  rewrite mem_read_ok by lia. unfold content. rewrite zdrop_slice by lia.
  do 2 f_equal; lia.
Qed.

Lemma resize_spec l n :
  zlen l <= n → n <= 2 ^ 62 → resize l n = Ok (l ++ zrep (n - zlen l) x00).
Proof.
  intros. unfold resize. zif. by rewrite ztake_ge by lia.
Qed.

Lemma makeSpace_spec b len :
  wf b → writableBytes b < len → zlen (buffer_ b) + len < 2 ^ 62 →
  ∃ b', makeSpace b len = Ok b' ∧ wf b' ∧ content b' = content b ∧
        len <= writableBytes b' ∧ zlen (buffer_ b') <= zlen (buffer_ b) + len ∧
        Z.min 8 (readerIndex_ b) <= readerIndex_ b'.
Proof.
  intros Hwf Hlen Hsz. pose proof (writable_wf b Hwf) as Hw.
  pose proof (readable_wf b Hwf) as Hr. pose proof Hwf as [].
  unfold makeSpace, prependableBytes. unfold kCheapPrepend in *.
  rewrite !(uN_small 64) by lia. destruct (_ <? _) eqn:E.
  - rewrite resize_spec by lia. cbn. eexists; split; [done|].
    set (b' := mk _ _ _).
    assert (zlen (buffer_ b') = writerIndex_ b + len) as Hl.
    { cbn. rewrite zlen_app, zlen_rep by lia. lia. }
    assert (wf b') as Hb' by (split; unfold kCheapPrepend; rewrite ?Hl; cbn; lia).
    rewrite (writable_wf b'), Hl by done. split_and!; try (cbn; lia); [done|].
    unfold content; cbn. apply zslice_app_l; lia.
  - rewrite cassert_true by lia. cbn. rewrite range_spec by (done || lia).
    rewrite Z.sub_diag, zdrop_0. cbn.
    pose proof (zlen_content b Hwf) as Hc.
    rewrite mem_write_ok by lia. cbn. set (b' := mk _ _ _).
    assert (Hl : zlen (buffer_ b') = zlen (buffer_ b)).
    { cbn. rewrite !zlen_app, zlen_take, zlen_drop by lia. lia. }
    assert (wf b') as Hb'.
    { split; unfold kCheapPrepend; rewrite ?Hl; cbn; lia. }
    rewrite (readable_wf b') by done. cbn [writerIndex_ readerIndex_ b'].
    rewrite cassert_true by lia. cbn.
    eexists; split; [done|].
    rewrite (writable_wf b'), Hl by done. cbn [writerIndex_ readerIndex_ b'].
    split_and!; try lia; [done|].
    unfold content at 1; cbn [writerIndex_ readerIndex_ b' buffer_].
    rewrite <-Hc.
    rewrite zslice_write_after by lia. by rewrite zslice_empty.
Qed.

Lemma ensureWritableBytes_spec b len :
  wf b → 0 <= len → zlen (buffer_ b) + len < 2 ^ 62 →
  ∃ b', ensureWritableBytes b len = Ok b' ∧ wf b' ∧ content b' = content b ∧
        len <= writableBytes b' ∧ zlen (buffer_ b') <= zlen (buffer_ b) + len ∧
        Z.min 8 (readerIndex_ b) <= readerIndex_ b'.
Proof.
  intros Hwf Hlen Hsz. unfold ensureWritableBytes. destruct (_ <? _) eqn:E.
  - destruct (makeSpace_spec b len) as (b' & -> & ? & ? & ? & ? & ?); [done|lia|lia|].
    cbn. rewrite cassert_true by lia. cbn. eauto 10.
  - cbn. rewrite cassert_true by lia. cbn. exists b. split_and!; (done || lia).
Qed.

Lemma hasWritten_spec b d :
  wf b → zlen d <= writableBytes b →
  ∃ l, mem_write (buffer_ b) (beginWrite b) d = Ok l ∧ zlen l = zlen (buffer_ b) ∧
  ∃ b', hasWritten (mk l (readerIndex_ b) (writerIndex_ b)) (zlen d) = Ok b' ∧
        wf b' ∧ content b' = content b ++ d ∧ buffer_ b' = l ∧
        readerIndex_ b' = readerIndex_ b.
Proof.
  intros Hwf Hd. rewrite writable_wf in Hd by done. pose proof Hwf as [].
  pose proof (zlen_nonneg d). unfold beginWrite. rewrite mem_write_ok by lia.
  eexists; split; [done|]. set (l := ztake _ _ ++ _).
  assert (Hl : zlen l = zlen (buffer_ b)).
  { unfold l. rewrite !zlen_app, zlen_take, zlen_drop by lia. lia. }
  split; [done|].
  unfold hasWritten.
  rewrite writable_wf by (split; cbn [readerIndex_ writerIndex_ buffer_]; lia).
  cbn [readerIndex_ writerIndex_ buffer_].
  rewrite cassert_true by lia. cbn -[l]. eexists; split; [done|].
  rewrite uN_small by lia.
  split_and!; [split; cbn [readerIndex_ writerIndex_ buffer_]; lia| |done..].
  unfold content; cbn [readerIndex_ writerIndex_ buffer_].
  apply zslice_write_after; lia.
Qed.

Lemma append_spec b d :
  wf b → zlen (buffer_ b) + zlen d < 2 ^ 62 →
  ∃ b', append b d = Ok b' ∧ wf b' ∧ content b' = content b ++ d ∧
        zlen (buffer_ b') <= zlen (buffer_ b) + zlen d ∧
        Z.min 8 (readerIndex_ b) <= readerIndex_ b'.
Proof.
  intros Hwf Hsz. unfold append.
  destruct (ensureWritableBytes_spec b (zlen d)) as (b1 & -> & ? & Hc & Hw & ? & ?);
    [done|apply zlen_nonneg|done|].
  destruct (hasWritten_spec b1 d) as (l & Hm & Hl & b' & Hb' & ? & ? & ? & Hr); [done..|].
  cbn. rewrite Hm. cbn. rewrite Hb'. exists b'. rewrite <-Hc.
  split_and!; [done..|congruence|lia].
Qed.

Lemma prepend_spec b d :
  wf b → zlen d <= readerIndex_ b →
  ∃ b', prepend b d = Ok b' ∧ wf b' ∧ content b' = d ++ content b ∧
        zlen (buffer_ b') = zlen (buffer_ b) ∧ writerIndex_ b' = writerIndex_ b ∧
        readerIndex_ b' = readerIndex_ b - zlen d.
Proof.
  intros Hwf Hd. pose proof Hwf as []. pose proof (zlen_nonneg d).
  unfold prepend, prependableBytes. rewrite cassert_true by lia. cbn.
  rewrite uN_small by lia. rewrite mem_write_ok by lia. cbn.
  eexists; split; [done|].
  set (l := ztake _ _ ++ _). assert (Hl : zlen l = zlen (buffer_ b)).
  { unfold l. rewrite !zlen_app, zlen_take, zlen_drop by lia. lia. }
  split_and!; [split; cbn [readerIndex_ writerIndex_ buffer_]; lia| |done..].
  unfold content, l; cbn [readerIndex_ writerIndex_ buffer_].
  rewrite zslice_write_before by lia. do 2 f_equal. lia.
Qed.

Lemma unwrite_spec b n :
  wf b → 0 <= n <= zlen (content b) →
  ∃ b', unwrite b n = Ok b' ∧ wf b' ∧ content b' = ztake (zlen (content b) - n) (content b) ∧
        buffer_ b' = buffer_ b ∧ readerIndex_ b' = readerIndex_ b.
Proof.
  intros Hwf Hn. rewrite zlen_content in Hn |- * by done. unfold unwrite.
  rewrite cassert_true by lia. cbn. rewrite readable_wf in Hn |- * by done.
  destruct Hwf. eexists; split; [done|]. rewrite uN_small by lia.
  split_and!; [split; cbn; lia| |done..].
  unfold content; cbn. rewrite ztake_slice by lia. f_equal. lia.
Qed.

Lemma readFd_spec b d :
  wf b → zlen d <= readFd_room b → zlen (buffer_ b) + Z.min (zlen d) extrabuf_size < 2 ^ 62 →
  ∃ b', readFd b (ReadBytes d) = Ok (zlen d, 0, b') ∧ wf b' ∧
        content b' = content b ++ d ∧
        zlen (buffer_ b') <= zlen (buffer_ b) + Z.min (zlen d) extrabuf_size ∧
        Z.min 8 (readerIndex_ b) <= readerIndex_ b'.
Proof.
  intros Hwf Hroom Hsz. unfold readFd. zif. unfold readFd_room, extrabuf_size in *. pose proof (zlen_nonneg d).
  pose proof (writable_wf b Hwf) as Hw. pose proof Hwf as [].
  destruct (hasWritten_spec b (ztake (writableBytes b) d)) as
    (l & Hm & Hl & b1 & Hb1 & Hwf1 & Hc1 & Hbuf & Hr1); [done| |].
  { unfold zlen, ztake. rewrite length_take. lia. }
  rewrite Hm. cbn. destruct (_ <=? _) eqn:E; cbn.
  - rewrite ztake_ge in * by lia. exists b1. rewrite Hc1, Hbuf, Hl.
    rewrite Hr1. split_and!; [|done..|unfold extrabuf_size; lia|lia]. unfold hasWritten in Hb1. by inv_res; subst.
  - assert (zlen d - writableBytes b <= 65536) as Hext by (destruct (writableBytes b <? 65536) eqn:?; lia).
    assert (zlen (ztake (writableBytes b) d) = writableBytes b) as Ht
      by (apply zlen_take; lia).
    set (b' := mk l _ _). assert (b1 = b') as ->.
    { unfold hasWritten in Hb1. inv_res. subst b1. unfold b'. cbn. f_equal.
      rewrite Ht, uN_small by lia. lia. }
    destruct (append_spec b' (zdrop (writableBytes b) d)) as (b2 & -> & ? & Hc2 & Hs2 & Hr2).
    { done. }
    { cbn. rewrite Hl, zlen_drop by lia. lia. }
    cbn. exists b2. rewrite Hc2, Hc1, <-app_assoc, ztake_drop. split_and!; [done|done|done| |].
    + cbn in Hs2. rewrite zlen_drop in Hs2 by lia. lia.
    + exact Hr2.
Qed.

Lemma readFd_error b e : readFd b (ReadError e) = Ok (-1, e, b).
Proof. done. Qed.

(** Reading back an integer that was just appended in front of nothing. *)
Lemma peekInt_spec n b :
  wf b → Z.of_nat n <= zlen (content b) →
  peekInt n b = Ok (sN (8 * Z.of_nat n) (be_value (ztake (Z.of_nat n) (content b)))).
Proof.
  intros Hwf Hn. unfold peekInt. rewrite cassert_true by (rewrite readable_content by done; lia).
  cbn [mbind res_bind]. rewrite peek_read_spec by (done || lia). done.
Qed.

Lemma peekInt_app n b x c :
  wf b → (0 < n)%nat → content b = be_bytes n x ++ c →
  peekInt n b = Ok (sN (8 * Z.of_nat n) x).
Proof.
  intros Hwf Hn Hc. rewrite peekInt_spec by (done || (rewrite Hc; zl)).
  rewrite Hc, ztake_app_exact by (by rewrite zlen_be_bytes).
  rewrite be_value_bytes. fold (uN (8 * Z.of_nat n) x). rewrite sN_uN by lia. done.
Qed.

Lemma readInt_spec n b x c :
  wf b → content b = be_bytes (S n) x ++ c →
  ∃ b', (result ← peekInt (S n) b; b' ← retrieve b (Z.of_nat (S n)); mret (result, b'))
          = Ok (sN (8 * Z.of_nat (S n)) x, b') ∧ content b' = c.
Proof.
  intros Hwf Hc. rewrite (peekInt_app _ b x c) by (done || lia). cbn [mbind res_bind].
  destruct (retrieve_spec b (Z.of_nat (S n))) as (b' & -> & _ & Hc' & _);
    [done|rewrite Hc; zl|].
  exists b'. split; [done|]. rewrite Hc', Hc. apply zdrop_app_exact. by rewrite zlen_be_bytes.
Qed.

Lemma toString_spec b :
  wf b → zlen (content b) < 2 ^ 31 → toString b = Ok (content b).
Proof.
  intros Hwf Hs. unfold toString. rewrite readable_content by done.
  rewrite sN_small by (try lia; unfold in_sN; pose proof (zlen_nonneg (content b)); lia).
  pose proof (zlen_nonneg (content b)). rewrite peek_read_spec by (done || lia).
  by rewrite ztake_ge.
Qed.

Lemma shrink_spec b reserve :
  wf b → zlen (content b) < 2 ^ 31 → 0 <= reserve < 2 ^ 60 →
  ∃ b', shrink b reserve = Ok b' ∧ wf b' ∧ content b' = content b ∧
    zlen (buffer_ b') <= 2 * zlen (content b) + reserve + 1032 ∧ 8 <= readerIndex_ b'.
Proof.
  intros Hwf Hs Hres. unfold shrink. pose proof (zlen_nonneg (content b)).
  destruct (make_spec kInitialSize) as (o & -> & Hwo & Hco & Hlo & Hro & _);
    [by vm_compute|by vm_compute|].
  cbn [mbind res_bind]. rewrite readable_content by done. rewrite uN_small by lia.
  destruct (ensureWritableBytes_spec o (zlen (content b) + reserve)) as
    (o1 & -> & Hw1 & Hc1 & _ & Hs1 & Hr1); [done|lia|unfold kInitialSize in *; lia|].
  cbn [mbind res_bind]. rewrite toString_spec by done. cbn [mbind res_bind].
  destruct (append_spec o1 (content b)) as (o2 & -> & Hw2 & Hc2 & Hs2 & Hr2);
    [done|unfold kInitialSize in *; lia|].
  cbn. eexists; split; [done|]. unfold kInitialSize in *. destruct o2 as [l r w]. cbn [buffer_ readerIndex_] in *. split_and!; [done| |lia..].
  change (content (mk l r w) = content b). by rewrite Hc2, Hc1, Hco.
Qed.

(** The offsets that the searches return are those of the first match. *)
Lemma memchr_spec c l :
  match memchr c l with
  | Some i => 0 <= i < zlen l ∧ l !! Z.to_nat i = Some c ∧ c ∉ ztake i l
  | None => c ∉ l
  end.
Proof.
  induction l as [|x l IH]; cbn [memchr]; [set_solver|].
  rewrite byte_eqb_spec. case_bool_decide as E.
  - subst x. split_and!; [lia|zl|done|rewrite ztake_0; set_solver].
  - destruct (memchr c l) as [i|]; cbn; [|set_solver].
    destruct IH as (Hi & Hl & Hn). unfold ztake in *.
    replace (Z.to_nat (Z.succ i)) with (S (Z.to_nat i)) by lia.
    split_and!; [lia|zl|done|]. cbn [take]. set_solver.
Qed.

Definition crlf_at (l : list byte) (i : Z) : Prop :=
  l !! Z.to_nat i = Some Init.Byte.x0d ∧ l !! S (Z.to_nat i) = Some Init.Byte.x0a.

Lemma search_crlf_cons x y l :
  search_crlf (x :: y :: l) =
    if bool_decide (x = Init.Byte.x0d) && bool_decide (y = Init.Byte.x0a) then Some 0
    else Z.succ <$> search_crlf (y :: l).
Proof. rewrite <-!byte_eqb_spec. done. Qed.

Lemma search_crlf_spec l :
  match search_crlf l with
  | Some i => 0 <= i ∧ crlf_at l i ∧ ∀ j, 0 <= j < i → ¬ crlf_at l j
  | None => ∀ j, ¬ crlf_at l j
  end.
Proof.
  induction l as [|x [|y l] IH]; [by intros j []..| |].
  { intros j [H1 H2]. by destruct (Z.to_nat j). }
  rewrite search_crlf_cons. destruct (bool_decide _ && _) eqn:E.
  { apply andb_true_iff in E as [E1%bool_decide_eq_true E2%bool_decide_eq_true].
    subst. split_and!; [lia|done|lia]. }
  assert (¬ crlf_at (x :: y :: l) 0) as H0.
  { intros [[= ->] [= ->]]. done. }
  assert (∀ j, 0 < j → crlf_at (x :: y :: l) j ↔ crlf_at (y :: l) (j - 1)) as Hs.
  { intros j Hj. unfold crlf_at. replace (Z.to_nat j) with (S (Z.to_nat (j - 1))) by lia. done. }
  destruct (search_crlf (y :: l)) as [i|]; cbn.
  - destruct IH as (Hi & Hc & Hn). split_and!; [lia|apply Hs; [lia|]|].
    { by replace (Z.succ i - 1) with i by lia. }
    intros j Hj. destruct (decide (j = 0)) as [->|]; [done|]. rewrite Hs by lia. apply Hn. lia.
  - intros j. destruct (decide (j <= 0)).
    { unfold crlf_at in *. by replace (Z.to_nat j) with (Z.to_nat 0) by lia. }
    rewrite Hs by lia. apply IH.
Qed.

End Specs.

(** ** The abstract specification: a queue of bytes

    Every operation that changes a buffer, [swap] apart.  The integers are those of 1, 2, 4
    and 8 bytes. *)

Inductive width := W8 | W16 | W32 | W64.
Definition wbytes (k : width) : nat := match k with W8 => 1 | W16 => 2 | W32 => 4 | W64 => 8 end.

Inductive buf_op :=
  | OAppend (d : list byte)
  | OAppendInt (k : width) (x : Z)
  | OPrepend (d : list byte)
  | OPrependInt (k : width) (x : Z)
  | OWrite (d : list byte)
  | OReadFd (r : Buffer.read_result)
  | OEnsure (n : Z)
  | ORetrieve (n : Z)
  | ORetrieveUntil (n : Z)
  | ORetrieveInt (k : width)
  | ORetrieveAll
  | OUnwrite (n : Z)
  | OShrink (reserve : Z).

Definition run_appendInt (k : width) : Buffer.t → Z → res Buffer.t :=
  match k with
  | W8 => Buffer.appendInt8 | W16 => Buffer.appendInt16 | W32 => Buffer.appendInt32 | W64 => Buffer.appendInt64
  end.
Definition run_prependInt (k : width) : Buffer.t → Z → res Buffer.t :=
  match k with
  | W8 => Buffer.prependInt8 | W16 => Buffer.prependInt16 | W32 => Buffer.prependInt32 | W64 => Buffer.prependInt64
  end.
Definition run_retrieveInt (k : width) : Buffer.t → res Buffer.t :=
  match k with
  | W8 => Buffer.retrieveInt8 | W16 => Buffer.retrieveInt16 | W32 => Buffer.retrieveInt32 | W64 => Buffer.retrieveInt64
  end.

(** What one operation does to the buffer object.  [OWrite] is what callers of
    [beginWrite] do: make room, write there, report it with [hasWritten]. *)
Definition run_op (b : Buffer.t) (o : buf_op) : res Buffer.t :=
  match o with
  | OAppend d => Buffer.append b d
  | OAppendInt k x => run_appendInt k b x
  | OPrepend d => Buffer.prepend b d
  | OPrependInt k x => run_prependInt k b x
  | OWrite d =>
      b ← Buffer.ensureWritableBytes b (zlen d);
      l ← mem_write (Buffer.buffer_ b) (Buffer.beginWrite b) d;
      Buffer.hasWritten (Buffer.mk l (Buffer.readerIndex_ b) (Buffer.writerIndex_ b)) (zlen d)
  | OReadFd r => '(_, _, b') ← Buffer.readFd b r; mret b'
  | OEnsure n => Buffer.ensureWritableBytes b n
  | ORetrieve n => Buffer.retrieve b n
  | ORetrieveUntil n => Buffer.retrieveUntil b (Buffer.peek b + n)
  | ORetrieveInt k => run_retrieveInt k b
  | ORetrieveAll => mret (Buffer.retrieveAll b)
  | OUnwrite n => Buffer.unwrite b n
  | OShrink reserve => Buffer.shrink b reserve
  end.

(** The abstract state: the bytes, and how many of the eight bytes in front of them are
    certainly there for [prepend]. *)
Record queue := mkqueue { q_bytes : list byte; q_room : Z }.

Definition q_append (q : queue) (d : list byte) : option queue := Some (mkqueue (q_bytes q ++ d) (q_room q)).
Definition q_prepend (q : queue) (d : list byte) : option queue :=
  if zlen d <=? q_room q then Some (mkqueue (d ++ q_bytes q) (q_room q - zlen d)) else None.
Definition q_retrieve (q : queue) (n : Z) : option queue :=
  if (0 <=? n) && (n <=? zlen (q_bytes q)) then
    Some (mkqueue (zdrop n (q_bytes q)) (if n <? zlen (q_bytes q) then Z.min 8 (q_room q + n) else 8))
  else None.

(** What an operation means for the queue: [None] when its precondition does not hold. *)
Definition spec_op (q : queue) (o : buf_op) : option queue :=
  match o with
  | OAppend d | OWrite d => q_append q d
  | OAppendInt k x => q_append q (be_bytes (wbytes k) x)
  | OPrepend d => q_prepend q d
  | OPrependInt k x => q_prepend q (be_bytes (wbytes k) x)
  | OReadFd (Buffer.ReadBytes d) => if zlen d <=? 65536 then q_append q d else None
  | OReadFd (Buffer.ReadError _) => Some q
  | OEnsure n => if 0 <=? n then Some q else None
  | ORetrieve n | ORetrieveUntil n => q_retrieve q n
  | ORetrieveInt k => q_retrieve q (Z.of_nat (wbytes k))
  | ORetrieveAll => Some (mkqueue [] 8)
  | OUnwrite n =>
      if (0 <=? n) && (n <=? zlen (q_bytes q))
      then Some (mkqueue (ztake (zlen (q_bytes q) - n) (q_bytes q)) (q_room q)) else None
  | OShrink reserve =>
      if (0 <=? reserve) && (reserve <? 2 ^ 60) && (zlen (q_bytes q) <? 2 ^ 31) then Some (mkqueue (q_bytes q) 8) else None
  end.

(** How much the buffer can grow; [shrink] copies the bytes once more. *)
Definition op_cost (o : buf_op) : Z :=
  match o with
  | OAppend d | OWrite d => zlen d
  | OAppendInt k _ => Z.of_nat (wbytes k)
  | OReadFd (Buffer.ReadBytes d) => zlen d
  | OEnsure n => Z.max 0 n
  | OShrink reserve => 2 ^ 31 + Z.max 0 reserve + 1032
  | _ => 0
  end.

Fixpoint run_ops (b : Buffer.t) (os : list buf_op) : res Buffer.t :=
  match os with
  | [] => mret b
  | o :: os' => b' ← run_op b o; run_ops b' os'
  end.

Fixpoint spec_ops (q : queue) (os : list buf_op) : option queue :=
  match os with
  | [] => Some q
  | o :: os' => q' ← spec_op q o; spec_ops q' os'
  end.

Definition ops_cost (os : list buf_op) : Z := foldr (λ o acc, op_cost o + acc) 0 os.

(** The buffer [b] stands for the queue [q]. *)
Record stands_for (b : Buffer.t) (q : queue) : Prop := {
  sf_wf : Buffer.wf b;
  sf_bytes : Buffer.content b = q_bytes q;
  sf_room : 0 <= q_room q <= 8;
  sf_front : q_room q <= Buffer.prependableBytes b
}.

Lemma op_cost_nonneg o : 0 <= op_cost o.
Proof. destruct o as [d|k x|d|k x|d|[d|e]|n|n|n|k| |n|n]; cbn; zpos; lia. Qed.

Lemma ops_cost_nonneg os : 0 <= ops_cost os.
Proof.
  induction os as [|o os IH]; [done|]. change (0 <= op_cost o + ops_cost os).
  pose proof (op_cost_nonneg o). lia.
Qed.

Lemma readFd_room_ge b : Buffer.wf b → 65536 <= Buffer.readFd_room b.
Proof.
  intros Hwf. unfold Buffer.readFd_room, Buffer.extrabuf_size.
  pose proof (writable_wf b Hwf). destruct Hwf. split_ifs; lia.
Qed.

(** The conclusion of the simulation of one operation. *)
Definition simulates (b : Buffer.t) (r : res Buffer.t) (cost : Z) (q' : queue) : Prop :=
  ∃ b', r = Ok b' ∧ stands_for b' q' ∧ zlen (Buffer.buffer_ b') <= zlen (Buffer.buffer_ b) + cost.

Lemma append_sim b q d q' :
  stands_for b q → zlen (Buffer.buffer_ b) + zlen d < 2 ^ 62 → q_append q d = Some q' →
  simulates b (Buffer.append b d) (zlen d) q'.
Proof.
  intros [Hwf Hc Hr Hf] Hsz [= <-]. destruct (append_spec b d) as (b' & E & ? & Hc' & ? & ?); [done..|].
  exists b'. split; [done|]. split; [|done]. unfold Buffer.prependableBytes in *.
  split; unfold Buffer.prependableBytes; cbn [q_bytes q_room]; [done|by rewrite Hc', Hc|lia..].
Qed.

Lemma prepend_sim b q d q' :
  stands_for b q → q_prepend q d = Some q' → simulates b (Buffer.prepend b d) 0 q'.
Proof.
  intros [Hwf Hc Hr Hf]. unfold q_prepend. case_match; [|done]. intros [= <-]. unfold Buffer.prependableBytes in Hf.
  destruct (prepend_spec b d) as (b' & E & ? & Hc' & ? & ? & ?); [done|lia|]. pose proof (zlen_nonneg d).
  exists b'. split; [done|]. split; [|lia].
  split; unfold Buffer.prependableBytes; cbn [q_bytes q_room]; [done|by rewrite Hc', Hc|lia..].
Qed.

Lemma retrieve_sim b q n q' :
  stands_for b q → q_retrieve q n = Some q' → simulates b (Buffer.retrieve b n) 0 q'.
Proof.
  intros [Hwf Hc Hr Hf]. unfold q_retrieve. case_match; [|done]. intros [= <-]. unfold Buffer.prependableBytes in Hf.
  destruct (retrieve_spec b n) as (b' & E & ? & Hc' & Hbuf); [done|rewrite Hc; lia|].
  pose proof (retrieve_reader b b' n Hwf ltac:(rewrite Hc; lia) E) as Hrd. rewrite Hc in Hrd.
  exists b'. split; [done|]. rewrite Hbuf. split; [|lia].
  split; unfold Buffer.prependableBytes; cbn [q_bytes q_room]; [done|by rewrite Hc', Hc|..]; rewrite ?Hrd; destruct (_ <? _); lia.
Qed.

Lemma run_op_sim b q o q' :
  stands_for b q → zlen (Buffer.buffer_ b) + op_cost o < 2 ^ 62 → spec_op q o = Some q' →
  simulates b (run_op b o) (op_cost o) q'.
Proof.
  intros Hsf Hsz Hq. pose proof Hsf as [Hwf Hc Hr Hf]. unfold Buffer.prependableBytes in Hf.
  destruct o as [d|k x|d|k x|d|[d|e]|n|n|n|k| |n|n]; cbn [spec_op op_cost run_op] in Hq, Hsz |- *.
  - by eapply append_sim.
  - pose proof (append_sim b q (be_bytes (wbytes k) x) q' Hsf) as H. rewrite zlen_be_bytes in H.
    specialize (H Hsz Hq). by destruct k.
  - by eapply prepend_sim.
  - pose proof (prepend_sim b q (be_bytes (wbytes k) x) q' Hsf Hq) as H. by destruct k.
  - by apply (append_sim b q d).
  - case_match; [|done]. injection Hq as <-. destruct (readFd_spec b d) as (b' & Hrd & ? & Hc' & ? & ?);
      [done|pose proof (readFd_room_ge b Hwf); lia|lia|].
    rewrite Hrd. exists b'. split; [done|]. split; [|lia].
    split; unfold Buffer.prependableBytes; cbn [q_bytes q_room]; [done|by rewrite Hc', Hc|lia..].
  - injection Hq as <-. exists b. split; [done|]. split; [done|lia].
  - case_match; [|done]. injection Hq as <-.
    destruct (ensureWritableBytes_spec b n) as (b' & E & ? & Hc' & ? & ? & ?); [done|lia|lia|].
    exists b'. split; [done|]. split; [|lia].
    split; unfold Buffer.prependableBytes; [done|by rewrite Hc', Hc|lia..].
  - by eapply retrieve_sim.
  - pose proof (retrieve_sim b q n q' Hsf Hq) as H. unfold q_retrieve in Hq. case_match eqn:En; [|done].
    unfold Buffer.retrieveUntil. pose proof (readable_content b Hwf) as Hrc. rewrite readable_wf, Hc in Hrc by done.
    unfold Buffer.beginWrite, Buffer.peek. rewrite !cassert_true by lia. cbn [mbind res_bind].
    by replace (Buffer.readerIndex_ b + n - Buffer.readerIndex_ b) with n by lia.
  - pose proof (retrieve_sim b q _ q' Hsf Hq) as H. by destruct k.
  - injection Hq as <-. exists (Buffer.retrieveAll b). split; [done|]. split; [|cbn; lia].
    split; [by apply wf_retrieveAll|apply content_retrieveAll|done..].
  - case_match; [|done]. injection Hq as <-.
    destruct (unwrite_spec b n) as (b' & E & ? & Hc' & Hbuf & Hrd); [done|rewrite Hc; lia|].
    exists b'. split; [done|]. rewrite Hbuf. split; [|lia].
    split; unfold Buffer.prependableBytes; cbn [q_bytes q_room]; [done|by rewrite Hc', Hc|lia..].
  - case_match; [|done]. injection Hq as <-. destruct (shrink_spec b n) as (b' & E & ? & Hc' & Hl & ?);
      [done|rewrite Hc; lia|lia|]. rewrite Hc in Hl.
    assert (zlen (q_bytes q) <= zlen (Buffer.buffer_ b)).
    { rewrite <-Hc, zlen_content, readable_wf by done. destruct Hwf. lia. }
    exists b'. split; [done|]. split; [|lia].
    split; unfold Buffer.prependableBytes; cbn [q_bytes q_room]; [done|by rewrite Hc', Hc|lia..].
Qed.

(** ** Properties *)

(** C28 (refinement). A buffer implements a queue of bytes that can also grow at its front,
    by as many of the eight bytes reserved there as are free.  Any sequence of [append],
    [prepend], the integers of every width, [readFd], [ensureWritableBytes] with
    [hasWritten], [retrieve] and its variants, [unwrite] and [shrink] that the queue
    accepts runs without a failed assertion or an access outside the vector, keeps the
    order of the indices, leaves in the readable region exactly the bytes of the queue, in
    order, and the room in front that the queue promises. *)
Theorem buffer_refines_queue (b : Buffer.t) (os : list buf_op) (q q' : queue) :
  stands_for b q → zlen (Buffer.buffer_ b) + ops_cost os < 2 ^ 62 →
  spec_ops q os = Some q' →
  ∃ b', run_ops b os = Ok b' ∧ stands_for b' q'.
Proof.
  revert b q. induction os as [|o os IH]; intros b q Hsf Hsz Hq.
  { exists b. cbn in Hq. naive_solver. }
  change (ops_cost (o :: os)) with (op_cost o + ops_cost os) in Hsz.
  cbn [run_ops spec_ops] in *. destruct (spec_op _ o) as [q1|] eqn:E; [|done].
  pose proof (ops_cost_nonneg os).
  destruct (run_op_sim b q o q1) as (b1 & -> & Hsf1 & Hs1); [done|lia|done|].
  apply (IH b1 q1); [done|lia|done].
Qed.

(** A fresh buffer: append "ab", read 3 bytes, put the length in front, drop it and the
    first 2, shrink, append "z". *)
Lemma buffer_refines_queue_witness :
  ∃ b, Buffer.make 4 = Ok b ∧
  ∃ b', run_ops b [OAppend (bytes_of "ab"); OReadFd (Buffer.ReadBytes (bytes_of "cde")); OPrependInt W32 5;
                   ORetrieveInt W32; ORetrieve 2; OShrink 10; OAppend (bytes_of "z")] = Ok b' ∧
        Buffer.wf b' ∧ Buffer.content b' = bytes_of "cdez".
Proof.
  eexists; split; [reflexivity|].
  edestruct (buffer_refines_queue (Buffer.mk (zrep 12 x00) 8 8) [OAppend (bytes_of "ab"); OReadFd (Buffer.ReadBytes (bytes_of "cde"));
      OPrependInt W32 5; ORetrieveInt W32; ORetrieve 2; OShrink 10; OAppend (bytes_of "z")] (mkqueue [] 8)
      (mkqueue (bytes_of "cdez") 8)) as (b' & E & [Hwf Hc _ _]).
  - split; [split; vm_compute; congruence|reflexivity|done|done].
  - vm_compute. reflexivity.
  - vm_compute. reflexivity.
  - exists b'. split; [exact E|]. split; [exact Hwf|exact Hc].
Defined.

(** Integers travel in network order: when the readable bytes
    start with the bytes that [appendIntN]/[prependIntN] write for [x], [readIntN]
    returns [x] (converted to the signed type) and consumes exactly those bytes. *)
Theorem readInt_network_order (b : Buffer.t) (x : Z) (c : list byte) :
  Buffer.wf b →
  (Buffer.content b = be_bytes 8 x ++ c →
     ∃ b', Buffer.readInt64 b = Ok (i64 x, b') ∧ Buffer.content b' = c) ∧
  (Buffer.content b = be_bytes 4 x ++ c →
     ∃ b', Buffer.readInt32 b = Ok (i32 x, b') ∧ Buffer.content b' = c) ∧
  (Buffer.content b = be_bytes 2 x ++ c →
     ∃ b', Buffer.readInt16 b = Ok (i16 x, b') ∧ Buffer.content b' = c) ∧
  (Buffer.content b = be_bytes 1 x ++ c →
     ∃ b', Buffer.readInt8 b = Ok (i8 x, b') ∧ Buffer.content b' = c).
Proof.
  intros Hwf. split_and!; intros Hc.
  - by apply (readInt_spec 7).
  - by apply (readInt_spec 3).
  - by apply (readInt_spec 1).
  - by apply (readInt_spec 0).
Qed.

Lemma readInt_network_order_witness :
  ∃ b', Buffer.readInt32 (Buffer.mk (bytes_of "01234567" ++ be_bytes 4 (-7) ++ bytes_of "x") 8 13)
          = Ok (-7, b') ∧ Buffer.content b' = bytes_of "x".
Proof.
  apply (proj1 (proj2 (readInt_network_order
    (Buffer.mk (bytes_of "01234567" ++ be_bytes 4 (-7) ++ bytes_of "x") 8 13)
    (-7) (bytes_of "x") ltac:(split; vm_compute; congruence)))).
  reflexivity.
Defined.

(** [findCRLF] and [findEOL] never leave the readable region:
    they return the index of the first ["\r\n"] (resp. ['\n']) of the content,
    and NULL exactly when the content has none. *)
Theorem find_first (b : Buffer.t) :
  Buffer.wf b →
  (∃ r, Buffer.findCRLF b = Ok r ∧
    match r with
    | Some p => let i := p - Buffer.readerIndex_ b in
        0 <= i ∧ crlf_at (Buffer.content b) i ∧
        ∀ j, 0 <= j < i → ¬ crlf_at (Buffer.content b) j
    | None => ∀ j, ¬ crlf_at (Buffer.content b) j
    end) ∧
  (∃ r, Buffer.findEOL b = Ok r ∧
    match r with
    | Some p => let i := p - Buffer.readerIndex_ b in
        0 <= i < zlen (Buffer.content b) ∧
        Buffer.content b !! Z.to_nat i = Some Init.Byte.x0a ∧
        Init.Byte.x0a ∉ ztake i (Buffer.content b)
    | None => Init.Byte.x0a ∉ Buffer.content b
    end).
Proof.
  intros Hwf. unfold Buffer.findCRLF, Buffer.findEOL. rewrite readable_content by done.
  rewrite range_spec by (destruct Hwf; unfold Buffer.peek; done || lia).
  rewrite peek_read_spec by (done || zl). rewrite ztake_ge by done.
  unfold Buffer.peek. rewrite Z.sub_diag, zdrop_0. cbn [mbind res_bind].
  split; eexists; (split; [reflexivity|]).
  - pose proof (search_crlf_spec (Buffer.content b)) as H.
    destruct (Buffer.search_crlf _) as [i|]; cbn; [|done].
    by replace (Buffer.readerIndex_ b + i - Buffer.readerIndex_ b) with i by lia.
  - pose proof (memchr_spec Init.Byte.x0a (Buffer.content b)) as H.
    destruct (Buffer.memchr _ _) as [i|]; cbn; [|done].
    by replace (Buffer.readerIndex_ b + i - Buffer.readerIndex_ b) with i by lia.
Qed.

Lemma find_first_witness :
  (∃ r, Buffer.findCRLF (Buffer.mk (bytes_of "01234567ab") 8 10) = Ok r ∧ r = None).
Proof.
  destruct (proj1 (find_first (Buffer.mk (bytes_of "01234567ab") 8 10)
    ltac:(split; vm_compute; congruence))) as (r & Hr & _).
  exists r. split; [exact Hr|]. vm_compute in Hr. congruence.
Defined.
