(* ===== verification/ProtobufCodec.v ===== *)
(** * codec.h, codec.cc: the framing of protobuf messages

    A message travels as
    [len | nameLen | typeName NUL | protobufData | checkSum], the integers in
    network order and [checkSum] the adler32 of what lies between [len] and itself.
    The protobuf runtime and zlib are parameters: the classes [Protobuf] and [Zlib]
    are their interfaces, [ProtobufLaws] what the codec relies on. *)
From S2P Require Import Prelude Buffer.

(** ** What the codec uses of the protobuf runtime and of zlib *)

Class Protobuf := {
  Message : Type;
  Descriptor : Type;
  GetTypeName : Message → list byte;
  GetDescriptor : Message → Descriptor;
  FindMessageTypeByName : list byte → option Descriptor;
  GetPrototype : Descriptor → option Message;
  New : Message → Message;
  ByteSize : Message → Z;
  SerializeWithCachedSizesToArray : Message → list byte;
  (* the returned flag, and the message object afterwards *)
  ParseFromArray : Message → list byte → bool * Message
}.

Class Zlib := adler32 : Z → list byte → Z.

(** Documented behaviour: [ByteSize] is the size of the serialization, generated
    types are found by their (non-empty, NUL-free) full name, and parsing the
    serialization of a message into a fresh object of its type gives the message. *)
Class ProtobufLaws (P : Protobuf) : Prop := {
  ByteSize_serialize (m : Message) :
    ByteSize m = zlen (SerializeWithCachedSizesToArray m);
  GetTypeName_nonempty (m : Message) : 1 <= zlen (GetTypeName m);
  parse_serialize (m : Message) :
    ∃ proto, FindMessageTypeByName (GetTypeName m) = Some (GetDescriptor m) ∧
      GetPrototype (GetDescriptor m) = Some proto ∧
      ParseFromArray (New proto) (SerializeWithCachedSizesToArray m) = (true, m)
}.

Module ProtobufCodec.

Inductive ErrorCode :=
  | kNoError
  | kInvalidLength
  | kCheckSumError
  | kInvalidNameLen
  | kUnknownMessageType
  | kParseError.

#[export] Instance ErrorCode_eq_dec : EqDecision ErrorCode.
Proof. solve_decision. Defined.

Definition kHeaderLen : Z := 4.
Definition kMinMessageLen : Z := 2 * kHeaderLen + 2.
Definition kMaxMessageLen : Z := 64 * 1024 * 1024.

(** [errorCodeToString] is called with the enumerators only. *)
Definition errorCodeToString (errorCode : ErrorCode) : string :=
  match errorCode with
  | kNoError => "NoError"
  | kInvalidLength => "InvalidLength"
  | kCheckSumError => "CheckSumError"
  | kInvalidNameLen => "InvalidNameLen"
  | kUnknownMessageType => "UnknownMessageType"
  | kParseError => "ParseError"
  end.

(** [asInt32(buf + i)] for a pointer [buf] to the bytes [buf]. *)
Definition asInt32 (buf : list byte) (i : Z) : res Z :=
  d ← mem_read buf i 4;
  mret (i32 (be_value d)).

Section Codec.
Context `{P : Protobuf, ZL : Zlib}.

Definition createMessage (typeName : list byte) : option Message :=
  descriptor ← FindMessageTypeByName typeName;
  prototype ← GetPrototype descriptor;
  Some (New prototype).

(** [parse(buf, len, &error)]: the message pointer and the error code. *)
Definition parse (buf : list byte) (len : Z) : res (option Message * ErrorCode) :=
  expectedCheckSum ← asInt32 buf (len - kHeaderLen);
  body ← mem_read buf 0 (len - kHeaderLen);
  let checkSum := i32 (adler32 1 body) in
  if checkSum =? expectedCheckSum then
    nameLen ← asInt32 buf 0;
    if (2 <=? nameLen) && (nameLen <=? len - 2 * kHeaderLen) then
      typeName ← mem_read buf kHeaderLen (nameLen - 1);
      match createMessage typeName with
      | Some message =>
          data ← mem_read buf (kHeaderLen + nameLen) (len - nameLen - 2 * kHeaderLen);
          let '(ok, message') := ParseFromArray message data in
          mret (Some message', if ok : bool then kNoError else kParseError)
      | None => mret (None, kUnknownMessageType)
      end
    else mret (None, kInvalidNameLen)
  else mret (None, kCheckSumError).

(** The callbacks act on a world [W]: the connection and everything the handlers
    reach through it. *)
Context {W : Type}.
Variable messageCallback_ : W → Message → res W.
Variable errorCallback_ : W → Buffer.t → ErrorCode → res (W * Buffer.t).

(** The loop of [onMessage]; [fuel] bounds its iterations. *)
Fixpoint onMessage_loop (fuel : nat) (w : W) (buf : Buffer.t) : res (W * Buffer.t) :=
  match fuel with
  | O => Fault OutOfFuel
  | S fuel' =>
      if kMinMessageLen + kHeaderLen <=? Buffer.readableBytes buf then
        len ← Buffer.peekInt32 buf;
        if (kMaxMessageLen <? len) || (len <? kMinMessageLen) then
          errorCallback_ w buf kInvalidLength
        else if u64 (len + kHeaderLen) <=? Buffer.readableBytes buf then
          '(message, errorCode) ←
             parse (zdrop (Buffer.peek buf + kHeaderLen) (Buffer.buffer_ buf)) len;
          match errorCode, message with
          | kNoError, Some m =>
              w' ← messageCallback_ w m;
              buf' ← Buffer.retrieve buf (kHeaderLen + len);
              onMessage_loop fuel' w' buf'
          | _, _ => errorCallback_ w buf errorCode
          end
        else mret (w, buf)
      else mret (w, buf)
  end.

(** Every iteration that goes on consumes bytes, so this many are enough
    ([onMessage_total] below). *)
Definition onMessage (w : W) (buf : Buffer.t) : res (W * Buffer.t) :=
  onMessage_loop (S (Z.to_nat (Buffer.readableBytes buf))) w buf.

(** [fillEmptyBuffer]; [ByteSizeConsistencyError] ends in a fatal log. *)
Definition fillEmptyBuffer (buf : Buffer.t) (message : Message) : res Buffer.t :=
  _ ← cassert (Buffer.readableBytes buf =? 0);
  let typeName := GetTypeName message in
  let nameLen := i32 (zlen typeName + 1) in
  buf ← Buffer.appendInt32 buf nameLen;
  nameBytes ← mem_read (typeName ++ [x00]) 0 nameLen;
  buf ← Buffer.append buf nameBytes;
  let byte_size := ByteSize message in
  buf ← Buffer.ensureWritableBytes buf byte_size;
  let out := SerializeWithCachedSizesToArray message in
  l ← mem_write (Buffer.buffer_ buf) (Buffer.beginWrite buf) out;
  if negb (zlen out =? byte_size) then Fault Fatal else
  buf ← Buffer.hasWritten (Buffer.mk l (Buffer.readerIndex_ buf) (Buffer.writerIndex_ buf)) byte_size;
  readable ← mem_read (Buffer.buffer_ buf) (Buffer.peek buf) (i32 (Buffer.readableBytes buf));
  let checkSum := i32 (adler32 1 readable) in
  buf ← Buffer.appendInt32 buf checkSum;
  _ ← cassert (Buffer.readableBytes buf =? 4 + nameLen + byte_size + 4);
  Buffer.prepend buf (be_bytes 4 (u32 (Buffer.readableBytes buf))).

(** [send]; [conn_send] is the [TcpConnection::send] that takes a buffer. *)
Definition send (conn_send : W → Buffer.t → res W) (w : W) (message : Message) : res W :=
  buf ← Buffer.make Buffer.kInitialSize;
  buf ← fillEmptyBuffer buf message;
  conn_send w buf.

End Codec.
End ProtobufCodec.

(** ** The wire format, and what the codec decides about a stream *)

Section Wire.
Import ProtobufCodec.
Context `{P : Protobuf, ZL : Zlib}.

(** The checksummed part of the frame of a message. *)
Definition wire_body (m : Message) : list byte :=
  be_bytes 4 (zlen (GetTypeName m) + 1) ++ GetTypeName m ++ [x00] ++
  SerializeWithCachedSizesToArray m.

Definition wire_payload (m : Message) : list byte :=
  wire_body m ++ be_bytes 4 (adler32 1 (wire_body m)).

Definition frame (m : Message) : list byte :=
  be_bytes 4 (zlen (wire_payload m)) ++ wire_payload m.

(** The limit the receiver enforces. *)
Definition fits (m : Message) : Prop := zlen (wire_payload m) <= kMaxMessageLen.

Inductive verdict :=
  | Accept (m : Message) (size : Z)
  | Reject (e : ErrorCode).

(** What the receiver concludes from the bytes it has: nothing yet ([None]), a
    message and the size of its frame, or an error. *)
Definition judge (c : list byte) : res (option verdict) :=
  if zlen c <? kMinMessageLen + kHeaderLen then mret None else
  let len := i32 (be_value (ztake 4 c)) in
  if (kMaxMessageLen <? len) || (len <? kMinMessageLen) then mret (Some (Reject kInvalidLength))
  else if zlen c <? len + kHeaderLen then mret None
  else
    '(message, e) ← parse (zdrop kHeaderLen c) len;
    mret (Some match e, message with
               | kNoError, Some m => Accept m (kHeaderLen + len)
               | _, _ => Reject e
               end).

Lemma wire_body_len m :
  zlen (wire_body m) = 5 + zlen (GetTypeName m) + zlen (SerializeWithCachedSizesToArray m).
Proof. unfold wire_body. zl. Qed.

Lemma wire_payload_len m : zlen (wire_payload m) = zlen (wire_body m) + 4.
Proof. unfold wire_payload. zl. Qed.

Lemma frame_len m : zlen (frame m) = zlen (wire_payload m) + 4.
Proof. unfold frame. zl. Qed.

Lemma asInt32_app a e i : i + 4 <= zlen a → asInt32 (a ++ e) i = asInt32 a i.
Proof. intros. unfold asInt32. by rewrite mem_read_app. Qed.

(** [parse] looks at the first [len] bytes only, and never outside them. *)
Lemma parse_local l e len :
  kMinMessageLen <= len → len <= zlen l → parse (l ++ e) len = parse l len.
Proof.
  unfold kMinMessageLen, kHeaderLen. intros Hmin Hlen.
  unfold parse, kHeaderLen. rewrite !asInt32_app, !mem_read_app by lia.
  destruct (asInt32 l (len - 4)) as [exp|]; [|done]. cbn [mbind res_bind].
  destruct (mem_read l 0 (len - 4)) as [bd|]; [|done]. cbn [mbind res_bind].
  destruct (_ =? _); [|done].
  destruct (asInt32 l 0) as [nameLen|]; [|done]. cbn [mbind res_bind].
  destruct (_ && _) eqn:E; [|done]. rewrite !mem_read_app by lia. done.
Qed.

Lemma parse_returns l len :
  kMinMessageLen <= len → len <= zlen l → returns (parse l len).
Proof.
  unfold kMinMessageLen, kHeaderLen, returns. intros Hmin Hlen.
  unfold parse, kHeaderLen, asInt32. rewrite !mem_read_ok by lia. cbn [mbind res_bind mret res_ret].
  destruct (_ =? _); [|eauto]. destruct (_ && _) eqn:E; [|eauto].
  rewrite !mem_read_ok by lia. cbn [mbind res_bind].
  destruct (createMessage _); [|eauto]. destruct (ParseFromArray _ _). eauto.
Qed.

(** More bytes never change a verdict that has been reached. *)
Lemma judge_stable c e v : judge c = Ok (Some v) → judge (c ++ e) = Ok (Some v).
Proof.
  unfold judge. intros H. destruct (zlen c <? _) eqn:E1; [done|].
  unfold kMinMessageLen, kHeaderLen in E1.
  rewrite ztake_app_le by lia. set (len := i32 _) in *.
  replace (zlen (c ++ e) <? _) with false by (symmetry; unfold kMinMessageLen, kHeaderLen; zl).
  destruct (_ || _) eqn:E2; [done|].
  destruct (zlen c <? len + kHeaderLen) eqn:E3; [done|].
  replace (zlen (c ++ e) <? len + kHeaderLen) with false
    by (symmetry; unfold kHeaderLen in *; zl).
  unfold kHeaderLen in *. rewrite zdrop_app_le by lia.
  rewrite parse_local; [done|lia|rewrite zlen_drop; lia].
Qed.

Lemma judge_returns c : returns (judge c).
Proof.
  unfold judge. destruct (zlen c <? kMinMessageLen + kHeaderLen) eqn:E1; [by eexists|]. destruct (_ || _) eqn:E2; [by eexists|].
  destruct (zlen c <? i32 _ + kHeaderLen) eqn:E3; [by eexists|]. unfold kHeaderLen in *.
  destruct (parse_returns (zdrop 4 c) (i32 (be_value (ztake 4 c)))) as [[m e] ->].
  - lia.
  - unfold kMinMessageLen, kHeaderLen in *. rewrite zlen_drop; lia.
  - by eexists.
Qed.

(** An accepted frame is inside the bytes, and consumes at least 14 of them. *)
Lemma judge_accept_size c m n : judge c = Ok (Some (Accept m n)) → 14 <= n <= zlen c.
Proof.
  unfold judge. destruct (zlen c <? kMinMessageLen + kHeaderLen) eqn:E1; [done|]. destruct (_ || _) eqn:E2; [done|].
  destruct (zlen c <? i32 _ + kHeaderLen) eqn:E3; [done|]. unfold kMinMessageLen, kHeaderLen in *. intros H.
  inv_res. destruct x as [[m'|] []]; inv_res; simplify_eq; lia.
Qed.

End Wire.

(** ** [onMessage] acts on the verdicts about the readable bytes *)

Section OnMessage.
Import ProtobufCodec.
Context `{P : Protobuf, ZL : Zlib} {W : Type}.
Variable messageCallback_ : W → Message → res W.
Variable errorCallback_ : W → Buffer.t → ErrorCode → res (W * Buffer.t).

Abbreviation loop := (onMessage_loop messageCallback_ errorCallback_).

Lemma onMessage_loop_step fuel w buf :
  Buffer.wf buf →
  loop (S fuel) w buf =
    v ← judge (Buffer.content buf);
    match v with
    | None => mret (w, buf)
    | Some (Reject e) => errorCallback_ w buf e
    | Some (Accept m n) =>
        w' ← messageCallback_ w m;
        buf' ← Buffer.retrieve buf n;
        loop fuel w' buf'
    end.
Proof.
  intros Hwf. cbn [onMessage_loop]. unfold judge.
  rewrite readable_content by done. set (c := Buffer.content buf).
  destruct (zlen c <? kMinMessageLen + kHeaderLen) eqn:E1.
  { by replace (kMinMessageLen + kHeaderLen <=? zlen c) with false by (symmetry; lia). }
  replace (kMinMessageLen + kHeaderLen <=? zlen c) with true by (symmetry; lia).
  unfold kMinMessageLen, kHeaderLen in E1.
  unfold Buffer.peekInt32. rewrite peekInt_spec by (done || (fold c; lia)).
  fold c. change (Z.of_nat 4) with 4. change (8 * 4) with 32. cbn [mbind res_bind].
  set (len := i32 (be_value (ztake 4 c))). destruct (_ || _) eqn:E2; [done|].
  unfold kMaxMessageLen, kMinMessageLen, kHeaderLen in E2.
  rewrite uN_small by (unfold kHeaderLen; lia).
  destruct (zlen c <? len + kHeaderLen) eqn:E3.
  { by replace (len + kHeaderLen <=? zlen c) with false by (symmetry; lia). }
  replace (len + kHeaderLen <=? zlen c) with true by (symmetry; lia).
  assert (zdrop (Buffer.peek buf + kHeaderLen) (Buffer.buffer_ buf) =
          zdrop kHeaderLen c ++ zdrop (Buffer.writerIndex_ buf) (Buffer.buffer_ buf)) as ->.
  { pose proof (zlen_content buf Hwf) as Hc. rewrite readable_wf in Hc by done.
    pose proof Hwf as []. unfold kHeaderLen, Buffer.peek in *.
    rewrite (zslice_cut (Buffer.readerIndex_ buf) (Buffer.writerIndex_ buf) (Buffer.buffer_ buf)) at 1 by lia.
    rewrite zdrop_app_ge by (rewrite zlen_take; lia).
    rewrite zlen_take by lia. rewrite zdrop_app_le by (fold (Buffer.content buf); fold c; lia).
    f_equal. f_equal. lia. }
  unfold kHeaderLen in E3 |- *.
  rewrite parse_local by (unfold kMinMessageLen, kHeaderLen; rewrite ?zlen_drop; lia).
  destruct (parse (zdrop 4 c) len) as [[[m|] []]|]; reflexivity.
Qed.

(** The fuel of [onMessage] is enough. *)
Lemma onMessage_loop_fuel fuel w buf :
  Buffer.wf buf → (Z.to_nat (zlen (Buffer.content buf)) < fuel)%nat →
  (∀ w m, messageCallback_ w m ≠ Fault OutOfFuel) →
  (∀ w b e, errorCallback_ w b e ≠ Fault OutOfFuel) →
  loop fuel w buf ≠ Fault OutOfFuel.
Proof.
  intros Hwf Hf Hm He. revert w buf Hwf Hf. induction fuel as [|fuel IH]; intros w buf Hwf Hf; [lia|].
  rewrite onMessage_loop_step by done.
  destruct (judge_returns (Buffer.content buf)) as [v Hv]. rewrite Hv. cbn [mbind res_bind].
  destruct v as [[m n|e]|]; [|apply He|done].
  specialize (Hm w m). destruct (messageCallback_ w m) as [w'|]; [|naive_solver].
  cbn [mbind res_bind]. apply judge_accept_size in Hv as Hn.
  destruct (retrieve_spec buf n) as (buf' & -> & Hwf' & Hc' & _); [done|lia|].
  cbn [mbind res_bind]. apply IH; [done|]. rewrite Hc', zlen_drop; lia.
Qed.

(** The fuel does not matter once it is enough. *)
Lemma onMessage_loop_mono fuel fuel' w buf :
  Buffer.wf buf → (Z.to_nat (zlen (Buffer.content buf)) < fuel)%nat →
  (Z.to_nat (zlen (Buffer.content buf)) < fuel')%nat →
  loop fuel w buf = loop fuel' w buf.
Proof.
  revert fuel' w buf. induction fuel as [|fuel IH]; intros fuel' w buf Hwf Hf Hf'; [lia|].
  destruct fuel' as [|fuel']; [lia|]. rewrite !onMessage_loop_step by done.
  destruct (judge (Buffer.content buf)) as [v|] eqn:Hv; [|done]. cbn [mbind res_bind].
  destruct v as [[m n|e]|]; [|done..].
  destruct (messageCallback_ w m) as [w'|]; [|done]. cbn [mbind res_bind].
  apply judge_accept_size in Hv.
  destruct (retrieve_spec buf n) as (buf' & -> & Hwf' & Hc' & _); [done|lia|].
  cbn [mbind res_bind]. apply IH; [done|rewrite Hc', zlen_drop; lia..].
Qed.

Lemma onMessage_step w buf :
  Buffer.wf buf →
  onMessage messageCallback_ errorCallback_ w buf =
    v ← judge (Buffer.content buf);
    match v with
    | None => mret (w, buf)
    | Some (Reject e) => errorCallback_ w buf e
    | Some (Accept m n) =>
        w' ← messageCallback_ w m;
        buf' ← Buffer.retrieve buf n;
        onMessage messageCallback_ errorCallback_ w' buf'
    end.
Proof.
  intros Hwf. unfold onMessage. rewrite onMessage_loop_step by done.
  destruct (judge (Buffer.content buf)) as [[[m n|e]|]|] eqn:Hv; [|done..].
  cbn [mbind res_bind]. destruct (messageCallback_ w m) as [w'|]; [|done]. cbn [mbind res_bind].
  apply judge_accept_size in Hv.
  destruct (retrieve_spec buf n) as (buf' & -> & Hwf' & Hc' & _); [done|lia|].
  cbn [mbind res_bind]. apply onMessage_loop_mono; [done|..].
  all: rewrite ?readable_content by done; rewrite Hc', ?zlen_drop; lia.
Qed.

End OnMessage.

(** ** Framing round trip *)

Section Framing.
Import ProtobufCodec.
Context `{P : Protobuf, ZL : Zlib, PL : !ProtobufLaws P}.

Lemma adler_i32 z : i32 (be_value (be_bytes 4 z)) = i32 z.
Proof.
  rewrite be_value_bytes. change (2 ^ (8 * Z.of_nat 4)) with (2 ^ 32).
  fold (uN 32 z). by rewrite sN_uN.
Qed.

Lemma be_bytes_i32 z : be_bytes 4 (i32 z) = be_bytes 4 z.
Proof.
  apply be_bytes_ext. change (8 * Z.of_nat 4) with 32.
  rewrite <-(uN_sN 32 z) by lia. done.
Qed.

Lemma i32_small z : 0 <= z < 2 ^ 31 → i32 z = z.
Proof. intros. apply sN_small; [lia|]. unfold in_sN. lia. Qed.

Lemma parse_frame m rest :
  fits m → parse (wire_payload m ++ rest) (zlen (wire_payload m)) = Ok (Some m, kNoError).
Proof.
  intros Hf. unfold fits, kMaxMessageLen in Hf.
  pose proof (GetTypeName_nonempty m) as Hn. pose proof (wire_body_len m) as Hb.
  rewrite wire_payload_len in Hf |- *. zpos.
  set (name := GetTypeName m) in *. set (ser := SerializeWithCachedSizesToArray m) in *.
  set (chk := be_bytes 4 (adler32 1 (wire_body m))).
  set (l := wire_payload m ++ rest).
  assert (Hl1 : l = wire_body m ++ chk ++ rest) by (unfold l, wire_payload; by rewrite <-app_assoc).
  assert (Hl2 : l = be_bytes 4 (zlen name + 1) ++ name ++ [x00] ++ ser ++ chk ++ rest).
  { rewrite Hl1. unfold wire_body. by rewrite <-!app_assoc. }
  assert (Hl3 : l = (be_bytes 4 (zlen name + 1) ++ name ++ [x00]) ++ ser ++ chk ++ rest).
  { rewrite Hl2. by rewrite <-!app_assoc. }
  assert (mem_read l (zlen (wire_body m)) 4 = Ok chk) as Hchk
    by (rewrite Hl1; apply mem_read_mid; unfold chk; by rewrite ?zlen_be_bytes).
  assert (mem_read l 0 (zlen (wire_body m)) = Ok (wire_body m)) as Hbody
    by (rewrite Hl1; by apply (mem_read_mid [])).
  assert (mem_read l 0 4 = Ok (be_bytes 4 (zlen name + 1))) as Hnl
    by (rewrite Hl2; apply (mem_read_mid []); by rewrite ?zlen_be_bytes).
  assert (mem_read l 4 (zlen name) = Ok name) as Hname
    by (rewrite Hl2; apply mem_read_mid; by rewrite ?zlen_be_bytes).
  assert (mem_read l (4 + (zlen name + 1)) (zlen ser) = Ok ser) as Hser
    by (rewrite Hl3; apply mem_read_mid; zl).
  unfold parse, kHeaderLen, asInt32. replace (zlen (wire_body m) + 4 - 4) with (zlen (wire_body m)) by lia.
  rewrite Hchk, Hbody, Hnl. cbn [mbind res_bind mret res_ret]. unfold chk.
  rewrite !adler_i32, Z.eqb_refl, i32_small by lia. zif.
  replace (zlen name + 1 - 1) with (zlen name) by lia. rewrite Hname. cbn [mbind res_bind].
  replace (zlen (wire_body m) + 4 - (zlen name + 1) - 2 * 4) with (zlen ser) by lia.
  rewrite Hser. destruct (parse_serialize m) as (proto & Hd & Hp & Hs).
  unfold createMessage. fold name ser in Hd, Hs. rewrite Hd. cbn. rewrite Hp. cbn. by rewrite Hs.
Qed.

Lemma judge_frame m rest :
  fits m → judge (frame m ++ rest) = Ok (Some (Accept m (zlen (frame m)))).
Proof.
  intros Hf. pose proof (GetTypeName_nonempty m) as Hn. pose proof (wire_body_len m) as Hb.
  pose proof (wire_payload_len m). pose proof (frame_len m).
  pose proof Hf as Hf'. unfold fits, kMaxMessageLen in Hf'. zpos.
  assert (ztake 4 (frame m ++ rest) = be_bytes 4 (zlen (wire_payload m))) as Ht.
  { unfold frame. rewrite <-app_assoc. apply ztake_app_exact. by rewrite zlen_be_bytes. }
  assert (zdrop 4 (frame m ++ rest) = wire_payload m ++ rest) as Hd.
  { unfold frame. rewrite <-app_assoc. apply zdrop_app_exact. by rewrite zlen_be_bytes. }
  unfold judge, kMinMessageLen, kHeaderLen. rewrite Ht, Hd, zlen_app. zpos. zif.
  rewrite adler_i32, i32_small by lia. unfold kMaxMessageLen. zif. zif.
  rewrite parse_frame by done. cbn [mbind res_bind mret res_ret]. do 3 f_equal. lia.
Qed.

(** What remains of a stream of frames when some of its bytes have not arrived. *)
Definition pending (rest : list byte) (ms : list Message) : Prop :=
  match ms with
  | [] => rest = []
  | m :: _ => fits m ∧ ∃ tail, tail ≠ [] ∧ frame m = rest ++ tail
  end.

Lemma judge_pending rest ms : pending rest ms → judge rest = Ok None.
Proof.
  destruct ms as [|m ms]; [by intros ->|]. intros (Hf & tail & Ht & Hfr).
  pose proof (GetTypeName_nonempty m) as Hn. pose proof (wire_body_len m) as Hb.
  pose proof (wire_payload_len m). pose proof (frame_len m) as Hl.
  unfold fits, kMaxMessageLen in Hf.
  unfold judge, kMinMessageLen, kHeaderLen. destruct (_ <? _) eqn:E; [done|].
  assert (zlen tail ≠ 0) by (intros ?%zlen_0; done).
  rewrite Hfr, zlen_app in Hl. zpos.
  assert (ztake 4 rest = be_bytes 4 (zlen (wire_payload m))) as ->.
  { rewrite <-(ztake_app_le 4 rest tail) by lia. rewrite <-Hfr. unfold frame.
    apply ztake_app_exact. by rewrite zlen_be_bytes. }
  rewrite adler_i32, i32_small by lia. unfold kMaxMessageLen. zif. by zif.
Qed.

(** A prefix of a stream of frames is some whole frames and a pending rest. *)
Lemma split_frames ms s t :
  Forall fits ms → s ++ t = concat (frame <$> ms) →
  ∃ ms1 ms2 rest, ms = ms1 ++ ms2 ∧ s = concat (frame <$> ms1) ++ rest ∧
    rest ++ t = concat (frame <$> ms2) ∧ pending rest ms2.
Proof.
  intros Hf. revert s. induction Hf as [|m ms Hm Hf IH]; intros s Heq.
  { cbn in Heq. apply app_eq_nil in Heq as [-> ->]. by exists [], [], []. }
  rewrite fmap_cons, concat_cons in Heq.
  destruct (decide (zlen s < zlen (frame m))) as [Hlt|Hge].
  - exists [], (m :: ms), s. split_and!; [done..|]. split; [done|].
    exists (zdrop (zlen s) (frame m)). split.
    + intros E. apply (f_equal zlen) in E. rewrite zlen_drop, zlen_nil in E by (zpos; lia). lia.
    + rewrite <-(ztake_drop (zlen s) (frame m)) at 1. f_equal.
      apply (f_equal (ztake (zlen s))) in Heq.
      rewrite (ztake_app_exact _ s t), (ztake_app_le _ (frame m)) in Heq by lia. done.
  - assert (s = frame m ++ zdrop (zlen (frame m)) s) as Hs.
    { rewrite <-(ztake_drop (zlen (frame m)) s) at 1. f_equal.
      apply (f_equal (ztake (zlen (frame m)))) in Heq.
      rewrite (ztake_app_le _ s t), (ztake_app_exact _ (frame m)) in Heq by lia. done. }
    set (s' := zdrop _ s) in *. rewrite Hs, <-app_assoc in Heq. apply app_inv_head in Heq.
    destruct (IH _ Heq) as (ms1 & ms2 & rest & -> & Hs' & Hr & Hp).
    exists (m :: ms1), ms2, rest. split_and!; [done| |done..].
    rewrite Hs, Hs', fmap_cons, concat_cons. by rewrite <-app_assoc.
Qed.

(** Filling an empty buffer leaves the frame of the message in it. *)
Lemma fillEmptyBuffer_spec buf m :
  Buffer.wf buf → Buffer.content buf = [] → 4 <= Buffer.readerIndex_ buf →
  zlen (Buffer.buffer_ buf) < 2 ^ 60 → fits m →
  ∃ buf', fillEmptyBuffer buf m = Ok buf' ∧ Buffer.wf buf' ∧ Buffer.content buf' = frame m.
Proof.
  intros Hwf Hc Hr Hsz Hf. pose proof (wire_body_len m) as Hb.
  pose proof (wire_payload_len m) as Hp. unfold fits, kMaxMessageLen in Hf. zpos.
  unfold fillEmptyBuffer. rewrite readable_content, Hc by done.
  rewrite cassert_true by done. cbn [mbind res_bind].
  rewrite (i32_small (zlen (GetTypeName m) + 1)) by lia.
  unfold Buffer.appendInt32.
  destruct (append_spec buf (be_bytes 4 (zlen (GetTypeName m) + 1)))
    as (b1 & -> & W1 & C1 & S1 & R1); [done|zl|]. cbn [mbind res_bind].
  rewrite zlen_be_bytes in S1. rewrite Hc, app_nil_l in C1.
  rewrite mem_read_ok by (zl). rewrite zslice_all by zl. cbn [mbind res_bind].
  destruct (append_spec b1 (GetTypeName m ++ [x00])) as (b2 & -> & W2 & C2 & S2 & R2); [done|zl|].
  cbn [mbind res_bind]. autorewrite with zlist in S2. rewrite ByteSize_serialize.
  destruct (ensureWritableBytes_spec b2 (zlen (SerializeWithCachedSizesToArray m)))
    as (b3 & -> & W3 & C3 & F3 & S3 & R3); [done|lia|lia|]. cbn [mbind res_bind].
  destruct (hasWritten_spec b3 (SerializeWithCachedSizesToArray m))
    as (l & -> & Hl & b4 & Hh & W4 & C4 & B4 & R4); [done..|]. cbn [mbind res_bind].
  rewrite Z.eqb_refl. cbn [negb]. rewrite Hh. cbn [mbind res_bind].
  assert (Buffer.content b4 = wire_body m) as Hc4.
  { rewrite C4, C3, C2, C1. unfold wire_body. by rewrite <-!app_assoc. }
  rewrite readable_content, Hc4, i32_small by (done || lia).
  rewrite peek_read_spec by (done || rewrite Hc4; lia).
  rewrite Hc4, ztake_ge by lia. cbn [mbind res_bind].
  destruct (append_spec b4 (be_bytes 4 (i32 (adler32 1 (wire_body m)))))
    as (b5 & -> & W5 & C5 & S5 & R5); [done|rewrite B4, Hl; zl|]. cbn [mbind res_bind].
  assert (Buffer.content b5 = wire_payload m) as Hc5.
  { rewrite C5, Hc4. unfold wire_payload. by rewrite be_bytes_i32. }
  rewrite readable_content, Hc5 by done. rewrite cassert_true by lia. cbn [mbind res_bind].
  destruct (prepend_spec b5 (be_bytes 4 (u32 (zlen (wire_payload m)))))
    as (b6 & -> & W6 & C6 & _); [done|zl|].
  exists b6. split_and!; [done..|]. rewrite C6, Hc5, uN_small by lia. done.
Qed.

End Framing.

(** ** The receive path and the properties *)

Section Properties.
Import ProtobufCodec.
Context `{P : Protobuf, ZL : Zlib} {W : Type}.
Variable messageCallback_ : W → Message → res W.
Variable errorCallback_ : W → Buffer.t → ErrorCode → res (W * Buffer.t).

(** What the handlers do with a sequence of messages. *)
Fixpoint dispatch_all (w : W) (ms : list Message) : res W :=
  match ms with
  | [] => mret w
  | m :: ms' => w' ← messageCallback_ w m; dispatch_all w' ms'
  end.

(** A connection receives the stream in chunks: every read event appends what the
    socket had ([readFd]) and runs [onMessage] ([TcpConnection::handleRead]). *)
Fixpoint feed (w : W) (buf : Buffer.t) (chunks : list (list byte)) : res (W * Buffer.t) :=
  match chunks with
  | [] => mret (w, buf)
  | d :: chunks' =>
      '(_, _, buf) ← Buffer.readFd buf (Buffer.ReadBytes d);
      '(w, buf) ← onMessage messageCallback_ errorCallback_ w buf;
      feed w buf chunks'
  end.

Lemma dispatch_all_app w ms1 ms2 :
  dispatch_all w (ms1 ++ ms2) = w' ← dispatch_all w ms1; dispatch_all w' ms2.
Proof.
  revert w. induction ms1 as [|m ms1 IH]; intros w; [done|].
  cbn [dispatch_all app]. destruct (messageCallback_ w m); [apply IH|done].
Qed.

Lemma onMessage_frames `{PL : !ProtobufLaws P} w w' buf ms1 ms2 rest :
  Buffer.wf buf → Forall fits ms1 → pending rest ms2 →
  Buffer.content buf = concat (frame <$> ms1) ++ rest → dispatch_all w ms1 = Ok w' →
  ∃ buf', onMessage messageCallback_ errorCallback_ w buf = Ok (w', buf') ∧ Buffer.wf buf' ∧
          Buffer.content buf' = rest ∧ Buffer.buffer_ buf' = Buffer.buffer_ buf.
Proof.
  intros Hwf Hf Hp. revert w buf Hwf. induction Hf as [|m ms1 Hm Hf IH]; intros w buf Hwf Hc Hd.
  - cbn in Hc, Hd. rewrite onMessage_step, Hc by done. erewrite judge_pending by done.
    cbn. inv_res. subst. eauto.
  - rewrite fmap_cons, concat_cons, <-app_assoc in Hc. cbn [dispatch_all] in Hd. inv_res.
    rewrite onMessage_step, Hc, judge_frame by done. cbn [mbind res_bind mret res_ret].
    rewrite H. cbn [mbind res_bind].
    destruct (retrieve_spec buf (zlen (frame m))) as (b' & -> & Hwf' & Hc' & Hb'); [done|rewrite Hc; zl|].
    cbn [mbind res_bind]. rewrite Hc, zdrop_app_exact in Hc' by done.
    destruct (IH x b' Hwf' Hc' Hd) as (b'' & -> & ? & ? & Hb''). exists b''.
    split_and!; [done..|congruence].
Qed.

(** [send] puts the frame of the message on the connection. *)
Lemma send_frame `{PL : !ProtobufLaws P} (conn_send : W → Buffer.t → res W) (w : W) (m : Message) :
  fits m →
  ∃ buf, send conn_send w m = conn_send w buf ∧ Buffer.wf buf ∧ Buffer.content buf = frame m.
Proof.
  intros Hm. unfold send.
  destruct (make_spec Buffer.kInitialSize) as (b0 & -> & W0 & C0 & S0 & R0 & _); [by vm_compute..|].
  cbn [mbind res_bind].
  destruct (fillEmptyBuffer_spec b0 m) as (b1 & -> & W1 & C1);
    [done..|lia|rewrite S0; by vm_compute|done|]. cbn [mbind res_bind]. eauto.
Qed.

Lemma feed_frames `{PL : !ProtobufLaws P} (w w' : W) (buf : Buffer.t)
    (ms : list Message) (chunks : list (list byte)) :
  Buffer.wf buf → Buffer.content buf = [] →
  Forall fits ms → Forall (λ d, zlen d <= 65536) chunks →
  concat chunks = concat (frame <$> ms) →
  zlen (Buffer.buffer_ buf) + zlen (concat chunks) < 2 ^ 62 →
  dispatch_all w ms = Ok w' →
  ∃ buf', feed w buf chunks = Ok (w', buf') ∧ Buffer.wf buf' ∧ Buffer.content buf' = [].
Proof.
  intros Hwf Hc Hf Hch Heq Hsz Hd.
  assert (∃ rest, Buffer.content buf = rest ∧ pending rest ms ∧
     rest ++ concat chunks = concat (frame <$> ms)) as (rest & Hr & Hp & Hcat).
  { exists []. split_and!; [done| |done]. destruct Hf as [|m ms Hm Hf]; [done|].
    split; [done|]. exists (frame m). split; [|done]. unfold frame. by destruct (wire_payload m). }
  clear Hc Heq. revert w buf ms rest Hwf Hf Hsz Hd Hr Hp Hcat.
  induction Hch as [|d chunks Hl Hch IH]; intros w buf ms rest Hwf Hf Hsz Hd Hr Hp Hcat.
  - rewrite app_nil_r in Hcat. cbn [feed]. destruct ms as [|m ms].
    + exists buf. cbn in Hd, Hcat. inv_res. subst. done.
    + exfalso. destruct Hp as (_ & tail & Ht & Hfr). rewrite fmap_cons, concat_cons, Hfr in Hcat.
      apply (f_equal zlen) in Hcat. rewrite !zlen_app in Hcat. zpos. apply Ht, zlen_0. lia.
  - rewrite concat_cons in Hsz, Hcat. rewrite zlen_app in Hsz. zpos. rewrite app_assoc in Hcat.
    cbn [feed].
    destruct (readFd_spec buf d) as (b1 & -> & W1 & C1 & S1);
      [done|pose proof (readFd_room_ge buf Hwf); lia|lia|]. cbn [mbind res_bind].
    destruct (split_frames ms _ _ Hf Hcat) as (ms1 & ms2 & rest' & -> & Hs & Hrest & Hp').
    rewrite dispatch_all_app in Hd. inv_res. apply Forall_app in Hf as [Hf1 Hf2].
    destruct (onMessage_frames w x b1 ms1 ms2 rest') as (b2 & -> & W2 & C2 & B2); try done.
    { by rewrite C1, Hr. }
    cbn [mbind res_bind]. eapply IH; try done. rewrite B2. lia.
Qed.

(** C6 (safety). [onMessage] is driven by its verdict on the readable bytes, and a
    verdict never changes when more bytes arrive: after a malformed frame (wrong
    length, checksum, name, type or payload) nothing more is dispatched, and the
    same error is reported again for whatever follows it. *)
Theorem reject_is_final (w : W) (buf : Buffer.t) (e : ErrorCode) (more : list byte) :
  Buffer.wf buf → judge (Buffer.content buf) = Ok (Some (Reject e)) →
  onMessage messageCallback_ errorCallback_ w buf = errorCallback_ w buf e ∧
  ∀ w' buf', Buffer.wf buf' → Buffer.content buf' = Buffer.content buf ++ more →
    onMessage messageCallback_ errorCallback_ w' buf' = errorCallback_ w' buf' e.
Proof.
  intros Hwf Hj. split.
  - by rewrite onMessage_step, Hj.
  - intros w' buf' Hwf' Hc. rewrite onMessage_step, Hc by done.
    by rewrite (judge_stable _ more _ Hj).
Qed.

(** C8 (termination). [onMessage] always ends: with callbacks that do, its loop
    never runs out of the fuel it starts with, whatever the bytes are. *)
Theorem onMessage_total (w : W) (buf : Buffer.t) :
  Buffer.wf buf →
  (∀ w m, messageCallback_ w m ≠ Fault OutOfFuel) →
  (∀ w b e, errorCallback_ w b e ≠ Fault OutOfFuel) →
  onMessage messageCallback_ errorCallback_ w buf ≠ Fault OutOfFuel.
Proof.
  intros Hwf Hm He. apply onMessage_loop_fuel; [done| |done..].
  rewrite readable_content by done. lia.
Qed.

(** A frame at the head of [c] that passes every check: the announced length is within
    the limits and the frame is there, the trailing checksum is the adler32 of the rest,
    the name length fits, the type is known and its parser accepts the payload as [m]. *)
Definition frame_ok (c : list byte) (m : Message) (n : Z) : Prop :=
  let len := i32 (be_value (ztake 4 c)) in
  n = len + 4 ∧ kMinMessageLen <= len <= kMaxMessageLen ∧ n <= zlen c ∧
  i32 (be_value (zslice len (len + 4) c)) = i32 (adler32 1 (zslice 4 len c)) ∧
  let nameLen := i32 (be_value (zslice 4 8 c)) in
  2 <= nameLen <= len - 8 ∧
  ∃ m0, createMessage (zslice 8 (8 + (nameLen - 1)) c) = Some m0 ∧
    ParseFromArray m0 (zslice (8 + nameLen) len c) = (true, m).

(** Not enough bytes for the smallest frame, or for the one that is announced. *)
Definition incomplete (c : list byte) : Prop :=
  let len := i32 (be_value (ztake 4 c)) in
  zlen c < kMinMessageLen + kHeaderLen ∨ (kMinMessageLen <= len <= kMaxMessageLen ∧ zlen c < len + 4).

Lemma parse_frame_ok c (len := i32 (be_value (ztake 4 c))) :
  kMinMessageLen <= len <= kMaxMessageLen → len + 4 <= zlen c →
  (∃ m, parse (zdrop kHeaderLen c) len = Ok (Some m, kNoError) ∧ frame_ok c m (kHeaderLen + len)) ∨
  (∃ x e, parse (zdrop kHeaderLen c) len = Ok (x, e) ∧ e ≠ kNoError ∧ ∀ m n, ¬ frame_ok c m n).
Proof.
  unfold frame_ok, kMinMessageLen, kMaxMessageLen, kHeaderLen. intros Hlen Hc. fold len.
  unfold parse, asInt32, kHeaderLen. rewrite !mem_read_ok by (rewrite ?zlen_drop; lia). cbn [mbind res_bind mret res_ret].
  rewrite !zslice_drop by lia.
  replace (4 + (len - 4)) with len by lia.
  replace (4 + (len - 4 + 4)) with (len + 4) by lia.
  replace (4 + (0 + (len - 4))) with len by lia.
  change (4 + 0) with 4. change (4 + (0 + 4)) with 8.
  destruct (_ =? _) eqn:E4.
  2:{ right. eexists _, _. split; [reflexivity|]. split; [done|]. intros m n (_ & _ & _ & Hsum & _). lia. }
  set (nameLen := i32 (be_value (zslice 4 8 c))).
  destruct (_ && _) eqn:E5.
  2:{ right. eexists _, _. split; [reflexivity|]. split; [done|]. intros m n (_ & _ & _ & _ & Hn & _). lia. }
  rewrite !mem_read_ok by (rewrite ?zlen_drop; lia). cbn [mbind res_bind mret res_ret].
  rewrite !zslice_drop by lia.
  replace (4 + (4 + (nameLen - 1))) with (8 + (nameLen - 1)) by lia.
  replace (4 + (4 + nameLen + (len - nameLen - 2 * 4))) with len by lia.
  replace (4 + (4 + nameLen)) with (8 + nameLen) by lia. change (4 + 4) with 8.
  destruct (createMessage _) as [m0|] eqn:E6.
  2:{ right. eexists _, _. split; [reflexivity|]. split; [done|]. intros m n (_ & _ & _ & _ & _ & m1 & Hm & _). congruence. }
  destruct (ParseFromArray m0 _) as [[] m'] eqn:E7.
  - left. exists m'. split; [done|]. split_and!; [lia..|by exists m0].
  - right. eexists _, _. split; [reflexivity|]. split; [done|].
    intros m n (_ & _ & _ & _ & _ & m1 & Hm & Hp). congruence.
Qed.

(** C7 (safety). What [onMessage] does with the bytes [c] that it finds: it waits when the
    frame is not complete; it calls the message callback, with the message of the frame,
    exactly when the frame passes every check, and goes on behind the frame; and it calls
    the error callback, with nothing dispatched and nothing taken from the buffer, when a
    check fails.  A length outside the limits is reported before the frame is complete. *)
Theorem accept_sound (w : W) (buf : Buffer.t) (c := Buffer.content buf) :
  Buffer.wf buf →
  (incomplete c ∧ onMessage messageCallback_ errorCallback_ w buf = Ok (w, buf)) ∨
  (∃ m n, frame_ok c m n ∧ onMessage messageCallback_ errorCallback_ w buf =
     (w' ← messageCallback_ w m;
      buf' ← Buffer.retrieve buf n;
      onMessage messageCallback_ errorCallback_ w' buf')) ∨
  (∃ e, e ≠ kNoError ∧ ¬ incomplete c ∧ (∀ m n, ¬ frame_ok c m n) ∧
     onMessage messageCallback_ errorCallback_ w buf = errorCallback_ w buf e).
Proof.
  intros Hwf. rewrite onMessage_step by done. fold c. unfold judge, incomplete, kMinMessageLen, kMaxMessageLen.
  change (2 * kHeaderLen + 2 + kHeaderLen) with 14. change (2 * kHeaderLen + 2) with 10.
  destruct (zlen c <? 14) eqn:E1; [left; split; [lia|done]|]. set (len := i32 _).
  destruct (_ || _) eqn:E2.
  { right. right. exists kInvalidLength. split; [done|]. split; [lia|]. split; [|done].
    unfold frame_ok, kMinMessageLen, kMaxMessageLen, kHeaderLen. fold len. intros m n. lia. }
  destruct (zlen c <? len + kHeaderLen) eqn:E3; [left; unfold kHeaderLen in E3; split; [lia|done]|].
  unfold kHeaderLen at 1 in E3.
  pose proof (parse_frame_ok c) as Hp. cbv zeta in Hp. fold len in Hp.
  destruct Hp as [(m & -> & Hok)|(x & e & -> & He & Hno)];
    [unfold kMinMessageLen, kMaxMessageLen, kHeaderLen; lia|lia|..]; cbn [mbind res_bind mret res_ret].
  - right. left. exists m, (kHeaderLen + len). done.
  - right. right. exists e. split; [done|]. split; [lia|]. split; [done|]. by destruct e.
Qed.

End Properties.

(** ** Sending and receiving *)

Section Roundtrip.
Import ProtobufCodec.
Context `{P : Protobuf, ZL : Zlib, PL : !ProtobufLaws P} {W : Type}.
Variable messageCallback_ : W → Message → res W.
Variable errorCallback_ : W → Buffer.t → ErrorCode → res (W * Buffer.t).

(** The bytes that [send] puts, message after message, on a connection whose
    [send] appends the readable bytes of its argument to the stream. *)
Fixpoint send_all (wire : list byte) (ms : list Message) : res (list byte) :=
  match ms with
  | [] => mret wire
  | m :: ms' =>
      wire ← send (λ w b, Ok (w ++ Buffer.content b)) wire m;
      send_all wire ms'
  end.

Lemma send_all_frames wire ms :
  Forall fits ms → send_all wire ms = Ok (wire ++ concat (frame <$> ms)).
Proof.
  intros Hf. revert wire. induction Hf as [|m ms Hm Hf IH]; intros wire; cbn [send_all].
  - by rewrite app_nil_r.
  - destruct (send_frame (λ w b, Ok (w ++ Buffer.content b)) wire m Hm) as (b & -> & _ & Hc).
    cbn [mbind res_bind]. by rewrite IH, Hc, fmap_cons, concat_cons, app_assoc.
Qed.

(** C5 (roundtrip). Messages within the size limit are all sent, and whatever way
    TCP cuts the sent bytes into chunks, the receiver hands exactly these messages
    to the message callback, in order, reports no error, and has an empty buffer at
    the end. *)
Theorem stream_roundtrip (ms : list Message) :
  Forall fits ms →
  ∃ wire, send_all [] ms = Ok wire ∧
  ∀ (w w' : W) (buf : Buffer.t) (chunks : list (list byte)),
    Buffer.wf buf → Buffer.content buf = [] →
    concat chunks = wire → Forall (λ d, zlen d <= 65536) chunks →
    zlen (Buffer.buffer_ buf) + zlen wire < 2 ^ 62 →
    dispatch_all messageCallback_ w ms = Ok w' →
    ∃ buf', feed messageCallback_ errorCallback_ w buf chunks = Ok (w', buf') ∧
            Buffer.wf buf' ∧ Buffer.content buf' = [].
Proof.
  intros Hf. exists (concat (frame <$> ms)). split; [by apply send_all_frames|].
  intros w w' buf chunks Hwf Hc Heq Hch Hsz Hd. rewrite <-Heq in Hsz.
  by apply (feed_frames _ _ w w' buf ms).
Qed.

End Roundtrip.

(** ** A concrete runtime, for the witnesses: one message type with a byte string *)

Module ToyProtobuf.

Definition toy_name : list byte := bytes_of "IM.Login".

#[export] Instance toy : Protobuf := {|
  Message := list byte;
  Descriptor := unit;
  GetTypeName _ := toy_name;
  GetDescriptor _ := ();
  FindMessageTypeByName n := if decide (n = toy_name) then Some () else None;
  GetPrototype _ := Some [];
  New _ := [];
  ByteSize m := zlen m;
  SerializeWithCachedSizesToArray m := m;
  ParseFromArray _ d := (true, d)
|}.

Definition adler_step (s : Z * Z) (b : byte) : Z * Z :=
  let a := (s.1 + Z_of_byte b) mod 65521 in (a, (s.2 + a) mod 65521).

#[export] Instance toy_zlib : Zlib := λ init l,
  let '(a, b) := fold_left adler_step l (init mod 65536, init / 65536) in b * 65536 + a.

#[export] Instance toy_laws : ProtobufLaws toy.
Proof.
  split.
  - done.
  - intros m. by vm_compute.
  - intros m. exists []. done.
Qed.

End ToyProtobuf.

Section Witnesses.
Import ProtobufCodec ToyProtobuf.

Definition log_message (w : list (@Message toy)) (m : @Message toy) : res (list (@Message toy)) :=
  Ok (w ++ [m]).
Definition no_error (w : list (@Message toy)) (b : Buffer.t) (e : ErrorCode) :
  res (list (@Message toy) * Buffer.t) := Ok (w, b).

Definition empty_buffer : Buffer.t := Buffer.mk (zrep 1032 x00) 8 8.

Lemma empty_buffer_wf : Buffer.wf empty_buffer.
Proof. split; vm_compute; congruence. Defined.

Definition two_frames : list byte := frame (bytes_of "hello") ++ frame (bytes_of "world").

Lemma stream_roundtrip_witness :
  ∃ wire, send_all [] [bytes_of "hello"; bytes_of "world"] = Ok wire ∧
  ∃ buf', feed log_message no_error [] empty_buffer
            [ztake 5 wire; zslice 5 40 wire; zdrop 40 wire]
          = Ok ([bytes_of "hello"; bytes_of "world"], buf') ∧
          Buffer.wf buf' ∧ Buffer.content buf' = [].
Proof.
  destruct (stream_roundtrip log_message no_error [bytes_of "hello"; bytes_of "world"])
    as (wire & Hw & Hall); [repeat constructor; vm_compute; congruence|].
  exists wire. split; [exact Hw|]. vm_compute in Hw. injection Hw as <-.
  apply Hall; [apply empty_buffer_wf|reflexivity|reflexivity|
    repeat constructor; vm_compute; congruence|vm_compute; reflexivity|reflexivity].
Defined.

(** A frame whose checksum was damaged. *)
Definition bad_buffer : Buffer.t :=
  Buffer.mk (bytes_of "01234567" ++ ztake 20 (frame (bytes_of "hello")) ++ zrep 30 x00) 8 58.

Lemma reject_is_final_witness :
  onMessage log_message no_error [] bad_buffer = no_error [] bad_buffer kCheckSumError.
Proof.
  apply (proj1 (reject_is_final log_message no_error [] bad_buffer kCheckSumError []
    ltac:(split; vm_compute; congruence) ltac:(vm_compute; reflexivity))).
Defined.

Lemma onMessage_total_witness :
  onMessage log_message no_error [] bad_buffer ≠ Fault OutOfFuel.
Proof.
  apply (onMessage_total log_message no_error [] bad_buffer);
    [split; vm_compute; congruence|discriminate|discriminate].
Defined.

Definition two_frames_buffer : Buffer.t := Buffer.mk (bytes_of "01234567" ++ two_frames) 8 60.

(** Two frames: the first one is dispatched. *)
Lemma accept_sound_witness :
  onMessage log_message no_error [] two_frames_buffer =
    (buf' ← Buffer.retrieve two_frames_buffer 26; onMessage log_message no_error [bytes_of "hello"] buf').
Proof.
  destruct (accept_sound log_message no_error [] two_frames_buffer ltac:(split; vm_compute; congruence))
    as [[Hi _]|[(m & n & (Hn & _ & _ & _ & _ & m0 & _ & Hm) & E)|(e & _ & _ & Hno & _)]].
  - exfalso. vm_compute in Hi. destruct Hi as [?|[_ ?]]; discriminate.
  - rewrite E. vm_compute in Hn. subst n. vm_compute in Hm. injection Hm as <-. reflexivity.
  - exfalso. apply (Hno (bytes_of "hello") 26). vm_compute. repeat split; try congruence. by eexists.
Defined.

End Witnesses.
