(* ===== verification/Timestamp.v ===== *)
(** * Timestamp.h, Timestamp.cc: microseconds since the epoch

    A [Timestamp] is its [int64_t]; the comparison operators are those of [Z]. *)
From S2P Require Import Prelude Text.

(** ** What is used of <time.h> *)

Record tm := mktm {
  tm_year : Z;
  tm_mon : Z;
  tm_mday : Z;
  tm_hour : Z;
  tm_min : Z;
  tm_sec : Z
}.

(** The civil date (proleptic Gregorian) of a day counted from 1970-01-01: the
    century, the year of the century and the day of the year, years starting in
    March. *)
Definition civil_from_days (days : Z) : Z * Z * Z :=
  let z := days + 719468 in
  let century := (4 * z + 3) / 146097 in
  let doc := z - 146097 * century / 4 in
  let yoc := (4 * doc + 3) / 1461 in
  let doy := doc - 1461 * yoc / 4 in
  let mp := (5 * doy + 2) / 153 in
  let d := doy - (153 * mp + 2) / 5 + 1 in
  (100 * century + yoc + mp / 10, if mp <? 10 then mp + 3 else mp - 9, d).

(** [gmtime_r]. *)
Definition gmtime (seconds : Z) : tm :=
  let '(y, m, d) := civil_from_days (seconds / 86400) in
  let s := seconds mod 86400 in
  mktm (y - 1900) (m - 1) d (s / 3600) (s mod 3600 / 60) (s mod 60).

Module Timestamp.

Definition kMicroSecondsPerSecond : Z := 1000 * 1000.

Definition invalid : Z := 0.
Definition valid (t : Z) : bool := 0 <? t.
Definition secondsSinceEpoch (t : Z) : Z := cdiv t kMicroSecondsPerSecond.
Definition swap (this that : Z) : Z * Z := (that, this).

Definition fromUnixTime (t microseconds : Z) : Z := i64 (t * kMicroSecondsPerSecond + microseconds).

(** [now], given what [gettimeofday] reports; it adds the eight hours of UTC+8. *)
Definition now (tv_sec tv_usec : Z) : Z :=
  let seconds := tv_sec + 8 * 3600 in
  i64 (seconds * kMicroSecondsPerSecond + tv_usec).

Definition toString (t : Z) : string :=
  let seconds := cdiv t kMicroSecondsPerSecond in
  let microseconds := crem t kMicroSecondsPerSecond in
  snprintf 31 (dec seconds +:+ "." +:+ dec0 6 microseconds).

Definition toFormattedString (showMicroseconds : bool) (t : Z) : string :=
  let seconds := cdiv t kMicroSecondsPerSecond in
  let tm_time := gmtime seconds in
  let date :=
    (decw 4 (tm_year tm_time + 1900) +:+ dec0 2 (tm_mon tm_time + 1) +:+ dec0 2 (tm_mday tm_time) +:+
     " " +:+ dec0 2 (tm_hour tm_time) +:+ ":" +:+ dec0 2 (tm_min tm_time) +:+ ":" +:+
     dec0 2 (tm_sec tm_time))%string in
  if showMicroseconds
  then snprintf 64 (date +:+ "." +:+ dec0 6 (crem t kMicroSecondsPerSecond))
  else snprintf 64 date.

Definition timeDifference (high low : Z) : double :=
  ddiv (d_of_Z (i64 (high - low))) (d_of_Z kMicroSecondsPerSecond).

Definition addTime (timestamp : Z) (seconds : double) : res Z :=
  delta ← d_to_sN 64 (dmul seconds (d_of_Z kMicroSecondsPerSecond));
  mret (i64 (timestamp + delta)).

End Timestamp.

Example timestamp_examples :
  Timestamp.toFormattedString true (Timestamp.now 1559910896 42) = "20190607 20:34:56.000042"%string ∧
  Timestamp.toString 1500000 = "1.500000"%string ∧
  Timestamp.addTime 7 (ddiv (d_of_Z 1) (d_of_Z 2)) = Ok 500007.
Proof. vm_compute. done. Qed.

(** ** The width of a formatted time *)

(** The days of 1970 to 9999. *)
Lemma civil_bounds days :
  0 <= days < 2932897 →
  let '(y, m, d) := civil_from_days days in 1600 <= y <= 9999 ∧ 1 <= m <= 12 ∧ 1 <= d <= 31.
Proof.
  intros Hd. unfold civil_from_days. cbv zeta.
  set (z := days + 719468). assert (719468 <= z < 3652365) as Hz by (unfold z; lia).
  pose proof (div_bounds (4 * z + 3) 146097 eq_refl) as Db. set (b := (4 * z + 3) / 146097) in *.
  pose proof (div_bounds (146097 * b) 4 eq_refl) as Dq. set (q := 146097 * b / 4) in *.
  set (c := z - q) in *.
  assert (19 <= b <= 99 ∧ 0 <= c <= 36524 ∧ (b = 99 → c <= 36464)) as (Hb & Hc & Hc99) by (clear -Db Dq Hz; lia).
  pose proof (div_bounds (4 * c + 3) 1461 eq_refl) as Dy. set (y := (4 * c + 3) / 1461) in *.
  pose proof (div_bounds (1461 * y) 4 eq_refl) as Dp. set (p := 1461 * y / 4) in *.
  set (e := c - p) in *.
  assert (0 <= y <= 99 ∧ 0 <= e <= 365 ∧ (c <= 36464 → y = 99 → e <= 305)) as (Hy & He & He99)
    by (clear -Dy Dp Hc; lia).
  pose proof (div_bounds (5 * e + 2) 153 eq_refl) as Dm. set (m := (5 * e + 2) / 153) in *.
  pose proof (div_bounds (153 * m + 2) 5 eq_refl) as Dd. set (d := (153 * m + 2) / 5) in *.
  assert (0 <= m <= 11 ∧ (e <= 305 → m <= 9) ∧ 0 <= e - d <= 30) as (Hm & Hm9 & Hd0)
    by (clear -Dm Dd He; lia).
  clear -Hb Hc Hc99 Hy He He99 Hm Hm9 Hd0. clearbody b c y e m d. cbv beta iota.
  pose proof (div_bounds m 10 eq_refl). destruct (m <? 10) eqn:E; lia.
Qed.

(** Every time of the years 1970 to 9999 is formatted with exactly 24
    characters (17 without the microseconds), the width that the log front end
    copies and asserts. *)
Theorem formatted_width (t : Z) :
  0 <= t < 253402300800 * 1000000 →
  slen (Timestamp.toFormattedString true t) = 24 ∧ slen (Timestamp.toFormattedString false t) = 17.
Proof.
  intros Ht. unfold Timestamp.toFormattedString, Timestamp.kMicroSecondsPerSecond.
  rewrite Z.quot_div_nonneg, Z.rem_mod_nonneg by lia.
  set (s := t / (1000 * 1000)). assert (0 <= s < 253402300800) as Hs by (unfold s; dlia).
  unfold gmtime. pose proof (civil_bounds (s / 86400) ltac:(dlia)) as Hc.
  destruct (civil_from_days (s / 86400)) as [[y m] d]. destruct Hc as (Hy & Hm & Hd).
  cbn [tm_year tm_mon tm_mday tm_hour tm_min tm_sec].
  match goal with |- _ ∧ slen (snprintf 64 ?x) = 17 => set (date := x) end.
  assert (slen date = 17) as Hdate.
  { unfold date. rewrite !slen_app. rewrite !(dec0_len 2) by (cbn; dlia).
    rewrite decw_len by (rewrite (dec_len 3); cbn; lia).
    change (slen " ") with 1. change (slen ":") with 1. lia. }
  clearbody date.
  assert (slen (date +:+ "." +:+ dec0 6 (t mod (1000 * 1000))) = 24) as Hfull.
  { rewrite !slen_app, Hdate. change (slen ".") with 1. rewrite (dec0_len 6); [lia|lia|cbn; dlia]. }
  split; rewrite snprintf_fits; lia.
Qed.

Lemma formatted_width_witness :
  slen (Timestamp.toFormattedString true (Timestamp.now 1559910896 42)) = 24.
Proof. apply (formatted_width (Timestamp.now 1559910896 42)). vm_compute. split; congruence. Defined.
