(* ===== verification/Date.v ===== *)
(** * Date.h, Date.cc: dates as Julian day numbers

    The arithmetic is that of [int]; [int_range] is where nothing overflows. *)
From S2P Require Import Prelude Text Timestamp.

Module Date.

Record YearMonthDay := mk { year : Z; month : Z; day : Z }.

#[export] Instance YearMonthDay_eq_dec : EqDecision YearMonthDay.
Proof. solve_decision. Defined.

Definition getJulianDayNumber (year month day : Z) : Z :=
  let a := cdiv (14 - month) 12 in
  let y := year + 4800 - a in
  let m := month + 12 * a - 3 in
  day + cdiv (153 * m + 2) 5 + y * 365 + cdiv y 4 - cdiv y 100 + cdiv y 400 - 32045.

Definition getYearMonthDay (julianDayNumber : Z) : YearMonthDay :=
  let a := julianDayNumber + 32044 in
  let b := cdiv (4 * a + 3) 146097 in
  let c := a - cdiv (b * 146097) 4 in
  let d := cdiv (4 * c + 3) 1461 in
  let e := c - cdiv (1461 * d) 4 in
  let m := cdiv (5 * e + 2) 153 in
  mk (b * 100 + d - 4800 + cdiv m 10) (m + 3 - 12 * cdiv m 10) (e - cdiv (153 * m + 2) 5 + 1).

Definition kDaysPerWeek : Z := 7.
Definition kJulianDayOf1970_01_01 : Z := getJulianDayNumber 1970 1 1.

(** A date is its [julianDayNumber_]. *)
Definition make (y m d : Z) : Z := getJulianDayNumber y m d.
Definition of_tm (t : tm) : Z := getJulianDayNumber (tm_year t + 1900) (tm_mon t + 1) (tm_mday t).
Definition valid (j : Z) : bool := 0 <? j.
Definition yearMonthDay (j : Z) : YearMonthDay := getYearMonthDay j.
Definition year_of (j : Z) : Z := year (yearMonthDay j).
Definition month_of (j : Z) : Z := month (yearMonthDay j).
Definition day_of (j : Z) : Z := day (yearMonthDay j).
Definition invalid : Z := 0.
Definition date_lt (x y : Z) : bool := x <? y.
Definition date_eq (x y : Z) : bool := x =? y.
Definition weekDay (j : Z) : Z := crem (j + 1) kDaysPerWeek.

Definition toIsoString (j : Z) : string :=
  let ymd := yearMonthDay j in
  snprintf 32 (decw 4 (year ymd) +:+ "-" +:+ dec0 2 (month ymd) +:+ "-" +:+ dec0 2 (day ymd)).

End Date.

(** ** The calendar *)
Section Calendar.
Import Date.

Definition leap (y : Z) : bool :=
  ((y mod 4 =? 0) && negb (y mod 100 =? 0)) || (y mod 400 =? 0).

Definition month_days (y m : Z) : Z :=
  if m =? 2 then if leap y then 29 else 28
  else if (m =? 4) || (m =? 6) || (m =? 9) || (m =? 11) then 30 else 31.

Definition is_date (x : YearMonthDay) : Prop :=
  1 <= month x <= 12 ∧ 1 <= day x <= month_days (year x) (month x).

Definition tomorrow (x : YearMonthDay) : YearMonthDay :=
  if day x <? month_days (year x) (month x) then mk (year x) (month x) (day x + 1)
  else if month x <? 12 then mk (year x) (month x + 1) 1
  else mk (year x + 1) 1 1.

(** Years in which the day number is not negative and nothing overflows. *)
Definition int_range (y : Z) : Prop := -4700 <= y <= 1000000.

Definition jdn (x : YearMonthDay) : Z := getJulianDayNumber (year x) (month x) (day x).

(** ** Years that start in March

    [Y], [M] and [E] are the year (from -4800 on), the month and the day of such a year,
    counted from 0; the leap day is the last one. *)

Definition year_start (Y : Z) : Z := 365 * Y + Y / 4 - Y / 100 + Y / 400.
Definition month_start (M : Z) : Z := (153 * M + 2) / 5.
Definition shift (m : Z) : Z := (14 - m) / 12.

Lemma shift_cases m : 1 <= m <= 12 → shift m = if m <? 3 then 1 else 0.
Proof. intros. unfold shift. destruct (m <? 3) eqn:E; dlia. Qed.

Lemma jdn_march x :
  int_range (year x) → 1 <= month x <= 12 →
  jdn x + 32044 = year_start (year x + 4800 - shift (month x)) +
                  month_start (month x + 12 * shift (month x) - 3) + (day x - 1).
Proof.
  intros Hr Hm. unfold int_range in Hr. unfold jdn, getJulianDayNumber. cbv zeta.
  rewrite (Z.quot_div_nonneg (14 - month x)) by lia. fold (shift (month x)).
  pose proof (shift_cases (month x) Hm) as Hs.
  assert (0 <= shift (month x) <= 1) by (rewrite Hs; destruct (month x <? 3); lia).
  assert (0 <= 153 * (month x + 12 * shift (month x) - 3) + 2) by (rewrite Hs; destruct (month x <? 3) eqn:E; lia).
  rewrite !Z.quot_div_nonneg by lia. unfold year_start, month_start. lia.
Qed.

Lemma year_start_split b r : 0 <= r < 100 → year_start (100 * b + r) = 146097 * b / 4 + 1461 * r / 4.
Proof. intros. unfold year_start. dlia. Qed.

(** The length of a year that starts in March is decided by the February at its end. *)
Definition last_day (Y : Z) : Z := if leap (Y + 1) then 365 else 364.

Lemma leap_split b r : 0 <= r < 100 →
  leap (100 * b + r + 1) = if r =? 99 then (b + 1) mod 4 =? 0 else (r + 1) mod 4 =? 0.
Proof.
  intros. unfold leap. destruct (r =? 99) eqn:E.
  - assert (r = 99) as -> by lia. destruct ((b + 1) mod 4 =? 0) eqn:E2; dlia.
  - destruct ((r + 1) mod 4 =? 0) eqn:E2; dlia.
Qed.

(** The day count gives back century, year and day. *)
Lemma century_back b r E :
  0 <= b → 0 <= r < 100 → 0 <= E <= last_day (100 * b + r) →
  let N := year_start (100 * b + r) + E in
  cdiv (4 * N + 3) 146097 = b ∧ cdiv (b * 146097) 4 = 146097 * b / 4 ∧
  cdiv (4 * (N - 146097 * b / 4) + 3) 1461 = r ∧ N - 146097 * b / 4 - 1461 * r / 4 = E.
Proof.
  intros Hb Hr HE N. unfold last_day in HE. rewrite leap_split in HE by done.
  unfold N. rewrite year_start_split by done.
  assert (0 <= 146097 * b / 4) by (apply Z.div_pos; lia). assert (0 <= 1461 * r / 4) by (apply Z.div_pos; lia).
  assert (0 <= E <= 364 ∨ E = 365 ∧ (r + 1) mod 4 = 0 ∧ (r = 99 → (b + 1) mod 4 = 0)) as HE'.
  { destruct (r =? 99) eqn:E9.
    - destruct ((b + 1) mod 4 =? 0) eqn:E4; [|lia]. assert (r = 99) as -> by lia.
      destruct (decide (E = 365)); [right; split_and!; [done|done|lia]|lia].
    - destruct ((r + 1) mod 4 =? 0) eqn:E4; [|lia]. destruct (decide (E = 365)); [right; split_and!; [done|lia|lia]|lia]. }
  rewrite !Z.quot_div_nonneg by lia.
  split_and!; [|f_equal; lia|..].
  - symmetry. apply (Z.div_unique _ _ _ (4 * (146097 * b / 4 + 1461 * r / 4 + E) + 3 - 146097 * b)); [|lia]. left.
    assert (r = 99 ∨ r <= 98) as [->|] by lia; dlia.
  - symmetry. apply (Z.div_unique _ _ _ (4 * (1461 * r / 4 + E) + 3 - 1461 * r)); [|lia]. left. dlia.
  - lia.
Qed.

(** The day of the year gives back month and day. *)
Definition march_length (M : Z) (leap_end : bool) : Z :=
  if M =? 11 then if leap_end then 29 else 28
  else if (M =? 1) || (M =? 3) || (M =? 6) || (M =? 8) then 30 else 31.

Lemma month_back M d l :
  0 <= M <= 11 → 1 <= d <= march_length M l →
  let E := month_start M + (d - 1) in
  cdiv (5 * E + 2) 153 = M ∧ E - cdiv (153 * M + 2) 5 + 1 = d ∧ 0 <= E <= (if l then 365 else 364).
Proof.
  intros HM Hd. unfold march_length, month_start in *. cbv zeta.
  assert (M = 0 ∨ M = 1 ∨ M = 2 ∨ M = 3 ∨ M = 4 ∨ M = 5 ∨ M = 6 ∨ M = 7 ∨ M = 8 ∨ M = 9 ∨ M = 10 ∨ M = 11) as Hc by lia.
  repeat destruct Hc as [->|Hc]; [..|subst M]; destruct l; cbn in Hd;
    match goal with |- context [(153 * ?M + 2) / 5] => let v := eval vm_compute in ((153 * M + 2) / 5) in
      change ((153 * M + 2) / 5) with v; change (cdiv (153 * M + 2) 5) with v end; split_and!; dlia.
Qed.

(** ** Dates *)

Lemma month_days_march x :
  1 <= month x <= 12 →
  let a := shift (month x) in
  month_days (year x) (month x) = march_length (month x + 12 * a - 3) (leap (year x - a + 1)).
Proof.
  intros Hm a. unfold a. rewrite (shift_cases _ Hm). unfold month_days, march_length.
  assert (month x = 1 ∨ month x = 2 ∨ month x = 3 ∨ month x = 4 ∨ month x = 5 ∨ month x = 6 ∨ month x = 7 ∨
    month x = 8 ∨ month x = 9 ∨ month x = 10 ∨ month x = 11 ∨ month x = 12) as Hc by lia.
  repeat destruct Hc as [E|Hc]; [..|rename Hc into E]; rewrite E; cbn; try done.
  by replace (year x - 1 + 1) with (year x) by lia.
Qed.

Lemma leap_4800 y : leap (y + 4800) = leap y.
Proof.
  unfold leap. replace (y + 4800) with (y + 1200 * 4) at 1 by lia. rewrite Z_mod_plus_full.
  replace (y + 4800) with (y + 48 * 100) at 1 by lia. rewrite Z_mod_plus_full.
  replace (y + 4800) with (y + 12 * 400) by lia. by rewrite Z_mod_plus_full.
Qed.

Lemma ymd_back x : int_range (year x) → is_date x → getYearMonthDay (jdn x) = x.
Proof.
  intros Hr [Hm Hd]. pose proof (jdn_march x Hr Hm) as Hj. rewrite (month_days_march x Hm) in Hd.
  unfold int_range in Hr. pose proof (shift_cases _ Hm) as Hs. set (a := shift (month x)) in *.
  assert (0 <= a <= 1 ∧ 0 <= month x + 12 * a - 3 <= 11) as [Ha HM] by (rewrite Hs; destruct (month x <? 3) eqn:E; lia).
  set (Y := year x + 4800 - a) in *. set (M := month x + 12 * a - 3) in *.
  assert (leap (year x - a + 1) = leap (Y + 1)) as El.
  { rewrite <-(leap_4800 (year x - a + 1)). f_equal. unfold Y. lia. }
  rewrite El in Hd. destruct (month_back M (day x) _ HM Hd) as (HbM & Hbd & HE).
  set (E := month_start M + (day x - 1)) in *.
  assert (Y = 100 * (Y / 100) + Y mod 100) as HY by (apply Z.div_mod; lia).
  pose proof (Z.mod_pos_bound Y 100 ltac:(lia)). assert (0 <= Y / 100) by (apply Z.div_pos; unfold Y; lia).
  destruct (century_back (Y / 100) (Y mod 100) E) as (H1 & H2 & H3 & H4); [done|done|rewrite <-HY; exact HE|].
  rewrite <-HY in H1, H3, H4. unfold getYearMonthDay. cbv zeta.
  replace (jdn x + 32044) with (year_start Y + E) by (unfold E; lia).
  rewrite H1, H2, H3. assert (0 <= 1461 * (Y mod 100)) by lia.
  rewrite (Z.quot_div_nonneg (1461 * (Y mod 100))) by lia. rewrite H4, HbM.
  assert (cdiv M 10 = a) as ->.
  { unfold M. rewrite Hs. destruct (month x <? 3) eqn:E3; dlia. }
  destruct x as [y m d]. cbn [year month day] in *. f_equal; unfold Y, M in *; lia.
Qed.

Lemma year_length Y : year_start (Y + 1) = year_start Y + last_day Y + 1.
Proof. unfold year_start, last_day, leap. destruct (_ || _) eqn:E; dlia. Qed.

(** Evaluates the closed comparisons and divisions of a hypothesis. *)
Ltac ground H :=
  repeat match type of H with
  | context [?a <? ?b] => let v := eval vm_compute in (a <? b) in
      lazymatch v with true => change (a <? b) with true in H | false => change (a <? b) with false in H end; cbv iota in H
  | context [?a =? ?b] => let v := eval vm_compute in (a =? b) in
      lazymatch v with true => change (a =? b) with true in H | false => change (a =? b) with false in H end;
      cbn [orb] in H; cbv iota in H
  | context [?a / 5] => let v := eval vm_compute in (a / 5) in change (a / 5) with v in H
  end.

Lemma jdn_tomorrow x : int_range (year x) → year x < 1000000 → is_date x → jdn (tomorrow x) = jdn x + 1.
Proof.
  intros Hr Hlt [Hm Hd]. unfold tomorrow. destruct (day x <? month_days _ _) eqn:E1.
  { unfold jdn, getJulianDayNumber. cbn [year month day]. lia. }
  assert (day x = month_days (year x) (month x)) as Hday by lia.
  assert (int_range (year x + 1)) as Hr1 by (unfold int_range in *; lia).
  enough (∀ x', year x' = year x + (if month x <? 12 then 0 else 1) → month x' = (if month x <? 12 then month x + 1 else 1) →
    day x' = 1 → jdn x' = jdn x + 1) as H.
  { destruct (month x <? 12); apply H; cbn [year month day]; lia. }
  intros x' Hy' Hm' Hd'. pose proof (jdn_march x Hr Hm) as Hj.
  assert (1 <= month x' <= 12) as Hm1 by (rewrite Hm'; destruct (month x <? 12) eqn:E; lia).
  assert (int_range (year x')) as Hr' by (rewrite Hy'; unfold int_range in *; destruct (month x <? 12); lia).
  pose proof (jdn_march x' Hr' Hm1) as Hj'. rewrite (shift_cases _ Hm) in Hj. rewrite (shift_cases _ Hm1) in Hj'.
  rewrite Hy', Hm', Hd' in Hj'. rewrite Hday in Hj. unfold month_start in *.
  pose proof (year_length (year x + 4799)) as Hyl. unfold last_day in Hyl.
  replace (leap (year x + 4799 + 1)) with (leap (year x)) in Hyl.
  2:{ rewrite <-(leap_4800 (year x)). f_equal. lia. }
  replace (year x + 4799 + 1) with (year x + 4800) in Hyl by lia.
  unfold month_days in Hj.
  assert (month x = 1 ∨ month x = 2 ∨ month x = 3 ∨ month x = 4 ∨ month x = 5 ∨ month x = 6 ∨ month x = 7 ∨
    month x = 8 ∨ month x = 9 ∨ month x = 10 ∨ month x = 11 ∨ month x = 12) as Hc by lia.
  clear Hm Hd E1 Hday Hm' Hm1 Hd'.
  repeat destruct Hc as [E|Hc]; [..|rename Hc into E]; rewrite E in *; clear E; ground Hj; ground Hj';
    rewrite ?Z.add_0_r, ?Z.sub_0_r in *;
    replace (year x + 4800 - 1) with (year x + 4799) in * by lia;
    replace (year x + 1 + 4800 - 1) with (year x + 4800) in * by lia;
    try destruct (leap (year x)); lia.
Qed.

End Calendar.

(** ** The property *)
Section Claims.
Import Date.

Lemma jdn_fits x : int_range (year x) → is_date x → 0 <= 4 * (jdn x + 32044) + 3 < 2 ^ 31.
Proof.
  intros Hr [Hm Hd]. rewrite (jdn_march x Hr Hm). unfold int_range in Hr.
  assert (1 <= day x <= 31) as Hd31.
  { revert Hd. unfold month_days. repeat case_match; lia. }
  pose proof (shift_cases _ Hm) as Hs. clear Hd. unfold year_start, month_start.
  destruct (month x <? 3) eqn:E; rewrite Hs; dlia.
Qed.

Lemma weekDay_next j : 0 <= j → weekDay (j + 1) = (weekDay j + 1) mod 7.
Proof. intros. unfold weekDay, kDaysPerWeek. dlia. Qed.

(** C40 (bounds). For every date of the Gregorian calendar from year -4700 to year
    1000000, no intermediate result of the conversions overflows an [int], the date is got
    back from its Julian day number, different dates have different numbers, and the
    number of the following day (with leap years) is one more, as is its week day modulo
    seven; 1970-01-01 is day 2440588, a Thursday. *)
Theorem date_roundtrip x :
  int_range (year x) → is_date x →
  0 <= 4 * (make (year x) (month x) (day x) + 32044) + 3 < 2 ^ 31 ∧
  yearMonthDay (make (year x) (month x) (day x)) = x ∧
  (∀ z, int_range (year z) → is_date z → date_eq (jdn z) (jdn x) = true → z = x) ∧
  (year x < 1000000 → jdn (tomorrow x) = jdn x + 1 ∧
     (valid (jdn x) = true → weekDay (jdn (tomorrow x)) = (weekDay (jdn x) + 1) mod 7)) ∧
  kJulianDayOf1970_01_01 = 2440588 ∧ weekDay kJulianDayOf1970_01_01 = 4.
Proof.
  intros Hr Hx. split; [by apply jdn_fits|]. split_and!; [by apply ymd_back| | |done|done].
  - intros z Hz Hzd E%Z.eqb_eq. by rewrite <-(ymd_back x), <-E, ymd_back.
  - intros Hlt. pose proof (jdn_tomorrow x Hr Hlt Hx) as E. split; [done|]. intros Hv. rewrite E.
    apply weekDay_next. unfold valid in Hv. lia.
Qed.

(** The last of February of a leap year, and what follows. *)
Definition leap_day : YearMonthDay := mk 2024 2 29.

Lemma date_roundtrip_witness :
  yearMonthDay (make 2024 2 29) = leap_day ∧ jdn (tomorrow leap_day) = jdn leap_day + 1 ∧
  tomorrow leap_day = mk 2024 3 1 ∧ toIsoString (jdn leap_day) = "2024-02-29"%string.
Proof.
  destruct (date_roundtrip leap_day) as (_ & H2 & _ & H4 & _).
  { unfold int_range. cbn [leap_day year]. lia. }
  { unfold is_date, leap_day. cbn [year month day]. split; [lia|]. change (month_days 2024 2) with 29. lia. }
  split_and!; [exact H2| |reflexivity|reflexivity]. apply H4. cbn [leap_day year]. lia.
Defined.

End Claims.
