(* ===== verification/LogStream.v ===== *)
(** * LogStream.h, LogStream.cc: formatting a log line into a fixed buffer

    A [FixedBuffer<SIZE>] is the bytes before [cur_]; what follows them is never read.
    The operators of [LogStream] are one definition each; [operation] lists them, so
    that a log line is a list of operations.  The text of a double in format %.12g is
    the C library's (a parameter). *)
From stdpp Require Import pretty.
From S2P Require Import Prelude Text.

Definition kSmallBuffer : Z := 4000.
Definition kLargeBuffer : Z := 4000 * 1000.

Module FixedBuffer.

Abbreviation t := (list byte).

Definition make : t := [].
Definition length_ (b : t) : Z := zlen b.
Definition avail (SIZE : Z) (b : t) : Z := SIZE - zlen b.
Definition append (SIZE : Z) (b : t) (buf : list byte) : t :=
  if zlen buf <? u64 (avail SIZE b) then b ++ buf else b.
Definition reset (b : t) : t := [].
Definition toString (b : t) : list byte := b.

(** [n] bytes [d] are stored at [current()], of which [add(len)] keeps [len]. *)
Definition add_at_current (SIZE : Z) (b : t) (d : list byte) (len : Z) : res t :=
  if zlen d <=? avail SIZE b then mret (b ++ ztake len d) else Fault UB.

End FixedBuffer.

(** ** Numbers *)

(** [zero[lsd]], [zero] being the middle of "9876543210123456789". *)
Definition zero_at (lsd : Z) : res byte :=
  match bytes_of "9876543210123456789" !! Z.to_nat (9 + lsd) with
  | Some b => if (-9 <=? lsd) && (lsd <=? 9) then mret b else Fault UB
  | None => Fault UB
  end.

Definition digitsHex (lsd : Z) : res byte :=
  match bytes_of "0123456789ABCDEF" !! Z.to_nat lsd with
  | Some b => if 0 <=? lsd then mret b else Fault UB
  | None => Fault UB
  end.

(** The loop of [convert]: the digits, the last one first. *)
Fixpoint convert_loop (fuel : nat) (i : Z) (p : list byte) : res (list byte) :=
  match fuel with
  | O => Fault OutOfFuel
  | S fuel' =>
      let lsd := crem i 10 in
      let i := cdiv i 10 in
      b ← zero_at lsd;
      let p := p ++ [b] in
      if i =? 0 then mret p else convert_loop fuel' i p
  end.

(** What [convert] leaves in [buf]: the text and the NUL behind it.  The fuel is the
    number of digits of a 64-bit integer. *)
Definition convert (value : Z) : res (list byte) :=
  p ← convert_loop 20 value [];
  let p := if value <? 0 then p ++ bytes_of "-" else p in
  mret (reverse p ++ [x00]).

Fixpoint convertHex_loop (fuel : nat) (i : Z) (p : list byte) : res (list byte) :=
  match fuel with
  | O => Fault OutOfFuel
  | S fuel' =>
      let lsd := i mod 16 in
      let i := i / 16 in
      b ← digitsHex lsd;
      let p := p ++ [b] in
      if i =? 0 then mret p else convertHex_loop fuel' i p
  end.

Definition convertHex (value : Z) : res (list byte) :=
  p ← convertHex_loop 16 value [];
  mret (reverse p ++ [x00]).

Module LogStream.
Section LogStream.

Definition kMaxNumericSize : Z := 32.

(** ["%.12g"]. *)
Variable g12 : double → string.

Abbreviation append := (FixedBuffer.append kSmallBuffer).
Abbreviation avail := (FixedBuffer.avail kSmallBuffer).

Definition formatInteger (v : Z) (b : FixedBuffer.t) : res FixedBuffer.t :=
  if kMaxNumericSize <=? avail b then
    buf ← convert v;
    FixedBuffer.add_at_current kSmallBuffer b buf (zlen buf - 1)
  else mret b.

Definition put_bool (v : bool) (b : FixedBuffer.t) : FixedBuffer.t :=
  append b (bytes_of (if v then "1" else "0")).

(** All integer types are converted to one that [formatInteger] prints by value. *)
Definition put_short (v : Z) (b : FixedBuffer.t) : res FixedBuffer.t := formatInteger (i32 v) b.
Definition put_unsigned_short (v : Z) (b : FixedBuffer.t) : res FixedBuffer.t := formatInteger (u32 v) b.
Definition put_int (v : Z) (b : FixedBuffer.t) : res FixedBuffer.t := formatInteger v b.
Definition put_unsigned (v : Z) (b : FixedBuffer.t) : res FixedBuffer.t := formatInteger v b.
Definition put_long (v : Z) (b : FixedBuffer.t) : res FixedBuffer.t := formatInteger v b.
Definition put_unsigned_long (v : Z) (b : FixedBuffer.t) : res FixedBuffer.t := formatInteger v b.

Definition put_pointer (v : Z) (b : FixedBuffer.t) : res FixedBuffer.t :=
  if kMaxNumericSize <=? avail b then
    buf ← convertHex v;
    FixedBuffer.add_at_current kSmallBuffer b (bytes_of "0x" ++ buf) (zlen buf - 1 + 2)
  else mret b.

Definition put_double (v : double) (b : FixedBuffer.t) : res FixedBuffer.t :=
  if kMaxNumericSize <=? avail b then
    let text := bytes_of (g12 v) in
    let stored := ztake (kMaxNumericSize - 1) text ++ [x00] in
    if zlen text <=? zlen stored
    then FixedBuffer.add_at_current kSmallBuffer b stored (zlen text)
    else Fault UB
  else mret b.

Definition put_char (v : byte) (b : FixedBuffer.t) : FixedBuffer.t := append b [v].

(** A null pointer is [None]. *)
Definition put_cstr (str : option (list byte)) (b : FixedBuffer.t) : FixedBuffer.t :=
  match str with
  | Some s => append b (c_str s)
  | None => append b (bytes_of "(null)")
  end.

Definition put_string (v : list byte) (b : FixedBuffer.t) : FixedBuffer.t := append b v.
Definition put_buffer (v : FixedBuffer.t) (b : FixedBuffer.t) : FixedBuffer.t :=
  put_string (FixedBuffer.toString v) b.
Definition append_ (data : list byte) (b : FixedBuffer.t) : FixedBuffer.t := append b data.

(** [Fmt]: an arithmetic value printed into 32 bytes; [text] is what printf makes of it. *)
Definition Fmt (text : string) : res (list byte) :=
  let length_ := slen text in
  _ ← cassert (length_ <? 32);
  mret (bytes_of (snprintf 32 text)).

Inductive operation :=
  | Bool (v : bool)
  | Short (v : Z)
  | UnsignedShort (v : Z)
  | Int (v : Z)
  | Unsigned (v : Z)
  | Long (v : Z)
  | UnsignedLong (v : Z)
  | Pointer (v : Z)
  | Double (v : double)
  | Char (v : byte)
  | Cstr (s : option (list byte))
  | String_ (s : list byte)
  | BufferOf (v : FixedBuffer.t)
  | Append (d : list byte).

Definition put (o : operation) (b : FixedBuffer.t) : res FixedBuffer.t :=
  match o with
  | Bool v => mret (put_bool v b)
  | Short v => put_short v b
  | UnsignedShort v => put_unsigned_short v b
  | Int v => put_int v b
  | Unsigned v => put_unsigned v b
  | Long v => put_long v b
  | UnsignedLong v => put_unsigned_long v b
  | Pointer v => put_pointer v b
  | Double v => put_double v b
  | Char v => mret (put_char v b)
  | Cstr s => mret (put_cstr s b)
  | String_ s => mret (put_string s b)
  | BufferOf v => mret (put_buffer v b)
  | Append d => mret (append_ d b)
  end.

Fixpoint put_all (os : list operation) (b : FixedBuffer.t) : res FixedBuffer.t :=
  match os with
  | [] => mret b
  | o :: os' => b ← put o b; put_all os' b
  end.

End LogStream.
End LogStream.

(** ** Numbers are printed in full *)

Lemma zero_at_spec d : -9 <= d <= 9 → zero_at d = Ok (digit (Z.abs d)).
Proof.
  intros. assert (d = -9 ∨ d = -8 ∨ d = -7 ∨ d = -6 ∨ d = -5 ∨ d = -4 ∨ d = -3 ∨ d = -2 ∨ d = -1 ∨ d = 0 ∨
    d = 1 ∨ d = 2 ∨ d = 3 ∨ d = 4 ∨ d = 5 ∨ d = 6 ∨ d = 7 ∨ d = 8 ∨ d = 9) as Hd by lia.
  by repeat destruct Hd as [->|Hd]; [..|subst d].
Qed.

(** The loop writes the digits of the absolute value backwards. *)
Lemma convert_loop_spec fuel i p :
  (1 <= fuel)%nat → Z.abs i < 10 ^ Z.of_nat fuel →
  convert_loop fuel i p = Ok (p ++ reverse (bytes_of (dec (Z.abs i)))).
Proof.
  revert i p. induction fuel as [|fuel IH]; intros i p Hf Hi; [lia|]. cbn [convert_loop].
  pose proof (Z.quot_rem' i 10) as Hqr. pose proof (Z.rem_bound_abs i 10 ltac:(lia)) as Hb.
  rewrite zero_at_spec by lia. cbn [mbind res_bind].
  assert (Z.abs i = 10 * Z.abs (cdiv i 10) + Z.abs (crem i 10)) as Habs.
  { clear IH Hi. dlia. }
  destruct (cdiv i 10 =? 0) eqn:E.
  - assert (Z.abs i = Z.abs (crem i 10)) as -> by lia. rewrite dec_digit by lia. by rewrite reverse_singleton.
  - destruct fuel as [|fuel]; [change (10 ^ Z.of_nat 1) with 10 in Hi; lia|].
    rewrite IH; [|lia|].
    + rewrite Habs, dec_snoc by lia. rewrite reverse_app, reverse_singleton. by rewrite <-app_assoc.
    + rewrite (Nat2Z.inj_succ (S fuel)), Z.pow_succ_r in Hi by lia. lia.
Qed.

Lemma dec_neg z : z < 0 → bytes_of (dec z) = bytes_of "-" ++ bytes_of (dec (Z.abs z)).
Proof. intros. destruct z as [|q|q]; [lia..|]. unfold dec, pretty, pretty_Z. by rewrite bytes_of_app. Qed.

Lemma convert_spec v : Z.abs v < 10 ^ 20 → convert v = Ok (bytes_of (dec v) ++ [x00]).
Proof.
  intros Hv. unfold convert. rewrite convert_loop_spec by (done || lia). cbn [mbind res_bind mret res_ret app].
  destruct (v <? 0) eqn:E.
  - rewrite reverse_app, reverse_involutive, (dec_neg v) by lia. done.
  - rewrite reverse_involutive. by rewrite Z.abs_eq by lia.
Qed.

Lemma dec_len_wide v : Z.abs v < 10 ^ 20 → slen (dec v) <= 21.
Proof.
  intros. rewrite <-slen_bytes_of. destruct (decide (v < 0)).
  - rewrite dec_neg by done. rewrite zlen_app, !slen_bytes_of.
    pose proof (dec_len_le 20 (Z.abs v) ltac:(lia) ltac:(change (10 ^ Z.of_nat 20) with (10 ^ 20); lia)). change (slen "-") with 1. lia.
  - rewrite slen_bytes_of. pose proof (dec_len_le 20 v ltac:(lia) ltac:(change (10 ^ Z.of_nat 20) with (10 ^ 20); lia)). lia.
Qed.

(** The number that hexadecimal digits denote. *)
Definition hex_digit (b : byte) : Z := if isdigit b then Z_of_byte b - 48 else Z_of_byte b - 55.
Definition hex_value (l : list byte) : Z := fold_left (λ acc b, 16 * acc + hex_digit b) l 0.

Lemma hex_value_snoc l b : hex_value (l ++ [b]) = 16 * hex_value l + hex_digit b.
Proof. unfold hex_value. by rewrite fold_left_app. Qed.

Lemma digitsHex_spec d : 0 <= d < 16 → ∃ b, digitsHex d = Ok b ∧ hex_digit b = d.
Proof.
  intros. assert (d = 0 ∨ d = 1 ∨ d = 2 ∨ d = 3 ∨ d = 4 ∨ d = 5 ∨ d = 6 ∨ d = 7 ∨ d = 8 ∨ d = 9 ∨ d = 10 ∨
    d = 11 ∨ d = 12 ∨ d = 13 ∨ d = 14 ∨ d = 15) as Hd by lia.
  repeat destruct Hd as [->|Hd]; [..|subst d]; (eexists; split; [reflexivity|done]).
Qed.

Lemma convertHex_loop_spec fuel i p :
  (1 <= fuel)%nat → 0 <= i < 16 ^ Z.of_nat fuel →
  ∃ q, convertHex_loop fuel i p = Ok (p ++ q) ∧ hex_value (reverse q) = i ∧ zlen q <= Z.of_nat fuel.
Proof.
  revert i p. induction fuel as [|fuel IH]; intros i p Hf Hi; [lia|]. cbn [convertHex_loop].
  pose proof (Z.mod_pos_bound i 16 ltac:(lia)) as Hb. pose proof (Z.div_mod i 16 ltac:(lia)).
  destruct (digitsHex_spec (i mod 16) Hb) as (b & -> & Hd). cbn [mbind res_bind].
  destruct (i / 16 =? 0) eqn:E.
  - exists [b]. split; [done|]. change (zlen [b]) with 1. split; [cbn; lia|lia].
  - rewrite Nat2Z.inj_succ, Z.pow_succ_r in Hi by lia.
    destruct fuel as [|fuel]; [cbn in Hi; lia|].
    destruct (IH (i / 16) (p ++ [b])) as (q & -> & Hv & Hl); [lia|lia|].
    exists (b :: q). rewrite <-app_assoc. split; [done|]. rewrite reverse_cons, hex_value_snoc, Hv, zlen_cons. lia.
Qed.

Definition hex_of (v : Z) : list byte :=
  match convertHex v with Ok d => ztake (zlen d - 1) d | Fault _ => [] end.

Lemma convertHex_spec v :
  0 <= v < 2 ^ 64 → convertHex v = Ok (hex_of v ++ [x00]) ∧ hex_value (hex_of v) = v ∧ zlen (hex_of v) <= 16.
Proof.
  intros Hv. unfold hex_of, convertHex.
  destruct (convertHex_loop_spec 16 v []) as (q & -> & Hval & Hl); [lia|done|].
  cbn [mbind res_bind mret res_ret app]. rewrite zlen_app, (ztake_app_exact _ (reverse q)) by (change (zlen [x00]) with 1; lia).
  split; [done|]. split; [done|]. unfold zlen in *. by rewrite length_reverse.
Qed.

(** ** What a log line holds *)
Section Lines.
Import LogStream.
Variable g12 : double → string.
Hypothesis g12_width : ∀ v, slen (g12 v) <= 31.

(** The text of an operation, and the room it asks for: numbers are written in place
    and ask for 32 bytes, texts for one byte more than they have. *)
Definition op_text (o : operation) : list byte :=
  match o with
  | Bool v => bytes_of (if v then "1" else "0")
  | Short v | UnsignedShort v | Int v | Unsigned v | Long v | UnsignedLong v => bytes_of (dec v)
  | Pointer v => bytes_of "0x" ++ hex_of v
  | Double v => bytes_of (g12 v)
  | Char v => [v]
  | Cstr (Some s) => c_str s
  | Cstr None => bytes_of "(null)"
  | String_ s | BufferOf s | Append s => s
  end.

Definition op_room (o : operation) : Z :=
  match o with
  | Short _ | UnsignedShort _ | Int _ | Unsigned _ | Long _ | UnsignedLong _ | Pointer _ | Double _ =>
      kMaxNumericSize
  | _ => zlen (op_text o) + 1
  end.

(** The arguments are values of their types. *)
Definition op_ok (o : operation) : Prop :=
  match o with
  | Short v => in_sN 16 v
  | UnsignedShort v => 0 <= v < 2 ^ 16
  | Int v => in_sN 32 v
  | Unsigned v => 0 <= v < 2 ^ 32
  | Long v => in_sN 64 v
  | UnsignedLong v | Pointer v => 0 <= v < 2 ^ 64
  | _ => True
  end.

(** An operation adds its whole text when there is room, and nothing otherwise. *)
Definition put_spec (b : FixedBuffer.t) (o : operation) : FixedBuffer.t :=
  if op_room o <=? FixedBuffer.avail kSmallBuffer b then b ++ op_text o else b.

Lemma in_sN_abs w v : w <= 64 → in_sN w v → Z.abs v < 10 ^ 20.
Proof.
  unfold in_sN. intros Hw Hv. pose proof (Z.pow_le_mono_r 2 (w - 1) 63 ltac:(lia) ltac:(lia)). lia.
Qed.

Lemma formatInteger_spec v b :
  Z.abs v < 10 ^ 20 → zlen b < kSmallBuffer →
  formatInteger v b = Ok (if kMaxNumericSize <=? FixedBuffer.avail kSmallBuffer b then b ++ bytes_of (dec v) else b).
Proof.
  intros Hv Hb. unfold formatInteger. destruct (_ <=? _) eqn:E; [|done].
  rewrite convert_spec by done. cbn [mbind res_bind]. unfold FixedBuffer.add_at_current.
  pose proof (dec_len_wide v Hv) as Hw. rewrite <-slen_bytes_of in Hw. unfold kMaxNumericSize in E.
  rewrite zlen_app. change (zlen [x00]) with 1. replace (_ + 1 <=? _) with true by lia.
  by rewrite ztake_app_exact by lia.
Qed.

Lemma fixed_append_spec b d :
  zlen b < kSmallBuffer → FixedBuffer.append kSmallBuffer b d =
    if zlen d + 1 <=? FixedBuffer.avail kSmallBuffer b then b ++ d else b.
Proof.
  intros Hb. unfold FixedBuffer.append, FixedBuffer.avail, kSmallBuffer in *. zpos. rewrite uN_small by lia.
  destruct (_ <? _) eqn:E, (_ <=? _) eqn:E'; done || lia.
Qed.

Lemma put_put_spec o b : op_ok o → zlen b < kSmallBuffer → put g12 o b = Ok (put_spec b o).
Proof.
  intros Ho Hb. unfold put_spec.
  destruct o; cbn [put op_room op_text op_ok] in *; unfold put_bool, put_char, put_cstr, put_buffer, put_string,
    FixedBuffer.toString, append_, put_short, put_unsigned_short, put_int, put_unsigned, put_long, put_unsigned_long in *;
    try (rewrite fixed_append_spec by done; done).
  - rewrite sN_small; [|lia|unfold in_sN in *; lia]. apply formatInteger_spec; [|done]. apply (in_sN_abs 16); [done|exact Ho].
  - rewrite uN_small by lia. apply formatInteger_spec; lia.
  - apply formatInteger_spec; [|done]. apply (in_sN_abs 32); [done|exact Ho].
  - apply formatInteger_spec; lia.
  - apply formatInteger_spec; [|done]. apply (in_sN_abs 64); [done|exact Ho].
  - apply formatInteger_spec; lia.
  - unfold put_pointer. destruct (_ <=? _) eqn:E; [|done]. destruct (convertHex_spec v Ho) as (-> & _ & Hl).
    cbn [mbind res_bind]. unfold FixedBuffer.add_at_current, kMaxNumericSize in *. rewrite !zlen_app.
    change (zlen [x00]) with 1. change (zlen (bytes_of "0x")) with 2. replace (2 + _ <=? _) with true by lia.
    rewrite app_assoc, ztake_app_exact; [done|]. rewrite zlen_app. change (zlen (bytes_of "0x")) with 2. lia.
  - unfold put_double. destruct (_ <=? _) eqn:E; [|done]. pose proof (g12_width v) as Hw.
    rewrite <-slen_bytes_of in Hw. unfold FixedBuffer.add_at_current, kMaxNumericSize in *.
    rewrite (ztake_ge (32 - 1)) by lia. rewrite zlen_app. change (zlen [x00]) with 1.
    replace (_ <=? _ + 1) with true by lia. replace (_ + 1 <=? _) with true by lia. by rewrite ztake_app_exact.
  - destruct s; by rewrite fixed_append_spec.
Qed.

Lemma op_text_room o : op_ok o → zlen (op_text o) < op_room o.
Proof.
  destruct o; cbn [op_text op_room op_ok]; unfold kMaxNumericSize; intros; try lia;
    try (rewrite slen_bytes_of; pose proof (dec_len_wide v ltac:(first [lia | eapply in_sN_abs; [|eassumption]; done])); lia).
  - destruct (convertHex_spec v) as (_ & _ & Hl); [done|]. rewrite zlen_app. change (zlen (bytes_of "0x")) with 2. lia.
  - rewrite slen_bytes_of. pose proof (g12_width v). lia.
Qed.

Lemma put_spec_small b o : op_ok o → zlen b < kSmallBuffer → zlen (put_spec b o) < kSmallBuffer.
Proof.
  intros Ho Hb. unfold put_spec. destruct (_ <=? _) eqn:E; [|done]. rewrite zlen_app.
  pose proof (op_text_room o Ho). unfold FixedBuffer.avail in *. lia.
Qed.

Lemma put_all_spec (os : list operation) (b : FixedBuffer.t) :
  Forall op_ok os → zlen b < kSmallBuffer →
  put_all g12 os b = Ok (fold_left put_spec os b) ∧ zlen (fold_left put_spec os b) < kSmallBuffer ∧
  (zlen b + zlen (os ≫= op_text) + kMaxNumericSize <= kSmallBuffer →
   fold_left put_spec os b = b ++ (os ≫= op_text)).
Proof.
  intros Hos. revert b. induction Hos as [|o os Ho _ IH]; intros b Hb.
  - cbn. rewrite app_nil_r. split_and!; done.
  - cbn [put_all fold_left]. rewrite put_put_spec by done. cbn [mbind res_bind].
    destruct (IH (put_spec b o)) as (-> & Hl & Hall); [by apply put_spec_small|].
    split_and!; [done|done|].
    rewrite bind_cons, zlen_app. intros Hfit. unfold put_spec, FixedBuffer.avail in *. zpos.
    assert (op_room o <= kSmallBuffer - zlen b) as Hr.
    { destruct o; cbn [op_room op_text] in *; unfold kMaxNumericSize in *; lia. }
    replace (op_room o <=? _) with true in * by lia. rewrite Hall; [by rewrite <-app_assoc|].
    rewrite zlen_app. lia.
Qed.

(** C39 (equivalence). A log line: any sequence of the stream's operators, on values of
    their types, never writes outside the 4000 bytes of the buffer and gives what the
    specification says: each operator adds its whole text (decimal for integers of every
    width, the smallest ones included, hexadecimal for pointers) or, when the room it
    asks for is not left, nothing.  When the texts have together less than 3968 bytes
    nothing is left out. *)
Theorem stream_line (os : list operation) (b : FixedBuffer.t) :
  Forall op_ok os → zlen b < kSmallBuffer →
  put_all g12 os b = Ok (fold_left put_spec os b) ∧ zlen (fold_left put_spec os b) < kSmallBuffer ∧
  (zlen b + zlen (os ≫= op_text) + kMaxNumericSize <= kSmallBuffer →
   fold_left put_spec os b = b ++ (os ≫= op_text)) ∧
  ∀ v, Pointer v ∈ os → hex_value (hex_of v) = v.
Proof.
  intros Hos Hb. destruct (put_all_spec os b Hos Hb) as (H1 & H2 & H3). split_and!; [done..|].
  intros v Hv. apply convertHex_spec. by apply (Forall_forall op_ok os) in Hv.
Qed.
End Lines.

Lemma stream_line_witness :
  LogStream.put_all (λ _, ""%string)
    [LogStream.Append (bytes_of "id="); LogStream.Long (-2 ^ 63); LogStream.Pointer 3735928559;
     LogStream.String_ (zrep 3970 x00); LogStream.Char (byte_of_Z 10)] [] =
  Ok (bytes_of "id=-92233720368547758080xDEADBEEF" ++ [byte_of_Z 10]).
Proof.
  destruct (stream_line (λ _, ""%string) (λ _, ltac:(done))
    [LogStream.Append (bytes_of "id="); LogStream.Long (-2 ^ 63); LogStream.Pointer 3735928559;
     LogStream.String_ (zrep 3970 x00); LogStream.Char (byte_of_Z 10)] []) as (-> & _).
  - repeat constructor; unfold in_sN; by vm_compute.
  - done.
  - by vm_compute.
Defined.
