(* ===== verification/Logging.v ===== *)
(** * Logging.h, Logging.cc: one log statement

    [LOG_X << a << b;] builds a [Logger] (the head of the line), puts the operands into
    its stream and destroys it (the tail of the line, the output, and the abort of a
    fatal message).  The output functions run on a world [W]; the clock and the thread
    number are arguments, and strerror(3) is a parameter. *)
From S2P Require Import Prelude Text Timestamp LogStream.

Module CurrentThread.
(** [cacheTid]: the text of the thread number and the length [snprintf] returns. *)
Definition tidString (tid : Z) : string := snprintf 32 (decw 5 tid +:+ " ").
Definition tidStringLength (tid : Z) : Z := slen (decw 5 tid +:+ " ").
End CurrentThread.

Module Logger.

Inductive LogLevel := TRACE | DEBUG | INFO | WARN | ERROR | FATAL.

#[export] Instance LogLevel_eq_dec : EqDecision LogLevel.
Proof. solve_decision. Defined.

(** The value of the enumerator. *)
Definition level_index (l : LogLevel) : Z :=
  match l with TRACE => 0 | DEBUG => 1 | INFO => 2 | WARN => 3 | ERROR => 4 | FATAL => 5 end.

Definition LogLevelName (l : LogLevel) : string :=
  match l with
  | TRACE => "TRACE "
  | DEBUG => "DEBUG "
  | INFO => "INFO  "
  | WARN => "WARN  "
  | ERROR => "ERROR "
  | FATAL => "FATAL "
  end.

(** [initLogLevel]; the arguments say whether the environment has the variable. *)
Definition initLogLevel (has_LOG_TRACE has_LOG_DEBUG : bool) : LogLevel :=
  if has_LOG_TRACE then TRACE else if has_LOG_DEBUG then DEBUG else INFO.

(** [SourceFile]: what follows the last slash. *)
Fixpoint after_slash (l : list byte) : option (list byte) :=
  match l with
  | [] => None
  | b :: l' =>
      match after_slash l' with
      | Some r => Some r
      | None => if Z_of_byte b =? 47 then Some l' else None
      end
  end.
Definition SourceFile (name : list byte) : list byte := default name (after_slash name).

(** [T(str, len)]. *)
Definition T (str : string) (len : Z) : res LogStream.operation :=
  let s := c_str (bytes_of str) in
  _ ← cassert (zlen s =? len);
  mret (LogStream.Append s).

Section Logger.
Import LogStream.
Variable g12 : double → string.
Variable strerror : Z → list byte.

Record Impl := mkImpl {
  stream_ : FixedBuffer.t;
  level_ : LogLevel;
  line_ : Z;
  basename_ : list byte
}.

Definition make (level : LogLevel) (savedErrno : Z) (file : list byte) (line now tid : Z) : res Impl :=
  time ← T (Timestamp.toFormattedString true now) 24;
  space ← T " " 1;
  thread ← T (CurrentThread.tidString tid) (CurrentThread.tidStringLength tid);
  name ← T (LogLevelName level) 6;
  let errno_part :=
    if savedErrno =? 0 then []
    else [Cstr (Some (strerror savedErrno)); Cstr (Some (bytes_of " (errno=")); Int savedErrno;
          Cstr (Some (bytes_of ") "))] in
  stream ← put_all g12 ([time; space; thread; name] ++ errno_part) FixedBuffer.make;
  mret (mkImpl stream level line (SourceFile file)).

Definition finish (i : Impl) : res Impl :=
  stream ← put_all g12
    [Cstr (Some (bytes_of " - ")); Append (basename_ i); Char (byte_of_Z 58); Int (line_ i); Char (byte_of_Z 10)]
    (stream_ i);
  mret (mkImpl stream (level_ i) (line_ i) (basename_ i)).

Section Output.
Context {W : Type} (g_output : list byte → W → res W) (g_flush : W → res W).

(** The destructor; a fatal message does not return. *)
Definition destroy (i : Impl) (w : W) : res W :=
  i ← finish i;
  w ← g_output (stream_ i) w;
  if bool_decide (level_ i = FATAL) then
    _ ← g_flush w;
    Fault Fatal
  else mret w.

(** [Logger(file, line, level).stream() << operands;], with the function's name for
    LOG_TRACE and LOG_DEBUG and [errno] for LOG_SYSERR and LOG_SYSFATAL. *)
Definition log (level : LogLevel) (savedErrno : Z) (func : option (list byte)) (file : list byte)
    (line now tid : Z) (operands : list operation) (w : W) : res W :=
  i ← make level savedErrno file line now tid;
  let func_part := match func with Some f => [Cstr (Some f); Char (byte_of_Z 32)] | None => [] end in
  stream ← put_all g12 (func_part ++ operands) (stream_ i);
  destroy (mkImpl stream (level_ i) (line_ i) (basename_ i)) w.

Section Macros.
Variable g_logLevel : LogLevel.
Variables (file func : list byte) (line now tid : Z).

Definition LOG_TRACE (operands : list operation) (w : W) : res W :=
  if level_index g_logLevel <=? level_index TRACE
  then log TRACE 0 (Some func) file line now tid operands w else mret w.
Definition LOG_DEBUG (operands : list operation) (w : W) : res W :=
  if level_index g_logLevel <=? level_index DEBUG
  then log DEBUG 0 (Some func) file line now tid operands w else mret w.
Definition LOG_INFO (operands : list operation) (w : W) : res W :=
  if level_index g_logLevel <=? level_index INFO
  then log INFO 0 None file line now tid operands w else mret w.
Definition LOG_WARN : list operation → W → res W := log WARN 0 None file line now tid.
Definition LOG_ERROR : list operation → W → res W := log ERROR 0 None file line now tid.
Definition LOG_FATAL : list operation → W → res W := log FATAL 0 None file line now tid.
Definition LOG_SYSERR (errno : Z) : list operation → W → res W := log ERROR errno None file line now tid.
Definition LOG_SYSFATAL (errno : Z) : list operation → W → res W := log FATAL errno None file line now tid.

(** [CHECK_NOTNULL]. *)
Definition CheckNotNull {A} (names : list byte) (ptr : option A) (w : W) : res W :=
  match ptr with
  | Some _ => mret w
  | None => LOG_FATAL [Cstr (Some names)] w
  end.
End Macros.
End Output.
End Logger.
End Logger.

Section Lines.
Import LogStream Logger.
Variable g12 : double → string.
Hypothesis g12_width : ∀ v, slen (g12 v) <= 31.
Variable strerror : Z → list byte.
Context {W : Type} (g_output : list byte → W → res W) (g_flush : W → res W).

(** The operations of a whole log statement. *)
Definition head_ops (level : LogLevel) (savedErrno now tid : Z) : list operation :=
  [Append (bytes_of (Timestamp.toFormattedString true now)); Append (bytes_of " ");
   Append (bytes_of (decw 5 tid +:+ " ")); Append (bytes_of (LogLevelName level))] ++
  (if savedErrno =? 0 then []
   else [Cstr (Some (strerror savedErrno)); Cstr (Some (bytes_of " (errno=")); Int savedErrno;
         Cstr (Some (bytes_of ") "))]).

Definition func_ops (func : option (list byte)) : list operation :=
  match func with Some f => [Cstr (Some f); Char (byte_of_Z 32)] | None => [] end.

Definition tail_ops (file : list byte) (line : Z) : list operation :=
  [Cstr (Some (bytes_of " - ")); Append (SourceFile file); Char (byte_of_Z 58); Int line; Char (byte_of_Z 10)].

(** A concrete text has no NUL. *)
Lemma no_nul_dec s : bool_decide (x00 ∉ bytes_of s) = true → x00 ∉ bytes_of s.
Proof. intros H. by eapply bool_decide_eq_true. Qed.

Lemma T_ok s n : x00 ∉ bytes_of s → slen s = n → T s n = Ok (Append (bytes_of s)).
Proof. intros Hs <-. unfold T. rewrite c_str_no_nul by done. by rewrite slen_bytes_of, Z.eqb_refl. Qed.

Lemma blanks_no_nul n : x00 ∉ bytes_of (blanks n).
Proof. induction n as [|n IH]; [set_solver|]. change (bytes_of (blanks (S n))) with (byte_of_Z 32 :: bytes_of (blanks n)). set_solver. Qed.

Lemma zeros_no_nul n : x00 ∉ bytes_of (zeros n).
Proof. induction n as [|n IH]; [set_solver|]. change (bytes_of (zeros (S n))) with (byte_of_Z 48 :: bytes_of (zeros n)). set_solver. Qed.

Lemma decw_no_nul w z : x00 ∉ bytes_of (decw w z).
Proof. unfold decw. rewrite bytes_of_app, not_elem_of_app. split; [apply blanks_no_nul|apply dec_no_nul]. Qed.

Lemma dec0_no_nul w z : x00 ∉ bytes_of (dec0 w z).
Proof.
  unfold dec0. rewrite !bytes_of_app, !not_elem_of_app. split_and!; [|apply zeros_no_nul|apply dec_no_nul].
  destruct (z <? 0); by apply no_nul_dec.
Qed.

Lemma substring_no_nul n s : x00 ∉ bytes_of s → x00 ∉ bytes_of (String.substring 0 n s).
Proof.
  revert n. induction s as [|a s IH]; intros [|n]; cbn [String.substring]; try set_solver.
Qed.

Lemma formatted_no_nul t : x00 ∉ bytes_of (Timestamp.toFormattedString true t).
Proof.
  unfold Timestamp.toFormattedString. apply substring_no_nul. rewrite !bytes_of_app, !not_elem_of_app.
  split_and!; first [apply decw_no_nul | apply dec0_no_nul | by apply no_nul_dec].
Qed.

(** The operations of the head and the tail are on values of their types. *)
Lemma head_ok level savedErrno now tid : in_sN 32 savedErrno → Forall op_ok (head_ops level savedErrno now tid).
Proof.
  intros He. unfold head_ops. apply Forall_app. split; [repeat (apply Forall_cons; split; [done|]); done|].
  destruct (savedErrno =? 0); [done|]. repeat (apply Forall_cons; split; [done|]). done.
Qed.

Lemma func_ok func : Forall op_ok (func_ops func).
Proof. destruct func; [|done]. repeat (apply Forall_cons; split; [done|]). done. Qed.

Lemma tail_ok file line : in_sN 32 line → Forall op_ok (tail_ops file line).
Proof. intros. unfold tail_ops. repeat (apply Forall_cons; split; [done|]). done. Qed.

(** The head of a line: no assertion of [T] fails. *)
Lemma make_ok level savedErrno file line now tid :
  0 <= now < 253402300800 * 1000000 → 0 < tid < 2 ^ 31 → in_sN 32 savedErrno →
  make g12 strerror level savedErrno file line now tid =
    Ok (mkImpl (fold_left (put_spec g12) (head_ops level savedErrno now tid) []) level line (SourceFile file)).
Proof.
  intros Hn Ht He. unfold make.
  rewrite (T_ok (Timestamp.toFormattedString true now)) by (apply formatted_no_nul || by apply formatted_width).
  rewrite (T_ok " ") by (done || by apply no_nul_dec).
  assert (slen (decw 5 tid +:+ " ") < 32) as Hw.
  { rewrite slen_app. unfold decw. rewrite slen_app, slen_blanks. change (slen " ") with 1.
    pose proof (dec_len_le 10 tid ltac:(lia) ltac:(lia)). lia. }
  unfold CurrentThread.tidString, CurrentThread.tidStringLength. rewrite snprintf_fits by done.
  rewrite (T_ok (decw 5 tid +:+ " ")); [|rewrite bytes_of_app, not_elem_of_app; split; [apply decw_no_nul|by apply no_nul_dec]|done].
  rewrite (T_ok (LogLevelName level)) by (destruct level; done || by apply no_nul_dec).
  cbn [mbind res_bind]. cbv zeta.
  change (put_all g12 _ FixedBuffer.make) with (put_all g12 (head_ops level savedErrno now tid) []).
  destruct (put_all_spec g12 g12_width (head_ops level savedErrno now tid) []) as (-> & _); [by apply head_ok|done|done].
Qed.

(** A whole statement is its operations on one buffer, then one call of the output. *)
Lemma log_run level savedErrno func file line now tid operands w :
  0 <= now < 253402300800 * 1000000 → 0 < tid < 2 ^ 31 → in_sN 32 savedErrno → in_sN 32 line →
  Forall op_ok operands →
  log g12 strerror g_output g_flush level savedErrno func file line now tid operands w =
    (w ← g_output (fold_left (put_spec g12)
           (head_ops level savedErrno now tid ++ func_ops func ++ operands ++ tail_ops file line) []) w;
     if bool_decide (level = FATAL) then _ ← g_flush w; Fault Fatal else mret w).
Proof.
  intros Hn Ht He Hl Hos. unfold log. rewrite make_ok by done. cbn [mbind res_bind stream_ level_ line_ basename_].
  pose proof (head_ok level savedErrno now tid He) as Hh.
  destruct (put_all_spec g12 g12_width _ [] Hh ltac:(done)) as (_ & H1 & _).
  set (b1 := fold_left _ (head_ops _ _ _ _) []) in *.
  change (match func with Some f => _ | None => _ end) with (func_ops func).
  assert (Forall op_ok (func_ops func ++ operands)) as Hf.
  { apply Forall_app. split; [apply func_ok|done]. }
  destruct (put_all_spec g12 g12_width _ b1 Hf H1) as (-> & H2 & _). cbn [mbind res_bind].
  set (b2 := fold_left _ (func_ops func ++ operands) b1) in *. unfold destroy, finish.
  cbn [stream_ basename_ line_ level_].
  change (put_all g12 _ b2) with (put_all g12 (tail_ops file line) b2).
  destruct (put_all_spec g12 g12_width (tail_ops file line) b2) as (-> & _).
  { by apply tail_ok. }
  { done. }
  cbn [mbind res_bind mret res_ret stream_ level_]. unfold b2, b1. by rewrite <-!fold_left_app, <-!app_assoc.
Qed.

(** C38 (functional). A log statement, on values of their types and up to the year 9999,
    hands exactly one line to the output function and returns unless it is fatal, in
    which case the output is flushed and the process is aborted.  No assertion about the
    widths of time, thread number and level fails.  The line is shorter than 4000 bytes,
    and when the parts have together less than 3969 bytes it is, in this order: the time,
    the thread, the level, the text and number of [errno] if any, the function name if
    any, the operands, the file's base name, the line number and a newline. *)
Theorem log_line level savedErrno func file line now tid operands w :
  0 <= now < 253402300800 * 1000000 → 0 < tid < 2 ^ 31 → in_sN 32 savedErrno → in_sN 32 line →
  Forall op_ok operands →
  let parts := head_ops level savedErrno now tid ++ func_ops func ++ operands ++ tail_ops file line in
  ∃ text, zlen text < kSmallBuffer ∧
    (zlen (parts ≫= op_text g12) + kMaxNumericSize <= kSmallBuffer → text = parts ≫= op_text g12) ∧
    log g12 strerror g_output g_flush level savedErrno func file line now tid operands w =
      (w ← g_output text w;
       if bool_decide (level = FATAL) then _ ← g_flush w; Fault Fatal else mret w).
Proof.
  intros Hn Ht He Hl Hos parts. exists (fold_left (put_spec g12) parts []).
  destruct (put_all_spec g12 g12_width parts []) as (_ & H1 & H2).
  { unfold parts. rewrite !Forall_app. split_and!; [by apply head_ok|apply func_ok|done|by apply tail_ok]. }
  { done. }
  split_and!; [done|exact H2|by apply log_run].
Qed.
End Lines.

Lemma log_line_witness :
  Logger.log (λ _, ""%string) (λ _, bytes_of "Bad file descriptor") (λ d w, Ok (w ++ d)) Ok Logger.ERROR 9 None
    (bytes_of "../src/SocketsOps.cc") 119 (1559910896 * 1000000 + 42) 4711
    [LogStream.Cstr (Some (bytes_of "Socket::accept"))] [] =
  Ok (bytes_of "20190607 12:34:56.000042  4711 ERROR Bad file descriptor (errno=9) Socket::accept - SocketsOps.cc:119" ++
      [byte_of_Z 10]).
Proof.
  destruct (log_line (λ _, ""%string) (λ _, ltac:(done)) (λ _, bytes_of "Bad file descriptor")
    (λ d w, Ok (w ++ d)) Ok Logger.ERROR 9 None (bytes_of "../src/SocketsOps.cc") 119 (1559910896 * 1000000 + 42) 4711
    [LogStream.Cstr (Some (bytes_of "Socket::accept"))] []) as (text & _ & Htext & ->).
  - lia.
  - lia.
  - by vm_compute.
  - by vm_compute.
  - by repeat constructor.
  - rewrite Htext by (by vm_compute). by vm_compute.
Defined.
