(* ===== verification/LogFile.v ===== *)
(** * FileUtil.cc and LogFile.cc: log files that roll

    stdio is the class [Stdio] over the state [F] of a [FILE]; [clock] gives what the
    successive calls of time(2) return.  [closed] keeps what the files closed so far
    were given. *)
From stdpp Require Import pretty.
From S2P Require Import Prelude Text Timestamp.

Class Stdio (F : Type) := {
  fopen : string → option F;
  fwrite : F → list byte → Z * F;
  fflush : F → F
}.

(** [written f] is what the stream has taken since it was opened. *)
Class StdioLaws (F : Type) (IO : Stdio F) := {
  written : F → list byte;
  fopen_law name f : fopen name = Some f → written f = [];
  fwrite_law f d n f' :
    fwrite f d = (n, f') → 0 <= n <= zlen d ∧ written f' = written f ++ ztake n d;
  fflush_law f : written (fflush f) = written f
}.

(** A disk with room: files open, and every write makes progress. *)
Class StdioReliable (F : Type) (IO : Stdio F) : Prop := {
  fopen_ok name : is_Some (fopen name);
  fwrite_progress f d : d ≠ [] → 0 < (fwrite f d).1
}.

Module AppendFile.
Section AppendFile.
Context `{IO : Stdio F}.

Record t := mk { fp_ : F; writtenBytes_ : Z }.

Definition make (filename : string) : res t :=
  match fopen filename with
  | Some fp => mret (mk fp 0)
  | None => Fault AssertFail
  end.

(** The loop of [append]: [n] bytes of the line are written. *)
Fixpoint append_loop (fuel : nat) (logline : list byte) (n : Z) (fp : F) : res F :=
  let remain := zlen logline - n in
  if 0 <? remain then
    match fuel with
    | O => Fault OutOfFuel
    | S fuel' =>
        let '(x, fp) := fwrite fp (zdrop n logline) in
        if x =? 0 then mret fp else append_loop fuel' logline (n + x) fp
    end
  else mret fp.

Definition append (logline : list byte) (f : t) : res t :=
  let len := zlen logline in
  let '(n, fp) := fwrite (fp_ f) logline in
  fp ← append_loop (length logline) logline n fp;
  mret (mk fp (i64 (writtenBytes_ f + len))).

Definition flush (f : t) : t := mk (fflush (fp_ f)) (writtenBytes_ f).
Definition writtenBytes (f : t) : Z := writtenBytes_ f.

End AppendFile.
#[global] Arguments t F : clear implicits.
End AppendFile.

Module LogFile.
Section LogFile.
Context `{IO : Stdio F}.
Variable clock : nat → Z.
Variables (hostname : option string) (pid : Z).

Definition kRollPerSeconds_ : Z := 60 * 60 * 24.

Record t := mk {
  basename_ : string;
  rollSize_ : Z;
  flushInterval_ : Z;
  checkEveryN_ : Z;
  count_ : Z;
  startOfPeriod_ : Z;
  lastRoll_ : Z;
  lastFlush_ : Z;
  file_ : option (AppendFile.t F);
  ticks : nat;
  closed : list F
}.

Definition set_file (f : AppendFile.t F) (l : t) : t :=
  mk (basename_ l) (rollSize_ l) (flushInterval_ l) (checkEveryN_ l) (count_ l) (startOfPeriod_ l)
     (lastRoll_ l) (lastFlush_ l) (Some f) (ticks l) (closed l).
Definition set_count (n : Z) (l : t) : t :=
  mk (basename_ l) (rollSize_ l) (flushInterval_ l) (checkEveryN_ l) n (startOfPeriod_ l)
     (lastRoll_ l) (lastFlush_ l) (file_ l) (ticks l) (closed l).
Definition set_lastFlush (n : Z) (l : t) : t :=
  mk (basename_ l) (rollSize_ l) (flushInterval_ l) (checkEveryN_ l) (count_ l) (startOfPeriod_ l)
     (lastRoll_ l) n (file_ l) (ticks l) (closed l).

(** [time(NULL)]. *)
Definition time (l : t) : Z * t :=
  (clock (ticks l),
   mk (basename_ l) (rollSize_ l) (flushInterval_ l) (checkEveryN_ l) (count_ l) (startOfPeriod_ l)
      (lastRoll_ l) (lastFlush_ l) (file_ l) (S (ticks l)) (closed l)).

(** [strftime(".%Y%m%d-%H%M%S.")], the host name and the process number. *)
Definition getLogFileName (basename : string) (now : Z) : string :=
  let tm := gmtime now in
  (basename +:+ "." +:+ dec (tm_year tm + 1900) +:+ dec0 2 (tm_mon tm + 1) +:+ dec0 2 (tm_mday tm) +:+
   "-" +:+ dec0 2 (tm_hour tm) +:+ dec0 2 (tm_min tm) +:+ dec0 2 (tm_sec tm) +:+ "." +:+
   (match hostname with Some h => snprintf 256 h | None => "unknownhost" end) +:+
   snprintf 32 ("." +:+ dec pid) +:+ ".log")%string.

Definition rollFile (l : t) : res (bool * t) :=
  let '(now, l) := time l in
  let filename := ("../log/" +:+ getLogFileName (basename_ l) now)%string in
  let start := cdiv now kRollPerSeconds_ * kRollPerSeconds_ in
  if lastRoll_ l <? now then
    f ← AppendFile.make filename;
    let gone := match file_ l with Some old => [AppendFile.fp_ old] | None => [] end in
    mret (true, mk (basename_ l) (rollSize_ l) (flushInterval_ l) (checkEveryN_ l) (count_ l) start now now
                   (Some f) (ticks l) (closed l ++ gone))
  else mret (false, l).

Definition make (basename : string) (rollSize flushInterval checkEveryN : Z) : res t :=
  '(_, l) ← rollFile (mk basename rollSize flushInterval checkEveryN 0 0 0 0 None O []);
  mret l.

(** [file_->...]: undefined when there is no file. *)
Definition file (l : t) : res (AppendFile.t F) :=
  match file_ l with Some f => mret f | None => Fault UB end.

Definition append_unlocked (logline : list byte) (l : t) : res t :=
  f ← file l;
  f ← AppendFile.append logline f;
  let l := set_file f l in
  if rollSize_ l <? AppendFile.writtenBytes f then
    '(_, l) ← rollFile l;
    mret l
  else
    let l := set_count (count_ l + 1) l in
    if checkEveryN_ l <=? count_ l then
      let l := set_count 0 l in
      let '(now, l) := time l in
      let thisPeriod := cdiv now kRollPerSeconds_ * kRollPerSeconds_ in
      if negb (thisPeriod =? startOfPeriod_ l) then
        '(_, l) ← rollFile l;
        mret l
      else if flushInterval_ l <? now - lastFlush_ l then
        let l := set_lastFlush now l in
        mret (set_file (AppendFile.flush f) l)
      else mret l
    else mret l.

(** The mutex, if there is one, only delimits the call. *)
Definition append (logline : list byte) (l : t) : res t := append_unlocked logline l.

Definition flush (l : t) : res t :=
  f ← file l;
  mret (set_file (AppendFile.flush f) l).

End LogFile.
#[global] Arguments t F : clear implicits.
End LogFile.

Section Facts.
Import LogFile.
Context `{IO : Stdio F, IOL : !StdioLaws F IO, IOR : !StdioReliable F IO}.
Variable clock : nat → Z.
Variables (hostname : option string) (pid : Z).

(** Everything the log was given, across its files. *)
Definition log_bytes (l : LogFile.t F) : list byte :=
  (closed l ≫= written) ++
  match file_ l with Some f => written (AppendFile.fp_ f) | None => [] end.

Lemma append_loop_spec fuel d n fp :
  0 <= n <= zlen d → zlen d - n <= Z.of_nat fuel →
  ∃ fp', AppendFile.append_loop fuel d n fp = Ok fp' ∧ written fp' = written fp ++ zdrop n d.
Proof.
  revert n fp. induction fuel as [|fuel IH]; intros n fp Hn Hf; cbn [AppendFile.append_loop].
  - replace (0 <? zlen d - n) with false by lia. exists fp. split; [done|].
    by rewrite zdrop_ge, app_nil_r by lia.
  - destruct (0 <? zlen d - n) eqn:E; [|exists fp; split; [done|]; by rewrite zdrop_ge, app_nil_r by lia].
    assert (zlen (zdrop n d) = zlen d - n) as Hlen by (apply zlen_drop; lia).
    pose proof (fwrite_progress fp (zdrop n d)) as Hp.
    destruct (fwrite fp (zdrop n d)) as [x fp1] eqn:Ew. cbn in Hp.
    apply fwrite_law in Ew as [Hx Hw]. rewrite Hlen in Hx.
    assert (0 < x) by (apply Hp; intros E0; rewrite E0, zlen_nil in Hlen; lia).
    replace (x =? 0) with false by lia.
    destruct (IH (n + x) fp1) as (fp' & -> & Hw'); [lia..|]. exists fp'. split; [done|].
    rewrite Hw', Hw, <-app_assoc. f_equal. rewrite <-(ztake_drop x (zdrop n d)) at 2. f_equal.
    by rewrite zdrop_drop by lia.
Qed.

Lemma AppendFile_append_spec d (f : AppendFile.t F) :
  ∃ f', AppendFile.append d f = Ok f' ∧ written (AppendFile.fp_ f') = written (AppendFile.fp_ f) ++ d.
Proof.
  unfold AppendFile.append. destruct (fwrite (AppendFile.fp_ f) d) as [n fp] eqn:E.
  apply fwrite_law in E as [Hn Hw].
  destruct (append_loop_spec (length d) d n fp) as (fp' & -> & Hw'); [lia|unfold zlen; lia|].
  eexists. split; [done|]. cbn. rewrite Hw', Hw, <-app_assoc. f_equal. apply ztake_drop.
Qed.

(** Rolling closes a file and opens the next one: nothing is lost. *)
Lemma rollFile_spec (l : LogFile.t F) :
  ∃ b l', rollFile clock hostname pid l = Ok (b, l') ∧ log_bytes l' = log_bytes l ∧
    (is_Some (file_ l) → is_Some (file_ l')).
Proof.
  unfold rollFile, time. cbv zeta. cbn [lastRoll_ basename_ file_ closed].
  destruct (lastRoll_ l <? clock (ticks l)).
  - unfold AppendFile.make. destruct (fopen_ok ("../log/" +:+ getLogFileName hostname pid (basename_ l) (clock (ticks l)))) as [f Hf].
    rewrite Hf. eexists _, _. split; [reflexivity|]. unfold log_bytes. cbn [closed file_ AppendFile.fp_].
    rewrite (fopen_law _ _ Hf), app_nil_r, bind_app. split; [|by eauto]. f_equal.
    destruct (file_ l); cbn; [by rewrite app_nil_r|done].
  - eexists _, _. split; [reflexivity|]. done.
Qed.

Lemma log_append_spec d (l : LogFile.t F) :
  is_Some (file_ l) →
  ∃ l', append clock hostname pid d l = Ok l' ∧ log_bytes l' = log_bytes l ++ d ∧ is_Some (file_ l').
Proof.
  intros [f Hf]. unfold append, append_unlocked, file. rewrite Hf. cbn [mbind res_bind mret res_ret].
  destruct (AppendFile_append_spec d f) as (f' & -> & Hw). cbn [mbind res_bind].
  assert (∀ l0 : LogFile.t F, file_ l0 = Some f' → closed l0 = closed l → log_bytes l0 = log_bytes l ++ d) as Hb.
  { intros l0 E1 E2. unfold log_bytes. rewrite E1, E2, Hf, Hw. by rewrite app_assoc. }
  assert (∀ l0 : LogFile.t F, file_ l0 = Some f' → closed l0 = closed l →
    ∃ l', ('(_, l1) ← rollFile clock hostname pid l0; mret l1) = Ok l' ∧ log_bytes l' = log_bytes l ++ d ∧ is_Some (file_ l')) as Hroll.
  { intros l0 E1 E2. destruct (rollFile_spec l0) as (b & l1 & -> & Hl1 & Hs). exists l1. split; [done|].
    rewrite Hl1. split; [by apply Hb|]. apply Hs. by eauto. }
  destruct (_ <? _); [by apply Hroll|]. destruct (_ <=? _); [|eexists; split; [done|]; split; [by apply Hb|by eexists]].
  cbn [time]. destruct (negb _); [by apply Hroll|].
  destruct (_ <? _); [|eexists; split; [done|]; split; [by apply Hb|by eexists]].
  eexists. split; [done|]. split; [|by eexists]. unfold log_bytes. cbn. rewrite fflush_law, Hf, Hw. by rewrite app_assoc.
Qed.

Lemma log_flush_spec (l : LogFile.t F) :
  is_Some (file_ l) → ∃ l', flush l = Ok l' ∧ log_bytes l' = log_bytes l ∧ is_Some (file_ l').
Proof.
  intros [f Hf]. unfold flush, file. rewrite Hf. eexists. split; [done|]. split; [|by eexists].
  unfold log_bytes. cbn. by rewrite fflush_law, Hf.
Qed.

(** A log made after 1970 has a file. *)
Lemma log_make_spec basename rollSize flushInterval checkEveryN :
  0 < clock 0 →
  ∃ l, make clock hostname pid basename rollSize flushInterval checkEveryN = Ok l ∧ log_bytes l = [] ∧ is_Some (file_ l).
Proof.
  intros Hc. unfold make, rollFile. cbn [time ticks lastRoll_ basename_ file_ closed].
  replace (0 <? clock 0) with true by lia. unfold AppendFile.make.
  destruct (fopen_ok ("../log/" +:+ getLogFileName hostname pid basename (clock 0))) as [f Hf]. rewrite Hf.
  eexists. split; [reflexivity|]. unfold log_bytes. cbn. rewrite (fopen_law _ _ Hf). split; [done|by eexists].
Qed.
End Facts.

(** ** A disk for concrete runs: two bytes at a time *)
Module ToyDisk.
#[export] Instance toy_stdio : Stdio (list byte) := {|
  fopen _ := Some [];
  fwrite f d := (Z.min 2 (zlen d), f ++ ztake 2 d);
  fflush f := f
|}.

#[export] Instance toy_stdio_laws : StdioLaws (list byte) toy_stdio.
Proof.
  refine {| written f := f |}; cbn.
  - by intros _ f [= <-].
  - intros f d n f' [= <- <-]. zpos. split; [lia|]. f_equal. destruct (decide (2 <= zlen d)).
    + by rewrite Z.min_l by lia.
    + rewrite Z.min_r by lia. by rewrite !ztake_ge by lia.
  - done.
Defined.

#[export] Instance toy_stdio_reliable : StdioReliable (list byte) toy_stdio.
Proof.
  split; cbn.
  - intros _. by eexists.
  - intros _ d Hd. pose proof (zlen_nonneg d). destruct d; [done|]. rewrite zlen_cons in *. zpos. lia.
Qed.
End ToyDisk.
