(* ===== verification/SmallFile.v ===== *)
(** * FileUtil.cc: reading small files

    The file system is the class [Files] over the state [K] of the kernel; [unread] is
    what read(2) has still to give of an open file.  The loop of [readToString] runs with
    fuel: every round but the last reads at least one byte. *)
From S2P Require Import Prelude Text State.

Definition EISDIR : Z := 21.

(** What fstat(2) tells, as far as the code looks at it. *)
Record stat := mkstat { is_reg : bool; is_dir : bool; st_size : Z; st_mtime : Z; st_ctime : Z }.

(** [fs_read] and [fs_pread] return the number of bytes, or -1, and the bytes. *)
Class Files (K : Type) := {
  fs_errno : K → Z;
  fs_open : string → K → Z * K;
  fs_close : Z → K → K;
  fs_fstat : Z → K → option stat * K;
  fs_read : Z → Z → K → Z * list byte * K;
  fs_pread : Z → Z → Z → K → Z * list byte * K
}.

Class FilesLaws (K : Type) (FS : Files K) := {
  unread : K → Z → list byte;
  read_fails : K → Z → bool;
  fstat_unread fd k d : unread (fs_fstat fd k).2 d = unread k d ∧ read_fails (fs_fstat fd k).2 d = read_fails k d;
  (** A read gives some of what is left, nothing only at the end. *)
  read_law fd n k :
    0 < n → read_fails k fd = false →
    ∃ d k', fs_read fd n k = (zlen d, d, k') ∧ zlen d <= n ∧ unread k fd = d ++ unread k' fd ∧
      (d = [] → unread k fd = []) ∧ read_fails k' fd = false;
  (** A read that fails gives -1 and sets [errno]. *)
  read_error fd n k :
    read_fails k fd = true → ∃ k', fs_read fd n k = (-1, [], k') ∧ fs_errno k' ≠ 0
}.

Module ReadSmallFile.
Section ReadSmallFile.
Context `{FS : Files K}.

Definition kBufferSize : Z := 64 * 1024.

(** [buf_] is what it holds before its first NUL is looked for: its first bytes. *)
Record t := mk { fd_ : Z; err_ : Z; buf_ : list byte }.

Definition make (filename : string) : st K t := λ k,
  let '(fd, k) := fs_open filename k in
  Ok (mk fd (if fd <? 0 then fs_errno k else 0) [x00], k).

Definition destroy (f : t) : st K unit := modify (if 0 <=? fd_ f then fs_close (fd_ f) else λ k, k).

(** What the optional results are set to. *)
Record info := mkinfo { fileSize : option Z; modifyTime : option Z; createTime : option Z }.

Definition no_info : info := mkinfo None None None.

Fixpoint read_loop (fuel : nat) (fd maxSize : Z) (content : list byte) (err : Z) : st K (Z * list byte) :=
  match fuel with
  | O => fault OutOfFuel
  | S fuel =>
      if zlen content <? maxSize then
        let toRead := Z.min (maxSize - zlen content) kBufferSize in
        '(n, d) ← (λ k, Ok (fs_read fd toRead k));
        if 0 <? n then read_loop fuel fd maxSize (content ++ d) err
        else if n <? 0 then e ← gets fs_errno; mret (e, content)
        else mret (err, content)
      else mret (err, content)
  end.

(** [size], [mtime], [ctime]: are the pointers not null?  [content] is what the string
    held before; a file that is not open leaves it. *)
Definition readToString (fuel : nat) (maxSize : Z) (size mtime ctime : bool) (f : t) (content : list byte) :
    st K (Z * list byte * info) :=
  if 0 <=? fd_ f then
    '(err, i) ←
      (if size then
         '(s) ← (λ k, Ok (fs_fstat (fd_ f) k));
         match s with
         | Some b =>
             mret (if is_reg b then err_ f else if is_dir b then EISDIR else err_ f,
                   mkinfo (if is_reg b then Some (st_size b) else None)
                     (if mtime : bool then Some (st_mtime b) else None)
                     (if ctime : bool then Some (st_ctime b) else None))
         | None => e ← gets fs_errno; mret (e, no_info)
         end
       else mret (err_ f, no_info));
    '(err, content) ← read_loop fuel (fd_ f) (u64 maxSize) [] err;
    mret (err, content, i)
  else mret (err_ f, content, no_info).

(** The size read, if any. *)
Definition readToBuffer (f : t) : st K (Z * option Z * t) :=
  if 0 <=? fd_ f then
    '(n, d) ← (λ k, Ok (fs_pread (fd_ f) (kBufferSize - 1) 0 k));
    if 0 <=? n then mret (err_ f, Some n, mk (fd_ f) (err_ f) (d ++ [x00]))
    else e ← gets fs_errno; mret (e, None, f)
  else mret (err_ f, None, f).

(** [readFile], with the destructor. *)
Definition readFile (fuel : nat) (filename : string) (maxSize : Z) (size mtime ctime : bool) (content : list byte) :
    st K (Z * list byte * info) :=
  f ← make filename;
  r ← readToString fuel maxSize size mtime ctime f content;
  _ ← destroy f;
  mret r.

End ReadSmallFile.
End ReadSmallFile.

Section Facts.
Import ReadSmallFile.
Context `{FS : Files K, FL : !FilesLaws K FS}.

Lemma read_loop_spec fuel fd maxSize content err k :
  (length (unread k fd) < fuel)%nat → read_fails k fd = false → zlen content <= maxSize →
  ∃ k', read_loop fuel fd maxSize content err k = Ok ((err, ztake maxSize (content ++ unread k fd)), k').
Proof.
  revert content k. induction fuel as [|fuel IH]; intros content k Hf Hr Hl; [lia|]. cbn [read_loop].
  destruct (zlen content <? maxSize) eqn:Em.
  - destruct (read_law fd (Z.min (maxSize - zlen content) kBufferSize) k) as (d & k1 & E & Hd & Hu & He & Hr1); [unfold kBufferSize; lia|done|].
    unfold mbind at 1, st_bind. rewrite E. destruct (0 <? zlen d) eqn:Ed.
    + destruct (IH (content ++ d) k1) as (k' & E'); [|done| |].
      * rewrite Hu, length_app in Hf. unfold zlen in Ed. lia.
      * rewrite zlen_app. lia.
      * exists k'. by rewrite E', Hu, <-app_assoc.
    + assert (d = []) as -> by (destruct d; [done|]; rewrite zlen_cons in Ed; zpos; lia). rewrite (He eq_refl), app_nil_r.
      exists k1. cbn. by rewrite ztake_ge by lia.
  - exists k. assert (zlen content = maxSize) as <- by lia. by rewrite ztake_app_le, ztake_ge by lia.
Qed.

(** A regular or other file that can be read: the whole file, or its first [maxSize]
    bytes (a negative [maxSize] is no limit), whatever sizes the single reads have. *)
Theorem readToString_reads fuel maxSize (size mtime ctime : bool) fd content k :
  0 <= fd → read_fails k fd = false → (length (unread k fd) < fuel)%nat →
  (size = true → ∃ b, (fs_fstat fd k).1 = Some b ∧ is_dir b = false) →
  ∃ i k', readToString fuel maxSize size mtime ctime (mk fd 0 [x00]) content k =
    Ok ((0, ztake (u64 maxSize) (unread k fd), i), k').
Proof.
  intros Hfd Hr Hf Hs. unfold readToString. cbn [fd_ err_]. replace (0 <=? fd) with true by lia.
  assert (0 <= u64 maxSize) as Hm by (apply Z.mod_pos_bound; lia). destruct size.
  - destruct (Hs eq_refl) as (b & Hb & Hdir). pose proof (fstat_unread fd k fd) as [Hu Hrf].
    destruct (fs_fstat fd k) as [o k1] eqn:Es. cbn in Hb, Hu, Hrf. subst o. unfold mbind at 1, st_bind.
    unfold mbind at 1, st_bind. rewrite Es. cbn [mret st_ret]. rewrite Hdir.
    replace (if is_reg b then 0 else 0) with 0 by by destruct (is_reg b).
    destruct (read_loop_spec fuel fd (u64 maxSize) [] 0 k1) as (k' & E); [by rewrite Hu|by rewrite Hrf|done|].
    eexists _, k'. unfold mbind, st_bind. rewrite E, Hu. reflexivity.
  - destruct (read_loop_spec fuel fd (u64 maxSize) [] 0 k) as (k' & E); [done..|].
    eexists _, k'. unfold mbind, st_bind. cbn [mret st_ret]. rewrite E. reflexivity.
Qed.
End Facts.

(** ** A file whose reads give at most two bytes *)
Module ToyFiles.

#[export] Instance toy_files : Files (list byte) := {|
  fs_errno _ := 2;
  fs_open name k := (if String.eqb name "f" then 3 else -1, k);
  fs_close _ k := k;
  fs_fstat _ k := (Some (mkstat true false (zlen k) 0 0), k);
  fs_read _ n k := (zlen (ztake (Z.min n 2) k), ztake (Z.min n 2) k, zdrop (Z.min n 2) k);
  fs_pread _ n _ k := (zlen (ztake n k), ztake n k, k)
|}.

#[export] Instance toy_files_laws : FilesLaws (list byte) toy_files.
Proof.
  refine {| unread k _ := k; read_fails _ _ := false |}; cbn; [done| |done].
  intros fd n k Hn _. eexists _, _. split; [reflexivity|]. split_and!; [|by rewrite ztake_drop| |done].
  - unfold zlen, ztake. rewrite length_take. lia.
  - intros E. destruct k as [|b k]; [done|]. apply (f_equal zlen) in E. unfold zlen, ztake in E.
    rewrite length_take in E. cbn [length] in E. lia.
Defined.
End ToyFiles.

Section Witness.
Import ReadSmallFile ToyFiles.

Example small_file_read :
  (λ r, r.1.1.2) <$> readFile 10 "f" 5 true true false [x00] (bytes_of "chat server") = Ok (bytes_of "chat ") ∧
  (λ r, r.1.1.1) <$> readFile 10 "g" 5 true true false [x00] (bytes_of "chat server") = Ok 2.
Proof. vm_compute. done. Qed.

Lemma readToString_reads_witness :
  ∃ i k', readToString 12 (-1) true false false (mk 3 0 [x00]) [] (bytes_of "chat server") =
    Ok ((0, bytes_of "chat server", i), k').
Proof.
  apply (readToString_reads (FL := toy_files_laws) 12 (-1) true false false 3 [] (bytes_of "chat server")).
  - lia.
  - reflexivity.
  - vm_compute. lia.
  - intros _. eexists. split; reflexivity.
Defined.
End Witness.
