(* ===== verification/AsyncLogging.v ===== *)
(** * AsyncLogging.cc: the log's two sides

    Threads append lines to buffers under a mutex; one backend thread swaps the buffers
    out and writes them to the log file.  The backend's locals are part of the state,
    and its loop is cut into the loop's test ([enter]), the part under the mutex ([swap])
    and the rest ([write]), between which other threads may append or stop the log.  Pointers to buffers are options; the size of
    a buffer is a parameter. *)
From stdpp Require Import relations.
From S2P Require Import Prelude Text Timestamp LogStream LogFile.

Module AsyncLogging.

(** Where the backend is: at the loop's test, behind it, behind the critical section,
    ended. *)
Inductive phase := Top | Waiting | Writing | Done.

#[export] Instance phase_eq_dec : EqDecision phase.
Proof. solve_decision. Defined.

Section AsyncLogging.
Context `{IO : Stdio F}.
Variable SIZE : Z.
Variable clock : nat → Z.
Variables (hostname : option string) (pid : Z).

Abbreviation buffer := (option FixedBuffer.t).

Record t := mk {
  running_ : bool;
  currentBuffer_ : buffer;
  nextBuffer_ : buffer;
  buffers_ : list buffer;
  newBuffer1 : buffer;
  newBuffer2 : buffer;
  buffersToWrite : list buffer;
  output : LogFile.t F;
  at_ : phase
}.

(** The constructor, [start] and the backend up to its loop. *)
Definition start (basename : string) (rollSize : Z) : res t :=
  output ← LogFile.make clock hostname pid basename rollSize 3 1024;
  mret (mk true (Some FixedBuffer.make) (Some FixedBuffer.make) [] (Some FixedBuffer.make)
          (Some FixedBuffer.make) [] output Top).

Definition stop (s : t) : t :=
  mk false (currentBuffer_ s) (nextBuffer_ s) (buffers_ s) (newBuffer1 s) (newBuffer2 s)
     (buffersToWrite s) (output s) (at_ s).

Definition deref (b : buffer) : res FixedBuffer.t :=
  match b with Some b => mret b | None => Fault UB end.

Definition append (logline : list byte) (s : t) : res t :=
  cur ← deref (currentBuffer_ s);
  if zlen logline <? FixedBuffer.avail SIZE cur then
    mret (mk (running_ s) (Some (FixedBuffer.append SIZE cur logline)) (nextBuffer_ s) (buffers_ s)
             (newBuffer1 s) (newBuffer2 s) (buffersToWrite s) (output s) (at_ s))
  else
    let buffers := buffers_ s ++ [currentBuffer_ s] in
    let cur := match nextBuffer_ s with Some b => b | None => FixedBuffer.make end in
    mret (mk (running_ s) (Some (FixedBuffer.append SIZE cur logline)) None buffers
             (newBuffer1 s) (newBuffer2 s) (buffersToWrite s) (output s) (at_ s)).

Definition is_empty (b : buffer) : bool :=
  match b with Some b => FixedBuffer.length_ b =? 0 | None => false end.

(** The head of the loop, up to the critical section. *)
Definition enter (s : t) : res t :=
  _ ← cassert (is_empty (newBuffer1 s));
  _ ← cassert (is_empty (newBuffer2 s));
  _ ← cassert (bool_decide (buffersToWrite s = []));
  mret (mk (running_ s) (currentBuffer_ s) (nextBuffer_ s) (buffers_ s) (newBuffer1 s) (newBuffer2 s)
           (buffersToWrite s) (output s) Waiting).

(** The critical section; the wait in it gives the mutex up and may return at any time,
    so that the calls of others before its end count as before all of it. *)
Definition swap (s : t) : res t :=
  let buffers := buffers_ s ++ [currentBuffer_ s] in
  let '(next, new2) :=
    match nextBuffer_ s with
    | Some b => (Some b, newBuffer2 s)
    | None => (newBuffer2 s, None)
    end in
  mret (mk (running_ s) (newBuffer1 s) next (buffersToWrite s) None new2 buffers (output s) Writing).

Fixpoint write_buffers (bs : list buffer) (o : LogFile.t F) : res (LogFile.t F) :=
  match bs with
  | [] => mret o
  | b :: bs' =>
      d ← deref b;
      o ← LogFile.append clock hostname pid d o;
      write_buffers bs' o
  end.

(** [back()], moved out, popped and reset. *)
Definition take_back (bs : list buffer) : res (buffer * list buffer) :=
  match last bs with
  | Some b =>
      d ← deref b;
      mret (Some (FixedBuffer.reset d), take (length bs - 1) bs)
  | None => Fault AssertFail
  end.

Definition dropped_text (now size : Z) : string :=
  snprintf 256 ("Dropped log messages at " +:+ Timestamp.toFormattedString true now +:+ ", " +:+
                dec (size - 2) +:+ " larger buffers" +:+ String (Ascii.ascii_of_nat 10) "").

(** The rest of the loop's body. *)
Definition write (now : Z) (s : t) : res t :=
  let bs := buffersToWrite s in
  _ ← cassert (negb (bool_decide (bs = [])));
  '(bs, o) ← (if 25 <? zlen bs then
                o ← LogFile.append clock hostname pid (bytes_of (dropped_text now (zlen bs))) (output s);
                mret (take 2 bs, o)
              else mret (bs, output s));
  o ← write_buffers bs o;
  let bs := if 2 <? zlen bs then take 2 bs else bs in
  '(new1, bs) ← (match newBuffer1 s with Some b => mret (Some b, bs) | None => take_back bs end);
  '(new2, bs) ← (match newBuffer2 s with Some b => mret (Some b, bs) | None => take_back bs end);
  o ← LogFile.flush o;
  mret (mk (running_ s) (currentBuffer_ s) (nextBuffer_ s) (buffers_ s) new1 new2 [] o Top).

(** Behind the loop. *)
Definition finish (s : t) : res t :=
  o ← LogFile.flush (output s);
  mret (mk (running_ s) (currentBuffer_ s) (nextBuffer_ s) (buffers_ s) (newBuffer1 s) (newBuffer2 s)
           (buffersToWrite s) o Done).

(** ** Runs *)

Inductive event :=
  | Append (logline : list byte)
  | Enter
  | Swap
  | Write (now : Z)
  | Stop
  | Finish.

Definition run_event (e : event) (s : t) : res t :=
  match e with
  | Append l => append l s
  | Enter => enter s
  | Swap => swap s
  | Write now => write now s
  | Stop => mret (stop s)
  | Finish => finish s
  end.

(** The backend's program counter. *)
Definition enabled (e : event) (s : t) : bool :=
  match e with
  | Append _ | Stop => true
  | Enter => bool_decide (at_ s = Top) && running_ s
  | Swap => bool_decide (at_ s = Waiting)
  | Write _ => bool_decide (at_ s = Writing)
  | Finish => bool_decide (at_ s = Top) && negb (running_ s)
  end.

Fixpoint run (es : list event) (s : t) : res t :=
  match es with
  | [] => mret s
  | e :: es' => s ← run_event e s; run es' s
  end.

End AsyncLogging.
#[global] Arguments t F : clear implicits.
End AsyncLogging.

Section Invariant.
Import AsyncLogging.
Context `{IO : Stdio F, IOL : !StdioLaws F IO, IOR : !StdioReliable F IO}.
Variable SIZE : Z.
Hypothesis SIZE_range : 0 < SIZE < 2 ^ 31.
Variable clock : nat → Z.
Variables (hostname : option string) (pid : Z).
Implicit Types s : t F.

Definition bytes (b : option FixedBuffer.t) : list byte := default [] b.

(** Everything that was logged and not yet given up: in the files, taken by the
    backend, and waiting. *)
Definition stream s : list byte :=
  log_bytes (output s) ++ (buffersToWrite s ≫= bytes) ++ (buffers_ s ≫= bytes) ++ bytes (currentBuffer_ s).

#[local] Ltac proj :=
  cbn [output buffersToWrite buffers_ currentBuffer_ nextBuffer_ bytes default from_option app id].

Record inv s : Prop := {
  inv_current : ∃ c, currentBuffer_ s = Some c ∧ zlen c <= SIZE;
  inv_next : match nextBuffer_ s with Some b => b = [] | None => buffers_ s ≠ [] end;
  inv_buffers : Forall is_Some (buffers_ s);
  inv_file : is_Some (LogFile.file_ (output s));
  inv_backend : match at_ s with
    | Writing =>
        newBuffer1 s = None ∧ Forall is_Some (buffersToWrite s) ∧ buffersToWrite s ≠ [] ∧
        match newBuffer2 s with Some b => b = [] | None => 2 <= zlen (buffersToWrite s) end
    | Top | Waiting | Done => newBuffer1 s = Some [] ∧ newBuffer2 s = Some [] ∧ buffersToWrite s = []
    end
}.

(** A line that is kept: it fits into an empty buffer. *)
Definition kept (l : list byte) : list byte := if zlen l <? SIZE then l else [].

Lemma buffer_append b l :
  zlen b <= SIZE →
  FixedBuffer.append SIZE b l = (if zlen l <? FixedBuffer.avail SIZE b then b ++ l else b) ∧
  zlen (FixedBuffer.append SIZE b l) <= SIZE.
Proof.
  intros. unfold FixedBuffer.append, FixedBuffer.avail. zpos. rewrite uN_small by lia.
  destruct (zlen l <? SIZE - zlen b) eqn:E; rewrite ?zlen_app; split; done || lia.
Qed.

Lemma append_inv l s :
  inv s → ∃ s', append SIZE l s = Ok s' ∧ inv s' ∧ stream s' = stream s ++ kept l.
Proof.
  intros [(c & Hc & Hcl) Hn Hb Hf Hba]. unfold append. rewrite Hc. cbn [deref mbind res_bind mret res_ret].
  unfold kept. zpos. destruct (buffer_append c l Hcl) as [Ha Hal]. destruct (_ <? _) eqn:E.
  - eexists. split; [done|]. split; [split; cbn; eauto|]. unfold stream. proj. rewrite Ha, Hc. proj.
    unfold FixedBuffer.avail in E. replace (zlen l <? SIZE) with true by lia. by rewrite <-!app_assoc.
  - set (c' := match nextBuffer_ s with Some b => b | None => FixedBuffer.make end).
    assert (c' = []) as -> by (unfold c'; destruct (nextBuffer_ s); done).
    destruct (buffer_append [] l) as [Ha' Hal']; [done || (change (zlen (@nil byte)) with 0; lia)|].
    eexists. split; [done|]. split.
    + split; cbn; [by eauto|by destruct (buffers_ s)|apply Forall_app; split; [done|]; constructor; [by eauto|done]|done|done].
    + unfold stream. proj. rewrite Ha', Hc, bind_app. unfold FixedBuffer.avail. change (zlen (@nil byte)) with 0.
      rewrite Z.sub_0_r, bind_singleton. proj. destruct (zlen l <? SIZE); by rewrite ?app_nil_r, <-?app_assoc.
Qed.

Lemma enter_inv s :
  inv s → at_ s = Top → ∃ s', enter s = Ok s' ∧ inv s' ∧ stream s' = stream s ∧ at_ s' = Waiting.
Proof.
  intros [Hcu Hn Hb Hf Hba] Ht. rewrite Ht in Hba. destruct Hba as (H1 & H2 & H3).
  unfold enter. rewrite H1, H2, H3. cbn [is_empty cassert mbind res_bind]. rewrite bool_decide_true by done.
  eexists. split; [done|]. split; [by split|]. split; [|done]. unfold stream. proj. by rewrite H3.
Qed.

Lemma swap_inv s :
  inv s → at_ s = Waiting → ∃ s', swap s = Ok s' ∧ inv s' ∧ stream s' = stream s ∧ at_ s' = Writing.
Proof.
  intros [(c & Hc & Hcl) Hn Hb Hf Hba] Ht. rewrite Ht in Hba. destruct Hba as (H1 & H2 & H3).
  unfold swap. rewrite H1, H2, H3, Hc.
  assert (Forall is_Some (buffers_ s ++ [Some c])) as Hall by (apply Forall_app; split; [done|]; by repeat constructor).
  destruct (nextBuffer_ s) as [b|] eqn:En; (eexists; split; [done|]); (split; [|split; [|done]]).
  - subst b. split; cbn; [exists []; change (zlen (@nil byte)) with 0; split; [done|lia]|done|done|done|]. by destruct (buffers_ s).
  - unfold stream. proj. rewrite H3, Hc, bind_app, bind_singleton. proj. cbn [mbind list_bind app]. by rewrite ?app_nil_r.
  - split; cbn; [exists []; change (zlen (@nil byte)) with 0; split; [done|lia]|done|done|done|].
    split_and!; [done|done|by destruct (buffers_ s)|]. rewrite zlen_app. change (zlen [Some c]) with 1.
    destruct (buffers_ s) as [|x xs]; [done|]. rewrite zlen_cons. zpos. lia.
  - unfold stream. proj. rewrite H3, Hc, bind_app, bind_singleton. proj. cbn [mbind list_bind app]. by rewrite ?app_nil_r.
Qed.

Lemma write_buffers_spec bs o :
  Forall is_Some bs → is_Some (LogFile.file_ o) →
  ∃ o', write_buffers clock hostname pid bs o = Ok o' ∧ log_bytes o' = log_bytes o ++ (bs ≫= bytes) ∧
    is_Some (LogFile.file_ o').
Proof.
  intros Hbs. revert o. induction Hbs as [|b bs [d ->] _ IH]; intros o Ho; cbn [write_buffers].
  - exists o. cbn. by rewrite app_nil_r.
  - cbn [deref mbind res_bind mret res_ret].
    destruct (log_append_spec clock hostname pid d o Ho) as (o1 & -> & Hb1 & Ho1). cbn [mbind res_bind].
    destruct (IH o1 Ho1) as (o' & -> & Hb' & Ho'). exists o'. split; [done|]. split; [|done].
    rewrite Hb', Hb1. cbn. by rewrite <-app_assoc.
Qed.

Lemma take_back_spec bs :
  Forall is_Some bs → bs ≠ [] → ∃ bs', take_back bs = Ok (Some [], bs') ∧ zlen bs' = zlen bs - 1 ∧ Forall is_Some bs'.
Proof.
  intros Hbs Hne. destruct bs as [|b bs] using rev_ind; [done|]. clear IHbs.
  unfold take_back. rewrite last_snoc. apply Forall_app in Hbs as [Hbs Hb].
  inversion Hb as [|? ? [d ->] _]; subst. cbn [deref mbind res_bind mret res_ret].
  eexists. split; [done|]. rewrite length_app. cbn [length].
  replace (length bs + 1 - 1)%nat with (length bs) by lia. rewrite take_app_length.
  split; [|done]. rewrite zlen_app. change (zlen [Some d]) with 1. lia.
Qed.

Lemma write_inv now s :
  inv s → at_ s = Writing →
  ∃ s', write clock hostname pid now s = Ok s' ∧ inv s' ∧ at_ s' = Top ∧
    (zlen (buffersToWrite s) <= 25 → stream s' = stream s).
Proof.
  intros [Hcu Hn Hb Hf Hba] Hw. rewrite Hw in Hba. destruct Hba as (H1 & Hall & Hne & H2).
  unfold write. rewrite bool_decide_false by done. cbn [negb cassert mbind res_bind].
  set (bs := buffersToWrite s) in *.
  assert (0 < zlen bs) as Hpos by (destruct bs; [done|rewrite zlen_cons; zpos; lia]).
  assert (∃ bs1 o1, (if 25 <? zlen bs
      then o ← LogFile.append clock hostname pid (bytes_of (dropped_text now (zlen bs))) (output s); mret (take 2 bs, o)
      else mret (bs, output s)) = Ok (bs1, o1) ∧ is_Some (LogFile.file_ o1) ∧ Forall is_Some bs1 ∧ 0 < zlen bs1 ∧
      (2 <= zlen bs → 2 <= zlen bs1) ∧
      (zlen bs <= 25 → bs1 = bs ∧ o1 = output s)) as (bs1 & o1 & -> & Ho1 & Hall1 & Hpos1 & Hge & Hcalm).
  { destruct (25 <? zlen bs) eqn:E.
    - destruct (log_append_spec clock hostname pid (bytes_of (dropped_text now (zlen bs))) (output s) Hf) as (o & -> & _ & Ho).
      assert (zlen (take 2 bs) = 2) as Ht by (unfold zlen in *; rewrite length_take; lia).
      eexists _, o. split; [done|]. rewrite Ht. split_and!; [done|by apply Forall_take|lia|lia|lia].
    - eexists bs, _. split; [done|]. by split_and!. }
  cbn [mbind res_bind]. destruct (write_buffers_spec bs1 o1 Hall1 Ho1) as (o2 & -> & Hb2 & Ho2). cbn [mbind res_bind].
  set (bs2 := if 2 <? zlen bs1 then take 2 bs1 else bs1).
  assert (Forall is_Some bs2 ∧ 0 < zlen bs2 ∧ (2 <= zlen bs → 2 <= zlen bs2)) as (Hall2 & Hpos2 & Hge2).
  { unfold bs2. destruct (2 <? zlen bs1) eqn:E; [|by split_and!].
    assert (zlen (take 2 bs1) = 2) as Ht by (unfold zlen in *; rewrite length_take; lia).
    rewrite Ht. split_and!; [by apply Forall_take|lia..]. }
  rewrite H1. destruct (take_back_spec bs2) as (bs3 & -> & Hl3 & Hall3); [done|by intros ->|]. cbn [mbind res_bind].
  assert (∃ bs4, (match newBuffer2 s with Some b => mret (Some b, bs3) | None => take_back bs3 end) = Ok (Some [], bs4)) as (bs4 & ->).
  { destruct (newBuffer2 s) as [b|]; [subst b; by eexists|].
    destruct (take_back_spec bs3) as (bs4 & -> & _); [done|intros ->; change (zlen []) with 0 in Hl3; lia|by eexists]. }
  cbn [mbind res_bind]. destruct (log_flush_spec o2 Ho2) as (o3 & -> & Hb3 & Ho3). cbn [mbind res_bind].
  eexists. split; [done|]. split_and!; [by split|done|].
  intros Hc. destruct (Hcalm Hc) as [-> ->]. unfold stream. proj. rewrite Hb3, Hb2. fold bs. by rewrite <-!app_assoc.
Qed.

Lemma finish_inv s : inv s → at_ s = Top → ∃ s', finish s = Ok s' ∧ inv s' ∧ stream s' = stream s.
Proof.
  intros [Hcu Hn Hb Hf Hba] Ht. unfold finish. destruct (log_flush_spec (output s) Hf) as (o & -> & Hbo & Ho).
  rewrite Ht in Hba. eexists. split; [done|]. split; [by split|]. unfold stream. proj. by rewrite Hbo.
Qed.

(** Every event is the backend's next step or another thread's call. *)
Fixpoint legal (es : list event) s : Prop :=
  match es with
  | [] => True
  | e :: es' => enabled e s = true ∧ ∀ s', run_event SIZE clock hostname pid e s = Ok s' → legal es' s'
  end.

(** The backend keeps up: it never takes more than 25 buffers at once. *)
Fixpoint calm (es : list event) s : Prop :=
  match es with
  | [] => True
  | e :: es' =>
      match e with Write _ => zlen (buffersToWrite s) <= 25 | _ => True end ∧
      ∀ s', run_event SIZE clock hostname pid e s = Ok s' → calm es' s'
  end.

Definition lines (es : list event) : list byte :=
  es ≫= λ e, match e with Append l => kept l | _ => [] end.

Lemma log_event_inv e s :
  inv s → enabled e s = true →
  ∃ s', run_event SIZE clock hostname pid e s = Ok s' ∧ inv s' ∧
    (match e with Write _ => zlen (buffersToWrite s) <= 25 | _ => True end →
     stream s' = stream s ++ match e with Append l => kept l | _ => [] end).
Proof.
  intros Hinv Hen. destruct e as [l| | |now| |]; cbn [run_event].
  - destruct (append_inv l s Hinv) as (s' & -> & ? & ?). by eauto.
  - cbn in Hen. apply andb_true_iff in Hen as [Hen%bool_decide_eq_true _].
    destruct (enter_inv s Hinv Hen) as (s' & -> & ? & Hs & _). exists s'. split_and!; [done..|]. by rewrite app_nil_r.
  - cbn in Hen. apply bool_decide_eq_true in Hen.
    destruct (swap_inv s Hinv Hen) as (s' & -> & ? & Hs & _). exists s'. split_and!; [done..|]. by rewrite app_nil_r.
  - cbn in Hen. apply bool_decide_eq_true in Hen. destruct (write_inv now s Hinv Hen) as (s' & -> & ? & _ & Hs).
    exists s'. split_and!; [done..|]. rewrite app_nil_r. done.
  - eexists. split; [done|]. split; [by destruct Hinv; split|]. intros _. by rewrite app_nil_r.
  - cbn in Hen. apply andb_true_iff in Hen as [Hen%bool_decide_eq_true _].
    destruct (finish_inv s Hinv Hen) as (s' & -> & ? & Hs). exists s'. split_and!; [done..|]. by rewrite app_nil_r.
Qed.

Lemma run_inv es s :
  inv s → legal es s →
  ∃ s', run SIZE clock hostname pid es s = Ok s' ∧ inv s' ∧ (calm es s → stream s' = stream s ++ lines es).
Proof.
  revert s. induction es as [|e es IH]; intros s Hinv Hl.
  - exists s. split_and!; [done..|]. cbn. by rewrite app_nil_r.
  - destruct Hl as [Hen Hl]. destruct (log_event_inv e s Hinv Hen) as (s1 & E & Hinv1 & Hs1).
    destruct (IH s1 Hinv1 (Hl _ E)) as (s' & E' & Hinv' & Hs'). exists s'. cbn [run]. rewrite E. cbn [mbind res_bind].
    split_and!; [done..|]. intros [Hc Hcs]. rewrite Hs' by (by apply Hcs). rewrite Hs1 by done.
    unfold lines. cbn. by rewrite <-app_assoc.
Qed.

(** C24 (invariant). The log from its start, on a disk with room, under any interleaving
    of lines appended by other threads with the steps of the backend: nothing fails, none
    of the backend's assertions about its buffers in particular.  While the backend never
    takes more than 25 buffers at once, the log files, the buffers the backend has taken
    and the buffers that wait hold, one after the other, exactly the lines appended so
    far, whole and in the order of the calls, except lines that do not fit into an empty
    buffer. *)
Theorem log_lines basename rollSize (es : list event) :
  0 < clock 0 →
  ∃ s0, start clock hostname pid basename rollSize = Ok s0 ∧
    (legal es s0 →
     ∃ s, run SIZE clock hostname pid es s0 = Ok s ∧
       (calm es s0 →
        log_bytes (output s) ++ (buffersToWrite s ≫= bytes) ++ (buffers_ s ≫= bytes) ++ bytes (currentBuffer_ s) =
          lines es)).
Proof.
  intros Hc. unfold start.
  destruct (log_make_spec clock hostname pid basename rollSize 3 1024 Hc) as (o & -> & Hb & Ho).
  eexists. split; [done|]. intros Hl.
  match goal with |- ∃ s, run _ _ _ _ _ ?s0 = _ ∧ _ => assert (inv s0) as Hinv end.
  { split; cbn; [exists []; change (zlen (@nil byte)) with 0; split; [done|lia]|done|done|done|done]. }
  destruct (run_inv es _ Hinv Hl) as (s & -> & _ & Hs). exists s. split; [done|]. intros Hcalm.
  specialize (Hs Hcalm). unfold stream in Hs at 2. cbn in Hs. rewrite Hb in Hs. exact Hs.
Qed.
End Invariant.

Section Witness.
Import AsyncLogging ToyDisk.

Definition toy_events : list event :=
  [Append (bytes_of "one "); Append (bytes_of "two "); Append (bytes_of "a line that is too long");
   Enter; Swap; Append (bytes_of "three "); Write 0; Stop; Append (bytes_of "late"); Finish].

(** Buffers of 8 bytes.  The last two lines come after the last swap and are not in the
    file. *)
Lemma log_lines_witness :
  ∃ s0 s, start (λ _, 1559910896) None 42 "im" 1000 = Ok s0 ∧
    run 8 (λ _, 1559910896) None 42 toy_events s0 = Ok s ∧
    log_bytes (output s) = bytes_of "one two " ∧
    log_bytes (output s) ++ (buffersToWrite s ≫= bytes) ++ (buffers_ s ≫= bytes) ++ bytes (currentBuffer_ s) =
      bytes_of "one two three late".
Proof.
  destruct (log_lines 8 ltac:(lia) (λ _, 1559910896) None 42 "im" 1000 toy_events) as (s0 & E0 & H); [lia|].
  exists s0. vm_compute in E0. injection E0 as <-. destruct H as (s & E & Hs).
  - repeat (split; [by vm_compute|]; intros ? E; vm_compute in E; injection E as <-). done.
  - exists s. split_and!; [by vm_compute|done|vm_compute in E; by injection E as <-|].
    rewrite Hs; [by vm_compute|].
    repeat (split; [by vm_compute|]; intros ? E'; vm_compute in E'; injection E' as <-). done.
Defined.
End Witness.
