(* ===== verification/Channel.v ===== *)
(** * Channel.h, Channel.cc: the interest of one file descriptor

    A channel is owned by one object (a connection, the acceptor, the loop) and is
    known to the loop by its address.  The model passes the channel along with the
    loop that registers it; [addr] is the identity that the poller compares. What a
    channel asks of its loop is the class [ChannelLoop]; [ChannelLoopLaws] is what
    the loop promises to the owners of channels. *)
From stdpp Require Import pretty.
From S2P Require Import Prelude.

(** The [epoll_event] bits of <sys/epoll.h>. *)
Definition EPOLLIN : Z := 1.
Definition EPOLLPRI : Z := 2.
Definition EPOLLOUT : Z := 4.
Definition EPOLLERR : Z := 8.
Definition EPOLLHUP : Z := 16.
Definition EPOLLRDHUP : Z := 8192.

(** [ev & bits], as a condition. *)
Definition has (ev bits : Z) : bool := negb (Z.land ev bits =? 0).

Module Channel.

Definition kNoneEvent : Z := 0.
Definition kReadEvent : Z := Z.lor EPOLLIN EPOLLPRI.
Definition kWriteEvent : Z := EPOLLOUT.

Record t := mk {
  addr : positive;
  loop_ : positive;
  fd_ : Z;
  events_ : Z;
  revents_ : Z;
  index_ : Z;
  logHup_ : bool;
  tied_ : bool;
  eventHandling_ : bool;
  addedToLoop_ : bool
}.

#[export] Instance t_eq_dec : EqDecision t.
Proof. solve_decision. Defined.

Definition make (a loop : positive) (fd : Z) : t :=
  mk a loop fd 0 0 (-1) true false false false.

Definition set_events (c : t) (ev : Z) : t :=
  mk (addr c) (loop_ c) (fd_ c) ev (revents_ c) (index_ c) (logHup_ c) (tied_ c)
     (eventHandling_ c) (addedToLoop_ c).
Definition set_revents (c : t) (revt : Z) : t :=
  mk (addr c) (loop_ c) (fd_ c) (events_ c) revt (index_ c) (logHup_ c) (tied_ c)
     (eventHandling_ c) (addedToLoop_ c).
Definition set_index (c : t) (idx : Z) : t :=
  mk (addr c) (loop_ c) (fd_ c) (events_ c) (revents_ c) idx (logHup_ c) (tied_ c)
     (eventHandling_ c) (addedToLoop_ c).
Definition doNotLogHup (c : t) : t :=
  mk (addr c) (loop_ c) (fd_ c) (events_ c) (revents_ c) (index_ c) false (tied_ c)
     (eventHandling_ c) (addedToLoop_ c).
Definition tie (c : t) : t :=
  mk (addr c) (loop_ c) (fd_ c) (events_ c) (revents_ c) (index_ c) (logHup_ c) true
     (eventHandling_ c) (addedToLoop_ c).
Definition set_eventHandling (c : t) (b : bool) : t :=
  mk (addr c) (loop_ c) (fd_ c) (events_ c) (revents_ c) (index_ c) (logHup_ c) (tied_ c)
     b (addedToLoop_ c).
Definition set_addedToLoop (c : t) (b : bool) : t :=
  mk (addr c) (loop_ c) (fd_ c) (events_ c) (revents_ c) (index_ c) (logHup_ c) (tied_ c)
     (eventHandling_ c) b.

Definition isNoneEvent (c : t) : bool := events_ c =? kNoneEvent.
Definition isWriting (c : t) : bool := has (events_ c) kWriteEvent.
Definition isReading (c : t) : bool := has (events_ c) kReadEvent.

Definition flag (ev bit : Z) (s : string) : string := if has ev bit then s else "".

Definition eventsToString_ (fd ev : Z) : string :=
  (pretty fd +:+ ": " +:+
   flag ev EPOLLIN "IN " +:+ flag ev EPOLLPRI "PRI " +:+ flag ev EPOLLOUT "OUT " +:+
   flag ev EPOLLHUP "HUP " +:+ flag ev EPOLLRDHUP "RDHUP " +:+ flag ev EPOLLERR "ERR ")%string.
Definition reventsToString (c : t) : string := eventsToString_ (fd_ c) (revents_ c).
Definition eventsToString (c : t) : string := eventsToString_ (fd_ c) (events_ c).

End Channel.

(** What a channel calls on its loop. *)
Class ChannelLoop (L : Type) := {
  updateChannel : L → Channel.t → res (L * Channel.t);
  removeChannel : L → Channel.t → res (L * Channel.t);
  hasChannel : L → Channel.t → res bool;
  isInLoopThread : L → bool
}.

Module ChannelOps.
Import Channel.
Section ChannelOps.
Context `{CL : ChannelLoop L}.

Definition update (l : L) (c : t) : res (L * t) := updateChannel l (set_addedToLoop c true).

Definition enableReading (l : L) (c : t) : res (L * t) :=
  update l (set_events c (Z.lor (events_ c) kReadEvent)).
Definition disableReading (l : L) (c : t) : res (L * t) :=
  update l (set_events c (Z.land (events_ c) (Z.lnot kReadEvent))).
Definition enableWriting (l : L) (c : t) : res (L * t) :=
  update l (set_events c (Z.lor (events_ c) kWriteEvent)).
Definition disableWriting (l : L) (c : t) : res (L * t) :=
  update l (set_events c (Z.land (events_ c) (Z.lnot kWriteEvent))).
Definition disableAll (l : L) (c : t) : res (L * t) := update l (set_events c kNoneEvent).

Definition remove (l : L) (c : t) : res (L * t) :=
  _ ← cassert (isNoneEvent c);
  removeChannel l (set_addedToLoop c false).

(** The destructor. *)
Definition destroy (l : L) (c : t) : res unit :=
  _ ← cassert (negb (eventHandling_ c));
  _ ← cassert (negb (addedToLoop_ c));
  if isInLoopThread l then
    h ← hasChannel l c;
    cassert (negb h)
  else mret ().

End ChannelOps.

(** ** Dispatching an event

    The callbacks run on a world [W] in which the channel lives (they reach it
    through its owner); [get]/[put] access it there.  An empty [std::function] is
    [None]. *)
Section HandleEvent.
Context {W : Type} (get : W → t) (put : W → t → W).
Variable readCallback_ : option (Z → W → res W).
Variables writeCallback_ closeCallback_ errorCallback_ : option (W → res W).

Definition call (cb : option (W → res W)) (w : W) : res W :=
  match cb with Some f => f w | None => mret w end.

Definition handleEventWithGuard (receiveTime : Z) (w : W) : res W :=
  let w := put w (set_eventHandling (get w) true) in
  w ← (if has (revents_ (get w)) EPOLLHUP && negb (has (revents_ (get w)) EPOLLIN)
       then call closeCallback_ w else mret w);
  w ← (if has (revents_ (get w)) EPOLLERR then call errorCallback_ w else mret w);
  w ← (if has (revents_ (get w)) (Z.lor EPOLLIN (Z.lor EPOLLPRI EPOLLRDHUP))
       then call ((λ f, f receiveTime) <$> readCallback_) w else mret w);
  w ← (if has (revents_ (get w)) EPOLLOUT then call writeCallback_ w else mret w);
  mret (put w (set_eventHandling (get w) false)).

(** [guard] is what [tie_.lock()] gives: is the tied owner still alive? *)
Definition handleEvent (guard : bool) (receiveTime : Z) (w : W) : res W :=
  if tied_ (get w)
  then if guard then handleEventWithGuard receiveTime w else mret w
  else handleEventWithGuard receiveTime w.

End HandleEvent.
End ChannelOps.

(** ** What the loop promises

    [loop_inv l h] relates a loop to the live channels [h] (by address) it serves.
    The poller marks a channel [kNew] (-1) until it is registered. *)
Definition unregistered (c : Channel.t) : Prop := Channel.index_ c = -1.

(** The fields the loop identifies a channel by. *)
Definition same_registration (c c' : Channel.t) : Prop :=
  Channel.addr c = Channel.addr c' ∧ Channel.loop_ c = Channel.loop_ c' ∧
  Channel.fd_ c = Channel.fd_ c' ∧ Channel.index_ c = Channel.index_ c'.

(** No other registered channel uses the descriptor of [c]: the kernel gives out a
    descriptor once until it is closed. *)
Definition fresh_fd (h : gmap positive Channel.t) (c : Channel.t) : Prop :=
  ∀ a c', h !! a = Some c' → Channel.fd_ c' = Channel.fd_ c → a ≠ Channel.addr c → unregistered c'.

Class ChannelLoopLaws (L : Type) (CL : ChannelLoop L) := {
  loop_inv : L → gmap positive Channel.t → Prop;
  may_remove : L → Channel.t → Prop;
  may_remove_addr l c c' :
    Channel.addr c = Channel.addr c' → may_remove l c → may_remove l c';
  update_spec l h c0 c :
    isInLoopThread l = true → loop_inv l h →
    h !! Channel.addr c = Some c0 → same_registration c0 c → fresh_fd h c →
    ∃ l' c', updateChannel l c = Ok (l', c') ∧
      c' = Channel.set_index c (Channel.index_ c') ∧ ¬ unregistered c' ∧
      isInLoopThread l' = true ∧ loop_inv l' (<[Channel.addr c := c']> h) ∧
      ∀ d, may_remove l d → may_remove l' d;
  remove_spec l h c0 c :
    isInLoopThread l = true → loop_inv l h →
    h !! Channel.addr c = Some c0 → same_registration c0 c →
    ¬ unregistered c → Channel.isNoneEvent c = true → may_remove l c →
    ∃ l', removeChannel l c = Ok (l', Channel.set_index c (-1)) ∧
      isInLoopThread l' = true ∧
      loop_inv l' (<[Channel.addr c := Channel.set_index c (-1)]> h)
}.

(** ** Interest bits *)

Lemma has_lor ev a b : has ev (Z.lor a b) = has ev a || has ev b.
Proof.
  unfold has. rewrite Z.land_lor_distr_r.
  destruct (Z.land ev a =? 0) eqn:Ea, (Z.land ev b =? 0) eqn:Eb; cbn [negb orb];
    rewrite ?Z.eqb_eq, ?Z.eqb_neq in *.
  - by rewrite Ea, Eb.
  - apply negb_true_iff, Z.eqb_neq. rewrite Z.lor_eq_0_iff. tauto.
  - apply negb_true_iff, Z.eqb_neq. rewrite Z.lor_eq_0_iff. tauto.
  - apply negb_true_iff, Z.eqb_neq. rewrite Z.lor_eq_0_iff. tauto.
Qed.

(** The values [events_] takes, by the two interests. *)
Definition interest (r w : bool) : Z :=
  (if r then Channel.kReadEvent else 0) + (if w then Channel.kWriteEvent else 0).

Lemma interest_isReading r w c :
  Channel.events_ c = interest r w → Channel.isReading c = r.
Proof. unfold Channel.isReading. intros ->. by destruct r, w. Qed.

Lemma interest_isWriting r w c :
  Channel.events_ c = interest r w → Channel.isWriting c = w.
Proof. unfold Channel.isWriting. intros ->. by destruct r, w. Qed.

Lemma interest_isNone r w c :
  Channel.events_ c = interest r w → Channel.isNoneEvent c = negb (r || w).
Proof. unfold Channel.isNoneEvent. intros ->. by destruct r, w. Qed.

Lemma interest_read_on r w : Z.lor (interest r w) Channel.kReadEvent = interest true w.
Proof. by destruct r, w. Qed.
Lemma interest_read_off r w :
  Z.land (interest r w) (Z.lnot Channel.kReadEvent) = interest false w.
Proof. by destruct r, w. Qed.
Lemma interest_write_on r w : Z.lor (interest r w) Channel.kWriteEvent = interest r true.
Proof. by destruct r, w. Qed.
Lemma interest_write_off r w :
  Z.land (interest r w) (Z.lnot Channel.kWriteEvent) = interest r false.
Proof. by destruct r, w. Qed.

(** ** The order of the callbacks *)

Inductive call := CloseCall | ErrorCall | ReadCall (receiveTime : Z) | WriteCall.

(** Which callbacks an event set asks for, in the order they run. *)
Definition wanted (revents time : Z) : list call :=
  (if has revents EPOLLHUP && negb (has revents EPOLLIN) then [CloseCall] else []) ++
  (if has revents EPOLLERR then [ErrorCall] else []) ++
  (if has revents EPOLLIN || has revents EPOLLPRI || has revents EPOLLRDHUP
   then [ReadCall time] else []) ++
  (if has revents EPOLLOUT then [WriteCall] else []).

Section Order.
Context {W : Type} (get : W → Channel.t) (put : W → Channel.t → W).
Hypothesis get_put : ∀ w c, get (put w c) = c.
Variable step : call → W → res W.

(** The callbacks one after the other; a fault stops the rest. *)
Fixpoint run_calls (cs : list call) (w : W) : res W :=
  match cs with
  | [] => mret w
  | c :: cs' => w' ← step c w; run_calls cs' w'
  end.

Lemma run_calls_app cs1 cs2 w :
  run_calls (cs1 ++ cs2) w = w' ← run_calls cs1 w; run_calls cs2 w'.
Proof.
  revert w. induction cs1 as [|c cs1 IH]; intros w; [done|]. cbn [run_calls app].
  destruct (step c w); [apply IH|done].
Qed.

(** Callbacks never change the received events: [revents_] is written by the
    poller only. *)
Hypothesis step_revents :
  ∀ c w w', step c w = Ok w' → Channel.revents_ (get w') = Channel.revents_ (get w).

Lemma guarded_call (b : bool) (c : call) (w : W) (k : W → res W) :
  (w' ← (if b then step c w else mret w); k w') =
  w' ← run_calls (if b then [c] else []) w; k w'.
Proof. destruct b; [|done]. cbn [run_calls]. by destruct (step c w). Qed.

Lemma run_calls_revents cs w w' :
  run_calls cs w = Ok w' → Channel.revents_ (get w') = Channel.revents_ (get w).
Proof.
  revert w. induction cs as [|c cs IH]; cbn [run_calls]; intros w Hr; inv_res; [by subst|].
  rewrite (IH _ Hr). by eapply step_revents.
Qed.

(** A channel event runs exactly the callbacks its received bits
    ask for, in the order close, error, read, write, each on the state the previous
    one left, and the first fault stops it; a tied channel whose owner is gone runs
    none. *)
Theorem handleEvent_order (guard : bool) (time : Z) (w : W) :
  ChannelOps.handleEvent get put
    (Some (λ t, step (ReadCall t))) (Some (step WriteCall))
    (Some (step CloseCall)) (Some (step ErrorCall)) guard time w =
  if Channel.tied_ (get w) && negb guard then Ok w else
  w' ← run_calls (wanted (Channel.revents_ (get w)) time)
         (put w (Channel.set_eventHandling (get w) true));
  Ok (put w' (Channel.set_eventHandling (get w') false)).
Proof.
  unfold ChannelOps.handleEvent.
  assert (ChannelOps.handleEventWithGuard get put
    (Some (λ t, step (ReadCall t))) (Some (step WriteCall))
    (Some (step CloseCall)) (Some (step ErrorCall)) time w =
    w' ← run_calls (wanted (Channel.revents_ (get w)) time)
         (put w (Channel.set_eventHandling (get w) true));
    Ok (put w' (Channel.set_eventHandling (get w') false))) as E;
    [|destruct (Channel.tied_ (get w)), guard; cbn [andb negb]; done].
  unfold ChannelOps.handleEventWithGuard, wanted, ChannelOps.call. rewrite !get_put.
  set (w0 := put w _). set (ev := Channel.revents_ (get w)).
  assert (Channel.revents_ (get w0) = ev) as E0 by (unfold w0; by rewrite get_put).
  change (Channel.revents_ (Channel.set_eventHandling (get w) true)) with ev.
  rewrite !run_calls_app, guarded_call.
  destruct (run_calls _ w0) as [w1|] eqn:R1; [|done]. cbn [mbind res_bind].
  apply run_calls_revents in R1. rewrite R1, E0, guarded_call, run_calls_app.
  destruct (run_calls _ w1) as [w2|] eqn:R2; [|done]. cbn [mbind res_bind].
  apply run_calls_revents in R2. rewrite R2, R1, E0. cbn [fmap option_fmap option_map].
  rewrite guarded_call, !has_lor, <-orb_assoc, run_calls_app.
  destruct (run_calls _ w2) as [w3|] eqn:R3; [|done]. cbn [mbind res_bind].
  apply run_calls_revents in R3. rewrite R3, R2, R1, E0, guarded_call. done.
Qed.

End Order.

(** A world that records the calls made on a channel. *)
Definition traced : Type := Channel.t * list call.
Definition trace_step (c : call) (w : traced) : res traced := Ok (w.1, w.2 ++ [c]).

(** A hang-up with pending urgent data runs both the close and the read callback. *)
Lemma handleEvent_order_witness :
  let c := Channel.set_revents (Channel.make 1 1 7) (Z.lor EPOLLHUP EPOLLPRI) in
  ChannelOps.handleEvent (W := traced) fst (λ w c, (c, w.2))
    (Some (λ t, trace_step (ReadCall t))) (Some (trace_step WriteCall))
    (Some (trace_step CloseCall)) (Some (trace_step ErrorCall)) true 99 (c, [])
  = Ok (c, [CloseCall; ReadCall 99]).
Proof.
  cbv zeta. rewrite (handleEvent_order (W := traced) fst (λ w c, (c, w.2)) (λ w c, eq_refl)
    trace_step); [vm_compute; reflexivity|].
  intros c w w' [= <-]. reflexivity.
Defined.
