(* ===== verification/EPollPoller.v ===== *)
(** * EPollPoller.h, EPollPoller.cc, Poller.h, Poller.cc: the poller of a loop

    The epoll instance belongs to the kernel: it is a parameter (class [Epoll]) whose
    documented behaviour is [EpollLaws]. The poller keeps, per descriptor, the
    address of the registered channel, and marks in the channel itself (its index)
    whether the kernel knows it. *)
From S2P Require Import Prelude Channel.

Definition EPOLL_CTL_ADD : Z := 1.
Definition EPOLL_CTL_DEL : Z := 2.
Definition EPOLL_CTL_MOD : Z := 3.

(** [epoll_ctl(e, op, fd, {events, ptr})]: success, and the instance afterwards. *)
Class Epoll (E : Type) := epoll_ctl : E → Z → Z → Z → positive → bool * E.

(** Documented behaviour: adding a descriptor that is not in the interest list,
    and modifying or deleting one that is, succeeds with the obvious effect. *)
Class EpollLaws (E : Type) (EP : Epoll E) := {
  watched : E → gmap Z (Z * positive);
  ctl_add e fd ev p :
    watched e !! fd = None →
    ∃ e', epoll_ctl e EPOLL_CTL_ADD fd ev p = (true, e') ∧ watched e' = <[fd := (ev, p)]> (watched e);
  ctl_mod e fd ev p x :
    watched e !! fd = Some x →
    ∃ e', epoll_ctl e EPOLL_CTL_MOD fd ev p = (true, e') ∧ watched e' = <[fd := (ev, p)]> (watched e);
  ctl_del e fd ev p x :
    watched e !! fd = Some x →
    ∃ e', epoll_ctl e EPOLL_CTL_DEL fd ev p = (true, e') ∧ watched e' = delete fd (watched e)
}.

Module EPollPoller.

Definition kNew : Z := -1.
Definition kAdded : Z := 1.
Definition kDeleted : Z := 2.
Definition kInitEventListSize : Z := 16.

Definition operationToString (op : Z) : res string :=
  if op =? EPOLL_CTL_ADD then mret "ADD"%string
  else if op =? EPOLL_CTL_DEL then mret "DEL"%string
  else if op =? EPOLL_CTL_MOD then mret "MOD"%string
  else Fault AssertFail.

(** What [epoll_wait] returned: the ready channels with their events, or [errno]. *)
Inductive wait_result :=
  | Ready (evs : list (positive * Z))
  | WaitError (errno : Z).

Section EPollPoller.
Context `{EP : Epoll E}.

Record t := mk {
  channels_ : gmap Z positive;
  epollfd_ : E;
  events_size : Z (* events_.size() *)
}.

(** The constructor, for the instance that [epoll_create1] gave. *)
Definition make (epollfd : E) : t := mk ∅ epollfd kInitEventListSize.

Definition update (p : t) (operation : Z) (c : Channel.t) : res t :=
  let '(ok, e) := epoll_ctl (epollfd_ p) operation (Channel.fd_ c) (Channel.events_ c) (Channel.addr c) in
  let p' := mk (channels_ p) e (events_size p) in
  if ok : bool then mret p'
  else if operation =? EPOLL_CTL_DEL then mret p' else Fault Fatal.

Definition updateChannel (p : t) (c : Channel.t) : res (t * Channel.t) :=
  let index := Channel.index_ c in
  let fd := Channel.fd_ c in
  if (index =? kNew) || (index =? kDeleted) then
    p ← (if index =? kNew then
           _ ← cassert (bool_decide (channels_ p !! fd = None));
           mret (mk (<[fd := Channel.addr c]> (channels_ p)) (epollfd_ p) (events_size p))
         else
           _ ← cassert (bool_decide (is_Some (channels_ p !! fd)));
           _ ← cassert (bool_decide (channels_ p !! fd = Some (Channel.addr c)));
           mret p);
    let c := Channel.set_index c kAdded in
    p ← update p EPOLL_CTL_ADD c;
    mret (p, c)
  else
    _ ← cassert (bool_decide (is_Some (channels_ p !! fd)));
    _ ← cassert (bool_decide (channels_ p !! fd = Some (Channel.addr c)));
    _ ← cassert (index =? kAdded);
    if Channel.isNoneEvent c then
      p ← update p EPOLL_CTL_DEL c;
      mret (p, Channel.set_index c kDeleted)
    else
      p ← update p EPOLL_CTL_MOD c;
      mret (p, c).

Definition removeChannel (p : t) (c : Channel.t) : res (t * Channel.t) :=
  let fd := Channel.fd_ c in
  _ ← cassert (bool_decide (is_Some (channels_ p !! fd)));
  _ ← cassert (bool_decide (channels_ p !! fd = Some (Channel.addr c)));
  _ ← cassert (Channel.isNoneEvent c);
  let index := Channel.index_ c in
  _ ← cassert ((index =? kAdded) || (index =? kDeleted));
  let p := mk (delete fd (channels_ p)) (epollfd_ p) (events_size p) in
  p ← (if index =? kAdded then update p EPOLL_CTL_DEL c else mret p);
  mret (p, Channel.set_index c kNew).

Definition hasChannel (p : t) (c : Channel.t) : bool :=
  bool_decide (channels_ p !! Channel.fd_ c = Some (Channel.addr c)).

(** [fillActiveChannels] writes the received events into the channels of the heap
    [h]; an event whose channel is gone would be a dangling pointer. *)
Fixpoint fill_loop (h : gmap positive Channel.t) (evs : list (positive * Z))
    (activeChannels : list positive) : res (gmap positive Channel.t * list positive) :=
  match evs with
  | [] => mret (h, activeChannels)
  | (a, ev) :: evs' =>
      match h !! a with
      | Some c => fill_loop (<[a := Channel.set_revents c ev]> h) evs' (activeChannels ++ [a])
      | None => Fault UB
      end
  end.

Definition fillActiveChannels (p : t) (h : gmap positive Channel.t) (evs : list (positive * Z))
    (activeChannels : list positive) : res (gmap positive Channel.t * list positive) :=
  _ ← cassert (zlen evs <=? events_size p);
  fill_loop h evs activeChannels.

Definition poll (p : t) (h : gmap positive Channel.t) (r : wait_result)
    (activeChannels : list positive) : res (t * gmap positive Channel.t * list positive) :=
  match r with
  | Ready evs =>
      if 0 <? zlen evs then
        '(h, activeChannels) ← fillActiveChannels p h evs activeChannels;
        let size := if zlen evs =? events_size p then u64 (events_size p * 2) else events_size p in
        mret (mk (channels_ p) (epollfd_ p) size, h, activeChannels)
      else mret (p, h, activeChannels)
  | WaitError _ => mret (p, h, activeChannels)
  end.

End EPollPoller.
#[global] Arguments t E : clear implicits.
End EPollPoller.

(** ** The poller and the kernel agree with the channels *)

(** [indexes m h f]: the map [m], keyed by descriptor, holds exactly what [f] says
    of the channels of [h]. *)
Definition indexes {V} (m : gmap Z V) (h : gmap positive Channel.t) (f : Channel.t → option V) : Prop :=
  ∀ fd v, m !! fd = Some v ↔ ∃ a c, h !! a = Some c ∧ Channel.fd_ c = fd ∧ f c = Some v.

(** Replacing the channel at [a], when no other channel is indexed under its descriptor. *)
Lemma indexes_set {V} m h (f : Channel.t → option V) a c0 c :
  indexes m h f → h !! a = Some c0 → Channel.fd_ c = Channel.fd_ c0 →
  (∀ b d, h !! b = Some d → Channel.fd_ d = Channel.fd_ c0 → b ≠ a → f d = None) →
  indexes (partial_alter (λ _, f c) (Channel.fd_ c0) m) (<[a := c]> h) f.
Proof.
  intros Hm Ha Hfd Hoth fd v. setoid_rewrite lookup_insert_Some.
  destruct (decide (fd = Channel.fd_ c0)) as [->|Hne].
  - rewrite lookup_partial_alter_eq. split; [intros Hf; exists a, c; naive_solver|].
    intros (b & d & [[<- <-]|[Hab Hb]] & Hd & Hf); [done|].
    by rewrite (Hoth b d) in Hf by done.
  - rewrite lookup_partial_alter_ne by done. rewrite (Hm fd v). split.
    + intros (b & d & Hb & Hd & Hf). exists b, d. split; [|done].
      right. split; [|done]. intros <-. congruence.
    + intros (b & d & [[<- <-]|[_ Hb]] & Hd & Hf); [congruence|eauto].
Qed.

Section Invariant.
Import EPollPoller.
Context `{EP : Epoll E, EL : !EpollLaws E EP}.

(** The registered channels, by address, and what the kernel should watch. *)
Definition registered (c : Channel.t) : option positive :=
  if Channel.index_ c =? kNew then None else Some (Channel.addr c).
Definition wants (c : Channel.t) : option (Z * positive) :=
  if Channel.index_ c =? kAdded then Some (Channel.events_ c, Channel.addr c) else None.

(** [poller_ok p h]: of the live channels [h], exactly the registered ones are in
    [channels_], under their descriptor, and the kernel watches exactly those
    marked [kAdded], with the events they ask for. *)
Record poller_ok (p : t E) (h : gmap positive Channel.t) : Prop := {
  ok_addr a c : h !! a = Some c → Channel.addr c = a;
  ok_index a c : h !! a = Some c →
    Channel.index_ c = kNew ∨ Channel.index_ c = kAdded ∨ Channel.index_ c = kDeleted;
  ok_channels : indexes (channels_ p) h registered;
  ok_watched : indexes (watched (epollfd_ p)) h wants
}.

Lemma registered_Some c : Channel.index_ c ≠ kNew → registered c = Some (Channel.addr c).
Proof. unfold registered. intros Hi%Z.eqb_neq. by rewrite Hi. Qed.

Lemma unregistered_None c : unregistered c → registered c = None ∧ wants c = None.
Proof. unfold unregistered, registered, wants. by intros ->. Qed.

Lemma ok_lookup p h a c :
  poller_ok p h → h !! a = Some c →
  (Channel.index_ c ≠ kNew → channels_ p !! Channel.fd_ c = Some a) ∧
  (Channel.index_ c = kAdded → watched (epollfd_ p) !! Channel.fd_ c = Some (Channel.events_ c, a)).
Proof.
  intros Hok Hc. pose proof (ok_addr _ _ Hok _ _ Hc) as <-. split; intros Hi.
  - apply (ok_channels _ _ Hok). eexists _, c. split_and!; [done..|]. by apply registered_Some.
  - apply (ok_watched _ _ Hok). eexists _, c. split_and!; [done..|]. unfold wants. by rewrite Hi.
Qed.

(** A registered channel is the only registered one with its descriptor. *)
Lemma ok_fresh p h a c :
  poller_ok p h → h !! a = Some c → Channel.index_ c ≠ kNew → fresh_fd h c.
Proof.
  intros Hok Hc Hi b d Hb Hfd Hne. unfold unregistered.
  destruct (decide (Channel.index_ d = kNew)) as [|Hn]; [done|]. destruct Hne.
  pose proof (proj1 (ok_lookup _ _ _ _ Hok Hc) Hi). pose proof (proj1 (ok_lookup _ _ _ _ Hok Hb) Hn).
  rewrite (ok_addr _ _ Hok _ _ Hc). congruence.
Qed.

(** An unregistered channel with a fresh descriptor is in neither map, one marked
    [kDeleted] is not watched. *)
Lemma ok_absent p h a c :
  poller_ok p h → h !! a = Some c → fresh_fd h c →
  (Channel.index_ c = kNew → channels_ p !! Channel.fd_ c = None) ∧
  (Channel.index_ c ≠ kAdded → watched (epollfd_ p) !! Channel.fd_ c = None).
Proof.
  intros Hok Hc Hf. pose proof (ok_addr _ _ Hok _ _ Hc) as <-.
  assert (∀ b d, h !! b = Some d → Channel.fd_ d = Channel.fd_ c → b ≠ Channel.addr c →
    registered d = None ∧ wants d = None) as Hoth
    by (intros; apply unregistered_None; eauto).
  split; intros Hi; apply eq_None_not_Some; intros [v Hv].
  - apply (ok_channels _ _ Hok) in Hv as (b & d & Hb & Hd & Hr).
    destruct (decide (b = Channel.addr c)) as [->|Hne]; [|by rewrite (proj1 (Hoth b d Hb Hd Hne)) in Hr].
    simplify_eq. unfold registered in Hr. by rewrite Hi in Hr.
  - apply (ok_watched _ _ Hok) in Hv as (b & d & Hb & Hd & Hr).
    destruct (decide (b = Channel.addr c)) as [->|Hne]; [|by rewrite (proj2 (Hoth b d Hb Hd Hne)) in Hr].
    simplify_eq. unfold wants in Hr. apply Z.eqb_neq in Hi. by rewrite Hi in Hr.
Qed.

(** Changing one channel: both maps follow at its descriptor. *)
Lemma poller_ok_set p p' h a c0 c :
  poller_ok p h → h !! a = Some c0 → fresh_fd h c0 →
  Channel.addr c = a → Channel.fd_ c = Channel.fd_ c0 →
  Channel.index_ c = kNew ∨ Channel.index_ c = kAdded ∨ Channel.index_ c = kDeleted →
  channels_ p' = partial_alter (λ _, registered c) (Channel.fd_ c0) (channels_ p) →
  watched (epollfd_ p') = partial_alter (λ _, wants c) (Channel.fd_ c0) (watched (epollfd_ p)) →
  poller_ok p' (<[a := c]> h).
Proof.
  intros Hok Hc0 Hf Ha Hfd Hi Hch Hw. pose proof (ok_addr _ _ Hok _ _ Hc0) as Ha0. split.
  - intros b d. rewrite lookup_insert_Some. intros [[<- <-]|[_ Hb]]; [done|by eapply ok_addr].
  - intros b d. rewrite lookup_insert_Some. intros [[<- <-]|[_ Hb]]; [done|by eapply ok_index].
  - rewrite Hch. apply indexes_set; [by apply ok_channels|done..|].
    intros b d Hb Hd Hne. apply unregistered_None. eapply Hf; [done..|congruence].
  - rewrite Hw. apply indexes_set; [by apply ok_watched|done..|].
    intros b d Hb Hd Hne. apply unregistered_None. eapply Hf; [done..|congruence].
Qed.

Lemma ctl_step p op c ok e :
  epoll_ctl (epollfd_ p) op (Channel.fd_ c) (Channel.events_ c) (Channel.addr c) = (ok, e) →
  ok = true → update p op c = Ok (mk (channels_ p) e (events_size p)).
Proof. intros Hc ->. unfold update. by rewrite Hc. Qed.

(** [updateChannel] on a live channel of which only the events may have changed. *)
Lemma updateChannel_spec p h c0 c :
  poller_ok p h → h !! Channel.addr c = Some c0 → same_registration c0 c → fresh_fd h c →
  ∃ p' c', updateChannel p c = Ok (p', c') ∧
    c' = Channel.set_index c (Channel.index_ c') ∧ Channel.index_ c' ≠ kNew ∧
    events_size p' = events_size p ∧
    poller_ok p' (<[Channel.addr c := c']> h).
Proof.
  intros Hok Hc0 (_ & _ & Hfd & Hix) Hf.
  assert (fresh_fd h c0) as Hf0.
  { intros b d Hb Hd Hne. apply (Hf b d Hb); [congruence|].
    by rewrite <-(ok_addr _ _ Hok _ _ Hc0). }
  destruct (ok_lookup _ _ _ _ Hok Hc0) as [Hreg Hwat].
  destruct (ok_absent _ _ _ _ Hok Hc0 Hf0) as [Hnew Hnw].
  assert (∀ p' i, i ≠ kNew → channels_ p' = <[Channel.fd_ c0 := Channel.addr c]> (channels_ p) →
    (i = kAdded ∨ i = kDeleted) →
    watched (epollfd_ p') = partial_alter (λ _, wants (Channel.set_index c i)) (Channel.fd_ c0) (watched (epollfd_ p)) →
    poller_ok p' (<[Channel.addr c := Channel.set_index c i]> h)) as Hset.
  { intros p' i Hi Hch Hi' Hw. eapply poller_ok_set; try done; [by right|].
    rewrite Hch. by rewrite registered_Some. }
  assert (∀ p' i ev, epollfd_ p' = epollfd_ p → channels_ p' = <[Channel.fd_ c0 := Channel.addr c]> (channels_ p) →
    events_size p' = events_size p → watched (epollfd_ p) !! Channel.fd_ c0 = None → i = kAdded → ev = Channel.events_ c →
    ∃ p'', update p' EPOLL_CTL_ADD (Channel.set_index c i) = Ok p'' ∧ events_size p'' = events_size p ∧
      poller_ok p'' (<[Channel.addr c := Channel.set_index c i]> h)) as Hadd.
  { intros p' i ev He Hch Hs Hw -> ->.
    destruct (ctl_add _ _ (Channel.events_ c) (Channel.addr c) Hw) as (e & Hctl & Hwe).
    eexists. split_and!; [eapply ctl_step; [|done]; cbn; by rewrite He, <-Hfd|done|].
    apply Hset; [done..|by left|done]. }
  unfold updateChannel. rewrite <-Hix, <-Hfd.
  destruct (ok_index _ _ Hok _ _ Hc0) as [Hi|[Hi|Hi]]; rewrite Hi in *; cbn.
  - rewrite bool_decide_true by auto. cbn.
    edestruct (Hadd (mk (<[Channel.fd_ c0 := Channel.addr c]> (channels_ p)) (epollfd_ p) (events_size p)) kAdded)
      as (p'' & -> & Hs & Hp''); try done; [by apply Hnw|].
    eexists p'', _. split_and!; [done..|by apply Hp''].
  - rewrite !bool_decide_true by eauto. cbn.
    destruct (Channel.isNoneEvent c) eqn:Hn.
    + edestruct (ctl_del _ _ (Channel.events_ c) (Channel.addr c) _ (Hwat eq_refl)) as (e & Hctl & Hwe).
      erewrite ctl_step; [|by rewrite <-Hfd|done]. eexists _, _. split_and!; [done..|].
      apply Hset; [done| |by right|exact Hwe]. by rewrite insert_id by auto.
    + edestruct (ctl_mod _ _ (Channel.events_ c) (Channel.addr c) _ (Hwat eq_refl)) as (e & Hctl & Hwe).
      erewrite ctl_step; [|by rewrite <-Hfd|done].
      assert (c = Channel.set_index c kAdded) as Hc
        by (unfold Channel.set_index; rewrite Hix; by destruct c).
      eexists _, c. split_and!; [done|by rewrite <-Hix|by rewrite <-Hix|done|].
      rewrite Hc at 2. apply Hset; [done| |by left|done]. by rewrite insert_id by auto.
  - rewrite !bool_decide_true by eauto. cbn.
    edestruct (Hadd p kAdded) as (p'' & -> & Hs & Hp''); try done;
      [by rewrite insert_id by auto|by apply Hnw|].
    eexists p'', _. split_and!; [done..|by apply Hp''].
Qed.

Lemma removeChannel_spec p h c0 c :
  poller_ok p h → h !! Channel.addr c = Some c0 → same_registration c0 c →
  Channel.index_ c ≠ kNew → Channel.isNoneEvent c = true →
  ∃ p', removeChannel p c = Ok (p', Channel.set_index c kNew) ∧
    events_size p' = events_size p ∧
    poller_ok p' (<[Channel.addr c := Channel.set_index c kNew]> h).
Proof.
  intros Hok Hc0 (_ & _ & Hfd & Hix) Hi Hn. rewrite <-Hix in Hi.
  destruct (ok_lookup _ _ _ _ Hok Hc0) as [Hreg Hwat].
  pose proof (ok_fresh _ _ _ _ Hok Hc0 Hi) as Hf.
  destruct (ok_absent _ _ _ _ Hok Hc0 Hf) as [_ Hnw].
  assert (∀ p', channels_ p' = delete (Channel.fd_ c0) (channels_ p) →
    watched (epollfd_ p') = delete (Channel.fd_ c0) (watched (epollfd_ p)) →
    poller_ok p' (<[Channel.addr c := Channel.set_index c kNew]> h)) as Hset.
  { intros p' Hch Hw. eapply poller_ok_set; try done. by left. }
  unfold removeChannel. rewrite <-Hix, <-Hfd, Hn, !bool_decide_true by eauto.
  destruct (ok_index _ _ Hok _ _ Hc0) as [Hc|[Hc|Hc]]; [done|..]; rewrite Hc in *; cbn.
  - edestruct (ctl_del _ _ (Channel.events_ c) (Channel.addr c) _ (Hwat eq_refl)) as (e & Hctl & Hwe).
    erewrite ctl_step; [|by rewrite <-Hfd|done].
    eexists. split_and!; [done..|]. by apply Hset.
  - eexists. split_and!; [done..|]. apply Hset; [done|]. cbn. by rewrite delete_id by auto.
Qed.

(** ** Every use of the poller *)

(** What the owners of channels do with a loop: create a channel for a descriptor,
    change its interest, remove it, destroy it. *)
Inductive chan_op :=
  | Create (a loop : positive) (fd : Z)
  | Interest (a : positive) (ev : Z)
  | Remove (a : positive)
  | Destroy (a : positive).

Definition chan_step (s : t E * gmap positive Channel.t) (o : chan_op) :
    res (t E * gmap positive Channel.t) :=
  let '(p, h) := s in
  match o with
  | Create a loop fd => mret (p, <[a := Channel.make a loop fd]> h)
  | Interest a ev =>
      match h !! a with
      | Some c =>
          '(p, c) ← updateChannel p (Channel.set_addedToLoop (Channel.set_events c ev) true);
          mret (p, <[a := c]> h)
      | None => Fault UB
      end
  | Remove a =>
      match h !! a with
      | Some c =>
          _ ← cassert (Channel.isNoneEvent c);
          '(p, c) ← removeChannel p (Channel.set_addedToLoop c false);
          mret (p, <[a := c]> h)
      | None => Fault UB
      end
  | Destroy a => mret (p, delete a h)
  end.

(** The discipline of the owners: objects have distinct addresses, a descriptor is
    registered once, a channel is removed when it is registered and asks for
    nothing, and destroyed when it is not registered. *)
Definition legal (h : gmap positive Channel.t) (o : chan_op) : Prop :=
  match o with
  | Create a _ _ => h !! a = None
  | Interest a _ => ∃ c, h !! a = Some c ∧ fresh_fd h c
  | Remove a => ∃ c, h !! a = Some c ∧ ¬ unregistered c ∧ Channel.isNoneEvent c = true
  | Destroy a => ∃ c, h !! a = Some c ∧ unregistered c
  end.

Inductive reachable (e0 : E) : t E * gmap positive Channel.t → Prop :=
  | reach_init : reachable e0 (make e0, ∅)
  | reach_step s s' o :
      reachable e0 s → legal s.2 o → chan_step s o = Ok s' → reachable e0 s'.

(** A channel that is in neither map comes and goes. *)
Lemma poller_ok_frame p h a c :
  poller_ok p h → unregistered c → Channel.addr c = a →
  (h !! a = None → poller_ok p (<[a := c]> h)) ∧ (h !! a = Some c → poller_ok p (delete a h)).
Proof.
  intros Hok Hu Ha. destruct (unregistered_None c Hu) as [Hr Hw].
  assert (∀ V (m : gmap Z V) (f : Channel.t → option V), f c = None → indexes m h f →
    (h !! a = None → indexes m (<[a := c]> h) f) ∧ (h !! a = Some c → indexes m (delete a h) f)) as Hix.
  { intros V m f Hf Hm. split; intros Hl fd v; rewrite (Hm fd v).
    - setoid_rewrite lookup_insert_Some. split.
      + intros (b & d & Hb & ?). exists b, d. split; [|done]. right. split; [congruence|done].
      + intros (b & d & [[<- <-]|[_ ?]] & ? & ?); [congruence|eauto].
    - setoid_rewrite lookup_delete_Some. split; [|naive_solver].
      intros (b & d & Hb & ? & ?). exists b, d. split_and!; congruence. }
  split; intros Hl; split.
  - intros b d. rewrite lookup_insert_Some. intros [[<- <-]|[_ Hb]]; [done|by eapply ok_addr].
  - intros b d. rewrite lookup_insert_Some. intros [[<- <-]|[_ Hb]]; [by left|by eapply ok_index].
  - apply (Hix _ _ registered); [done|by apply ok_channels|done].
  - apply (Hix _ _ wants); [done|by apply ok_watched|done].
  - intros b d [_ Hb]%lookup_delete_Some. by eapply ok_addr.
  - intros b d [_ Hb]%lookup_delete_Some. by eapply ok_index.
  - apply (Hix _ _ registered); [done|by apply ok_channels|done].
  - apply (Hix _ _ wants); [done|by apply ok_watched|done].
Qed.

Lemma chan_step_ok s o :
  poller_ok s.1 s.2 → legal s.2 o → ∃ s', chan_step s o = Ok s' ∧ poller_ok s'.1 s'.2.
Proof.
  destruct s as [p h]. cbn [fst snd]. intros Hok. destruct o as [a loop fd|a ev|a|a]; cbn [legal].
  - intros Ha. eexists. split; [done|]. by apply poller_ok_frame.
  - intros (c & Hc & Hf). pose proof (ok_addr _ _ Hok _ _ Hc) as Ha.
    destruct (updateChannel_spec p h c (Channel.set_addedToLoop (Channel.set_events c ev) true))
      as (p' & c' & Hu & _ & _ & _ & Hok'); [done|by rewrite <-Ha in Hc|done|done|].
    cbn [chan_step]. rewrite Hc, Hu. cbn [mbind res_bind]. eexists. split; [done|].
    cbn [fst snd]. by rewrite <-Ha.
  - intros (c & Hc & Hu & Hn). pose proof (ok_addr _ _ Hok _ _ Hc) as Ha.
    destruct (removeChannel_spec p h c (Channel.set_addedToLoop c false))
      as (p' & Hr & _ & Hok'); [done|by rewrite <-Ha in Hc|done|done|done|].
    cbn [chan_step]. rewrite Hc, Hn, Hr. cbn [mbind res_bind cassert]. eexists. split; [done|].
    cbn [fst snd]. by rewrite <-Ha.
  - intros (c & Hc & Hu). eexists. split; [done|]. apply (poller_ok_frame _ _ _ c); [done..| |done].
    by eapply ok_addr.
Qed.

(** C13 (invariant). However the owners create channels, change their interest,
    remove and destroy them, no assertion of the poller fails, no [epoll_ctl] is
    refused, and the kernel watches exactly the channels marked [kAdded], each with
    the events it asks for and its own address. *)
Theorem poller_agrees (e0 : E) (s : t E * gmap positive Channel.t) :
  watched e0 = ∅ → reachable e0 s →
  poller_ok s.1 s.2 ∧ ∀ o, legal s.2 o → ∃ s', chan_step s o = Ok s'.
Proof.
  intros He Hr. assert (poller_ok s.1 s.2) as Hok.
  { induction Hr as [|s s' o Hr IH Hl Hs].
    - split; cbn [fst snd make channels_ epollfd_].
      + intros a c. by rewrite lookup_empty.
      + intros a c. by rewrite lookup_empty.
      + intros fd v. rewrite lookup_empty. split; [done|]. intros (a & c & Ha & _). by rewrite lookup_empty in Ha.
      + intros fd v. rewrite He, lookup_empty. split; [done|]. intros (a & c & Ha & _). by rewrite lookup_empty in Ha.
    - destruct (chan_step_ok s o IH Hl) as (s'' & Hs'' & Hok). congruence. }
  split; [done|]. intros o Hl. destruct (chan_step_ok s o Hok Hl) as (s' & Hs & _). eauto.
Qed.

End Invariant.

(** ** A concrete interest list, for the witnesses *)

Module ToyEpoll.

Definition interest_list : Type := gmap Z (Z * positive).

#[export] Instance toy_epoll : Epoll interest_list := λ e op fd ev p,
  match e !! fd with
  | None => if op =? EPOLL_CTL_ADD then (true, <[fd := (ev, p)]> e) else (false, e)
  | Some _ =>
      if op =? EPOLL_CTL_MOD then (true, <[fd := (ev, p)]> e)
      else if op =? EPOLL_CTL_DEL then (true, delete fd e) else (false, e)
  end.

#[export] Instance toy_epoll_laws : EpollLaws interest_list toy_epoll.
Proof.
  refine {| watched := id |}; unfold epoll_ctl, toy_epoll, id, interest_list.
  - intros e fd ev p He. rewrite He. by eexists.
  - intros e fd ev p x He. rewrite He. by eexists.
  - intros e fd ev p x He. rewrite He. by eexists.
Defined.

End ToyEpoll.

Section Witness.
Import ToyEpoll.

Definition toy_created : EPollPoller.t interest_list * gmap positive Channel.t :=
  (EPollPoller.make ∅, {[1%positive := Channel.make 1 1 7]}).

Lemma poller_agrees_witness :
  ∃ s', chan_step toy_created (Interest 1 Channel.kReadEvent) = Ok s'.
Proof.
  apply (poller_agrees ∅ toy_created); [reflexivity| |].
  - eapply (reach_step ∅ _ _ (Create 1 1 7)); [constructor|reflexivity|reflexivity].
  - exists (Channel.make 1 1 7). split; [reflexivity|].
    intros b d Hb _ Hne. cbn in Hb. apply lookup_singleton_Some in Hb as [<- _]. destruct Hne. reflexivity.
Defined.

End Witness.
