(* ===== verification/TimerQueue.v ===== *)
(** * Timer.h, Timer.cc, TimerId.h, TimerQueue.h, TimerQueue.cc: the timers of a loop

    The queue keeps the pending timers ordered by expiration and address, and the
    same timers by address and sequence number, for cancellation.  [Timer] objects
    live in [heap]; a [Timer*] is its address.  The timerfd belongs to the kernel:
    the queue records what it was last set to. *)
From Stdlib Require Import SpecFloat Sorted.
From S2P Require Import Prelude Text Timestamp.

Module Timer.

Record t (F : Type) := mk {
  callback_ : F;
  expiration_ : Z;
  interval_ : double;
  repeat_ : bool;
  sequence_ : Z
}.
Arguments mk {F}.
Arguments callback_ {F}.
Arguments expiration_ {F}.
Arguments interval_ {F}.
Arguments repeat_ {F}.
Arguments sequence_ {F}.

(** The constructor, with the incremented [s_numCreated_]. *)
Definition make {F} (cb : F) (when : Z) (interval : double) (numCreated : Z) : t F :=
  mk cb when interval (dltb (S754_zero false) interval) numCreated.

Definition restart {F} (tm : t F) (now : Z) : res (t F) :=
  e ← (if repeat_ tm then Timestamp.addTime now (interval_ tm) else mret Timestamp.invalid);
  mret (mk (callback_ tm) e (interval_ tm) (repeat_ tm) (sequence_ tm)).

End Timer.

Module TimerQueue.

Abbreviation Entry := (Z * positive)%type.
Abbreviation ActiveTimer := (positive * Z)%type.

(** The order of [std::pair<Timestamp, Timer*>]. *)
Definition entry_ltb (x y : Entry) : bool :=
  (x.1 <? y.1) || ((x.1 =? y.1) && (x.2 <? y.2)%positive).

(** [std::set<Entry>] as its sorted sequence. *)
Fixpoint set_insert (e : Entry) (l : list Entry) : bool * list Entry :=
  match l with
  | [] => (true, [e])
  | x :: l' =>
      if entry_ltb e x then (true, e :: l)
      else if entry_ltb x e then let '(b, r) := set_insert e l' in (b, x :: r)
      else (false, l)
  end.

Definition set_erase (e : Entry) (l : list Entry) : Z * list Entry :=
  let r := filter (λ x, x ≠ e) l in (zlen l - zlen r, r).

(** [lower_bound] of the sentry [(now, UINTPTR_MAX)]: an object lies below that
    address, so the entries before it are those that expire at [now] or earlier. *)
Fixpoint split_expired (now : Z) (l : list Entry) : list Entry * list Entry :=
  match l with
  | [] => ([], [])
  | x :: l' =>
      if x.1 <=? now then let '(a, b) := split_expired now l' in (x :: a, b) else ([], l)
  end.

(** [howMuchTimeFromNow], with the clock it reads: seconds and nanoseconds. *)
Definition howMuchTimeFromNow (when now : Z) : Z * Z :=
  let microseconds := i64 (when - now) in
  let microseconds := if microseconds <? 100 then 100 else microseconds in
  (cdiv microseconds Timestamp.kMicroSecondsPerSecond,
   crem microseconds Timestamp.kMicroSecondsPerSecond * 1000).

Section TimerQueue.
Context {F : Type}.

Record t := mk {
  timers_ : list Entry;
  activeTimers_ : gset ActiveTimer;
  callingExpiredTimers_ : bool;
  cancelingTimers_ : gset ActiveTimer;
  heap : gmap positive (Timer.t F);
  timerfd_ : option (Z * (Z * Z)) (* when it was set, and to what *)
}.

Definition sizes_agree (q : t) : bool := zlen (timers_ q) =? Z.of_nat (size (activeTimers_ q)).

(** [resetTimerfd]; [clock] is the time it reads. *)
Definition resetTimerfd (q : t) (expiration clock : Z) : t :=
  mk (timers_ q) (activeTimers_ q) (callingExpiredTimers_ q) (cancelingTimers_ q) (heap q)
     (Some (clock, howMuchTimeFromNow expiration clock)).

(** Reading the timerfd after it fired: it stays unset until the next reset. *)
Definition readTimerfd (q : t) : t :=
  mk (timers_ q) (activeTimers_ q) (callingExpiredTimers_ q) (cancelingTimers_ q) (heap q) None.

Definition deref (q : t) (a : positive) : res (Timer.t F) :=
  match heap q !! a with Some tm => mret tm | None => Fault UB end.

(** [insert]: has the earliest expiration changed, and the queue. *)
Definition insert (q : t) (timer : positive) : res (bool * t) :=
  _ ← cassert (sizes_agree q);
  tm ← deref q timer;
  let when := Timer.expiration_ tm in
  let earliestChanged := match timers_ q with [] => true | x :: _ => when <? x.1 end in
  let '(ok, l) := set_insert (when, timer) (timers_ q) in
  _ ← cassert ok;
  let key := (timer, Timer.sequence_ tm) in
  _ ← cassert (bool_decide (key ∉ activeTimers_ q));
  let q := mk l ({[key]} ∪ activeTimers_ q) (callingExpiredTimers_ q) (cancelingTimers_ q)
             (heap q) (timerfd_ q) in
  _ ← cassert (sizes_agree q);
  mret (earliestChanged, q).

Definition addTimerInLoop (clock : Z) (timer : positive) (q : t) : res t :=
  '(earliestChanged, q) ← insert q timer;
  if earliestChanged : bool then
    tm ← deref q timer;
    mret (resetTimerfd q (Timer.expiration_ tm) clock)
  else mret q.

(** [addTimer] allocates the timer at a fresh address; the rest runs in the loop. *)
Definition newTimer (a : positive) (tm : Timer.t F) (q : t) : t :=
  mk (timers_ q) (activeTimers_ q) (callingExpiredTimers_ q) (cancelingTimers_ q)
     (<[a := tm]> (heap q)) (timerfd_ q).

Definition cancelInLoop (timerId : ActiveTimer) (q : t) : res t :=
  _ ← cassert (sizes_agree q);
  q ← (if bool_decide (timerId ∈ activeTimers_ q) then
         tm ← deref q timerId.1;
         let '(n, l) := set_erase (Timer.expiration_ tm, timerId.1) (timers_ q) in
         _ ← cassert (n =? 1);
         mret (mk l (activeTimers_ q ∖ {[timerId]}) (callingExpiredTimers_ q) (cancelingTimers_ q)
                 (delete timerId.1 (heap q)) (timerfd_ q))
       else if callingExpiredTimers_ q then
         mret (mk (timers_ q) (activeTimers_ q) (callingExpiredTimers_ q)
                 ({[timerId]} ∪ cancelingTimers_ q) (heap q) (timerfd_ q))
       else mret q);
  _ ← cassert (sizes_agree q);
  mret q.

Fixpoint erase_active (expired : list Entry) (q : t) : res t :=
  match expired with
  | [] => mret q
  | it :: expired' =>
      tm ← deref q it.2;
      let key := (it.2, Timer.sequence_ tm) in
      _ ← cassert (bool_decide (key ∈ activeTimers_ q));
      erase_active expired'
        (mk (timers_ q) (activeTimers_ q ∖ {[key]}) (callingExpiredTimers_ q) (cancelingTimers_ q)
            (heap q) (timerfd_ q))
  end.

Definition getExpired (now : Z) (q : t) : res (list Entry * t) :=
  _ ← cassert (sizes_agree q);
  let '(expired, rest) := split_expired now (timers_ q) in
  _ ← cassert (match rest with [] => true | x :: _ => now <? x.1 end);
  q ← erase_active expired
        (mk rest (activeTimers_ q) (callingExpiredTimers_ q) (cancelingTimers_ q) (heap q) (timerfd_ q));
  _ ← cassert (sizes_agree q);
  mret (expired, q).

Fixpoint reset_loop (expired : list Entry) (now : Z) (q : t) : res t :=
  match expired with
  | [] => mret q
  | it :: expired' =>
      tm ← deref q it.2;
      let key := (it.2, Timer.sequence_ tm) in
      q ← (if Timer.repeat_ tm && bool_decide (key ∉ cancelingTimers_ q) then
             tm ← Timer.restart tm now;
             let q := newTimer it.2 tm q in
             '(_, q) ← insert q it.2;
             mret q
           else mret (mk (timers_ q) (activeTimers_ q) (callingExpiredTimers_ q) (cancelingTimers_ q)
                        (delete it.2 (heap q)) (timerfd_ q)));
      reset_loop expired' now q
  end.

Definition reset (expired : list Entry) (now clock : Z) (q : t) : res t :=
  q ← reset_loop expired now q;
  nextExpire ← match timers_ q with
               | [] => mret Timestamp.invalid
               | x :: _ => tm ← deref q x.2; mret (Timer.expiration_ tm)
               end;
  mret (if Timestamp.valid nextExpire then resetTimerfd q nextExpire clock else q).

(** ** The alarm

    The callbacks of the expired timers run on a world [W] that holds the queue. *)
Section HandleRead.
Context {W : Type} (get : W → t) (put : W → t → W).
Variable run : F → W → res W.

Fixpoint run_expired (expired : list Entry) (w : W) : res W :=
  match expired with
  | [] => mret w
  | it :: expired' =>
      tm ← deref (get w) it.2;
      w ← run (Timer.callback_ tm) w;
      run_expired expired' w
  end.

Definition set_calling (q : t) (b : bool) (canceling : gset ActiveTimer) : t :=
  mk (timers_ q) (activeTimers_ q) b canceling (heap q) (timerfd_ q).

(** [now] is read at the start, [clock] by the final [resetTimerfd]. *)
Definition handleRead (now clock : Z) (w : W) : res W :=
  let w := put w (readTimerfd (get w)) in
  '(expired, q) ← getExpired now (get w);
  let w := put w (set_calling q true ∅) in
  w ← run_expired expired w;
  let w := put w (set_calling (get w) false (cancelingTimers_ (get w))) in
  q ← reset expired now clock (get w);
  mret (put w q).

End HandleRead.
End TimerQueue.
#[global] Arguments t F : clear implicits.
End TimerQueue.

(** ** The ordered set *)

Section OrderedSet.
Import TimerQueue.
Implicit Types (x y e : Entry) (l : list Entry).

Definition entry_lt x y : Prop := entry_ltb x y = true.
Abbreviation sorted := (StronglySorted entry_lt).

Lemma entry_ltb_spec x y :
  entry_ltb x y = true ↔ x.1 < y.1 ∨ (x.1 = y.1 ∧ (x.2 < y.2)%positive).
Proof.
  unfold entry_ltb. rewrite orb_true_iff, andb_true_iff, Z.ltb_lt, Z.eqb_eq, Pos.ltb_lt. done.
Qed.

Lemma entry_lt_trans x y z : entry_lt x y → entry_lt y z → entry_lt x z.
Proof. unfold entry_lt. rewrite !entry_ltb_spec. lia. Qed.

Lemma entry_lt_total x y : entry_lt x y ∨ x = y ∨ entry_lt y x.
Proof.
  unfold entry_lt. rewrite !entry_ltb_spec. destruct x as [t a], y as [u b]; cbn.
  destruct (Z.lt_trichotomy t u) as [|[->|]]; [auto| |auto].
  destruct (Pos.lt_total a b) as [|[->|]]; auto.
Qed.

Lemma entry_lt_irrefl x : ¬ entry_lt x x.
Proof. unfold entry_lt. rewrite entry_ltb_spec. lia. Qed.

Lemma entry_lt_le x y : entry_lt x y → x.1 <= y.1.
Proof. unfold entry_lt. rewrite entry_ltb_spec. lia. Qed.

Lemma sorted_nodup l : sorted l → NoDup l.
Proof.
  induction 1 as [|x l Hs IH Hx]; [constructor|]. constructor; [|done].
  intros Hin. rewrite Forall_forall in Hx. by apply (entry_lt_irrefl x), Hx.
Qed.

Lemma set_insert_spec e l :
  sorted l → e ∉ l → ∃ r, set_insert e l = (true, r) ∧ sorted r ∧ r ≡ₚ e :: l.
Proof.
  induction 1 as [|x l Hs IH Hx]; intros Hn; cbn [set_insert].
  - exists [e]. split_and!; [done| |done]. repeat constructor.
  - destruct (entry_ltb e x) eqn:E1.
    + exists (e :: x :: l). split_and!; [done| |done]. constructor; [by constructor|].
      constructor; [done|]. eapply Forall_impl; [done|]. intros y Hy. by eapply entry_lt_trans.
    + destruct (entry_ltb x e) eqn:E2.
      * destruct IH as (r & -> & Hr & Hp); [set_solver|].
        exists (x :: r). split_and!; [done| |rewrite Hp; apply Permutation_swap].
        constructor; [done|]. rewrite Hp. by constructor.
      * exfalso. destruct (entry_lt_total e x) as [H|[->|H]]; unfold entry_lt in *; [congruence|set_solver|congruence].
Qed.

Lemma split_expired_spec now l :
  sorted l →
  let '(a, b) := split_expired now l in
  l = a ++ b ∧ Forall (λ e, e.1 <= now) a ∧ Forall (λ e, now < e.1) b ∧ sorted a ∧ sorted b.
Proof.
  induction 1 as [|x l Hs IH Hx]; cbn [split_expired]; [repeat constructor|].
  destruct (x.1 <=? now) eqn:E.
  - destruct (split_expired now l) as [a b]. destruct IH as (-> & Ha & Hb & Hsa & Hsb).
    apply Forall_app in Hx as [Hxa Hxb]. split_and!; [done| |done| |done].
    + constructor; [lia|done].
    + by constructor.
  - split_and!; [done|constructor| |constructor|by constructor]. constructor; [lia|].
    eapply Forall_impl; [done|]. intros y ?%entry_lt_le. lia.
Qed.

Lemma sorted_head e l : sorted (e :: l) → Forall (λ y, e.1 <= y.1) l.
Proof. inversion 1 as [|? ? ? Hx]; subst. eapply Forall_impl; [done|]. intros y. apply entry_lt_le. Qed.

Lemma sorted_filter (P : Entry → Prop) `{∀ x, Decision (P x)} l : sorted l → sorted (filter P l).
Proof.
  induction 1 as [|x l Hs IH Hx]; [constructor|]. rewrite filter_cons. case_decide; [|done].
  constructor; [done|]. apply Forall_forall. intros y Hy%list_elem_of_filter.
  rewrite Forall_forall in Hx. naive_solver.
Qed.

End OrderedSet.

(** ** The invariant of the queue *)

Section Invariant.
Import TimerQueue.
Context {F : Type}.
Implicit Types (q : TimerQueue.t F) (e : Entry) (a : positive).

Definition seq_of (h : gmap positive (Timer.t F)) a : Z :=
  match h !! a with Some tm => Timer.sequence_ tm | None => 0 end.
Definition key (h : gmap positive (Timer.t F)) e : ActiveTimer := (e.2, seq_of h e.2).

(** The pending timers are sorted, each object is pending once, under its own
    expiration, and the active set holds the same timers. *)
Record tq_inv q : Prop := {
  tq_sorted : StronglySorted entry_lt (timers_ q);
  tq_nodup : NoDup (timers_ q).*2;
  tq_heap e : e ∈ timers_ q → ∃ tm, heap q !! e.2 = Some tm ∧ Timer.expiration_ tm = e.1;
  tq_active : activeTimers_ q = list_to_set (key (heap q) <$> timers_ q);
  tq_pos e : e ∈ timers_ q → 0 < e.1
}.

(** The timerfd fires no later than the earliest pending timer asks for. *)
Definition armed q : Prop :=
  ∀ e l, timers_ q = e :: l →
  ∃ w clock, timerfd_ q = Some (clock, howMuchTimeFromNow w clock) ∧ w <= e.1.

(** The timerfd was set at [clock], to the time left until the earliest pending timer. *)
Definition set_for_earliest clock q : Prop :=
  ∀ e l, timers_ q = e :: l → timerfd_ q = Some (clock, howMuchTimeFromNow e.1 clock).

Lemma earliest_armed clock q : set_for_earliest clock q → armed q.
Proof. intros H e l He. exists e.1, clock. split; [by eapply H|done]. Qed.

Lemma tq_sizes q : tq_inv q → sizes_agree q = true.
Proof.
  intros Hq. unfold sizes_agree, zlen. rewrite (tq_active q Hq), size_list_to_set.
  - rewrite length_fmap. lia.
  - apply (NoDup_fmap_1 fst). rewrite <-list_fmap_compose. apply Hq.
Qed.

Lemma key_ext h h' (l : list Entry) :
  (∀ e, e ∈ l → h' !! e.2 = h !! e.2) → key h' <$> l = key h <$> l.
Proof.
  intros Hh. apply list_fmap_ext. intros i e He%list_elem_of_lookup_2.
  unfold key, seq_of. by rewrite Hh.
Qed.

Lemma entry_in_addr e (l : list Entry) : e ∈ l → e.2 ∈ l.*2.
Proof. intros. by apply list_elem_of_fmap_2. Qed.

(** A pending object has one entry. *)
Lemma entry_unique (l : list Entry) e e' : NoDup l.*2 → e ∈ l → e' ∈ l → e.2 = e'.2 → e = e'.
Proof.
  intros Hn [i Hi]%list_elem_of_lookup_1 [j Hj]%list_elem_of_lookup_1 Heq.
  assert (i = j) as ->; [|congruence].
  apply (NoDup_lookup l.*2 i j e.2 Hn).
  - rewrite list_lookup_fmap. by rewrite Hi.
  - rewrite list_lookup_fmap, Hj. cbn. congruence.
Qed.

Lemma insert_spec q a tm :
  tq_inv q → heap q !! a = Some tm → a ∉ (timers_ q).*2 → 0 < Timer.expiration_ tm →
  ∃ l, insert q a = Ok (match timers_ q with [] => true | x :: _ => Timer.expiration_ tm <? x.1 end,
      mk l ({[(a, Timer.sequence_ tm)]} ∪ activeTimers_ q) (callingExpiredTimers_ q)
        (cancelingTimers_ q) (heap q) (timerfd_ q)) ∧
    l ≡ₚ (Timer.expiration_ tm, a) :: timers_ q ∧
    tq_inv (mk l ({[(a, Timer.sequence_ tm)]} ∪ activeTimers_ q) (callingExpiredTimers_ q)
        (cancelingTimers_ q) (heap q) (timerfd_ q)).
Proof.
  intros Hq Ha Hn Hpos. unfold insert, deref. rewrite (cassert_true _ (tq_sizes q Hq)), Ha.
  cbn [mbind res_bind mret res_ret].
  destruct (set_insert_spec (Timer.expiration_ tm, a) (timers_ q)) as (l & Hl & Hs & Hp);
    [apply Hq|by intros ?%entry_in_addr|]. rewrite Hl.
  cbn [cassert mbind res_bind]. rewrite bool_decide_true.
  2:{ rewrite (tq_active q Hq), elem_of_list_to_set. intros (e & He & Hin)%list_elem_of_fmap_1.
      apply Hn. apply (f_equal fst) in He. cbn in He. rewrite He. by apply entry_in_addr. }
  cbn [cassert mbind res_bind]. set (q' := mk _ _ _ _ _ _).
  assert (tq_inv q') as Hq'.
  { split; cbn [timers_ activeTimers_ heap q'].
    - done.
    - rewrite Hp. cbn. constructor; [done|apply Hq].
    - intros e. rewrite Hp. intros [->|Hin]%elem_of_cons; [by exists tm|by apply Hq].
    - rewrite (tq_active q Hq). rewrite Hp. cbn. f_equal. f_equal.
      unfold key, seq_of. cbn. by rewrite Ha.
    - intros e. rewrite Hp. intros [->|Hin]%elem_of_cons; [done|by apply Hq]. }
  rewrite (cassert_true _ (tq_sizes q' Hq')). exists l. by split_and!.
Qed.

Lemma head_least q e l x : tq_inv q → timers_ q = e :: l → x ∈ timers_ q → e.1 <= x.1.
Proof.
  intros Hq Hl. rewrite Hl. intros [->|Hin]%elem_of_cons; [lia|].
  pose proof (tq_sorted q Hq) as Hs. rewrite Hl in Hs. apply sorted_head in Hs.
  rewrite Forall_forall in Hs. by apply Hs.
Qed.

Lemma addTimerInLoop_spec q a tm clock :
  tq_inv q → heap q !! a = Some tm → a ∉ (timers_ q).*2 → 0 < Timer.expiration_ tm →
  ∃ q', addTimerInLoop clock a q = Ok q' ∧ tq_inv q' ∧ (armed q → armed q') ∧
    timers_ q' ≡ₚ (Timer.expiration_ tm, a) :: timers_ q ∧ heap q' = heap q ∧
    callingExpiredTimers_ q' = callingExpiredTimers_ q ∧ cancelingTimers_ q' = cancelingTimers_ q.
Proof.
  intros Hq Ha Hn Hpos. unfold addTimerInLoop.
  destruct (insert_spec q a tm Hq Ha Hn Hpos) as (l & -> & Hp & Hq'). cbn [mbind res_bind].
  set (q1 := mk l _ _ _ _ _) in *.
  destruct (match timers_ q with [] => true | x :: _ => Timer.expiration_ tm <? x.1 end) eqn:E.
  - unfold deref. cbn [heap q1]. rewrite Ha. cbn [mbind res_bind mret res_ret].
    eexists. split; [done|]. split_and!; [by destruct Hq'; split| |done..].
    intros _ e k He. cbn in He. eexists _, clock. split; [done|].
    assert (e ∈ (Timer.expiration_ tm, a) :: timers_ q) as Hin by (rewrite <-Hp, He; set_solver).
    apply elem_of_cons in Hin as [->|Hin]; [done|].
    destruct (timers_ q) as [|y k'] eqn:Ht; [set_solver|].
    pose proof (head_least q y k' e Hq Ht ltac:(by rewrite Ht)). lia.
  - exists q1. split_and!; [done|done| |done..]. intros Harm e k He. cbn in He.
    destruct (timers_ q) as [|y k'] eqn:Ht; [done|].
    destruct (Harm y k' Ht) as (w & c & Hw & Hle). exists w, c. split; [done|].
    assert (e ∈ (Timer.expiration_ tm, a) :: y :: k') as Hin by (rewrite <-Hp, He; set_solver).
    apply elem_of_cons in Hin as [->|Hin]; [cbn; lia|].
    pose proof (head_least q y k' e Hq Ht ltac:(by rewrite Ht)). lia.
Qed.

Lemma active_entry q a n :
  tq_inv q → (a, n) ∈ activeTimers_ q →
  ∃ tm, heap q !! a = Some tm ∧ Timer.sequence_ tm = n ∧ (Timer.expiration_ tm, a) ∈ timers_ q.
Proof.
  intros Hq. rewrite (tq_active q Hq), elem_of_list_to_set.
  intros ([t b] & [= -> ->] & Hin)%list_elem_of_fmap_1. cbn.
  destruct (tq_heap q Hq _ Hin) as (tm & Htm & Hexp). cbn in *. exists tm. unfold seq_of.
  rewrite Htm. by rewrite Hexp.
Qed.

Lemma filter_ne_perm e (l : list Entry) : NoDup l → e ∈ l → l ≡ₚ e :: filter (λ x, x ≠ e) l.
Proof.
  intros Hn He. apply NoDup_Permutation; [done| |].
  - constructor; [rewrite list_elem_of_filter; naive_solver|by apply NoDup_filter].
  - intros x. rewrite elem_of_cons, list_elem_of_filter. destruct (decide (x = e)); naive_solver.
Qed.

Lemma set_erase_spec e (l : list Entry) :
  NoDup l → e ∈ l → set_erase e l = (1, filter (λ x, x ≠ e) l).
Proof.
  intros Hn He. unfold set_erase. f_equal. apply filter_ne_perm in He as Hp; [|done].
  apply Permutation_length in Hp. unfold zlen. cbn [length] in Hp. lia.
Qed.

(** Taking the entry of one object out of a queue. *)
Lemma tq_without q e l h can :
  tq_inv q → timers_ q ≡ₚ e :: l → StronglySorted entry_lt l →
  (∀ x, x ∈ l → h !! x.2 = heap q !! x.2) →
  tq_inv (mk l (activeTimers_ q ∖ {[key (heap q) e]}) (callingExpiredTimers_ q) can h (timerfd_ q)).
Proof.
  intros Hq Hp Hs Hh. pose proof (tq_nodup q Hq) as Hn. rewrite Hp in Hn. cbn in Hn.
  apply NoDup_cons in Hn as [He Hn]. split; cbn [timers_ activeTimers_ heap]; [done|done| | |].
  - intros x Hx. rewrite (Hh x Hx). apply Hq. rewrite Hp. set_solver.
  - rewrite (tq_active q Hq), Hp, (key_ext (heap q) h) by done. rewrite fmap_cons. cbn [list_to_set].
    apply set_eq. intros k. rewrite elem_of_difference, elem_of_union, elem_of_singleton.
    split; [naive_solver|]. intros Hk. split; [auto|]. intros ->. apply He.
    apply elem_of_list_to_set, list_elem_of_fmap_1 in Hk as (x & Hx & Hin).
    apply (f_equal fst) in Hx. cbn in Hx. rewrite Hx. by apply entry_in_addr.
  - intros x Hx. apply Hq. rewrite Hp. set_solver.
Qed.

Lemma cancelInLoop_spec q a n :
  tq_inv q →
  ∃ q', cancelInLoop (a, n) q = Ok q' ∧ tq_inv q' ∧ (armed q → armed q') ∧
    callingExpiredTimers_ q' = callingExpiredTimers_ q ∧
    (if decide ((a, n) ∈ activeTimers_ q)
     then (a ∉ (timers_ q').*2) ∧ heap q' = delete a (heap q) ∧ cancelingTimers_ q' = cancelingTimers_ q ∧
          a ∈ (timers_ q).*2 ∧ timers_ q' ⊆ timers_ q
     else timers_ q' = timers_ q ∧ heap q' = heap q ∧
          cancelingTimers_ q' = (if callingExpiredTimers_ q then {[(a, n)]} ∪ cancelingTimers_ q
                                 else cancelingTimers_ q)).
Proof.
  intros Hq. unfold cancelInLoop. rewrite (cassert_true _ (tq_sizes q Hq)). cbn [mbind res_bind fst].
  destruct (decide ((a, n) ∈ activeTimers_ q)) as [Hin|Hin];
    [rewrite (bool_decide_true _ Hin)|rewrite (bool_decide_false _ Hin)].
  - destruct (active_entry q a n Hq Hin) as (tm & Htm & Hseq & He).
    unfold deref. rewrite Htm. cbn [mbind res_bind mret res_ret].
    rewrite set_erase_spec by (done || apply sorted_nodup, Hq). cbn [cassert Z.eqb Pos.eqb mbind res_bind mret res_ret].
    set (e := (Timer.expiration_ tm, a)) in *. set (l := filter _ _).
    assert (timers_ q ≡ₚ e :: l) as Hp by (apply filter_ne_perm; [apply sorted_nodup, Hq|done]).
    pose proof (tq_nodup q Hq) as Hn. rewrite Hp in Hn. cbn in Hn. apply NoDup_cons in Hn as [Hna Hn].
    assert (key (heap q) e = (a, n)) as Hkey by (unfold key, seq_of; cbn; by rewrite Htm, Hseq).
    assert (∀ x, x ∈ l → delete a (heap q) !! x.2 = heap q !! x.2) as Hh.
    { intros x Hx. apply lookup_delete_ne. intros Heq. apply Hna. rewrite Heq. by apply entry_in_addr. }
    pose proof (tq_without q e l (delete a (heap q)) (cancelingTimers_ q) Hq Hp
      (sorted_filter _ _ (tq_sorted q Hq)) Hh) as Hq'.
    rewrite Hkey in Hq'. rewrite (cassert_true _ (tq_sizes _ Hq')). cbn [mbind res_bind].
    eexists. split; [done|]. split_and!; [done| |done|done|done|done| |].
    + intros Harm x k Hx. cbn in Hx. destruct (timers_ q) as [|y k'] eqn:Ht; [done|].
      destruct (Harm y k' Ht) as (w & c & Hw & Hle). exists w, c. split; [done|].
      pose proof (head_least q y k' x Hq Ht) as Hle'. rewrite Ht, Hp, Hx in Hle'.
      specialize (Hle' ltac:(set_solver)). lia.
    + by apply (entry_in_addr e).
    + cbn. rewrite Hp. set_solver.
  - destruct (callingExpiredTimers_ q) eqn:Hcall; cbn [mbind res_bind mret res_ret].
    + set (q' := mk _ _ _ _ _ _). assert (tq_inv q') as Hq' by (destruct Hq; by split).
      rewrite (cassert_true _ (tq_sizes q' Hq')). exists q'. by split_and!.
    + rewrite (cassert_true _ (tq_sizes q Hq)). exists q. by split_and!.
Qed.

Lemma erase_active_spec ex q :
  (∀ e, e ∈ ex → is_Some (heap q !! e.2)) → NoDup (ex ++ timers_ q).*2 →
  activeTimers_ q = list_to_set (key (heap q) <$> (ex ++ timers_ q)) →
  erase_active ex q = Ok (mk (timers_ q) (list_to_set (key (heap q) <$> timers_ q))
    (callingExpiredTimers_ q) (cancelingTimers_ q) (heap q) (timerfd_ q)).
Proof.
  revert q. induction ex as [|e ex IH]; intros q Hh Hn Hact; cbn [erase_active].
  - cbn [app] in Hact. rewrite <-Hact. by destruct q.
  - destruct (Hh e) as [tm Htm]; [set_solver|]. unfold deref. rewrite Htm. cbn [mbind res_bind mret res_ret].
    assert ((e.2, Timer.sequence_ tm) = key (heap q) e) as -> by (unfold key, seq_of; by rewrite Htm).
    cbn in Hn. apply NoDup_cons in Hn as [He Hn].
    rewrite bool_decide_true by (rewrite Hact; set_solver). cbn [cassert mbind res_bind].
    rewrite IH; cbn [timers_ heap activeTimers_]; [done|set_solver|done|].
    rewrite Hact. change ((e :: ex) ++ timers_ q) with (e :: (ex ++ timers_ q)).
    rewrite fmap_cons. cbn [list_to_set].
    apply set_eq. intros k. rewrite elem_of_difference, elem_of_union, elem_of_singleton.
    split; [naive_solver|]. intros Hk. split; [auto|]. intros ->. apply He.
    apply elem_of_list_to_set, list_elem_of_fmap_1 in Hk as (x & Hx & Hin).
    apply (f_equal fst) in Hx. cbn in Hx. rewrite Hx. by apply entry_in_addr.
Qed.

Lemma getExpired_spec now q ex rest :
  tq_inv q → split_expired now (timers_ q) = (ex, rest) →
  ∃ q', getExpired now q = Ok (ex, q') ∧ tq_inv q' ∧ timers_ q' = rest ∧ heap q' = heap q ∧
    callingExpiredTimers_ q' = callingExpiredTimers_ q ∧ cancelingTimers_ q' = cancelingTimers_ q ∧
    timerfd_ q' = timerfd_ q.
Proof.
  intros Hq Hsp. unfold getExpired. rewrite (cassert_true _ (tq_sizes q Hq)), Hsp. cbn [mbind res_bind].
  pose proof (split_expired_spec now (timers_ q) (tq_sorted q Hq)) as Hs. rewrite Hsp in Hs.
  destruct Hs as (Happ & Hex & Hrest & _ & Hsr).
  rewrite cassert_true by (destruct Hrest; [done|lia]). cbn [mbind res_bind].
  rewrite erase_active_spec; cbn [timers_ activeTimers_ heap callingExpiredTimers_ cancelingTimers_ timerfd_].
  2:{ intros e He. destruct (tq_heap q Hq e) as (tm & -> & _); [rewrite Happ; set_solver|done]. }
  2:{ rewrite <-Happ. apply Hq. }
  2:{ rewrite <-Happ. apply Hq. }
  cbn [mbind res_bind]. set (q' := mk _ _ _ _ _ _).
  assert (tq_inv q') as Hq'.
  { split; cbn [timers_ activeTimers_ heap q']; [done| | |done|].
    - pose proof (tq_nodup q Hq) as Hn. rewrite Happ, fmap_app in Hn. by apply NoDup_app in Hn as (_ & _ & Hn).
    - intros e He. apply Hq. rewrite Happ. set_solver.
    - intros e He. apply Hq. rewrite Happ. set_solver. }
  rewrite (cassert_true _ (tq_sizes q' Hq')). exists q'. by split_and!.
Qed.

(** What becomes of the expired timers: the repeating ones that were not cancelled
    meanwhile are due again [interval_] after [now]. *)
Definition restarted (now : Z) (can : gset ActiveTimer) (h : gmap positive (Timer.t F)) e : option Entry :=
  tm ← h !! e.2;
  if Timer.repeat_ tm && bool_decide ((e.2, Timer.sequence_ tm) ∉ can) then
    match Timestamp.addTime now (Timer.interval_ tm) with Ok w => Some (w, e.2) | Fault _ => None end
  else None.

(** The restart of every repeating timer among [ex] is a valid time. *)
Definition restartable (now : Z) (h : gmap positive (Timer.t F)) (ex : list Entry) : Prop :=
  ∀ e tm, e ∈ ex → h !! e.2 = Some tm → Timer.repeat_ tm = true →
  ∃ w, Timestamp.addTime now (Timer.interval_ tm) = Ok w ∧ 0 < w.

Lemma restarted_ext now can h h' (ex : list Entry) :
  (∀ e, e ∈ ex → h' !! e.2 = h !! e.2) → omap (restarted now can h') ex = omap (restarted now can h) ex.
Proof.
  induction ex as [|e ex IH]; intros Hh; [done|]. cbn. rewrite IH by set_solver.
  unfold restarted at 1. rewrite (Hh e) by set_solver. done.
Qed.

(** Objects that are not pending come and go. *)
Lemma tq_heap_change q h calling can fd :
  tq_inv q → (∀ e, e ∈ timers_ q → h !! e.2 = heap q !! e.2) →
  tq_inv (mk (timers_ q) (activeTimers_ q) calling can h fd).
Proof.
  intros Hq Hh. split; cbn [timers_ activeTimers_ heap].
  - apply Hq.
  - apply Hq.
  - intros e He. rewrite (Hh e He). by apply Hq.
  - rewrite (key_ext (heap q) h) by done. apply Hq.
  - apply Hq.
Qed.

(** The conclusion of [reset_loop_spec]. *)
Definition reset_post now (ex : list Entry) q q' : Prop :=
  tq_inv q' ∧
  timers_ q' ≡ₚ omap (restarted now (cancelingTimers_ q) (heap q)) ex ++ timers_ q ∧
  cancelingTimers_ q' = cancelingTimers_ q ∧ callingExpiredTimers_ q' = callingExpiredTimers_ q ∧
  (∀ a, a ∉ ex.*2 → heap q' !! a = heap q !! a) ∧
  (∀ e, e ∈ ex → restarted now (cancelingTimers_ q) (heap q) e = None → heap q' !! e.2 = None).

(** One expired timer handled, the others to go. *)
Lemma reset_post_cons now e (ex : list Entry) q q1 q' :
  e.2 ∉ ex.*2 → cancelingTimers_ q1 = cancelingTimers_ q →
  callingExpiredTimers_ q1 = callingExpiredTimers_ q →
  (∀ a, a ≠ e.2 → heap q1 !! a = heap q !! a) →
  timers_ q1 ≡ₚ option_list (restarted now (cancelingTimers_ q) (heap q) e) ++ timers_ q →
  (restarted now (cancelingTimers_ q) (heap q) e = None → heap q1 !! e.2 = None) →
  reset_post now ex q1 q' → reset_post now (e :: ex) q q'.
Proof.
  intros Hne Hcan Hcall Hh Ht Hdel (Hq' & Hp & Hcan' & Hcall' & Hrest & Hgone).
  assert (∀ x, x ∈ ex → heap q1 !! x.2 = heap q !! x.2) as Hex.
  { intros x Hx. apply Hh. intros Heq. apply Hne. rewrite <-Heq. by apply entry_in_addr. }
  rewrite Hcan, (restarted_ext now _ (heap q)) in Hp by done.
  split_and!; [done| |congruence|congruence| |].
  - rewrite Hp, Ht. cbn. destruct (restarted now (cancelingTimers_ q) (heap q) e); cbn; [|done].
    by rewrite Permutation_middle.
  - intros a. cbn. rewrite not_elem_of_cons. intros [Ha Hax]. rewrite Hrest by done. by apply Hh.
  - intros x [->|Hx]%elem_of_cons Hr; [rewrite Hrest by done; auto|].
    apply Hgone; [done|]. rewrite Hcan. unfold restarted in *. by rewrite Hex.
Qed.

Lemma reset_loop_spec now ex q :
  tq_inv q → NoDup ex.*2 →
  (∀ e, e ∈ ex → is_Some (heap q !! e.2) ∧ e.2 ∉ (timers_ q).*2) →
  restartable now (heap q) ex →
  ∃ q', reset_loop ex now q = Ok q' ∧ reset_post now ex q q'.
Proof.
  revert q. induction ex as [|e ex IH]; intros q Hq Hn Hex Hres; cbn [reset_loop].
  - exists q. split; [done|]. by split_and!; [..|set_solver].
  - cbn in Hn. apply NoDup_cons in Hn as [Hne Hn].
    destruct (Hex e) as [[tm Htm] Hnt]; [set_solver|].
    unfold deref. rewrite Htm. cbn [mbind res_bind mret res_ret].
    assert (∀ q1, tq_inv q1 → cancelingTimers_ q1 = cancelingTimers_ q →
      callingExpiredTimers_ q1 = callingExpiredTimers_ q →
      (∀ a, a ≠ e.2 → heap q1 !! a = heap q !! a) →
      timers_ q1 ≡ₚ option_list (restarted now (cancelingTimers_ q) (heap q) e) ++ timers_ q →
      (restarted now (cancelingTimers_ q) (heap q) e = None → heap q1 !! e.2 = None) →
      ∃ q', reset_loop ex now q1 = Ok q' ∧ reset_post now (e :: ex) q q') as Hstep.
    { intros q1 Hq1 Hcan Hcall Hh Ht Hdel.
      assert (∀ x, x ∈ ex → x.2 ≠ e.2) as Hx.
      { intros x Hx Heq. apply Hne. rewrite <-Heq. by apply entry_in_addr. }
      destruct (IH q1) as (q' & Hr & Hpost); [done|done| | |].
      - intros x Hin. rewrite Hh by auto. destruct (Hex x) as [? Hxt]; [set_solver|]. split; [done|].
        rewrite Ht, fmap_app, elem_of_app. intros [Hr|]; [|done].
        unfold restarted in Hr. rewrite Htm in Hr. cbn in Hr.
        destruct (_ && _); [|set_solver]. destruct (Timestamp.addTime _ _); [|set_solver].
        cbn in Hr. apply list_elem_of_singleton in Hr. by apply (Hx x).
      - intros x tm' Hin Htm' Hrep. apply (Hres x); [set_solver| |done]. by rewrite <-Hh by auto.
      - exists q'. split; [done|]. by eapply reset_post_cons. }
    destruct (Timer.repeat_ tm && _) eqn:E.
    + apply andb_true_iff in E as [Erep Ecan].
      destruct (Hres e tm) as (w & Hw & Hpos); [set_solver|done|done|].
      unfold Timer.restart. rewrite Erep, Hw. cbn [mbind res_bind mret res_ret].
      set (tm' := Timer.mk _ _ _ _ _). set (q0 := newTimer e.2 tm' q).
      assert (tq_inv q0) as Hq0.
      { apply tq_heap_change; [done|]. intros x Hx. apply lookup_insert_ne.
        intros Heq. apply Hnt. rewrite Heq. by apply entry_in_addr. }
      destruct (insert_spec q0 e.2 tm') as (l & -> & Hp & Hq1); [done|apply lookup_insert_eq|done|done|].
      cbn [mbind res_bind]. apply Hstep; [done|done|done| | |]; cbn [heap timers_ q0 newTimer].
      * intros a Ha. by apply lookup_insert_ne.
      * unfold restarted. rewrite Htm. cbn. rewrite Erep, Ecan. cbn. by rewrite Hw.
      * unfold restarted. rewrite Htm. cbn. rewrite Erep, Ecan. cbn. by rewrite Hw.
    + assert (restarted now (cancelingTimers_ q) (heap q) e = None) as Hr
        by (unfold restarted; rewrite Htm; cbn; by rewrite E).
      apply Hstep; cbn [heap timers_ cancelingTimers_ callingExpiredTimers_]; [|done|done| | |].
      * apply tq_heap_change; [done|]. intros x Hx. apply lookup_delete_ne.
        intros Heq. apply Hnt. rewrite Heq. by apply entry_in_addr.
      * intros a Ha. by apply lookup_delete_ne.
      * by rewrite Hr.
      * intros _. apply lookup_delete_eq.
Qed.

Lemma reset_spec now clock ex q :
  tq_inv q → NoDup ex.*2 →
  (∀ e, e ∈ ex → is_Some (heap q !! e.2) ∧ e.2 ∉ (timers_ q).*2) →
  restartable now (heap q) ex →
  ∃ q', reset ex now clock q = Ok q' ∧ reset_post now ex q q' ∧ set_for_earliest clock q'.
Proof.
  intros Hq Hn Hex Hres. destruct (reset_loop_spec now ex q Hq Hn Hex Hres) as (q1 & Hr & Hpost).
  unfold reset. rewrite Hr. cbn [mbind res_bind]. pose proof Hpost as (Hq1 & Hp & _).
  destruct (timers_ q1) as [|x l] eqn:Ht; cbn [mbind res_bind mret res_ret].
  - exists q1. split_and!; [done|done|]. intros e k He. congruence.
  - destruct (tq_heap q1 Hq1 x) as (tm & Htm & Hexp); [rewrite Ht; set_solver|].
    unfold deref. rewrite Htm. cbn [mbind res_bind mret res_ret].
    assert (0 < x.1) as Hpos by (apply (tq_pos q1 Hq1); rewrite Ht; set_solver).
    rewrite Hexp. unfold Timestamp.valid. replace (0 <? x.1) with true by lia.
    eexists. split_and!; [done| |].
    + destruct Hpost as (? & ? & ? & ? & ? & ?). split_and!; [by apply tq_heap_change|done..].
    + intros e k He. cbn in He. rewrite Ht in He. by simplify_eq.
Qed.

End Invariant.

(** ** The alarm runs the due timers *)

Section Alarm.
Import TimerQueue.
Context {F : Type}.
Implicit Types q : TimerQueue.t F.

(** What a callback may do with the timers of its loop. *)
Inductive timer_op :=
  | AddTimer (a : positive) (tm : Timer.t F) (clock : Z)
  | CancelTimer (timerId : ActiveTimer).

Definition timer_step q (o : timer_op) : res (TimerQueue.t F) :=
  match o with
  | AddTimer a tm clock => addTimerInLoop clock a (newTimer a tm q)
  | CancelTimer timerId => cancelInLoop timerId q
  end.

(** A new timer is a new object, with a valid time. *)
Definition timer_legal q (o : timer_op) : Prop :=
  match o with
  | AddTimer a tm _ => heap q !! a = None ∧ 0 < Timer.expiration_ tm
  | CancelTimer _ => True
  end.

Fixpoint timer_steps (os : list timer_op) q : res (TimerQueue.t F) :=
  match os with
  | [] => mret q
  | o :: os' => q ← timer_step q o; timer_steps os' q
  end.

Fixpoint timers_legal (os : list timer_op) q : Prop :=
  match os with
  | [] => True
  | o :: os' => timer_legal q o ∧ ∀ q', timer_step q o = Ok q' → timers_legal os' q'
  end.

(** The queue while expired timers, found in [h], are being called. *)
Definition alarming (h : gmap positive (Timer.t F)) (ex : list Entry) q : Prop :=
  tq_inv q ∧ ∀ e, e ∈ ex → heap q !! e.2 = h !! e.2 ∧ e.2 ∉ (timers_ q).*2.

Lemma timer_step_spec h ex q o :
  alarming h ex q → (∀ e, e ∈ ex → is_Some (h !! e.2)) → timer_legal q o →
  ∃ q', timer_step q o = Ok q' ∧ alarming h ex q' ∧ (armed q → armed q').
Proof.
  intros [Hq Hex] Hh. destruct o as [a tm clock|[a n]]; cbn [timer_legal timer_step].
  - intros [Ha Hpos]. assert (a ∉ (timers_ q).*2) as Hna.
    { intros ([t b] & -> & Hin)%list_elem_of_fmap_1. destruct (tq_heap q Hq _ Hin) as (? & ? & _). cbn in *. congruence. }
    destruct (addTimerInLoop_spec (newTimer a tm q) a tm clock) as (q' & -> & Hq' & Harm & Hp & Hhp & _);
      [|apply lookup_insert_eq|done|done|].
    { apply tq_heap_change; [done|]. intros e He. apply lookup_insert_ne.
      intros Heq. apply Hna. rewrite Heq. by apply entry_in_addr. }
    exists q'. split_and!; [done| |intros Hq0; by apply Harm]. split; [done|].
    intros e He. destruct (Hex e He) as [Heq Hnt]. rewrite Hhp, Hp. cbn.
    assert (a ≠ e.2) by (intros Ha'; destruct (Hh e He); congruence).
    rewrite lookup_insert_ne by done. split; [done|]. rewrite not_elem_of_cons. auto.
  - intros _. destruct (cancelInLoop_spec q a n Hq) as (q' & -> & Hq' & Harm & _ & Hcase).
    exists q'. split_and!; [done| |done]. split; [done|]. intros e He. destruct (Hex e He) as [Heq Hnt].
    destruct (decide _).
    + destruct Hcase as (_ & Hhp & _ & Hin & Hsub).
      assert (a ≠ e.2) by congruence. rewrite Hhp, lookup_delete_ne by done. split; [done|].
      intros (x & Hxe & Hx)%list_elem_of_fmap_1. apply Hnt. rewrite Hxe. by apply entry_in_addr, Hsub.
    + destruct Hcase as (-> & -> & _). done.
Qed.

Lemma timer_steps_spec h ex os q :
  alarming h ex q → (∀ e, e ∈ ex → is_Some (h !! e.2)) → timers_legal os q →
  ∃ q', timer_steps os q = Ok q' ∧ alarming h ex q' ∧ (armed q → armed q').
Proof.
  revert q. induction os as [|o os IH]; intros q Hq Hh Hl; cbn [timer_steps]; [eauto|].
  destruct Hl as [Ho Hl]. destruct (timer_step_spec h ex q o Hq Hh Ho) as (q1 & Hs & Hq1 & Ha1).
  rewrite Hs. cbn [mbind res_bind]. destruct (IH q1 Hq1 Hh (Hl q1 Hs)) as (q' & ? & ? & ?). eauto 6.
Qed.

(** The callbacks: each performs the timer operations of its script, in the state it
    finds, and is recorded. *)
Variable script : F → TimerQueue.t F → list timer_op.
Hypothesis script_legal : ∀ f q, tq_inv q → timers_legal (script f q) q.

Definition run_callback (f : F) (w : TimerQueue.t F * list F) : res (TimerQueue.t F * list F) :=
  q ← timer_steps (script f w.1) w.1;
  mret (q, w.2 ++ [f]).

Definition callbacks_of (h : gmap positive (Timer.t F)) (ex : list Entry) : list F :=
  omap (λ e, Timer.callback_ <$> h !! e.2) ex.

Lemma run_expired_spec h ex0 ex q log :
  alarming h ex0 q → (∀ e, e ∈ ex0 → is_Some (h !! e.2)) → ex ⊆ ex0 →
  ∃ q', run_expired fst run_callback ex (q, log) = Ok (q', log ++ callbacks_of h ex) ∧ alarming h ex0 q'.
Proof.
  revert q log. induction ex as [|e ex IH]; intros q log Hq Hh Hsub; cbn [run_expired].
  - exists q. cbn. by rewrite app_nil_r.
  - destruct (Hh e) as [tm Htm]; [set_solver|]. unfold deref. cbn [fst].
    rewrite (proj1 (proj2 Hq e ltac:(set_solver))), Htm. cbn [mbind res_bind mret res_ret].
    destruct (timer_steps_spec h ex0 (script (Timer.callback_ tm) q) q Hq Hh) as (q1 & Hs1 & Hq1 & _);
      [apply script_legal, Hq|].
    assert (run_callback (Timer.callback_ tm) (q, log) = Ok (q1, log ++ [Timer.callback_ tm])) as ->
      by (unfold run_callback; cbn [fst snd]; by rewrite Hs1).
    cbn [mbind res_bind].
    destruct (IH q1 (log ++ [Timer.callback_ tm]) Hq1 Hh ltac:(set_solver)) as (q' & -> & Hq').
    exists q'. split; [|done]. cbn. rewrite Htm. cbn. by rewrite <-app_assoc.
Qed.

(** C26 (functional). When the timerfd fires, exactly the timers that are due run, in
    the order of their expiration, whatever timers their callbacks add or cancel;
    afterwards a repeating timer that was not cancelled is pending again one interval
    after [now], every other due timer is gone, and if a timer is pending, the timerfd has
    just been set, to the time that is left until the earliest one.  (The next time of
    every repeating timer that is due must be a valid one.) *)
Theorem alarm_runs_due (q : TimerQueue.t F) (log : list F) (now clock : Z) (ex rest : list Entry) :
  tq_inv q → split_expired now (timers_ q) = (ex, rest) → restartable now (heap q) ex →
  ∃ q', handleRead fst (λ w q, (q, w.2)) run_callback now clock (q, log)
        = Ok (q', log ++ callbacks_of (heap q) ex) ∧
    timers_ q = ex ++ rest ∧ Forall (λ e, e.1 <= now) ex ∧ Forall (λ e, now < e.1) rest ∧
    tq_inv q' ∧ set_for_earliest clock q' ∧
    ∀ e, e ∈ ex → match restarted now (cancelingTimers_ q') (heap q) e with
                  | Some e' => e' ∈ timers_ q'
                  | None => heap q' !! e.2 = None
                  end.
Proof.
  intros Hq Hsp Hres. unfold handleRead. cbn [fst snd].
  pose proof (split_expired_spec now (timers_ q) (tq_sorted q Hq)) as Hs. rewrite Hsp in Hs.
  destruct Hs as (Happ & Hex & Hrest & _ & _).
  assert (tq_inv (readTimerfd q)) as Hq0 by by apply tq_heap_change.
  destruct (getExpired_spec now (readTimerfd q) ex rest Hq0 Hsp) as (q1 & -> & Hq1 & Ht1 & Hh1 & _).
  cbn [mbind res_bind fst snd]. set (q2 := set_calling q1 true ∅).
  pose proof (tq_nodup q Hq) as Hn. rewrite Happ, fmap_app in Hn. apply NoDup_app in Hn as (Hnx & Hdis & _).
  assert (∀ e, e ∈ ex → is_Some (heap q !! e.2)) as Hh.
  { intros e He. destruct (tq_heap q Hq e) as (tm & -> & _); [rewrite Happ; set_solver|done]. }
  assert (alarming (heap q) ex q2) as Hq2.
  { split; [by apply tq_heap_change|]. intros e He. cbn [heap timers_ q2 set_calling].
    rewrite Hh1, Ht1. split; [done|]. by apply Hdis, entry_in_addr. }
  destruct (run_expired_spec (heap q) ex ex q2 log Hq2 Hh ltac:(done)) as (q3 & -> & [Hq3 Hex3]).
  cbn [mbind res_bind fst snd]. set (q4 := set_calling q3 false (cancelingTimers_ q3)).
  assert (∀ e, e ∈ ex → heap q4 !! e.2 = heap q !! e.2) as Hh4 by (intros e He; by apply Hex3).
  destruct (reset_spec now clock ex q4) as (q' & -> & (Hq' & Hp & Hcan & _ & _ & Hgone) & Harm).
  { by apply tq_heap_change. }
  { done. }
  { intros e He. rewrite Hh4 by done. split; [by apply Hh|]. by apply Hex3. }
  { intros e tm He Htm Hrep. apply (Hres e tm); [done| |done]. by rewrite <-Hh4. }
  cbn [mbind res_bind mret res_ret]. exists q'. split_and!; [done..|].
  intros e He. rewrite Hcan. rewrite (restarted_ext now _ (heap q)) in Hp by done.
  destruct (restarted now (cancelingTimers_ q4) (heap q) e) as [e'|] eqn:Er.
  - rewrite Hp. apply elem_of_app. left. apply list_elem_of_omap. eauto.
  - apply Hgone; [done|]. unfold restarted in *. by rewrite Hh4.
Qed.

End Alarm.

(** ** Cancellation *)

Section Cancel.
Import TimerQueue.
Context {F : Type}.
Implicit Types q : TimerQueue.t F.

(** What is remembered as cancelled is not forgotten before the next alarm. *)
Lemma timer_step_canceling h ex q o q' :
  alarming h ex q → (∀ e, e ∈ ex → is_Some (h !! e.2)) → timer_legal q o → timer_step q o = Ok q' →
  cancelingTimers_ q ⊆ cancelingTimers_ q'.
Proof.
  intros [Hq _] _ Hl E. destruct o as [a tm clock|[a n]]; cbn [timer_legal timer_step] in *.
  - unfold addTimerInLoop, insert in E. inv_res. repeat case_match; inv_res; simplify_eq; done.
  - destruct (cancelInLoop_spec q a n Hq) as (q1 & E1 & _ & _ & _ & Hcase). rewrite E in E1. injection E1 as <-.
    destruct (decide _); [by destruct Hcase as (_ & _ & -> & _)|]. destruct Hcase as (_ & _ & ->). destruct (callingExpiredTimers_ q); set_solver.
Qed.

Lemma timer_steps_canceling h ex os q q' :
  alarming h ex q → (∀ e, e ∈ ex → is_Some (h !! e.2)) → timers_legal os q → timer_steps os q = Ok q' →
  cancelingTimers_ q ⊆ cancelingTimers_ q'.
Proof.
  revert q. induction os as [|o os IH]; intros q Hq Hh Hl; cbn [timer_steps]; [by intros [= <-]|].
  destruct Hl as [Ho Hl]. destruct (timer_step_spec h ex q o Hq Hh Ho) as (q1 & Hs & Hq1 & _).
  rewrite Hs. cbn [mbind res_bind]. intros E. etrans; [by eapply timer_step_canceling|]. by eapply IH; [..|apply Hl|].
Qed.

(** A timer remembered as cancelled does not survive the end of the alarm. *)
Lemma canceled_not_restarted now clock ex q a n :
  tq_inv q → NoDup ex.*2 → (∀ e, e ∈ ex → is_Some (heap q !! e.2) ∧ e.2 ∉ (timers_ q).*2) →
  restartable now (heap q) ex → a ∈ ex.*2 → seq_of (heap q) a = n → (a, n) ∈ cancelingTimers_ q →
  ∃ q', reset ex now clock q = Ok q' ∧ tq_inv q' ∧ (a ∉ (timers_ q').*2) ∧ heap q' !! a = None.
Proof.
  intros Hq Hn Hex Hres Ha Hseq Hcan.
  destruct (reset_spec now clock ex q Hq Hn Hex Hres) as (q' & E & (Hq' & Hp & _ & _ & _ & Hgone) & _).
  exists q'. split; [done|]. split; [done|].
  assert (∀ e, e.2 = a → restarted now (cancelingTimers_ q) (heap q) e = None) as Hnone.
  { intros e He. unfold restarted, seq_of in *. rewrite He. destruct (heap q !! a) as [tm|]; [|done].
    cbn. rewrite Hseq, bool_decide_false by (by intros H). by rewrite andb_false_r. }
  apply list_elem_of_fmap_1 in Ha as (e & -> & He). split; [|by apply Hgone, Hnone].
  rewrite Hp, fmap_app, not_elem_of_app. split; [|by apply Hex].
  intros (x & Hx & Hin)%list_elem_of_fmap_1. apply list_elem_of_omap in Hin as (y & Hy & Hr).
  assert (x.2 = y.2) as Hxy.
  { clear -Hr. unfold restarted in Hr. destruct (heap q !! y.2); [|done]. cbn in Hr. repeat case_match; by simplify_eq. }
  rewrite Hnone in Hr by congruence. done.
Qed.

(** C27 (safety). Cancelling never fails, keeps the queue in order and its alarm set,
    and takes effect.  A pending timer is taken out and destroyed at once.  A timer that is
    among those that an alarm is calling ([ex]), and is cancelled by one of the callbacks,
    its own or another's, does not come back: whatever the remaining callbacks add and
    cancel, the [reset] at the end of the alarm does not restart it but destroys it, even
    if it repeats.  (The next time of every repeating timer in [ex] must be valid.) *)
Theorem cancel_takes_effect (q : TimerQueue.t F) (a : positive) (n : Z) :
  tq_inv q → armed q →
  ∃ q', cancelInLoop (a, n) q = Ok q' ∧ tq_inv q' ∧ armed q' ∧ ((a, n) ∉ activeTimers_ q') ∧
    ((a, n) ∈ activeTimers_ q → (a ∉ (timers_ q').*2) ∧ heap q' !! a = None) ∧
    ((a, n) ∉ activeTimers_ q → callingExpiredTimers_ q = true → timers_ q' = timers_ q ∧
       ∀ os ex now clock, alarming (heap q) ex q → (∀ e, e ∈ ex → is_Some (heap q !! e.2)) → NoDup ex.*2 →
         a ∈ ex.*2 → seq_of (heap q) a = n → restartable now (heap q) ex → timers_legal os q' →
         ∃ q1 q2, timer_steps os q' = Ok q1 ∧ reset ex now clock q1 = Ok q2 ∧ tq_inv q2 ∧
           (a ∉ (timers_ q2).*2) ∧ heap q2 !! a = None).
Proof.
  intros Hq Harm. destruct (cancelInLoop_spec q a n Hq) as (q' & -> & Hq' & Ha & _ & Hcase).
  exists q'. assert ((a, n) ∉ activeTimers_ q') as Hnot.
  { intros (tm & Htm & Hseq & He)%(active_entry q' a n Hq').
    destruct (decide ((a, n) ∈ activeTimers_ q)) as [Hin|Hin].
    - destruct Hcase as (Hna & _). by apply Hna, (entry_in_addr _ _ He).
    - destruct Hcase as (Ht & Hh & _). apply Hin. rewrite (tq_active q Hq), elem_of_list_to_set.
      apply list_elem_of_fmap. exists (Timer.expiration_ tm, a). rewrite <-Ht. split; [|done].
      unfold key, seq_of. cbn. by rewrite <-Hh, Htm, Hseq. }
  split_and!; [done|done|auto|done| |].
  - intros Hin. rewrite decide_True in Hcase by done. destruct Hcase as (Hna & Hh & _).
    split; [done|]. rewrite Hh. apply lookup_delete_eq.
  - intros Hin Hcall. rewrite decide_False, Hcall in Hcase by done. destruct Hcase as (Ht & Hh & Hc).
    split; [done|]. intros os ex now clock [_ Hex] Hsome Hn Hax Hseq Hres Hl.
    assert (alarming (heap q) ex q') as Hal by (split; [done|by rewrite Ht, Hh]).
    destruct (timer_steps_spec (heap q) ex os q' Hal Hsome Hl) as (q1 & E1 & [Hq1 Hex1] & _).
    pose proof (timer_steps_canceling _ _ _ _ _ Hal Hsome Hl E1) as Hsub.
    destruct (canceled_not_restarted now clock ex q1 a n Hq1 Hn) as (q2 & E2 & ?).
    + intros e He. destruct (Hex1 e He) as [-> ?]. auto.
    + intros e tm He. rewrite (proj1 (Hex1 e He)). by apply Hres.
    + done.
    + apply list_elem_of_fmap_1 in Hax as (e & -> & He). unfold seq_of in *. by rewrite (proj1 (Hex1 e He)).
    + apply Hsub. rewrite Hc. set_solver.
    + by exists q1, q2.
Qed.

End Cancel.

(** ** The delay given to the timerfd *)

(** The relative time set on the timerfd is a valid [timespec] (its
    nanoseconds are below a second, so [timerfd_settime] accepts it), is never zero
    (which would disarm the timer), and is the time left but at least 100
    microseconds. *)
Theorem timerfd_delay (when now : Z) :
  in_sN 64 (when - now) →
  let '(s, ns) := TimerQueue.howMuchTimeFromNow when now in
  0 <= s ∧ 0 <= ns < 10 ^ 9 ∧ s * 10 ^ 9 + ns = Z.max 100 (when - now) * 1000.
Proof.
  intros Hr. unfold TimerQueue.howMuchTimeFromNow, Timestamp.kMicroSecondsPerSecond.
  rewrite sN_small by done. set (d := if _ <? 100 then _ else _).
  assert (d = Z.max 100 (when - now)) as Hd by (unfold d; destruct (_ <? 100) eqn:E; lia).
  rewrite Z.quot_div_nonneg, Z.rem_mod_nonneg by lia. clearbody d. subst d. cbn. dlia.
Qed.

(** ** Witnesses *)

Section Witness.
Import TimerQueue.

(** A one-shot timer due at 10, and one that repeats every second, due at 12. *)
Definition toy_timers : TimerQueue.t string :=
  mk [(10, 1%positive); (12, 2%positive)] {[(1%positive, 1); (2%positive, 2)]} false ∅
    {[1%positive := Timer.make "once"%string 10 (S754_zero false) 1;
      2%positive := Timer.make "again"%string 12 (d_of_Z 1) 2]} (Some (5, howMuchTimeFromNow 10 5)).

Lemma toy_timers_inv : tq_inv toy_timers.
Proof.
  split; cbn [timers_ activeTimers_ heap toy_timers].
  - repeat constructor.
  - cbn. apply NoDup_cons. split; [set_solver|apply NoDup_singleton].
  - intros e [->|[->|[]%elem_of_nil]%elem_of_cons]%elem_of_cons; eexists; split; reflexivity.
  - apply set_eq. intros k. cbn. unfold key, seq_of. cbn. set_solver.
  - intros e [->|[->|[]%elem_of_nil]%elem_of_cons]%elem_of_cons; reflexivity.
Qed.

Lemma toy_timers_armed : armed toy_timers.
Proof. intros e l [= <- <-]. exists 10, 5. split; [reflexivity|cbn; lia]. Qed.

Lemma alarm_runs_due_witness :
  ∃ q', handleRead fst (λ w q, (q, w.2)) (run_callback (λ _ _, [])) 11 20 (toy_timers, [])
        = Ok (q', ["once"%string]) ∧ timers_ q' = [(12, 2%positive)].
Proof.
  destruct (alarm_runs_due (λ _ _, []) (λ _ _ _, I) toy_timers [] 11 20 [(10, 1%positive)] [(12, 2%positive)]
    toy_timers_inv eq_refl) as (q' & Hr & _).
  - intros e tm ->%list_elem_of_singleton. cbn. intros [= <-]. discriminate.
  - exists q'. split; [exact Hr|]. vm_compute in Hr. injection Hr as <-. reflexivity.
Defined.

(** The repeating timer is being called, and its callback cancels it. *)
Definition toy_calling : TimerQueue.t string :=
  mk [(40, 1%positive)] {[(1%positive, 1)]} true ∅
    {[1%positive := Timer.make "once"%string 40 (S754_zero false) 1;
      2%positive := Timer.make "again"%string 12 (d_of_Z 1) 2]} (Some (5, howMuchTimeFromNow 10 5)).

Lemma cancel_takes_effect_witness :
  (∃ q', cancelInLoop (1%positive, 1) toy_timers = Ok q' ∧ 1%positive ∉ (timers_ q').*2) ∧
  ∃ q1 q2, cancelInLoop (2%positive, 2) toy_calling = Ok q1 ∧
    reset [(12, 2%positive)] 13 20 q1 = Ok q2 ∧ (2%positive ∉ (timers_ q2).*2) ∧ heap q2 !! 2%positive = None.
Proof.
  split.
  { destruct (cancel_takes_effect toy_timers 1 1 toy_timers_inv toy_timers_armed)
      as (q' & Hc & _ & _ & _ & Hin & _).
    exists q'. split; [exact Hc|]. apply Hin. cbn. set_solver. }
  assert (tq_inv toy_calling) as Hinv.
  { split; cbn [timers_ activeTimers_ heap toy_calling].
    - repeat constructor.
    - apply NoDup_singleton.
    - intros e ->%list_elem_of_singleton. by eexists.
    - apply set_eq. intros k. cbn. unfold key, seq_of. cbn. set_solver.
    - by intros e ->%list_elem_of_singleton. }
  destruct (cancel_takes_effect toy_calling 2 2 Hinv) as (q' & Hc & _ & _ & _ & _ & Hcall).
  { intros e l [= <- <-]. exists 10, 5. split; [reflexivity|cbn; lia]. }
  destruct Hcall as [_ Hcall].
  - cbn. set_solver.
  - reflexivity.
  - destruct (Hcall [] [(12, 2%positive)] 13 20) as (q1 & q2 & E1 & E2 & _ & Hn & Hh).
    + split; [exact Hinv|]. intros e ->%list_elem_of_singleton. split; [done|]. cbn. set_solver.
    + intros e ->%list_elem_of_singleton. by eexists.
    + apply NoDup_singleton.
    + cbn. set_solver.
    + reflexivity.
    + intros e tm ->%list_elem_of_singleton [= <-] _. eexists. split; [vm_compute; reflexivity|done].
    + done.
    + cbn in E1. injection E1 as <-. exists q', q2. split_and!; [exact Hc|exact E2|exact Hn|exact Hh].
Defined.

Lemma timerfd_delay_witness :
  let '(s, ns) := TimerQueue.howMuchTimeFromNow 2500000 1000000 in
  0 <= s ∧ 0 <= ns < 10 ^ 9 ∧ s * 10 ^ 9 + ns = 1500000 * 1000.
Proof. apply (timerfd_delay 2500000 1000000). split; vm_compute; congruence. Defined.

End Witness.
