(* ===== verification/Locks.v ===== *)
(** * Mutex.h, Condition.h/.cc, SpinLock.h: locks that know their holder

    pthread's mutex is its owner; [holder_] is written by the class, one step before or
    after.  Every thread is at one [place] of the code, and the threads interleave step
    by step.  Thread numbers are positive, so 0 is nobody. *)
From stdpp Require Import relations.
From S2P Require Import Prelude Text.

Module MutexLock.

(** [mutex_] (its owner) and [holder_]. *)
Record t := mk { mutex_ : option Z; holder_ : Z }.

Definition make : t := mk None 0.
Definition destroy (m : t) : res unit := cassert (holder_ m =? 0).
Definition isLockedByThisThread (tid : Z) (m : t) : bool := holder_ m =? tid.
Definition assertLocked (tid : Z) (m : t) : res unit := cassert (isLockedByThisThread tid m).
Definition unassignHolder (m : t) : t := mk (mutex_ m) 0.
Definition assignHolder (tid : Z) (m : t) : t := mk (mutex_ m) tid.

(** [pthread_mutex_lock] returns when nobody owns the mutex. *)
Definition pthread_lock (tid : Z) (m : t) : option t :=
  match mutex_ m with None => Some (mk (Some tid) (holder_ m)) | Some _ => None end.
Definition pthread_unlock (m : t) : t := mk None (holder_ m).

(** Whole operations, when no other thread gets in between. *)
Definition lock (tid : Z) (m : t) : option t := assignHolder tid <$> pthread_lock tid m.
Definition unlock (m : t) : t := pthread_unlock (unassignHolder m).

(** Where a thread is: outside; in [lock] with the mutex but not yet the holder; inside;
    in [unlock] no longer the holder; in [wait] no longer the holder, waiting, or awake
    and about to take the mutex again (then as in [lock]). *)
Inductive place := Outside | Entering | Inside | Leaving | Unassigned | Waiting | Awake.

#[export] Instance place_eq_dec : EqDecision place.
Proof. solve_decision. Defined.

Record sys := mksys { m : t; at_ : Z → place }.

Definition goes (tid : Z) (p : place) (s : sys) : Z → place := λ t, if t =? tid then p else at_ s t.

Inductive step : sys → sys → Prop :=
  | lock_takes s tid m' : 0 < tid → at_ s tid = Outside → pthread_lock tid (m s) = Some m' →
      step s (mksys m' (goes tid Entering s))
  | lock_assigns s tid : at_ s tid = Entering → step s (mksys (assignHolder tid (m s)) (goes tid Inside s))
  | unlock_unassigns s tid : at_ s tid = Inside → step s (mksys (unassignHolder (m s)) (goes tid Leaving s))
  | unlock_releases s tid : at_ s tid = Leaving → step s (mksys (pthread_unlock (m s)) (goes tid Outside s))
  | wait_unassigns s tid : at_ s tid = Inside → step s (mksys (unassignHolder (m s)) (goes tid Unassigned s))
  | wait_sleeps s tid : at_ s tid = Unassigned → step s (mksys (pthread_unlock (m s)) (goes tid Waiting s))
  | wait_wakes s tid : at_ s tid = Waiting → step s (mksys (m s) (goes tid Awake s))
  | wait_takes s tid m' : at_ s tid = Awake → pthread_lock tid (m s) = Some m' →
      step s (mksys m' (goes tid Entering s)).

Definition start : sys := mksys make (λ _, Outside).

End MutexLock.

Module Condition.

Definition kNanoSecondsPerSecond : Z := 1000000000.

(** The deadline of [waitForSeconds] as [(tv_sec, tv_nsec)]; [nanoseconds] is the
    conversion of [seconds * kNanoSecondsPerSecond], [now] what [clock_gettime] gave. *)
Definition deadline (now : Z * Z) (nanoseconds : Z) : Z * Z :=
  (now.1 + cdiv (now.2 + nanoseconds) kNanoSecondsPerSecond, crem (now.2 + nanoseconds) kNanoSecondsPerSecond).

(** The [abstime] of [waitForSeconds]. *)
Definition abstime (now : Z * Z) (seconds : double) : res (Z * Z) :=
  nanoseconds ← d_to_sN 64 (dmul seconds (d_of_Z kNanoSecondsPerSecond));
  mret (deadline now nanoseconds).

End Condition.

Module SpinLock.

(** [test_and_set]: the old value; [Lock] spins while it was set. *)
Definition test_and_set (flag : bool) : bool * bool := (flag, true).
Definition Lock (flag : bool) : option bool :=
  let '(old, flag) := test_and_set flag in if old then None else Some flag.
Definition unLock (flag : bool) : bool := false.

End SpinLock.

Section Facts.
Import MutexLock.

(** The places of the thread that owns the mutex. *)
Definition owns (p : place) : bool :=
  match p with Entering | Inside | Leaving | Unassigned => true | _ => false end.

Record lock_inv (s : sys) : Prop := {
  lk_owner tid : mutex_ (m s) = Some tid ↔ owns (at_ s tid) = true;
  lk_holder tid : 0 < tid → holder_ (m s) = tid ↔ at_ s tid = Inside;
  lk_pos tid : at_ s tid ≠ Outside → 0 < tid;
  lk_nobody : 0 <= holder_ (m s)
}.

Lemma goes_same tid p s : goes tid p s tid = p.
Proof. unfold goes. by rewrite Z.eqb_refl. Qed.
Lemma goes_other tid p s t : t ≠ tid → goes tid p s t = at_ s t.
Proof. unfold goes. intros Hne%Z.eqb_neq. by rewrite Hne. Qed.

Lemma single_owner s t1 t2 : lock_inv s → owns (at_ s t1) = true → owns (at_ s t2) = true → t1 = t2.
Proof. intros Hi H1%(lk_owner _ Hi) H2%(lk_owner _ Hi). congruence. Qed.

(** A thread moves between places that own the mutex. *)
Lemma moves_inside s tid p h :
  lock_inv s → owns (at_ s tid) = true → owns p = true → h = (if decide (p = Inside) then tid else 0) →
  lock_inv (mksys (mk (mutex_ (m s)) h) (goes tid p s)).
Proof.
  intros Hi Ho Hp ->. assert (0 < tid) as Hpos by (apply (lk_pos _ Hi); intros E; by rewrite E in Ho).
  assert (∀ t, t ≠ tid → at_ s t ≠ Inside) as Hoth.
  { intros t Hne E. destruct Hne. apply (single_owner s); [done|by rewrite E|done]. }
  split; cbn.
  - intros t. destruct (decide (t = tid)) as [->|Hne].
    + rewrite goes_same, Hp. split; [done|]. intros _. by apply (lk_owner _ Hi).
    + rewrite goes_other by done. apply (lk_owner _ Hi).
  - intros t Ht. destruct (decide (t = tid)) as [->|Hne].
    + rewrite goes_same. case_decide; [done|]. split; [lia|done].
    + rewrite goes_other by done. split; [|by intros E%Hoth]. case_decide; lia.
  - intros t. destruct (decide (t = tid)) as [->|Hne]; [done|]. rewrite goes_other by done. apply (lk_pos _ Hi).
  - case_decide; lia.
Qed.

(** A thread takes or releases the mutex while nobody is the holder. *)
Lemma moves_across s tid p o :
  lock_inv s → 0 < tid → at_ s tid ≠ Inside → p ≠ Inside → (∀ t, t ≠ tid → owns (at_ s t) = false) →
  o = (if owns p then Some tid else None) → lock_inv (mksys (mk o (holder_ (m s))) (goes tid p s)).
Proof.
  intros Hi Hpos Hni Hp Hoth ->. split; cbn.
  - intros t. destruct (decide (t = tid)) as [->|Hne].
    + rewrite goes_same. by destruct (owns p).
    + rewrite goes_other, Hoth by done. destruct (owns p); split; congruence.
  - intros t Ht. destruct (decide (t = tid)) as [->|Hne].
    + rewrite goes_same. split; [|done]. intros E. by apply (lk_holder _ Hi) in E.
    + rewrite goes_other by done. by apply (lk_holder _ Hi).
  - intros t. destruct (decide (t = tid)) as [->|Hne]; [done|]. rewrite goes_other by done. apply (lk_pos _ Hi).
  - apply (lk_nobody _ Hi).
Qed.

Lemma free_owner s : lock_inv s → mutex_ (m s) = None → ∀ t, owns (at_ s t) = false.
Proof.
  intros Hi Hf t. destruct (owns (at_ s t)) eqn:E; [|done]. apply (lk_owner _ Hi) in E. congruence.
Qed.

Lemma others_out s tid : lock_inv s → owns (at_ s tid) = true → ∀ t, t ≠ tid → owns (at_ s t) = false.
Proof.
  intros Hi Ho t Hne. destruct (owns (at_ s t)) eqn:E; [|done]. destruct Hne. by apply (single_owner s).
Qed.

Lemma lock_step s s' : lock_inv s → step s s' → lock_inv s'.
Proof.
  intros Hi Hs. destruct Hs as [s tid m' Hpos Ha Hl|s tid Ha|s tid Ha|s tid Ha|s tid Ha|s tid Ha|s tid Ha|s tid m' Ha Hl].
  - unfold pthread_lock in Hl. destruct (mutex_ (m s)) eqn:Em; [done|]. injection Hl as <-.
    apply moves_across; try done; [by rewrite Ha|]. intros t _. by apply free_owner.
  - apply moves_inside; [done|by rewrite Ha|done|by rewrite decide_True].
  - apply moves_inside; [done|by rewrite Ha|done|by rewrite decide_False].
  - apply moves_across; try done; [apply (lk_pos _ Hi); by rewrite Ha|by rewrite Ha|]. apply others_out; [done|by rewrite Ha].
  - apply moves_inside; [done|by rewrite Ha|done|by rewrite decide_False].
  - apply moves_across; try done; [apply (lk_pos _ Hi); by rewrite Ha|by rewrite Ha|]. apply others_out; [done|by rewrite Ha].
  - assert (0 < tid) as Hpos by (apply (lk_pos _ Hi); by rewrite Ha). destruct Hi as [H1 H2 H3 H4]. split; cbn.
    + intros t. rewrite H1. destruct (decide (t = tid)) as [->|]; [by rewrite goes_same, Ha|by rewrite goes_other].
    + intros t Ht. rewrite (H2 t Ht). destruct (decide (t = tid)) as [->|]; [by rewrite goes_same, Ha|by rewrite goes_other].
    + intros t. destruct (decide (t = tid)) as [->|]; [done|]. rewrite goes_other by done. apply H3.
    + done.
  - assert (0 < tid) as Hpos by (apply (lk_pos _ Hi); by rewrite Ha).
    unfold pthread_lock in Hl. destruct (mutex_ (m s)) eqn:Em; [done|]. injection Hl as <-.
    apply moves_across; try done; [by rewrite Ha|]. intros t _. by apply free_owner.
Qed.

(** However the threads interleave, at most one is inside; a thread that asks at any
    time whether it holds the lock, also without holding it and also while others take
    and release it or wait on the condition, gets the right answer; and a lock that no
    thread uses can be destroyed. *)
Theorem mutex_holder s :
  rtc step start s →
  (∀ t1 t2, at_ s t1 = Inside → at_ s t2 = Inside → t1 = t2) ∧
  (∀ tid, 0 < tid → isLockedByThisThread tid (m s) = true ↔ at_ s tid = Inside) ∧
  ((∀ tid, at_ s tid ≠ Inside) → destroy (m s) = Ok ()).
Proof.
  intros Hr. assert (lock_inv start) as Hi.
  { split; cbn; [by split|intros; split; [lia|done]|done|lia]. }
  assert (lock_inv s) as Hs. { revert Hi. induction Hr as [|s1 s2 s3 H _ IH]; [done|]. intros Hi. apply IH. by eapply lock_step. }
  clear Hi Hr. split_and!.
  - intros t1 t2 H1 H2. apply (single_owner s); [done|by rewrite H1|by rewrite H2].
  - intros tid Ht. unfold isLockedByThisThread. rewrite Z.eqb_eq. by apply (lk_holder _ Hs).
  - intros Hno. unfold destroy. pose proof (lk_nobody _ Hs). destruct (decide (holder_ (m s) = 0)) as [->|Hne]; [done|].
    destruct (Hno (holder_ (m s))). apply (lk_holder _ Hs); [lia|done].
Qed.

(** The deadline is [nanoseconds] from now, in the normal form that
    [pthread_cond_timedwait] requires. *)
Theorem deadline_normal sec nsec nanoseconds :
  0 <= nsec < Condition.kNanoSecondsPerSecond → 0 <= nanoseconds →
  let d := Condition.deadline (sec, nsec) nanoseconds in
  0 <= d.2 < Condition.kNanoSecondsPerSecond ∧
  d.1 * Condition.kNanoSecondsPerSecond + d.2 = sec * Condition.kNanoSecondsPerSecond + nsec + nanoseconds.
Proof. unfold Condition.deadline, Condition.kNanoSecondsPerSecond. cbn [fst snd]. intros. dlia. Qed.

(** A waiting thread and one that entered meanwhile. *)
Example mutex_holder_run :
  ∃ s, rtc step start s ∧ at_ s 1 = Waiting ∧ at_ s 2 = Inside ∧ isLockedByThisThread 1 (m s) = false.
Proof.
  eexists. split.
  - eapply rtc_l; [by eapply (lock_takes _ 1)|]. eapply rtc_l; [by eapply (lock_assigns _ 1)|].
    eapply rtc_l; [by eapply (wait_unassigns _ 1)|]. eapply rtc_l; [by eapply (wait_sleeps _ 1)|].
    eapply rtc_l; [by eapply (lock_takes _ 2)|]. eapply rtc_l; [by eapply (lock_assigns _ 2)|]. reflexivity.
  - split_and!; reflexivity.
Qed.
End Facts.
