(* ===== verification/ThreadPool.v ===== *)
(** * ThreadPool.cc: a bounded queue of tasks and its workers

    The critical sections of [addTask] and [take] are functions on the pool's data that
    either do their work or say that the caller waits on a condition variable; the
    threads around them are interleaved by [step].  The workers are interchangeable, so
    the state counts those at each place.  A waiting thread runs on when it is notified,
    or spuriously. *)
From stdpp Require Import relations.
From S2P Require Import Prelude.

Module ThreadPool.
Section ThreadPool.
Context {T : Type}.

Record t := mk {
  queue_ : list T;
  maxQueueSize_ : Z;
  running_ : bool
}.

Definition make : t := mk [] 0 false.

(** The conversion of a negative [int] to [size_t] makes the queue practically
    unbounded. *)
Definition setMaxQueueSize (maxSize : Z) (p : t) : t := mk (queue_ p) (u64 maxSize) (running_ p).

Definition set_running (b : bool) (p : t) : t := mk (queue_ p) (maxQueueSize_ p) b.

Definition isFull (p : t) : bool := (0 <? maxQueueSize_ p) && (maxQueueSize_ p <=? zlen (queue_ p)).
Definition queueSize (p : t) : Z := zlen (queue_ p).

(** One pass through the loop of [addTask]: [None] when the caller waits on [notFull_];
    otherwise the task is queued, and [notEmpty_] is notified. *)
Definition addTask (task : T) (p : t) : res (option t) :=
  if isFull p then mret None
  else
    _ ← cassert (negb (isFull p));
    mret (Some (mk (queue_ p ++ [task]) (maxQueueSize_ p) (running_ p))).

(** One pass through the loop of [take]: [None] when the worker waits on [notEmpty_];
    otherwise the task, if any, and whether [notFull_] is notified. *)
Definition take (p : t) : option (option T * t * bool) :=
  match queue_ p with
  | [] => if running_ p then None else Some (None, p, false)
  | task :: queue => Some (Some task, mk queue (maxQueueSize_ p) (running_ p), 0 <? maxQueueSize_ p)
  end.

(** The test at the end of a worker's loop. *)
Definition worker_ends (p : t) : bool := negb (running_ p) && bool_decide (queue_ p = []).

(** ** The threads *)

(** [ready], [asleep], [busy], [testing], [ended]: the workers before [take], waiting in
    it, running what they took, at the end of the loop's body, gone.  [adders] are the
    callers of [addTask] before a pass of the loop, [blocked] those that wait.
    [accepted], [taken] and [executed] record the tasks. *)
Record sys := mksys {
  pool : t;
  ready : nat;
  asleep : nat;
  busy : list (option T);
  testing : nat;
  ended : nat;
  adders : list T;
  blocked : list T;
  accepted : list T;
  taken : list T;
  executed : list T
}.

(** The number of workers. *)
Definition workers (s : sys) : nat := ready s + asleep s + length (busy s) + testing s + ended s.

(** [threads_.empty()]: [addTask] runs the task itself. *)
Definition no_workers (s : sys) : bool := bool_decide (workers s = 0%nat).

(** Notifying [notEmpty_] and [notFull_]: one of the waiting threads runs on, if any. *)
Definition notify_empty (s : sys) : sys :=
  match asleep s with
  | O => s
  | S n => mksys (pool s) (S (ready s)) n (busy s) (testing s) (ended s) (adders s) (blocked s)
             (accepted s) (taken s) (executed s)
  end.

Inductive notify_full : sys → sys → Prop :=
  | notify_none s : blocked s = [] → notify_full s s
  | notify_one s t l1 l2 :
      blocked s = l1 ++ t :: l2 →
      notify_full s (mksys (pool s) (ready s) (asleep s) (busy s) (testing s) (ended s) (t :: adders s)
        (l1 ++ l2) (accepted s) (taken s) (executed s)).

(** The steps of the threads of the pool and of the callers inside [addTask]. *)
Inductive step : sys → sys → Prop :=
  | take_waits s n :
      ready s = S n → take (pool s) = None →
      step s (mksys (pool s) n (S (asleep s)) (busy s) (testing s) (ended s) (adders s) (blocked s)
                (accepted s) (taken s) (executed s))
  | take_returns s n task p notify s' :
      ready s = S n → take (pool s) = Some (task, p, notify) →
      (if notify : bool then notify_full else eq)
        (mksys p n (asleep s) (task :: busy s) (testing s) (ended s) (adders s) (blocked s)
           (accepted s) (taken s ++ option_list task) (executed s)) s' →
      step s s'
  | task_runs s task b1 b2 :
      busy s = b1 ++ task :: b2 →
      step s (mksys (pool s) (ready s) (asleep s) (b1 ++ b2) (S (testing s)) (ended s) (adders s) (blocked s)
                (accepted s) (taken s) (executed s ++ option_list task))
  | loop_again s n :
      testing s = S n → worker_ends (pool s) = false →
      step s (mksys (pool s) (S (ready s)) (asleep s) (busy s) n (ended s) (adders s) (blocked s)
                (accepted s) (taken s) (executed s))
  | loop_ends s n :
      testing s = S n → worker_ends (pool s) = true →
      step s (mksys (pool s) (ready s) (asleep s) (busy s) n (S (ended s)) (adders s) (blocked s)
                (accepted s) (taken s) (executed s))
  | add_waits s t l1 l2 :
      no_workers s = false → adders s = l1 ++ t :: l2 → addTask t (pool s) = Ok None →
      step s (mksys (pool s) (ready s) (asleep s) (busy s) (testing s) (ended s) (l1 ++ l2) (t :: blocked s)
                (accepted s) (taken s) (executed s))
  | add_queues s t l1 l2 p :
      no_workers s = false → adders s = l1 ++ t :: l2 → addTask t (pool s) = Ok (Some p) →
      step s (notify_empty (mksys p (ready s) (asleep s) (busy s) (testing s) (ended s) (l1 ++ l2) (blocked s)
                (accepted s ++ [t]) (taken s) (executed s)))
  | add_runs s t l1 l2 :
      no_workers s = true → adders s = l1 ++ t :: l2 →
      step s (mksys (pool s) (ready s) (asleep s) (busy s) (testing s) (ended s) (l1 ++ l2) (blocked s)
                (accepted s ++ [t]) (taken s ++ [t]) (executed s ++ [t])).

(** What others do: [addTask] is called, [stop] is called, a waiting thread wakes up. *)
Inductive other : sys → sys → Prop :=
  | add_called s t :
      other s (mksys (pool s) (ready s) (asleep s) (busy s) (testing s) (ended s) (t :: adders s) (blocked s)
                 (accepted s) (taken s) (executed s))
  | stop_called s :
      other s (mksys (set_running false (pool s)) (ready s + asleep s) 0 (busy s) (testing s) (ended s)
                 (adders s) (blocked s) (accepted s) (taken s) (executed s))
  | worker_wakes s n :
      asleep s = S n →
      other s (mksys (pool s) (S (ready s)) n (busy s) (testing s) (ended s) (adders s) (blocked s)
                 (accepted s) (taken s) (executed s))
  | adder_wakes s t l1 l2 :
      blocked s = l1 ++ t :: l2 →
      other s (mksys (pool s) (ready s) (asleep s) (busy s) (testing s) (ended s) (t :: adders s) (l1 ++ l2)
                 (accepted s) (taken s) (executed s)).

Definition any_step (s s' : sys) : Prop := step s s' ∨ other s s'.

(** [start(numThreads)]. *)
Definition start (numThreads : nat) (p : t) : sys :=
  mksys (set_running true p) numThreads 0 [] 0 0 [] [] [] [] [].

End ThreadPool.
#[global] Arguments t T : clear implicits.
#[global] Arguments sys T : clear implicits.
End ThreadPool.

Section Invariant.
Import ThreadPool.
Context {T : Type}.
Implicit Types (s : sys T) (p : t T).

Definition awake s : nat := ready s + length (busy s) + testing s.

Record inv (n : nat) (max : Z) s : Prop := {
  inv_workers : workers s = n;
  inv_max : maxQueueSize_ (pool s) = max;
  inv_fifo : taken s ++ queue_ (pool s) = accepted s;
  inv_once : executed s ++ omap id (busy s) ≡ₚ taken s;
  inv_bound : 0 < max → zlen (queue_ (pool s)) <= max;
  inv_wakeup : queue_ (pool s) ≠ [] → (0 < awake s)%nat ∨ (asleep s = 0%nat ∧ ended s = n ∧ running_ (pool s) = false);
  inv_stopped : running_ (pool s) = false → asleep s = 0%nat;
  inv_alive : running_ (pool s) = true → ended s = 0%nat;
  inv_none : n = 0%nat → queue_ (pool s) = [] ∧ blocked s = [];
  inv_blocked : blocked s ≠ [] → 0 < max ∧ max - zlen (queue_ (pool s)) <= zlen (adders s)
}.

Lemma addTask_spec task p :
  addTask task p = Ok (if isFull p then None else Some (mk (queue_ p ++ [task]) (maxQueueSize_ p) (running_ p))).
Proof. unfold addTask. by destruct (isFull p). Qed.

Lemma isFull_spec p :
  0 <= maxQueueSize_ p → isFull p = true ↔ 0 < maxQueueSize_ p ∧ maxQueueSize_ p <= zlen (queue_ p).
Proof. unfold isFull. rewrite andb_true_iff. lia. Qed.

Lemma pool_start_inv n p :
  queue_ p = [] → inv n (maxQueueSize_ p) (start n p).
Proof.
  intros Hq. split; cbn; rewrite ?Hq; try done.
  - unfold workers. cbn. lia.
  - change (zlen (@nil T)) with 0. lia.
Qed.

Lemma omap_insert (b1 b2 : list (option T)) x :
  omap id (b1 ++ x :: b2) ≡ₚ option_list x ++ omap id (b1 ++ b2).
Proof. rewrite !omap_app. cbn. destruct x; cbn; [by rewrite Permutation_middle|done]. Qed.

Lemma perm_taken (e b k : list T) x : e ++ b ≡ₚ k → e ++ x :: b ≡ₚ k ++ [x].
Proof. intros <-. rewrite <-app_assoc. f_equiv. apply Permutation_cons_append. Qed.

(** Waking a caller that waits for room, or a worker. *)
Lemma notify_full_inv n max s s' (H : notify_full s s') :
  inv n max s ∨
  (workers s = n ∧ maxQueueSize_ (pool s) = max ∧ 0 < max ∧ taken s ++ queue_ (pool s) = accepted s ∧
   executed s ++ omap id (busy s) ≡ₚ taken s ∧ zlen (queue_ (pool s)) <= max ∧ (0 < awake s)%nat ∧
   (running_ (pool s) = false → asleep s = 0%nat) ∧ (running_ (pool s) = true → ended s = 0%nat) ∧
   (0 < n)%nat ∧ (blocked s ≠ [] → max - zlen (queue_ (pool s)) <= zlen (adders s) + 1)) →
  inv n max s'.
Proof.
  intros [Hi|(H1 & H2 & H3 & H4 & H5 & H6 & H7 & H8 & H9 & Hn & H10)]; destruct H as [s Hb|s t l1 l2 Hb].
  - done.
  - destruct Hi as [I1 I2 I3 I4 I5 I6 I7 I8 IN I9]. rewrite Hb in IN, I9. split; try done; cbn.
    { intros Hn. destruct (IN Hn) as [_ Hl]. by destruct l1. }
    rewrite zlen_cons. intros _. destruct I9; [by destruct l1|]. split; [done|]. zpos. lia.
  - split; try done; rewrite ?Hb; try done; [by left|lia].
  - rewrite Hb in H10. pose proof (H10 ltac:(by destruct l1)).
    split; try done; [by left|lia|]. cbn. rewrite zlen_cons. intros _. split; [done|lia].
Qed.

Lemma notify_empty_inv n max s :
  workers s = n → maxQueueSize_ (pool s) = max → taken s ++ queue_ (pool s) = accepted s →
  executed s ++ omap id (busy s) ≡ₚ taken s → (0 < max → zlen (queue_ (pool s)) <= max) →
  (running_ (pool s) = false → asleep s = 0%nat) → (running_ (pool s) = true → ended s = 0%nat) →
  (blocked s ≠ [] → 0 < max ∧ max - zlen (queue_ (pool s)) <= zlen (adders s)) →
  (0 < n)%nat →
  inv n max (notify_empty s).
Proof.
  intros H1 H2 H3 H4 H5 H6 H7 H8 Hn. unfold notify_empty. destruct (asleep s) as [|m] eqn:Ea.
  - split; try done; [|lia]. intros _. unfold workers, awake in *. rewrite Ea in *.
    destruct (running_ (pool s)) eqn:Er; [left; rewrite (H7 eq_refl) in *; lia|].
    destruct (decide (ended s = n)); [by right|left; lia].
  - split; cbn; try done.
    + unfold workers in *. cbn. lia.
    + intros _. left. unfold awake. cbn. lia.
    + intros Hr. by specialize (H6 Hr).
    + lia.
Qed.

Lemma step_inv_pool n max s s' : 0 <= max → inv n max s → step s s' → inv n max s'.
Proof.
  intros Hmax [I1 I2 I3 I4 I5 I6 I7 I8 IN I9] Hstep. unfold workers, awake in *.
  destruct Hstep as [s m Hr Ht|s m task p notify s' Hr Ht Hn|s task b1 b2 Hb|s m Hte He|s m Hte He|s t l1 l2 Hnw Ha Ht|s t l1 l2 p Hnw Ha Ht|s t l1 l2 Hnw Ha].
  - unfold take in Ht. destruct (queue_ (pool s)) as [|x q] eqn:Eq; [|done].
    destruct (running_ (pool s)) eqn:Er; [|done].
    split; unfold workers, awake; cbn; rewrite ?Eq, ?Er; try done. lia.
  - unfold take in Ht. destruct (queue_ (pool s)) as [|x q] eqn:Eq.
    + destruct (running_ (pool s)) eqn:Er; [done|]. injection Ht as <- <- <-. subst s'.
      split; unfold workers, awake; cbn; rewrite ?Eq, ?Er, ?app_nil_r in *; try done. lia.
    + injection Ht as <- <- <-. rewrite I2 in Hn. destruct (0 <? max) eqn:Em.
      * eapply notify_full_inv; [exact Hn|]. right. unfold workers, awake. cbn. rewrite zlen_cons in *.
        split_and!; [lia|done|lia|by rewrite <-app_assoc| |zpos; lia|lia|done|done|lia|].
        { by apply perm_taken. }
        intros Hb. specialize (I9 Hb). lia.
      * subst s'. split; unfold workers, awake; cbn; rewrite ?I2; try done.
        { lia. } { by rewrite <-app_assoc. }
        { by apply perm_taken. }
        { lia. } { left. lia. } { lia. } { intros Hb. specialize (I9 Hb). lia. }
  - split; unfold workers, awake; cbn; try done.
    + rewrite <-I1, Hb, !length_app. cbn. lia.
    + rewrite <-I4, Hb, omap_insert. by rewrite <-!app_assoc.
    + intros Hq. left. lia.
  - split; unfold workers, awake; cbn; try done; [lia|]. intros Hq. left. lia.
  - unfold worker_ends in He. apply andb_true_iff in He as [Hru%negb_true_iff Hq%bool_decide_eq_true].
    split; unfold workers, awake; cbn; rewrite ?Hq, ?Hru in *; try done; lia.
  - rewrite addTask_spec in Ht. destruct (isFull (pool s)) eqn:Ef; [|done].
    apply isFull_spec in Ef as [Hp Hl]; [|lia]. split; unfold workers, awake; cbn; try done.
    { unfold no_workers in Hnw. apply bool_decide_eq_false in Hnw. unfold workers in Hnw. lia. }
    intros _. split; [lia|]. zpos. lia.
  - rewrite addTask_spec in Ht. destruct (isFull (pool s)) eqn:Ef; [done|]. injection Ht as <-.
    assert (0 < max → zlen (queue_ (pool s)) < max) as Hroom.
    { intros Hm. destruct (decide (zlen (queue_ (pool s)) < max)); [done|]. rewrite <-not_true_iff_false in Ef.
      destruct Ef. apply isFull_spec; lia. }
    unfold no_workers in Hnw. apply bool_decide_eq_false in Hnw. unfold workers in Hnw.
    apply notify_empty_inv; unfold workers; cbn; try done; rewrite ?zlen_app; change (zlen [t]) with 1.
    + by rewrite app_assoc, I3.
    + lia.
    + intros Hb. specialize (I9 Hb). rewrite Ha, !zlen_app, zlen_cons in *. lia.
    + lia.
  - unfold no_workers in Hnw. apply bool_decide_eq_true in Hnw. unfold workers in Hnw.
    destruct IN as [Hq Hb]; [lia|]. split; unfold workers, awake; cbn; rewrite ?Hq, ?Hb in *; try done.
    + rewrite app_nil_r in *. by rewrite I3.
    + rewrite <-I4, <-!app_assoc. f_equiv. apply Permutation_app_comm.
Qed.

Lemma other_inv n max s s' : inv n max s → other s s' → inv n max s'.
Proof.
  intros [I1 I2 I3 I4 I5 I6 I7 I8 IN I9] Hstep. unfold workers, awake in *.
  destruct Hstep as [s t|s|s m Ha|s t l1 l2 Hb]; split; unfold workers, awake; cbn; try done; try lia.
  - intros Hb. rewrite zlen_cons. specialize (I9 Hb). lia.
  - intros Hr. specialize (I7 Hr). lia.
  - intros Hn. destruct (IN Hn) as [Hq Hl]. rewrite Hb in Hl. by destruct l1.
  - intros _. rewrite zlen_cons. rewrite Hb in I9. pose proof (I9 ltac:(by destruct l1)). lia.
Qed.

Lemma reachable_inv n p s :
  queue_ p = [] → 0 <= maxQueueSize_ p → rtc any_step (start n p) s → inv n (maxQueueSize_ p) s.
Proof.
  intros Hq Hm Hr. pose proof (pool_start_inv n p Hq) as Hi. revert Hi. generalize (start n p) as s0, Hr.
  clear Hr Hq. intros s0 Hr. induction Hr as [|s1 s2 s3 [H|H] _ IH]; [done|..]; intros Hi; apply IH.
  - by eapply step_inv_pool.
  - by eapply other_inv.
Qed.

(** A pool that was started with [n] workers, under any interleaving of
    workers and callers of [addTask], with spurious wakeups and after a stop as well:
    tasks are taken in the order in which they were accepted, each taken task is executed
    at most once (those taken and not yet executed are being executed), nothing else is
    executed, and a bounded queue never exceeds its bound. *)
Theorem pool_tasks n p s :
  queue_ p = [] → 0 <= maxQueueSize_ p → rtc any_step (start n p) s →
  taken s ++ queue_ (pool s) = accepted s ∧
  executed s ++ omap id (busy s) ≡ₚ taken s ∧
  (0 < maxQueueSize_ p → zlen (queue_ (pool s)) <= maxQueueSize_ p).
Proof. intros Hq Hm Hr. by destruct (reachable_inv n p s Hq Hm Hr) as [_ _ H1 H2 H3 _ _ _ _ _]. Qed.

(** ** Progress *)

Definition measure s : nat :=
  4 * length (queue_ (pool s)) + 6 * length (adders s) + 5 * length (blocked s) + ready s +
  3 * length (busy s) + 2 * testing s.

Lemma notify_full_measure s s' :
  notify_full s s' → (measure s' <= measure s + 1)%nat ∧ pool s' = pool s ∧ accepted s' = accepted s ∧
    adders s' ++ blocked s' ≡ₚ adders s ++ blocked s.
Proof.
  intros [s0 _|s0 t l1 l2 Hb]; [split_and!; [lia|done..]|]. unfold measure. cbn. rewrite Hb, !length_app. cbn.
  split_and!; [lia|done|done|]. by rewrite <-Permutation_middle, <-!Permutation_middle.
Qed.

Lemma notify_empty_measure s :
  (measure (notify_empty s) <= measure s + 1)%nat ∧ pool (notify_empty s) = pool s ∧
  accepted (notify_empty s) = accepted s ∧ adders (notify_empty s) = adders s ∧ blocked (notify_empty s) = blocked s.
Proof. unfold notify_empty, measure. destruct (asleep s); cbn; split_and!; done || lia. Qed.

(** While the pool runs, every step of its threads and callers is progress. *)
Lemma step_progress s s' :
  running_ (pool s) = true → step s s' →
  (measure s' < measure s)%nat ∧ running_ (pool s') = true ∧
  accepted s' ++ adders s' ++ blocked s' ≡ₚ accepted s ++ adders s ++ blocked s.
Proof.
  intros Hrun Hstep.
  destruct Hstep as [s m Hr Ht|s m task p notify s' Hr Ht Hn|s task b1 b2 Hb|s m Hte He|s m Hte He|s t l1 l2 Hnw Ha Ht|s t l1 l2 p Hnw Ha Ht|s t l1 l2 Hnw Ha].
  - unfold measure. cbn. split_and!; [lia|done|done].
  - unfold take in Ht. rewrite Hrun in Ht. destruct (queue_ (pool s)) as [|x q] eqn:Eq; [done|].
    injection Ht as <- <- <-. destruct (0 <? _).
    + apply notify_full_measure in Hn as (Hme & Hp & Hac & Had). rewrite Hp, Hac, Had. cbn.
      split_and!; [|done|done]. eapply Nat.le_lt_trans; [exact Hme|]. unfold measure. cbn. rewrite Eq. cbn. lia.
    + subst s'. cbn. split_and!; [|done|done]. unfold measure. cbn. rewrite Eq. cbn. lia.
  - unfold measure. cbn. rewrite Hb, !length_app. cbn. split_and!; [lia|done|done].
  - unfold measure. cbn. split_and!; [lia|done|done].
  - unfold measure. cbn. split_and!; [lia|done|done].
  - unfold measure. cbn. rewrite Ha, !length_app. cbn. split_and!; [lia|done|].
    f_equiv. by rewrite <-Permutation_middle, <-(Permutation_middle l1 l2 t).
  - rewrite addTask_spec in Ht. destruct (isFull (pool s)); [done|]. injection Ht as <-.
    match goal with |- context [notify_empty ?x] => destruct (notify_empty_measure x) as (Hme & -> & -> & -> & ->) end.
    cbn. split_and!; [|done|].
    + eapply Nat.le_lt_trans; [exact Hme|]. unfold measure. cbn. rewrite Ha, !length_app. cbn. lia.
    + rewrite Ha, <-!app_assoc. f_equiv. cbn. by rewrite Permutation_middle.
  - unfold measure. cbn. rewrite Ha, !length_app. cbn. split_and!; [lia|done|].
    rewrite <-!app_assoc. f_equiv. cbn. by rewrite Permutation_middle.
Qed.

Lemma steps_progress k s s' :
  running_ (pool s) = true → nsteps step k s s' →
  (k + measure s' <= measure s)%nat ∧ running_ (pool s') = true ∧
  accepted s' ++ adders s' ++ blocked s' ≡ₚ accepted s ++ adders s ++ blocked s.
Proof.
  intros Hr Hs. induction Hs as [s|k s1 s2 s3 H _ IH]; [split_and!; [lia|done..]|].
  destruct (step_progress _ _ Hr H) as (Hm & Hr2 & Hp). destruct (IH Hr2) as (Hm3 & Hr3 & Hp3).
  split_and!; [lia|done|]. by rewrite Hp3.
Qed.

Lemma notify_full_total s : ∃ s', notify_full s s'.
Proof. destruct (blocked s) as [|t l] eqn:E; [by exists s; apply notify_none|]. eexists. by apply (notify_one s t [] l). Qed.

(** Threads that cannot move have nothing left to do. *)
Lemma at_rest n max s :
  inv n max s → running_ (pool s) = true → (∀ s', ¬ step s s') →
  queue_ (pool s) = [] ∧ adders s = [] ∧ blocked s = [] ∧ busy s = [].
Proof.
  intros [I1 I2 I3 I4 I5 I6 I7 I8 IN I9] Hrun Hstuck. specialize (I8 Hrun). unfold workers, awake in *.
  assert (ready s = 0%nat) as Er.
  { destruct (ready s) as [|m] eqn:Er; [done|]. destruct (take (pool s)) as [[[task p] notify]|] eqn:Et.
    - destruct notify.
      + destruct (notify_full_total (mksys p m (asleep s) (task :: busy s) (testing s) (ended s) (adders s) (blocked s)
          (accepted s) (taken s ++ option_list task) (executed s))) as [s' Hs'].
        destruct (Hstuck s'). by eapply take_returns.
      + edestruct Hstuck. eapply take_returns; [done|done|reflexivity].
    - edestruct Hstuck. by eapply take_waits. }
  assert (busy s = []) as Eb.
  { destruct (busy s) as [|task b] eqn:Eb; [done|]. edestruct Hstuck. by eapply (task_runs s task [] b). }
  assert (testing s = 0%nat) as Et.
  { destruct (testing s) as [|m] eqn:Et; [done|]. destruct (worker_ends (pool s)) eqn:Ew; edestruct Hstuck.
    - by eapply loop_ends.
    - by eapply loop_again. }
  assert (adders s = []) as Ea.
  { destruct (adders s) as [|t l] eqn:Ea; [done|].
    destruct (no_workers s) eqn:Hnw; [edestruct Hstuck; by eapply (add_runs s t [] l)|].
    pose proof (addTask_spec t (pool s)) as Ht. destruct (isFull (pool s)); edestruct Hstuck.
    - by eapply (add_waits s t [] l).
    - by eapply (add_queues s t [] l). }
  rewrite Er, Eb, Et in *. cbn in I6.
  assert (queue_ (pool s) = []) as Eq.
  { destruct (queue_ (pool s)); [done|]. destruct I6 as [?|(_ & _ & ?)]; [done|lia|congruence]. }
  split_and!; [done|done| |done]. destruct (blocked s); [done|]. rewrite Eq, Ea in I9.
  destruct I9 as [? Hle]; [done|]. change (zlen (@nil T)) with 0 in Hle. lia.
Qed.

(** C25 (liveness). No task and no caller is forgotten.  From every reachable state of a
    running pool (one without workers runs each task in its caller), its threads and the callers inside [addTask],
    left alone, come to rest after boundedly many steps, however they are scheduled and
    without any spurious wakeup; then every call of [addTask] has returned and every
    task that was or was being added has been executed, exactly once. *)
Theorem pool_completes n p s :
  queue_ p = [] → 0 <= maxQueueSize_ p →
  rtc any_step (start n p) s → running_ (pool s) = true →
  (∀ k s', nsteps step k s s' → (k <= measure s)%nat) ∧
  ∀ s', rtc step s s' → (∀ s'', ¬ step s' s'') →
    adders s' = [] ∧ blocked s' = [] ∧ executed s' ≡ₚ accepted s ++ adders s ++ blocked s.
Proof.
  intros Hq Hm Hr Hrun. split.
  - intros k s' Hs. destruct (steps_progress _ _ _ Hrun Hs) as (? & _). lia.
  - intros s' Hs Hstuck. pose proof Hs as (k & Hk)%rtc_nsteps.
    destruct (steps_progress _ _ _ Hrun Hk) as (_ & Hrun' & Hp).
    assert (rtc any_step (start n p) s') as Hr'.
    { etrans; [exact Hr|]. eapply rtc_subrel; [|exact Hs]. by left. }
    pose proof (reachable_inv n p s' Hq Hm Hr') as Hi.
    destruct (at_rest _ _ _ Hi Hrun' Hstuck) as (Eq & Ea & Eb & Ebu). destruct Hi as [_ _ I3 I4 _ _ _ _ _ _].
    split_and!; [done|done|]. rewrite <-Hp, Ea, Eb, !app_nil_r, <-I3, Eq, app_nil_r, <-I4, Ebu. cbn. by rewrite app_nil_r.
Qed.
End Invariant.

Section Witness.
Import ThreadPool.

(** One worker, room for one task: the first task is queued, the second caller waits. *)
Definition toy_pool : t Z := setMaxQueueSize 1 make.
Definition toy_waiting : sys Z :=
  mksys (mk [7] 1 true) 1 0 [] 0 0 [] [8] [7] [] [].

Lemma toy_pool_reachable : rtc any_step (start 1 toy_pool) toy_waiting.
Proof.
  eapply rtc_l; [right; apply (add_called _ 7)|].
  eapply rtc_l; [left; eapply (add_queues _ 7 [] []); reflexivity|].
  eapply rtc_l; [right; apply (add_called _ 8)|].
  eapply rtc_l; [left; eapply (add_waits _ 8 [] []); reflexivity|]. done.
Qed.

Lemma pool_tasks_witness :
  taken toy_waiting ++ queue_ (pool toy_waiting) = accepted toy_waiting ∧ zlen (queue_ (pool toy_waiting)) <= 1.
Proof.
  destruct (pool_tasks 1 toy_pool toy_waiting) as (H1 & _ & H3).
  - done.
  - done.
  - apply toy_pool_reachable.
  - split; [exact H1|]. by apply H3.
Defined.

Lemma pool_completes_witness :
  measure toy_waiting = 10%nat ∧
  ∀ s', rtc step toy_waiting s' → (∀ s'', ¬ step s' s'') → blocked s' = [] ∧ executed s' ≡ₚ [7; 8].
Proof.
  split; [done|]. intros s' Hs Hst. destruct (pool_completes 1 toy_pool toy_waiting) as (_ & H).
  - done.
  - done.
  - apply toy_pool_reachable.
  - done.
  - by destruct (H s' Hs Hst) as (_ & ? & ?).
Defined.
End Witness.
