(* ===== verification/Threads.v ===== *)
(** * CountDownLatch.cc, Thread.cc, EventLoopThread.cc: starting threads

    As in ThreadPool.v, a critical section is a function that either does its work or
    says that the caller waits, and the threads are interleaved by a step relation. *)
From stdpp Require Import relations.
From S2P Require Import Prelude Text.

Module CountDownLatch.

Record t := mk { count_ : Z }.

Definition make (count : Z) : t := mk count.
Definition getCount (l : t) : Z := count_ l.

(** One pass through the loop of [wait]: does the caller wait on the condition? *)
Definition wait (l : t) : bool := 0 <? count_ l.

(** [--count_], and whether all waiting threads are notified; [int] must not overflow. *)
Definition countDown (l : t) : res (t * bool) :=
  if count_ l =? - 2 ^ 31 then Fault UB else
  let l := mk (count_ l - 1) in
  mret (l, count_ l =? 0).

End CountDownLatch.

Section Latch.
Import CountDownLatch.

(** The threads at the latch: before a pass of the loop of [wait], waiting, through; and
    those that will still count down. *)
Record latch_sys := mklatch {
  latch : t;
  at_test : nat;
  waiting : nat;
  through : nat;
  to_count : nat
}.

Inductive latch_step : latch_sys → latch_sys → Prop :=
  | latch_arrives s :
      latch_step s (mklatch (latch s) (S (at_test s)) (waiting s) (through s) (to_count s))
  | latch_waits s n :
      at_test s = S n → wait (latch s) = true →
      latch_step s (mklatch (latch s) n (S (waiting s)) (through s) (to_count s))
  | latch_passes s n :
      at_test s = S n → wait (latch s) = false →
      latch_step s (mklatch (latch s) n (waiting s) (S (through s)) (to_count s))
  | latch_wakes s n :
      waiting s = S n →
      latch_step s (mklatch (latch s) (S (at_test s)) n (through s) (to_count s))
  | latch_counts s n l (notify : bool) :
      to_count s = S n → countDown (latch s) = Ok (l, notify) →
      latch_step s (if notify then mklatch l (at_test s + waiting s) 0 (through s) n
                    else mklatch l (at_test s) (waiting s) (through s) n).

Record latch_inv (count : Z) (s : latch_sys) : Prop := {
  li_count : count_ (latch s) = Z.of_nat (to_count s);
  li_waiting : (0 < waiting s)%nat → 0 < count_ (latch s);
  li_through : (0 < through s)%nat → count_ (latch s) <= 0
}.

Lemma latch_step_inv count s s' : latch_inv count s → latch_step s s' → latch_inv count s'.
Proof.
  intros [H1 H2 H3] Hs. destruct Hs as [s|s n Ha Hw|s n Ha Hw|s n Ha|s n l notify Ht Hc].
  - by split.
  - unfold wait in Hw. split; cbn; [done|lia|lia].
  - unfold wait in Hw. split; cbn; [done|done|lia].
  - split; cbn; [done|lia|done].
  - unfold countDown in Hc. destruct (_ =? _) eqn:E; [done|]. injection Hc as <- <-. cbn.
    destruct (count_ (latch s) - 1 =? 0) eqn:E0; split; cbn; lia.
Qed.

(** A latch made for the threads that count down: nobody sleeps at a latch that is open,
    nobody passes one that is not. *)
Lemma latch_reachable_inv n s :
  rtc latch_step (mklatch (make (Z.of_nat n)) 0 0 0 n) s → latch_inv (Z.of_nat n) s.
Proof.
  intros Hr. assert (latch_inv (Z.of_nat n) (mklatch (make (Z.of_nat n)) 0 0 0 n)) as Hi by (split; cbn; lia).
  revert Hi. induction Hr as [|s1 s2 s3 H _ IH]; [done|]. intros Hi. apply IH. by eapply latch_step_inv.
Qed.

Theorem latch_opens n s :
  rtc latch_step (mklatch (make (Z.of_nat n)) 0 0 0 n) s →
  (to_count s = 0%nat → waiting s = 0%nat) ∧ ((0 < through s)%nat → to_count s = 0%nat).
Proof. intros Hr. destruct (latch_reachable_inv n s Hr) as [H1 H2 H3]. split; lia. Qed.
End Latch.

(** ** Thread.cc *)
Module Thread.

Record t := mk {
  started_ : bool;
  joined_ : bool;
  tid_ : Z;
  name_ : string;
  sequence_ : Z
}.

Definition setDefaultName (num : Z) (name : string) : string :=
  if bool_decide (name = ""%string) then snprintf 32 ("Thread" +:+ dec num) else name.

(** The constructor takes the next number. *)
Definition make (numCreated : Z) (n : string) : t * Z :=
  let num := i32 (numCreated + 1) in
  (mk false false 0 (setDefaultName num n) num, num).

(** [start]: [created] is the result of [pthread_create], [tid] what the new thread
    stores in [tid_] before it counts the latch down, which [start] waits for. *)
Definition start (created : bool) (tid : Z) (th : t) : res t :=
  _ ← cassert (negb (started_ th));
  if created then
    _ ← cassert (0 <? tid);
    mret (mk true (joined_ th) tid (name_ th) (sequence_ th))
  else Fault Fatal.

Definition join (th : t) : res t :=
  _ ← cassert (started_ th);
  _ ← cassert (negb (joined_ th));
  mret (mk (started_ th) true (tid_ th) (name_ th) (sequence_ th)).

(** The destructor; is the thread detached? *)
Definition destroy (th : t) : bool := started_ th && negb (joined_ th).

(** How [runInThread] ends: the function returned, or what was thrown. *)
Inductive outcome := Returned | ThrewException | ThrewStdException | ThrewOther.

(** The thread's name afterwards, and whether the process is aborted or the exception
    goes on. *)
Definition runInThread (o : outcome) : string * option fault :=
  match o with
  | Returned => ("finished", None)
  | ThrewException | ThrewStdException => ("crashed", Some Fatal)
  | ThrewOther => ("crashed", Some (Throw "rethrown"))
  end%string.

Definition thread_name (name : string) : string := if bool_decide (name = ""%string) then "Thread" else name.

End Thread.

(** ** EventLoopThread.cc *)
Module EventLoopThread.

(** The member [loop_]; a loop is its address. *)
Record t := mk { loop_ : option positive; exiting_ : bool }.

Definition make : t := mk None false.

(** One pass through the loop of [startLoop]: the loop, or the caller waits. *)
Definition startLoop (s : t) : option positive := loop_ s.

(** The two critical sections of [threadFunc], around [loop.loop()]. *)
Definition publish (loop : positive) (s : t) : t := mk (Some loop) (exiting_ s).
Definition retract (s : t) : t := mk None (exiting_ s).

(** The destructor; does it quit the loop and join the thread? *)
Definition destroy (s : t) : bool * t := (bool_decide (is_Some (loop_ s)), mk (loop_ s) true).

(** Where the starting thread and the new thread are. *)
Inductive starter := Testing | Sleeping | Got (loop : positive).
Inductive runner := Starting | Looping | Finished.

Record sys := mksys { object : t; who : starter; thread : runner }.

Inductive step (loop : positive) : sys → sys → Prop :=
  | start_returns o th l : startLoop o = Some l → step loop (mksys o Testing th) (mksys o (Got l) th)
  | start_waits o th : startLoop o = None → step loop (mksys o Testing th) (mksys o Sleeping th)
  | start_wakes o th : step loop (mksys o Sleeping th) (mksys o Testing th)
  | thread_publishes o w :
      step loop (mksys o w Starting)
        (mksys (publish loop o) (match w with Sleeping => Testing | _ => w end) Looping)
  | thread_ends o w : step loop (mksys o w Looping) (mksys (retract o) w Finished).

End EventLoopThread.

Section StartLoop.
Import EventLoopThread.

Definition start_inv_loop (loop : positive) (s : sys) : Prop :=
  (∀ l, loop_ (object s) = Some l → l = loop) ∧
  (who s = Sleeping → thread s ≠ Looping) ∧
  (∀ l, who s = Got l → l = loop ∧ thread s ≠ Starting) ∧
  (thread s = Looping ↔ loop_ (object s) = Some loop).

Lemma start_loop_step loop s s' : start_inv_loop loop s → step loop s s' → start_inv_loop loop s'.
Proof.
  intros (H1 & H2 & H3 & H4) Hs. unfold start_inv_loop.
  destruct Hs as [o th l Hl|o th Hl|o th|o w|o w]; unfold startLoop in *; cbn in *.
  - split_and!; [done|done| |done]. intros l' [= <-]. split; [by apply H1|]. intros ->.
    rewrite (H1 _ Hl) in Hl. by apply H4 in Hl.
  - split_and!; [done| |done|done]. intros _ ->. assert (loop_ o = Some loop) as E by by apply H4. congruence.
  - split_and!; [done|done|done|done].
  - split_and!; [congruence|by destruct w| |done]. intros l Hw. split; [|done]. destruct w; [done..|]. by apply H3.
  - split_and!; [done|done| |done]. intros l Hw. split; [by apply H3|done].
Qed.

(** [startLoop] returns the new thread's loop, after that thread has made it; while the
    loop runs, the caller does not sleep. *)
Theorem startLoop_returns_loop loop s :
  rtc (step loop) (mksys make Testing Starting) s →
  (∀ l, who s = Got l → l = loop ∧ thread s ≠ Starting) ∧ (who s = Sleeping → thread s ≠ Looping).
Proof.
  intros Hr. assert (start_inv_loop loop (mksys make Testing Starting)) as Hi by (split_and!; done).
  assert (start_inv_loop loop s) as (_ & ? & ? & _); [|done].
  revert Hi. induction Hr as [|s1 s2 s3 H _ IH]; [done|]. intros Hi. apply IH. by eapply start_loop_step.
Qed.
End StartLoop.
