(* ===== verification/AsyncStop.v ===== *)
(** * AsyncLogging.h: the thread of the log, from [start] to [stop]

    AsyncLogging.v interleaves the two sides of a running log.  Here are the thread object
    and the latch around it: how the thread begins, and how [stop] ends it. *)
From S2P Require Import Prelude Text LogStream LogFile AsyncLogging Threads.

Module AsyncLife.
Section AsyncLife.
Context `{IO : Stdio F}.
Variable clock : nat → Z.
Variables (hostname : option string) (pid : Z).

(** [log] are the buffers and the locals of the thread; they appear when the thread runs,
    and nobody logs before.  [running_] is that of the object until then. *)
Record t := mk {
  log : option (AsyncLogging.t F);
  running_ : bool;
  thread_ : Thread.t;
  latch_ : CountDownLatch.t
}.

(** The constructor. *)
Definition make (numCreated : Z) : t :=
  mk None false (Thread.make numCreated "Logging").1 (CountDownLatch.make 1).

(** The head of [threadFunc]. *)
Definition threadFunc (basename : string) (rollSize : Z) (s : t) : res t :=
  _ ← cassert (running_ s);
  '(latch, _) ← CountDownLatch.countDown (latch_ s);
  log ← AsyncLogging.start clock hostname pid basename rollSize;
  mret (mk (Some log) (running_ s) (thread_ s) latch).

(** [start]: it returns when the thread has counted down the latch. *)
Definition start (created : bool) (tid : Z) (basename : string) (rollSize : Z) (s : t) : res t :=
  let s := mk (log s) true (thread_ s) (latch_ s) in
  thread ← Thread.start created tid (thread_ s);
  s ← threadFunc basename rollSize (mk (log s) (running_ s) thread (latch_ s));
  if CountDownLatch.wait (latch_ s) then Fault Blocked else mret s.

(** [stop] up to the join, and the join, which waits for the end of the thread. *)
Definition stop_begin (s : t) : t := mk (AsyncLogging.stop <$> log s) false (thread_ s) (latch_ s).
Definition stop_end (s : t) : res t :=
  match AsyncLogging.at_ <$> log s with
  | Some AsyncLogging.Done => thread ← Thread.join (thread_ s); mret (mk (log s) (running_ s) thread (latch_ s))
  | _ => Fault Blocked
  end.

(** Does the destructor stop the log? *)
Definition destroy_stops (s : t) : bool := running_ s.

(** The steps of the thread alone. *)
Definition backend (e : AsyncLogging.event) : bool :=
  match e with
  | AsyncLogging.Enter | AsyncLogging.Swap | AsyncLogging.Write _ | AsyncLogging.Finish => true
  | AsyncLogging.Append _ | AsyncLogging.Stop => false
  end.

End AsyncLife.
#[global] Arguments t F : clear implicits.
End AsyncLife.

Section Stop.
Import AsyncLogging.
Context `{IO : Stdio F, IOL : !StdioLaws F IO, IOR : !StdioReliable F IO}.
Variable SIZE : Z.
Hypothesis SIZE_range : 0 < SIZE < 2 ^ 31.
Variable clock : nat → Z.
Variables (hostname : option string) (pid : Z).
Implicit Types s : AsyncLogging.t F.

Abbreviation run := (AsyncLogging.run SIZE clock hostname pid).
Abbreviation legal := (AsyncLogging.legal SIZE clock hostname pid).
Abbreviation backend := AsyncLife.backend.

(** The steps the backend has left once it has been stopped. *)
Definition steps_left s : nat := match at_ s with Waiting => 3 | Writing => 2 | Top => 1 | Done => 0 end.

(** A backend that waits takes what there is even when it has been stopped, and so do lines
    reach the file; what another leaves behind stays where it is. *)
Definition lost s : list byte :=
  match at_ s with Waiting => [] | _ => (buffers_ s ≫= bytes) ++ bytes (currentBuffer_ s) end.
Definition due s : list byte :=
  log_bytes (output s) ++ (buffersToWrite s ≫= bytes) ++
  match at_ s with Waiting => (buffers_ s ≫= bytes) ++ bytes (currentBuffer_ s) | _ => [] end.
Definition few s : Prop :=
  zlen (buffersToWrite s) <= 25 ∧ match at_ s with Waiting => zlen (buffers_ s) < 25 | _ => True end.

Lemma due_lost s : stream s = due s ++ lost s.
Proof. unfold stream, due, lost. destruct (at_ s); rewrite ?app_nil_r, <-?app_assoc; done. Qed.

Lemma write_frame now s s' :
  write clock hostname pid now s = Ok s' →
  AsyncLogging.running_ s' = AsyncLogging.running_ s ∧ buffers_ s' = buffers_ s ∧
  currentBuffer_ s' = currentBuffer_ s ∧ buffersToWrite s' = [].
Proof.
  unfold write. intros H. destruct (cassert _); [|done]. cbn [mbind res_bind] in H.
  destruct (if 25 <? _ then _ else _) as [[bs o]|]; [|done]. cbn [mbind res_bind] in H.
  destruct (write_buffers _ _ _ _ _) as [o2|]; [|done]. cbn [mbind res_bind] in H. cbv zeta in H.
  destruct (match newBuffer1 s with Some _ => _ | None => _ end) as [[b1 bs1]|]; [|done]. cbn [mbind res_bind] in H.
  destruct (match newBuffer2 s with Some _ => _ | None => _ end) as [[b2 bs2]|]; [|done]. cbn [mbind res_bind] in H.
  destruct (LogFile.flush _) as [o3|]; [|done]. by injection H as <-.
Qed.

(** What a step does beside the lines: it leads one phase further, and leaves what is lost. *)
Lemma stopped_frame s s' e :
  inv SIZE s → AsyncLogging.running_ s = false → backend e = true → enabled e s = true →
  run_event SIZE clock hostname pid e s = Ok s' → inv SIZE s' →
  AsyncLogging.running_ s' = false ∧ S (steps_left s') = steps_left s ∧ lost s' = lost s ∧ (few s → few s').
Proof.
  intros Hi Hr He Hen E Hi'. unfold steps_left, lost, few.
  destruct e as [l| | |now| |]; try done; cbn [enabled run_event] in *.
  - rewrite Hr in Hen. by rewrite andb_false_r in Hen.
  - apply bool_decide_eq_true in Hen. pose proof (inv_backend SIZE s Hi) as Hbk. rewrite Hen in *.
    destruct Hbk as (H1 & _ & H3).
    unfold swap in E. rewrite H1, H3 in E. destruct (nextBuffer_ s); injection E as <-; cbn.
    all: split_and!; [done..|]; intros [_ Hf]; split; [|done]; rewrite zlen_app; change (zlen [currentBuffer_ s]) with 1; lia.
  - apply bool_decide_eq_true in Hen. destruct (write_inv SIZE clock hostname pid now s Hi Hen) as (s1 & E1 & _ & Ha & _).
    rewrite E in E1. injection E1 as <-. destruct (write_frame now s s' E) as (-> & -> & -> & ->). by rewrite Ha, Hen.
  - apply andb_true_iff in Hen as [Hen%bool_decide_eq_true _]. unfold finish in E.
    destruct (LogFile.flush (output s)); [|done]. injection E as <-. cbn. by rewrite Hen.
Qed.

Lemma stopped_run es s :
  inv SIZE s → AsyncLogging.running_ s = false → Forall (λ e, backend e = true) es → legal es s →
  ∃ s', run es s = Ok s' ∧ inv SIZE s' ∧ AsyncLogging.running_ s' = false ∧
    (length es + steps_left s' = steps_left s)%nat ∧ lost s' = lost s ∧ (few s → due s' = due s).
Proof.
  revert s. induction es as [|e es IH]; intros s Hi Hr Hb Hl; [by exists s|].
  apply Forall_cons in Hb as [He Hb]. destruct Hl as [Hen Hl].
  destruct (log_event_inv SIZE SIZE_range clock hostname pid e s Hi Hen) as (s1 & E & Hi1 & Hs).
  destruct (stopped_frame s s1 e Hi Hr He Hen E Hi1) as (Hr1 & Hd1 & Hlo1 & Hf1).
  destruct (IH s1 Hi1 Hr1 Hb (Hl _ E)) as (s' & E' & Hi' & Hr' & Hd' & Hlo' & Hdu').
  exists s'. cbn [AsyncLogging.run]. rewrite E. split_and!; [done..|cbn [length]; lia|congruence|]. intros Hf.
  rewrite (Hdu' (Hf1 Hf)). apply (app_inv_tail (lost s)). rewrite <-Hlo1 at 1. rewrite <-!due_lost, Hs.
  - by destruct e; rewrite ?app_nil_r.
  - destruct e; try done. by destruct Hf.
Qed.

(** [start] comes back with the backend at its loop. *)
Lemma log_starts numCreated tid basename rollSize :
  0 < clock 0 → 0 < tid →
  ∃ life l, AsyncLife.start clock hostname pid true tid basename rollSize (AsyncLife.make numCreated) = Ok life ∧
    AsyncLife.log life = Some l ∧ AsyncLogging.running_ l = true ∧ inv SIZE l ∧ at_ l = Top ∧
    Thread.started_ (AsyncLife.thread_ life) = true ∧ Thread.joined_ (AsyncLife.thread_ life) = false.
Proof.
  intros Hc Ht. unfold AsyncLife.start, AsyncLife.make, Thread.make, Thread.start.
  cbn [AsyncLife.thread_ AsyncLife.log AsyncLife.latch_ Thread.started_ negb cassert mbind res_bind fst].
  replace (0 <? tid) with true by lia. cbn [cassert mbind res_bind mret res_ret].
  unfold AsyncLife.threadFunc. cbn [AsyncLife.running_ cassert mbind res_bind AsyncLife.latch_].
  change (CountDownLatch.countDown (CountDownLatch.make 1)) with (Ok (CountDownLatch.mk 0, true)). cbn [mbind res_bind].
  unfold AsyncLogging.start. destruct (log_make_spec clock hostname pid basename rollSize 3 1024 Hc) as (o & -> & _ & Ho).
  cbn [mbind res_bind mret res_ret]. eexists _, _. split; [reflexivity|]. cbn. split_and!; [done..| |done|done|done].
  split; cbn; [exists []; change (zlen (@nil byte)) with 0; split; [done|lia]|done..].
Qed.

(** The log is stopped, in any state a run can have brought it to.  From then
    on its thread takes at most three steps, none of which fails, and when it can take none
    it has ended.  [stop] then returns from the join, the destructor has nothing left to do,
    and a second [stop] would fail an assertion.  A thread that waited for lines, as it
    mostly does, writes all there are before it ends; one that was writing writes what it
    had taken, and what waited behind it is lost. *)
Theorem log_stops s th es :
  inv SIZE s → Thread.started_ th = true → Thread.joined_ th = false →
  Forall (λ e, backend e = true) es → legal es (AsyncLogging.stop s) →
  (length es <= 3)%nat ∧
  ∃ s', run es (AsyncLogging.stop s) = Ok s' ∧
    ((∀ e, backend e = true → enabled e s' = false) →
     at_ s' = Done ∧ (few s → log_bytes (output s') = due s) ∧
     (buffers_ s' ≫= bytes) ++ bytes (currentBuffer_ s') = lost s ∧
     ∀ latch, ∃ life, AsyncLife.stop_end (AsyncLife.mk (Some s') false th latch) = Ok life ∧
       AsyncLife.destroy_stops life = false ∧ AsyncLife.stop_end life = Fault AssertFail).
Proof.
  intros Hi Hst Hjo Hb Hl.
  assert (inv SIZE (AsyncLogging.stop s)) as Hi0 by (by destruct Hi; split).
  destruct (stopped_run es _ Hi0 eq_refl Hb Hl) as (s' & E & Hi' & Hr' & Hd & Hlo & Hdu).
  split; [unfold steps_left in Hd; cbn in Hd; destruct (at_ s); lia|]. exists s'. split; [done|]. intros Hstuck.
  assert (at_ s' = Done) as Ha.
  { destruct (at_ s') eqn:Ea; [exfalso..|done].
    - specialize (Hstuck Finish eq_refl). cbn in Hstuck. by rewrite Ea, Hr', bool_decide_true in Hstuck.
    - specialize (Hstuck Swap eq_refl). cbn in Hstuck. by rewrite Ea, bool_decide_true in Hstuck.
    - specialize (Hstuck (Write 0) eq_refl). cbn in Hstuck. by rewrite Ea, bool_decide_true in Hstuck. }
  split; [done|]. pose proof (inv_backend SIZE s' Hi') as Hbk. rewrite Ha in Hbk. destruct Hbk as (_ & _ & Hbk).
  split; [|split].
  - intros Hf. specialize (Hdu Hf). unfold due in Hdu at 1. rewrite Ha, Hbk in Hdu. cbn [mbind list_bind app] in Hdu.
    by rewrite app_nil_r in Hdu.
  - unfold lost in Hlo at 1. by rewrite Ha in Hlo.
  - intros latch. unfold AsyncLife.stop_end. cbn [AsyncLife.log fmap option_fmap option_map]. rewrite Ha. unfold Thread.join.
    cbn [AsyncLife.thread_]. rewrite Hst, Hjo. cbn [cassert negb mbind res_bind mret res_ret].
    eexists. split; [reflexivity|]. split; [done|]. cbn. by rewrite Ha.
Qed.
End Stop.

Section StopWitness.
Import AsyncLogging ToyDisk.

Definition stop_log (es : list event) : option (AsyncLogging.t _) :=
  match start (λ _, 1559910896) None 42 "im" 1000 with
  | Ok s => match run 8 (λ _, 1559910896) None 42 es s with Ok s => Some s | Fault _ => None end
  | Fault _ => None
  end.

(** Stopped as it waits, the thread still writes the line. *)
Lemma log_stops_witness :
  ∃ s, stop_log [Append (bytes_of "last"); Enter] = Some s ∧ ∃ s',
    run 8 (λ _, 1559910896) None 42 [Swap; Write 0; Finish] (AsyncLogging.stop s) = Ok s' ∧
    at_ s' = Done ∧ log_bytes (output s') = bytes_of "last".
Proof.
  eexists. split; [vm_compute; reflexivity|].
  match goal with |- ∃ s', run _ _ _ _ _ (AsyncLogging.stop ?s) = _ ∧ _ =>
    destruct (log_stops 8 ltac:(lia) (λ _, 1559910896) None 42 s (Thread.mk true false 1 "Logging" 1) [Swap; Write 0; Finish])
      as (_ & s' & E & H) end.
  - split; cbn; [eexists; split; [done|by vm_compute]|done|done|by eexists|done].
  - done.
  - done.
  - by repeat constructor.
  - repeat (split; [by vm_compute|]; intros ? E; vm_compute in E; injection E as <-). done.
  - exists s'. split; [exact E|]. vm_compute in E. injection E as <-. destruct H as (Ha & Hl & _).
    + by intros [] .
    + split; [exact Ha|]. rewrite Hl; [by vm_compute|]. by vm_compute.
Defined.
End StopWitness.
