(* ===== verification/ThreadStart.v ===== *)
(** * Thread.cc: the thread-local data, and how a thread comes up

    [Thread::start] and the function that the new thread runs, statement by statement.
    They share the [Thread] object through pointers to its members; the owner may destroy
    the object as soon as [start] has returned, while the thread runs on. *)
From stdpp Require Import relations.
From S2P Require Import Prelude Text Timestamp Threads.

(** ** CurrentThread.h *)
Module CurrentThread.

(** The thread-local variables; the pointer [t_threadName] is the text it points to. *)
Record t := mk {
  t_cachedTid : Z;
  t_tidString : string;
  t_tidStringLength : Z;
  t_threadName : string
}.

(** A thread before anything has run in it. *)
Definition initial : t := mk 0 "" 6 "unknown".

Definition set_name (name : string) (c : t) : t := mk (t_cachedTid c) (t_tidString c) (t_tidStringLength c) name.

(** [gettid] is the number of the thread. *)
Definition cacheTid (gettid : Z) (c : t) : t :=
  if t_cachedTid c =? 0
  then mk gettid (snprintf 32 (decw 5 gettid +:+ " ")) (slen (decw 5 gettid +:+ " ")) (t_threadName c)
  else c.

Definition tid (gettid : Z) (c : t) : Z * t :=
  let c := if t_cachedTid c =? 0 then cacheTid gettid c else c in
  (t_cachedTid c, c).

Definition tidString (c : t) : string := t_tidString c.
Definition tidStringLength (c : t) : Z := t_tidStringLength c.
Definition name (c : t) : string := t_threadName c.

Definition isMainThread (gettid getpid : Z) (c : t) : bool * t :=
  let '(n, c) := tid gettid c in (n =? getpid, c).

(** The [timespec] of [sleepUsec]; C's division. *)
Definition sleepUsec (usec : Z) : Z * Z :=
  (Z.quot usec Timestamp.kMicroSecondsPerSecond, Z.rem usec Timestamp.kMicroSecondsPerSecond * 1000).

(** In the child after fork(2). *)
Definition afterFork (gettid : Z) (c : t) : t :=
  let c := mk 0 (t_tidString c) (t_tidStringLength c) "main" in
  (tid gettid c).2.

(** [ThreadNameInitializer], in the main thread. *)
Definition ThreadNameInitializer (gettid : Z) (c : t) : t := (tid gettid (set_name "main" c)).2.

End CurrentThread.

(** ** [ThreadData] and the two threads *)
Module ThreadData.

(** Where [Thread::start] is, with [Gone] for an object that its owner has destroyed. *)
Inductive start_at := Creating | Waiting | Asleep | Checking | Returned | Gone.

(** Where [runInThread] is. *)
Inductive run_at := NotCreated | StoreTid | ClearTid | CountDown | ClearLatch | SetName | Running | Ended.

(** The object with its latch, the pointers [tid_] and [latch_] of the [ThreadData] (null
    or into the object), the copy [name_], the variables of the new thread. *)
Record t := mk {
  thread : Thread.t;
  latch : CountDownLatch.t;
  tid_ : bool;
  latch_ : bool;
  name_ : string;
  local : CurrentThread.t;
  starter : start_at;
  runner : run_at
}.

Definition make (th : Thread.t) : t :=
  mk th (CountDownLatch.make 1) true true (Thread.name_ th) CurrentThread.initial Creating NotCreated.

Definition set_thread (v : Thread.t) (s : t) : t := mk v (latch s) (tid_ s) (latch_ s) (name_ s) (local s) (starter s) (runner s).
Definition set_latch (v : CountDownLatch.t) (s : t) : t := mk (thread s) v (tid_ s) (latch_ s) (name_ s) (local s) (starter s) (runner s).
Definition set_tid_ptr (v : bool) (s : t) : t := mk (thread s) (latch s) v (latch_ s) (name_ s) (local s) (starter s) (runner s).
Definition set_latch_ptr (v : bool) (s : t) : t := mk (thread s) (latch s) (tid_ s) v (name_ s) (local s) (starter s) (runner s).
Definition set_local (v : CurrentThread.t) (s : t) : t := mk (thread s) (latch s) (tid_ s) (latch_ s) (name_ s) v (starter s) (runner s).
Definition set_starter (v : start_at) (s : t) : t := mk (thread s) (latch s) (tid_ s) (latch_ s) (name_ s) (local s) v (runner s).
Definition set_runner (v : run_at) (s : t) : t := mk (thread s) (latch s) (tid_ s) (latch_ s) (name_ s) (local s) (starter s) v.

Definition set_started (th : Thread.t) : Thread.t :=
  Thread.mk true (Thread.joined_ th) (Thread.tid_ th) (Thread.name_ th) (Thread.sequence_ th).
Definition store_tid (n : Z) (th : Thread.t) : Thread.t :=
  Thread.mk (Thread.started_ th) (Thread.joined_ th) n (Thread.name_ th) (Thread.sequence_ th).

(** The statement that [start] is at; [created] is the outcome of [pthread_create]. *)
Definition start (created : bool) (s : t) : res t :=
  match starter s with
  | Creating =>
      _ ← cassert (negb (Thread.started_ (thread s)));
      let s := set_thread (set_started (thread s)) s in
      if created then mret (set_starter Waiting (set_runner StoreTid s)) else Fault Fatal
  | Waiting => mret (set_starter (if CountDownLatch.wait (latch s) then Asleep else Checking) s)
  | Checking =>
      _ ← cassert (0 <? Thread.tid_ (thread s));
      mret (set_starter Returned s)
  | Asleep | Returned | Gone => mret s
  end.

(** The members of the object, through a pointer that must not be null. *)
Definition through (pointer : bool) (s : t) : res unit :=
  match starter s with
  | Gone => Fault UB
  | _ => if pointer then mret () else Fault UB
  end.

Definition wake (s : t) : t := match starter s with Asleep => set_starter Waiting s | _ => s end.

(** The statement that [runInThread] is at, up to [func_()]. *)
Definition runInThread (gettid : Z) (s : t) : res t :=
  match runner s with
  | StoreTid =>
      _ ← through (tid_ s) s;
      let '(n, l) := CurrentThread.tid gettid (local s) in
      mret (set_runner ClearTid (set_local l (set_thread (store_tid n (thread s)) s)))
  | ClearTid => mret (set_runner CountDown (set_tid_ptr false s))
  | CountDown =>
      _ ← through (latch_ s) s;
      '(l, notify) ← CountDownLatch.countDown (latch s);
      let s := set_latch l s in
      mret (set_runner ClearLatch (if notify : bool then wake s else s))
  | ClearLatch => mret (set_runner SetName (set_latch_ptr false s))
  | SetName =>
      (* the name is shown to the kernel, and overwritten before the function runs *)
      let l := CurrentThread.set_name (Thread.thread_name (name_ s)) (local s) in
      mret (set_runner Running (set_local (CurrentThread.set_name "finished" l) s))
  | Running => mret (set_runner Ended s)
  | NotCreated | Ended => mret s
  end.

(** Does a thread have something to do? *)
Definition start_moves (s : t) : bool := match starter s with Creating | Waiting | Checking => true | _ => false end.
Definition run_moves (s : t) : bool := match runner s with NotCreated | Ended => false | _ => true end.

Inductive step (gettid : Z) (s s' : t) : Prop :=
  | start_steps : start_moves s = true → start true s = Ok s' → step gettid s s'
  | run_steps : run_moves s = true → runInThread gettid s = Ok s' → step gettid s s'.

(** A spurious wakeup; the owner destroys the object, after [start] has returned. *)
Inductive other (s : t) : t → Prop :=
  | wakes_up : other s (wake s)
  | destroys : starter s = Returned → other s (set_starter Gone s).

Definition any_step (gettid : Z) (s s' : t) : Prop := step gettid s s' ∨ other s s'.

End ThreadData.

Section Start.
Import ThreadData.
Variable gettid : Z.
Hypothesis Htid : 0 < gettid.
Implicit Types s : ThreadData.t.

Definition tid_ok s : Prop :=
  match runner s with
  | NotCreated | StoreTid => CurrentThread.t_cachedTid (local s) = 0 ∧ tid_ s = true
  | ClearTid => Thread.tid_ (thread s) = gettid ∧ tid_ s = true
  | _ => Thread.tid_ (thread s) = gettid
  end.

Definition latch_ok s : Prop :=
  match runner s with
  | NotCreated | StoreTid | ClearTid | CountDown => CountDownLatch.count_ (latch s) = 1 ∧ latch_ s = true
  | _ => CountDownLatch.count_ (latch s) = 0
  end.

Definition start_ok_thread s : Prop :=
  match starter s with
  | Creating => runner s = NotCreated ∧ Thread.started_ (thread s) = false
  | Waiting => runner s ≠ NotCreated
  | Asleep => runner s ≠ NotCreated ∧ CountDownLatch.count_ (latch s) = 1
  | Checking | Returned | Gone => runner s ≠ NotCreated ∧ CountDownLatch.count_ (latch s) = 0
  end.

Record data_inv s : Prop := { di_tid : tid_ok s; di_latch : latch_ok s; di_start : start_ok_thread s }.

(** The statements that are left, with the wakeup. *)
Definition statements s : nat :=
  (match starter s with Creating => 18 | Waiting => 3 | Asleep => 2 | Checking => 1 | Returned | Gone => 0 end +
   match runner s with
   | NotCreated => 0 | StoreTid => 12 | ClearTid => 10 | CountDown => 8 | ClearLatch => 6 | SetName => 4 | Running => 2 | Ended => 0
   end)%nat.

Lemma start_data s : data_inv s → start_moves s = true → ∃ s', start true s = Ok s' ∧ data_inv s' ∧ (statements s' < statements s)%nat.
Proof.
  intros [H1 H2 H3] Hm. destruct s as [[sd jd td nm sq] [n] tp lp name lo sa ru].
  unfold start_moves, start, start_ok_thread, tid_ok, latch_ok, CountDownLatch.wait in *. cbn in *.
  destruct sa; try done; cbn in *; destruct_and?; subst; cbn.
  - eexists. split; [reflexivity|]. split; [by split|unfold statements; cbn; lia].
  - destruct ru; destruct_and?; subst; try done; (eexists; split; [reflexivity|]); (split; [by split|unfold statements; cbn; lia]).
  - destruct ru; destruct_and?; subst; try done; apply Z.ltb_lt in Htid as Hb; rewrite Hb; (eexists; split; [reflexivity|]);
      (split; [by split|unfold statements; cbn; lia]).
Qed.

Lemma run_data s : data_inv s → run_moves s = true → ∃ s', runInThread gettid s = Ok s' ∧ data_inv s' ∧ (statements s' < statements s)%nat.
Proof.
  intros [H1 H2 H3] Hm. destruct s as [[sd jd td nm sq] [n] tp lp name [c ts tl tn] sa ru].
  unfold run_moves, runInThread, through, start_ok_thread, tid_ok, latch_ok in *. cbn in *.
  destruct ru, sa; try done; cbn in *; destruct_and?; subst; try done; (eexists; split; [reflexivity|]);
    (split; [by split|unfold statements; cbn; change (1 - 1 =? 0)%Z with true; cbn; lia]).
Qed.

Lemma other_data s s' : data_inv s → other s s' → data_inv s'.
Proof.
  intros [H1 H2 H3] Ho. destruct Ho as [|Hs]; destruct s as [th l tp lp name lo sa ru]; unfold start_ok_thread, tid_ok, latch_ok in *; cbn in *.
  - destruct sa; try (by split). split; [done|done|]. by destruct H3.
  - subst sa. by split.
Qed.

Lemma steps_data k s s' : data_inv s → nsteps (step gettid) k s s' → data_inv s' ∧ (k + statements s' <= statements s)%nat.
Proof.
  intros Hi Hs. induction Hs as [s|k s1 s2 s3 H _ IH]; [done|].
  assert (data_inv s2 ∧ (statements s2 < statements s1)%nat) as [Hi2 Hm].
  { destruct H as [Hm E|Hm E]; [destruct (start_data s1 Hi Hm) as (s' & E' & ?)|destruct (run_data s1 Hi Hm) as (s' & E' & ?)];
      rewrite E in E'; by injection E' as <-. }
  destruct (IH Hi2). split; [done|lia].
Qed.

Lemma data_reached th s : Thread.started_ th = false → rtc (any_step gettid) (make th) s → data_inv s.
Proof.
  intros Hth Hr. assert (data_inv (make th)) as Hi by (split; cbn; done). revert Hi. generalize (make th) as s0, Hr. clear Hr.
  intros s0 Hr. induction Hr as [|s1 s2 s3 [H|H] _ IH]; [done|..]; intros Hi; apply IH.
  - destruct (steps_data 1 s1 s2 Hi); [by apply nsteps_once|done].
  - by eapply other_data.
Qed.

(** C15 (safety). Starting a thread.  Whatever the interleaving of [Thread::start] with the new thread,
    with spurious wakeups and with an owner that destroys the object as soon as [start]
    has returned: no pointer into the object is used after its end, or after it was
    cleared, no assertion fails, and [start] returns only after the number of the new
    thread was stored; left alone, the threads come to rest after boundedly many
    statements, and then [start] has returned and the function has run. *)
Theorem thread_starts th s :
  Thread.started_ th = false → rtc (any_step gettid) (make th) s →
  (start_moves s = true → ∃ s', start true s = Ok s') ∧
  (run_moves s = true → ∃ s', runInThread gettid s = Ok s') ∧
  (starter s = Returned → Thread.tid_ (thread s) = gettid) ∧
  (∀ k s', nsteps (step gettid) k s s' → (k <= statements s)%nat) ∧
  (∀ s', rtc (step gettid) s s' → (∀ s'', ¬ step gettid s' s'') → runner s' = Ended ∧ (starter s' = Returned ∨ starter s' = Gone)).
Proof.
  intros Hth Hr. pose proof (data_reached th s Hth Hr) as Hi. split_and!.
  - intros Hm. destruct (start_data s Hi Hm) as (s' & E & _). by exists s'.
  - intros Hm. destruct (run_data s Hi Hm) as (s' & E & _). by exists s'.
  - intros Es. destruct Hi as [H1 H2 H3]. unfold start_ok_thread, tid_ok, latch_ok in *. rewrite Es in H3. destruct H3 as [Hr' Hl].
    destruct (runner s); try done; destruct H2; lia.
  - intros k s' Hs. destruct (steps_data _ _ _ Hi Hs). lia.
  - intros s' (k & Hs)%rtc_nsteps Hst. destruct (steps_data _ _ _ Hi Hs) as [Hi' _].
    assert (start_moves s' = false) as Em.
    { destruct (start_moves s') eqn:Em; [|done]. destruct (start_data s' Hi' Em) as (s1 & E & _). destruct (Hst s1). by apply start_steps. }
    assert (run_moves s' = false) as Er.
    { destruct (run_moves s') eqn:Er; [|done]. destruct (run_data s' Hi' Er) as (s1 & E & _). destruct (Hst s1). by apply run_steps. }
    destruct Hi' as [H1 H2 H3]. unfold start_moves, run_moves, start_ok_thread, latch_ok in *.
    destruct (starter s'), (runner s'); try done; destruct_and?; try done; try lia; by auto.
Qed.
End Start.

(** In the main thread the thread numbers agree with the process, in a child after a fork
    the number is read again. *)
Theorem current_thread (main child pid : Z) (c : CurrentThread.t) :
  main ≠ 0 → child ≠ 0 → CurrentThread.t_cachedTid c = 0 →
  let c1 := CurrentThread.ThreadNameInitializer main c in
  (CurrentThread.tid child c1).1 = main ∧ CurrentThread.name c1 = "main"%string ∧
  CurrentThread.tidString c1 = snprintf 32 (decw 5 main +:+ " ") ∧
  (CurrentThread.isMainThread main pid c1).1 = (main =? pid) ∧
  let c2 := CurrentThread.afterFork child c1 in
  (CurrentThread.tid main c2).1 = child ∧ CurrentThread.tidString c2 = snprintf 32 (decw 5 child +:+ " ") ∧
  CurrentThread.tidStringLength c2 = slen (decw 5 child +:+ " ").
Proof.
  intros Hm Hc H0. apply Z.eqb_neq in Hm, Hc. destruct c as [t ts tl tn]. cbn in H0. subst t.
  unfold CurrentThread.ThreadNameInitializer, CurrentThread.afterFork, CurrentThread.isMainThread, CurrentThread.tid, CurrentThread.cacheTid.
  cbn. rewrite Hm. cbn. rewrite ?Hm, Hc. cbn. rewrite ?Hc. done.
Qed.

(** The time that [sleepUsec] asks for is the given one, and a valid [timespec], when it
    is not negative. *)
Theorem sleep_time usec :
  0 <= usec → let '(sec, nsec) := CurrentThread.sleepUsec usec in
  0 <= sec ∧ 0 <= nsec < 1000000000 ∧ sec * 1000000000 + nsec = usec * 1000.
Proof.
  intros Hu. unfold CurrentThread.sleepUsec. change Timestamp.kMicroSecondsPerSecond with 1000000.
  pose proof (Z.quot_rem' usec 1000000). pose proof (Z.rem_bound_pos usec 1000000). lia.
Qed.

Section Witness.
Import ThreadData.

(** The owner destroys the object before the thread has cleared its pointer. *)
Definition toy_thread : Thread.t := (Thread.make 0 "loop").1.
Definition toy_started : ThreadData.t :=
  let th := Thread.mk true false 42 "loop" 1 in
  mk th (CountDownLatch.mk 0) false true "loop" (CurrentThread.tid 42 CurrentThread.initial).2 Gone ClearLatch.

Lemma toy_started_reached : rtc (any_step 42) (make toy_thread) toy_started.
Proof.
  do 2 (eapply rtc_l; [left; apply start_steps; [reflexivity|vm_compute; reflexivity]|]).
  do 3 (eapply rtc_l; [left; apply run_steps; [reflexivity|vm_compute; reflexivity]|]).
  do 2 (eapply rtc_l; [left; apply start_steps; [reflexivity|vm_compute; reflexivity]|]).
  eapply rtc_l; [right; by apply destroys|]. apply rtc_refl.
Qed.

Lemma thread_starts_witness :
  (∃ s', runInThread 42 toy_started = Ok s') ∧
  ∀ s', rtc (step 42) toy_started s' → (∀ s'', ¬ step 42 s' s'') → runner s' = Ended.
Proof.
  destruct (thread_starts 42 ltac:(lia) toy_thread toy_started) as (_ & Hrun & _ & _ & H).
  - reflexivity.
  - apply toy_started_reached.
  - split; [by apply Hrun|]. intros s' Hs Hst. by apply H.
Defined.
End Witness.
