(* ===== verification/ThreadPoolStop.v ===== *)
(** * ThreadPool.cc: starting and stopping a pool

    The thread objects of a pool (Threads.v), which [start] makes and [stop] joins, and
    what the workers of ThreadPool.v do after [stop]. *)
From stdpp Require Import relations.
From S2P Require Import Prelude Text ThreadPool Threads.

Module PoolLife.
Section PoolLife.
Context {T : Type}.

(** The pool with its name, its threads, and whether a [threadInitCallback_] is set. *)
Record t := mk {
  base : ThreadPool.t T;
  name_ : string;
  threads_ : list Thread.t;
  threadInitCallback_ : bool
}.

Definition make (nameArg : string) : t := mk ThreadPool.make nameArg [] false.
Definition setThreadInitCallback (p : t) : t := mk (base p) (name_ p) (threads_ p) true.

(** The loop of [start], from the [i]-th thread on; [created] is the outcome of
    [pthread_create], [tids] are the numbers of the new threads, [numCreated] counts the
    threads of the process. *)
Fixpoint start_threads (created : bool) (i : nat) (tids : list Z) (numCreated : Z) (p : t) : res (t * Z) :=
  match tids with
  | [] => mret (p, numCreated)
  | tid :: tids' =>
      let id := snprintf 32 (dec (Z.of_nat i + 1)) in
      let '(thread, numCreated) := Thread.make numCreated (name_ p +:+ id)%string in
      thread ← Thread.start created tid thread;
      start_threads created (S i) tids' numCreated (mk (base p) (name_ p) (threads_ p ++ [thread]) (threadInitCallback_ p))
  end.

(** [start]; is the callback called in the thread of the caller?  [tid] numbers the new
    threads.  A negative number becomes a huge [size_t] for [reserve]. *)
Definition start (created : bool) (numThreads : Z) (tid : nat → Z) (numCreated : Z) (p : t) : res (t * Z * bool) :=
  _ ← cassert (bool_decide (threads_ p = []));
  let p := mk (ThreadPool.set_running true (base p)) (name_ p) (threads_ p) (threadInitCallback_ p) in
  _ ← (if numThreads <? 0 then Fault (Throw "std::length_error: vector::reserve") else mret ());
  '(p, numCreated) ← start_threads created 0 (tid <$> seq 0 (Z.to_nat numThreads)) numCreated p;
  mret (p, numCreated, (numThreads =? 0) && threadInitCallback_ p).

Fixpoint join_all (threads : list Thread.t) : res (list Thread.t) :=
  match threads with
  | [] => mret []
  | thr :: threads' => thr ← Thread.join thr; threads' ← join_all threads'; mret (thr :: threads')
  end.

Definition stop (p : t) : res t :=
  threads ← join_all (threads_ p);
  mret (mk (ThreadPool.set_running false (base p)) (name_ p) threads (threadInitCallback_ p)).

(** The destructor. *)
Definition destroy (p : t) : res t :=
  if ThreadPool.running_ (base p) then stop p else mret p.

(** How [runInThread] ends a worker: what was thrown ends the process, or is thrown on. *)
Definition runInThread (o : Thread.outcome) : option fault :=
  match o with
  | Thread.Returned => None
  | Thread.ThrewException | Thread.ThrewStdException => Some Fatal
  | Thread.ThrewOther => Some (Throw "rethrown")
  end.

End PoolLife.
#[global] Arguments t T : clear implicits.
End PoolLife.

(** ** The thread objects *)
Section Life.
Import PoolLife.
Context {T : Type}.
Implicit Types p : PoolLife.t T.

Definition joinable (th : Thread.t) : Prop := Thread.started_ th = true ∧ Thread.joined_ th = false.

Lemma pool_threads_run i tids n p :
  Forall (λ tid, 0 < tid) tids → Forall joinable (threads_ p) →
  ∃ ths n', start_threads true i tids n p = Ok (mk (base p) (name_ p) (threads_ p ++ ths) (threadInitCallback_ p), n') ∧
    length ths = length tids ∧ Forall joinable ths ∧
    Thread.tid_ <$> ths = tids ∧ ∀ k th, ths !! k = Some th → name_ p ≠ ""%string →
      Thread.name_ th = (name_ p +:+ snprintf 32 (dec (Z.of_nat (i + k) + 1)))%string.
Proof.
  revert i n p. induction tids as [|tid tids IH]; intros i n p Ht Hp.
  { exists [], n. cbn. rewrite app_nil_r. split; [by destruct p|]. split_and!; try done. }
  apply Forall_cons in Ht as [Htid Ht]. cbn [start_threads]. unfold Thread.make, Thread.start. cbn [Thread.started_ negb cassert mbind res_bind].
  apply Z.ltb_lt in Htid as Hb. rewrite Hb. cbn [cassert mbind res_bind mret res_ret Thread.joined_ Thread.name_ Thread.sequence_].
  set (th := Thread.mk _ _ _ _ _). assert (joinable th) as Hth by done.
  destruct (IH (S i) (i32 (n + 1)) (mk (base p) (name_ p) (threads_ p ++ [th]) (threadInitCallback_ p)) Ht) as (ths & n' & E & Hl & Hj & Htids & Hn).
  { apply Forall_app. split; [done|]. by apply Forall_singleton. }
  exists (th :: ths), n'. cbn in E, Hn |- *. rewrite E, <-app_assoc. split; [done|]. split_and!; [lia|by apply Forall_cons|by rewrite Htids|].
  intros [|k] th' Hk Hne; cbn in Hk; [injection Hk as <-|].
  - unfold th. cbn. unfold Thread.setDefaultName. rewrite bool_decide_false; [by rewrite Nat.add_0_r|].
    destruct (name_ p); [done|]. done.
  - rewrite (Hn k th' Hk Hne). by rewrite Nat.add_succ_r.
Qed.

Lemma join_all_run ths : Forall joinable ths → ∃ ths', join_all ths = Ok ths' ∧ Forall (λ th, Thread.joined_ th = true) ths' ∧ length ths' = length ths.
Proof.
  induction 1 as [|th ths [Hs Hj] _ (ths' & E & Hf & Hl)]; [by exists []|].
  cbn [join_all]. unfold Thread.join. rewrite Hs, Hj. cbn [cassert negb mbind res_bind mret res_ret]. rewrite E. eexists. split; [reflexivity|].
  split; [by apply Forall_cons|cbn; lia].
Qed.

Lemma join_twice th ths : Thread.joined_ th = true → join_all (th :: ths) = Fault AssertFail.
Proof. intros Hj. cbn [join_all]. unfold Thread.join. rewrite Hj. by destruct (Thread.started_ th). Qed.

(** The life of the thread objects of a pool.  A pool that was made starts its threads,
    one per number, named after the pool; it can be stopped once, then every thread is
    joined and the destructor does nothing; without a [stop] the destructor stops it.  A
    second [stop], or a second [start], fails an assertion unless the pool has no
    threads. *)
Theorem pool_life (name : string) (numThreads : Z) (tid : nat → Z) (n : Z) :
  (∀ i, 0 < tid i) → 0 <= numThreads →
  ∃ p n', start (T := T) true numThreads tid n (make name) = Ok (p, n', false) ∧
    Thread.tid_ <$> threads_ p = tid <$> seq 0 (Z.to_nat numThreads) ∧ ThreadPool.running_ (base p) = true ∧
    (∀ k th, threads_ p !! k = Some th → name ≠ ""%string → Thread.name_ th = (name +:+ snprintf 32 (dec (Z.of_nat k + 1)))%string) ∧
    ∃ p', stop p = Ok p' ∧ destroy p = Ok p' ∧ destroy p' = Ok p' ∧ ThreadPool.running_ (base p') = false ∧
      Forall (λ th, Thread.destroy th = false) (threads_ p') ∧
      (0 < numThreads → stop p' = Fault AssertFail ∧ start true numThreads tid n' p' = Fault AssertFail ∧
         start true numThreads tid n' p = Fault AssertFail).
Proof.
  intros Ht Hn0. unfold start. change (threads_ (make name)) with (@nil Thread.t). rewrite (bool_decide_true ([] = [])) by done. cbn [cassert mbind res_bind].
  replace (numThreads <? 0) with false by lia. set (p0 := mk _ _ _ _). set (tids := tid <$> _).
  assert (Forall (λ tid, 0 < tid) tids) as Htid by (apply Forall_fmap, Forall_true; intros i; apply Ht).
  assert (length tids = Z.to_nat numThreads) as Hlt by (unfold tids; by rewrite length_fmap, length_seq).
  destruct (pool_threads_run 0 tids n p0 Htid) as (ths & n' & E & Hl & Hj & Htids & Hn); [apply Forall_nil_2|].
  cbn [mbind res_bind mret res_ret]. rewrite E. cbn [mbind res_bind mret res_ret threadInitCallback_ p0 make]. rewrite andb_false_r. eexists _, n'. split; [reflexivity|].
  cbn [threads_ base name_ app make p0 ThreadPool.running_ ThreadPool.set_running]. split_and!; [done|done|done|].
  destruct (join_all_run ths Hj) as (ths' & Ej & Hf & Hlj). unfold destroy, stop. cbn [threads_ base name_ threadInitCallback_ ThreadPool.running_ ThreadPool.set_running].
  rewrite Ej. cbn [mbind res_bind mret res_ret]. eexists. split; [reflexivity|]. split; [done|].
  cbn [threads_ base ThreadPool.running_ ThreadPool.set_running]. split_and!; [done|done| |].
  - eapply Forall_impl; [exact Hf|]. intros th Hth. unfold Thread.destroy. by rewrite Hth, andb_false_r.
  - intros Hpos. destruct ths as [|th ths]; [cbn in Hl; lia|]. destruct ths' as [|th' ths']; [done|].
    apply Forall_cons in Hf as [Hth' _]. rewrite join_twice by done. rewrite !(bool_decide_false (_ :: _ = [])) by done. done.
Qed.
End Life.

(** ** The workers of a stopped pool *)
Section Stop.
Import ThreadPool.
Context {T : Type}.
Implicit Types (s : sys T) (p : ThreadPool.t T).

(** The workers that took no task, and those that may go round their loop again. *)
Fixpoint nones (b : list (option T)) : nat :=
  match b with
  | [] => 0
  | None :: b' => S (nones b')
  | Some _ :: b' => nones b'
  end.

Definition idle s : nat := nones (busy s) + testing s.
Definition has_work s : nat := match queue_ (pool s) with [] => 0 | _ => 3 end.

(** What is left to do once a pool of [n] workers is stopped: with work in the queue an
    idle worker goes round its loop again. *)
Definition remaining (n : nat) s : nat :=
  6 * length (queue_ (pool s)) + (3 * n + 8) * length (adders s) + (3 * n + 7) * length (blocked s) +
  3 * ready s + (5 * length (busy s) - 3 * nones (busy s)) + testing s + has_work s * idle s.

Lemma nones_app b1 b2 : nones (b1 ++ b2) = (nones b1 + nones b2)%nat.
Proof. induction b1 as [|[x|] b1 IH]; cbn; lia. Qed.

Lemma nones_le b : (nones b <= length b)%nat.
Proof. induction b as [|[x|] b IH]; cbn; lia. Qed.

Lemma notify_full_remaining n s s' :
  notify_full s s' → (remaining n s' <= remaining n s + 1)%nat ∧ pool s' = pool s ∧ asleep s' = asleep s ∧ accepted s' = accepted s ∧
    adders s' ++ blocked s' ≡ₚ adders s ++ blocked s ∧ workers s' = workers s.
Proof.
  intros [s0 _|s0 t l1 l2 Hb]; [split_and!; [lia|done..]|]. unfold remaining, has_work, idle. cbn [pool adders blocked ready busy testing asleep accepted].
  rewrite Hb, !length_app. cbn [length]. split_and!; [lia|done|done|done| |done]. by rewrite <-Permutation_middle, <-!Permutation_middle.
Qed.

(** Every step of a stopped pool is progress. *)
Lemma stopped_progress n s s' :
  workers s = n → running_ (pool s) = false → asleep s = 0%nat → step s s' →
  (remaining n s' < remaining n s)%nat ∧ workers s' = n ∧ running_ (pool s') = false ∧ asleep s' = 0%nat ∧
  accepted s' ++ adders s' ++ blocked s' ≡ₚ accepted s ++ adders s ++ blocked s.
Proof.
  intros Hw Hrun Ha Hstep. pose proof (nones_le (busy s)) as Hfl. unfold workers in Hw.
  assert (idle s <= n)%nat as Hidle by (unfold idle; lia).
  destruct Hstep as [s m Hr Ht|s m task p notify s' Hr Ht Hn|s task b1 b2 Hb|s m Hte He|s m Hte He|s t l1 l2 Hnw Had Ht|s t l1 l2 p Hnw Had Ht|s t l1 l2 Hnw Had].
  - unfold take in Ht. rewrite Hrun in Ht. by destruct (queue_ (pool s)).
  - unfold take in Ht. rewrite Hrun in Ht. destruct (queue_ (pool s)) as [|x q] eqn:Eq.
    + injection Ht as <- <- <-. subst s'. split_and!; [|unfold workers; cbn; lia|done|done|done].
      unfold remaining, has_work, idle in *. cbn. rewrite Eq. cbn. lia.
    + injection Ht as <- <- <-. set (s1 := mksys _ _ _ _ _ _ _ _ _ _ _) in Hn.
      assert (remaining n s1 + 2 <= remaining n s)%nat as Hrem.
      { unfold s1, remaining, has_work, idle. cbn. rewrite Eq. destruct q; cbn; lia. }
      assert (workers s1 = n) as Hw1 by (unfold s1, workers; cbn; lia).
      destruct (0 <? _).
      * apply (notify_full_remaining n) in Hn as (Hme & Ep & Ea & Eac & Hp & Hw'). rewrite Ep, Ea, Eac, Hp, Hw'. split_and!; (done || lia).
      * subst s'. split_and!; (done || lia).
  - split_and!; [|unfold workers; cbn; rewrite Hb, !length_app in *; cbn in *; lia|done|done|done].
    unfold remaining, has_work, idle in *. cbn. rewrite Hb, !length_app, !nones_app in *. pose proof (nones_le b1). pose proof (nones_le b2).
    destruct task; cbn in *; destruct (queue_ (pool s)); cbn; lia.
  - unfold worker_ends in He. rewrite Hrun in He. apply bool_decide_eq_false in He. split_and!; [|unfold workers; cbn; lia|done|done|done].
    unfold remaining, has_work, idle. cbn. destruct (queue_ (pool s)); [done|]. lia.
  - unfold worker_ends in He. apply andb_true_iff in He as [_ Hq%bool_decide_eq_true]. split_and!; [|unfold workers; cbn; lia|done|done|done].
    unfold remaining, has_work, idle. cbn. rewrite Hq. cbn. lia.
  - split_and!; [|done|done|done|].
    + unfold remaining, has_work, idle. cbn [pool adders blocked ready busy testing]. rewrite Had, !length_app. cbn [length]. lia.
    + cbn. rewrite Had. f_equiv. by rewrite <-Permutation_middle, <-(Permutation_middle l1 l2 t).
  - rewrite addTask_spec in Ht. destruct (isFull (pool s)); [done|]. injection Ht as <-. unfold notify_empty. cbn [asleep]. rewrite Ha.
    split_and!; [|unfold workers; cbn; lia|done|done|].
    + unfold remaining, has_work, idle in *. cbn [pool adders blocked ready busy testing queue_]. rewrite Had, !length_app in *. cbn [length].
      destruct (queue_ (pool s)); cbn [length app]; lia.
    + cbn. rewrite Had, <-!app_assoc. f_equiv. cbn. by rewrite Permutation_middle.
  - split_and!; [|done|done|done|].
    + unfold remaining, has_work, idle. cbn [pool adders blocked ready busy testing]. rewrite Had, !length_app. cbn [length]. lia.
    + cbn. rewrite Had, <-!app_assoc. f_equiv. cbn. by rewrite Permutation_middle.
Qed.

Lemma stopped_steps n k s s' :
  workers s = n → running_ (pool s) = false → asleep s = 0%nat → nsteps step k s s' →
  (k + remaining n s' <= remaining n s)%nat ∧ running_ (pool s') = false ∧ asleep s' = 0%nat ∧
  accepted s' ++ adders s' ++ blocked s' ≡ₚ accepted s ++ adders s ++ blocked s.
Proof.
  intros Hw Hr Ha Hs. revert Hw. induction Hs as [s|k s1 s2 s3 H _ IH]; intros Hw; [split_and!; [lia|done..]|].
  destruct (stopped_progress _ _ _ Hw Hr Ha H) as (Hm & Hw2 & Hr2 & Ha2 & Hp). destruct (IH Hr2 Ha2 Hw2) as (Hm3 & Hr3 & Ha3 & Hp3).
  split_and!; [lia|done|done|]. by rewrite Hp3.
Qed.

(** At rest all workers have gone. *)
Lemma stopped_rest n max s :
  inv n max s → running_ (pool s) = false → (∀ s', ¬ step s s') →
  ended s = n ∧ busy s = [] ∧ adders s = [] ∧ (queue_ (pool s) = [] → blocked s = []).
Proof.
  intros [I1 I2 I3 I4 I5 I6 I7 I8 IN I9] Hrun Hstuck. specialize (I7 Hrun). unfold workers in I1.
  assert (ready s = 0%nat) as Er.
  { destruct (ready s) as [|m] eqn:Er; [done|]. destruct (take (pool s)) as [[[task p] notify]|] eqn:Et.
    - destruct notify.
      + destruct (notify_full_total (mksys p m (asleep s) (task :: busy s) (testing s) (ended s) (adders s) (blocked s)
          (accepted s) (taken s ++ option_list task) (executed s))) as [s' Hs'].
        destruct (Hstuck s'). by eapply take_returns.
      + edestruct Hstuck. eapply take_returns; [done|done|reflexivity].
    - edestruct Hstuck. by eapply take_waits. }
  assert (busy s = []) as Eb.
  { destruct (busy s) as [|task b] eqn:Eb; [done|]. edestruct Hstuck. by eapply (task_runs s task [] b). }
  assert (testing s = 0%nat) as Et.
  { destruct (testing s) as [|m] eqn:Et; [done|]. destruct (worker_ends (pool s)) eqn:Ew; edestruct Hstuck.
    - by eapply loop_ends. - by eapply loop_again. }
  assert (adders s = []) as Ea.
  { destruct (adders s) as [|t l] eqn:Ea; [done|].
    destruct (no_workers s) eqn:Hnw; [edestruct Hstuck; by eapply (add_runs s t [] l)|].
    pose proof (addTask_spec t (pool s)) as Ht. destruct (isFull (pool s)); edestruct Hstuck.
    - by eapply (add_waits s t [] l). - by eapply (add_queues s t [] l). }
  rewrite Er, Eb, Et, I7 in I1. cbn in I1. split_and!; [lia|done|done|].
  intros Hq. destruct (blocked s); [done|]. rewrite Hq, Ea in I9. destruct I9 as [? Hle]; [done|].
  change (zlen (@nil T)) with 0 in Hle. lia.
Qed.

(** While a worker is left, the tasks are not forgotten. *)
Lemma stopped_drains s s' :
  running_ (pool s) = false → asleep s = 0%nat → adders s = [] → blocked s = [] →
  (queue_ (pool s) = [] ∨ (ended s < workers s)%nat) → step s s' →
  adders s' = [] ∧ blocked s' = [] ∧ (queue_ (pool s') = [] ∨ (ended s' < workers s')%nat).
Proof.
  intros Hrun Ha Had Hb Hq Hstep. unfold workers in *.
  destruct Hstep as [s m Hr Ht|s m task p notify s' Hr Ht Hn|s task b1 b2 Hbu|s m Hte He|s m Hte He|s t l1 l2 Hnw Hadd Ht|s t l1 l2 p Hnw Hadd Ht|s t l1 l2 Hnw Hadd];
    try (by rewrite Had in Hadd; destruct l1); cbn.
  - unfold take in Ht. rewrite Hrun in Ht. by destruct (queue_ (pool s)).
  - destruct notify; [|subst s'; cbn; split_and!; [done|done|right; lia]].
    inversion Hn as [s1 _|s1 t l1 l2 Hb1]; subst; cbn in *; [split_and!; [done|done|right; lia]|].
    rewrite Hb in Hb1. by destruct l1.
  - split_and!; [done|done|]. destruct Hq as [|Hq]; [by left|right]. rewrite Hbu, length_app in Hq. rewrite length_app. cbn in *. lia.
  - split_and!; [done|done|]. right. lia.
  - unfold worker_ends in He. apply andb_true_iff in He as [_ He%bool_decide_eq_true]. split_and!; [done|done|by left].
Qed.

Lemma stopped_drained k s s' :
  nsteps step k s s' → running_ (pool s) = false → asleep s = 0%nat → adders s = [] → blocked s = [] →
  (queue_ (pool s) = [] ∨ (ended s < workers s)%nat) → queue_ (pool s') = [] ∨ (ended s' < workers s')%nat.
Proof.
  intros Hs. induction Hs as [s|k s1 s2 s3 H _ IH]; [done|]. intros Hr Ha Had Hb Hq.
  destruct (stopped_progress _ _ _ eq_refl Hr Ha H) as (_ & _ & Hr2 & Ha2 & _).
  destruct (stopped_drains _ _ Hr Ha Had Hb Hq H) as (Had2 & Hb2 & Hq2). by apply IH.
Qed.

(** Stopping a pool.  From every reachable state after [stop] was called,
    workers and callers, left alone, come to rest after boundedly many steps, however
    they are scheduled, and then every worker has ended, so that [stop] returns from
    its joins.  When no call of [addTask] was under way, and unless tasks were added after
    the last worker had ended, every accepted task has then been executed, exactly
    once: [stop] drains the queue. *)
Theorem pool_stops n p s :
  queue_ p = [] → 0 <= maxQueueSize_ p →
  rtc any_step (ThreadPool.start n p) s → running_ (pool s) = false →
  (∀ k s', nsteps step k s s' → (k <= remaining n s)%nat) ∧
  ∀ s', rtc step s s' → (∀ s'', ¬ step s' s'') →
    ended s' = n ∧ busy s' = [] ∧
    (adders s = [] → blocked s = [] → queue_ (pool s) = [] ∨ (ended s < n)%nat →
     queue_ (pool s') = [] ∧ executed s' ≡ₚ accepted s).
Proof.
  intros Hq Hm Hr Hrun. pose proof (reachable_inv n p s Hq Hm Hr) as Hi. pose proof (inv_stopped _ _ _ Hi Hrun) as Ha. split.
  - intros k s' Hs. destruct (stopped_steps n _ _ _ (inv_workers _ _ _ Hi) Hrun Ha Hs) as (? & _). lia.
  - intros s' Hs Hstuck. pose proof Hs as (k & Hk)%rtc_nsteps. destruct (stopped_steps n _ _ _ (inv_workers _ _ _ Hi) Hrun Ha Hk) as (_ & Hrun' & _ & Hp).
    assert (rtc any_step (ThreadPool.start n p) s') as Hr'.
    { etrans; [exact Hr|]. eapply rtc_subrel; [|exact Hs]. by left. }
    pose proof (reachable_inv n p s' Hq Hm Hr') as Hi'.
    destruct (stopped_rest _ _ _ Hi' Hrun' Hstuck) as (Ee & Eb & Ead & Ebl). split_and!; [done|done|].
    intros Had Hb Hdone. rewrite <-(inv_workers _ _ _ Hi) in Hdone.
    assert (queue_ (pool s') = []) as Eq.
    { destruct (stopped_drained k s s' Hk Hrun Ha Had Hb Hdone) as [|Hlt]; [done|]. rewrite (inv_workers _ _ _ Hi') in Hlt. lia. }
    split; [done|]. destruct Hi' as [_ _ I3 I4 _ _ _ _ _ _]. rewrite Had, Hb, Ead, (Ebl Eq), !app_nil_r in Hp.
    rewrite <-Hp, <-I3, Eq, app_nil_r, <-I4, Eb. cbn. by rewrite app_nil_r.
Qed.
End Stop.

Section Witness.
Import ThreadPool.

(** One worker, one task in the queue, and [stop]. *)
Definition toy_stopped : sys Z := mksys (mk [7] 1 false) 1 0 [] 0 0 [] [] [7] [] [].

Lemma toy_stopped_reached : rtc any_step (ThreadPool.start 1 toy_pool) toy_stopped.
Proof.
  eapply rtc_l; [right; apply (add_called _ 7)|].
  eapply rtc_l; [left; eapply (add_queues _ 7 [] []); reflexivity|].
  eapply rtc_l; [right; apply stop_called|]. done.
Qed.

Lemma pool_stops_witness :
  remaining 1 toy_stopped = 9%nat ∧
  ∀ s', rtc step toy_stopped s' → (∀ s'', ¬ step s' s'') → ended s' = 1%nat ∧ executed s' ≡ₚ [7].
Proof.
  split; [reflexivity|]. intros s' Hs Hst. destruct (pool_stops 1 toy_pool toy_stopped) as (_ & H).
  - done.
  - done.
  - apply toy_stopped_reached.
  - done.
  - destruct (H s' Hs Hst) as (He & _ & Hx). split; [done|]. apply Hx; [done|done|right; cbn; lia].
Defined.
End Witness.
