(* ===== verification/EventLoop.v ===== *)
(** * EventLoop.h, EventLoop.cc: the reactor of one thread

    The loop polls, dispatches the active channels and runs the functors that any
    thread may queue.  Functors are elements of a type [F] that the users of the
    loop choose (defunctionalised [std::function]s); [tid] is the thread that is
    executing ([CurrentThread::tid()]).  The eventfd that wakes the loop up belongs
    to the kernel (class [Eventfd]).  [queueInLoop] and the body of [loop] are sequences
    of accesses to what threads share; the last part runs them interleaved. *)
From stdpp Require Import relations.
From S2P Require Import Prelude Text Channel EPollPoller.

(** [eventfd(2)]: a counter that a write makes readable and a read drains. *)
Class Eventfd (V : Type) := {
  eventfd_write : V → V;
  eventfd_read : V → V;
  eventfd_readable : V → bool
}.

Class EventfdLaws (V : Type) (EV : Eventfd V) : Prop := {
  readable_after_write v : eventfd_readable (eventfd_write v) = true
}.

(** The loop as a queue of functors and timers. *)
Class FunctorLoop (L F : Type) := {
  queueFunctor : L → F → L;
  runFunctorAfter : L → double → F → res L
}.

Class FunctorLoopLaws (L F : Type) (CL : ChannelLoop L) (CLL : ChannelLoopLaws L CL)
    (FL : FunctorLoop L F) : Prop := {
  queue_law l f :
    isInLoopThread (queueFunctor l f) = isInLoopThread l ∧
    (∀ h, loop_inv l h → loop_inv (queueFunctor l f) h) ∧
    (∀ d, may_remove l d → may_remove (queueFunctor l f) d);
  runAfter_law l l' s f :
    runFunctorAfter l s f = Ok l' →
    isInLoopThread l' = isInLoopThread l ∧
    (∀ h, loop_inv l h → loop_inv l' h) ∧
    (∀ d, may_remove l d → may_remove l' d)
}.

Module EventLoop.

Definition kPollTimeMs : Z := 10000.

Section EventLoop.
Context `{EP : Epoll E, EV : Eventfd V} {F : Type}.

Record t := mk {
  self : positive;
  looping_ : bool;
  quit_ : bool;
  eventHandling_ : bool;
  callingPendingFunctors_ : bool;
  iteration_ : Z;
  threadId_ : Z;
  pollReturnTime_ : Z;
  poller_ : EPollPoller.t E;
  wakeupFd_ : V;
  activeChannels_ : list positive;
  currentActiveChannel_ : option positive;
  pendingFunctors_ : list F;
  tid : Z
}.

Definition set_looping (l : t) (v : bool) : t :=
  mk (self l) v (quit_ l) (eventHandling_ l) (callingPendingFunctors_ l) (iteration_ l)
     (threadId_ l) (pollReturnTime_ l) (poller_ l) (wakeupFd_ l) (activeChannels_ l)
     (currentActiveChannel_ l) (pendingFunctors_ l) (tid l).
Definition set_quit (l : t) (v : bool) : t :=
  mk (self l) (looping_ l) v (eventHandling_ l) (callingPendingFunctors_ l) (iteration_ l)
     (threadId_ l) (pollReturnTime_ l) (poller_ l) (wakeupFd_ l) (activeChannels_ l)
     (currentActiveChannel_ l) (pendingFunctors_ l) (tid l).
Definition set_eventHandling (l : t) (v : bool) : t :=
  mk (self l) (looping_ l) (quit_ l) v (callingPendingFunctors_ l) (iteration_ l)
     (threadId_ l) (pollReturnTime_ l) (poller_ l) (wakeupFd_ l) (activeChannels_ l)
     (currentActiveChannel_ l) (pendingFunctors_ l) (tid l).
Definition set_callingPendingFunctors (l : t) (v : bool) : t :=
  mk (self l) (looping_ l) (quit_ l) (eventHandling_ l) v (iteration_ l) (threadId_ l)
     (pollReturnTime_ l) (poller_ l) (wakeupFd_ l) (activeChannels_ l) (currentActiveChannel_
     l) (pendingFunctors_ l) (tid l).
Definition set_iteration (l : t) (v : Z) : t :=
  mk (self l) (looping_ l) (quit_ l) (eventHandling_ l) (callingPendingFunctors_ l) v
     (threadId_ l) (pollReturnTime_ l) (poller_ l) (wakeupFd_ l) (activeChannels_ l)
     (currentActiveChannel_ l) (pendingFunctors_ l) (tid l).
Definition set_pollReturnTime (l : t) (v : Z) : t :=
  mk (self l) (looping_ l) (quit_ l) (eventHandling_ l) (callingPendingFunctors_ l)
     (iteration_ l) (threadId_ l) v (poller_ l) (wakeupFd_ l) (activeChannels_ l)
     (currentActiveChannel_ l) (pendingFunctors_ l) (tid l).
Definition set_poller (l : t) (v : EPollPoller.t E) : t :=
  mk (self l) (looping_ l) (quit_ l) (eventHandling_ l) (callingPendingFunctors_ l)
     (iteration_ l) (threadId_ l) (pollReturnTime_ l) v (wakeupFd_ l) (activeChannels_ l)
     (currentActiveChannel_ l) (pendingFunctors_ l) (tid l).
Definition set_wakeupFd (l : t) (v : V) : t :=
  mk (self l) (looping_ l) (quit_ l) (eventHandling_ l) (callingPendingFunctors_ l)
     (iteration_ l) (threadId_ l) (pollReturnTime_ l) (poller_ l) v (activeChannels_ l)
     (currentActiveChannel_ l) (pendingFunctors_ l) (tid l).
Definition set_activeChannels (l : t) (v : list positive) : t :=
  mk (self l) (looping_ l) (quit_ l) (eventHandling_ l) (callingPendingFunctors_ l)
     (iteration_ l) (threadId_ l) (pollReturnTime_ l) (poller_ l) (wakeupFd_ l) v
     (currentActiveChannel_ l) (pendingFunctors_ l) (tid l).
Definition set_currentActiveChannel (l : t) (v : option positive) : t :=
  mk (self l) (looping_ l) (quit_ l) (eventHandling_ l) (callingPendingFunctors_ l)
     (iteration_ l) (threadId_ l) (pollReturnTime_ l) (poller_ l) (wakeupFd_ l)
     (activeChannels_ l) v (pendingFunctors_ l) (tid l).
Definition set_pendingFunctors (l : t) (v : list F) : t :=
  mk (self l) (looping_ l) (quit_ l) (eventHandling_ l) (callingPendingFunctors_ l)
     (iteration_ l) (threadId_ l) (pollReturnTime_ l) (poller_ l) (wakeupFd_ l)
     (activeChannels_ l) (currentActiveChannel_ l) v (tid l).
Definition set_tid (l : t) (v : Z) : t :=
  mk (self l) (looping_ l) (quit_ l) (eventHandling_ l) (callingPendingFunctors_ l)
     (iteration_ l) (threadId_ l) (pollReturnTime_ l) (poller_ l) (wakeupFd_ l)
     (activeChannels_ l) (currentActiveChannel_ l) (pendingFunctors_ l) v.

Definition isInLoopThread (l : t) : bool := threadId_ l =? tid l.

(** [assertInLoopThread]; [abortNotInLoopThread] is a fatal log. *)
Definition assertInLoopThread (l : t) : res unit :=
  if isInLoopThread l then mret () else Fault Fatal.

Definition wakeup (l : t) : t := set_wakeupFd l (eventfd_write (wakeupFd_ l)).
Definition handleRead (l : t) : t := set_wakeupFd l (eventfd_read (wakeupFd_ l)).

(** The locked part of [queueInLoop]. *)
Definition push (l : t) (cb : F) : t := set_pendingFunctors l (pendingFunctors_ l ++ [cb]).
Definition needs_wakeup (l : t) : bool := negb (isInLoopThread l) || callingPendingFunctors_ l.

(** [queueInLoop] as its accesses to what the threads share: the locked push, the test, the
    write to the eventfd.  Another thread may get in between any two of them. *)
Inductive code :=
  | Push (cb : F) (k : code)
  | If (test : t → bool) (yes no : code)
  | Wakeup (k : code)
  | Done.

Definition queueInLoop_code (cb : F) : code := Push cb (If needs_wakeup (Wakeup Done) Done).

Fixpoint exec (c : code) (l : t) : t :=
  match c with
  | Push cb k => exec k (push l cb)
  | If test yes no => if test l then exec yes l else exec no l
  | Wakeup k => exec k (wakeup l)
  | Done => l
  end.

(** Without an interruption. *)
Definition queueInLoop (l : t) (cb : F) : t := exec (queueInLoop_code cb) l.

(** [doPendingFunctors] and the body of the [while] of [loop], as sequences of stages. *)
Inductive functor_stage := SetCalling (b : bool) | Swap | RunFunctors.
Definition doPendingFunctors_code : list functor_stage := [SetCalling true; Swap; RunFunctors; SetCalling false].

Inductive stage := PollEvents | HandleEvents | Functors (c : functor_stage).
Definition iterate_code : list stage := PollEvents :: HandleEvents :: map Functors doPendingFunctors_code.

(** The stages that only concern the queue, on the vector and the loop. *)
Definition on_queue (c : functor_stage) (functors : list F) (l : t) : list F * t :=
  match c with
  | SetCalling b => (functors, set_callingPendingFunctors l b)
  | Swap => (pendingFunctors_ l, set_pendingFunctors l functors)
  | RunFunctors => (functors, l)
  end.

Definition queueSize (l : t) : Z := zlen (pendingFunctors_ l).

Definition quit (l : t) : t :=
  let l := set_quit l true in
  if isInLoopThread l then l else wakeup l.

Definition updateChannel (l : t) (c : Channel.t) : res (t * Channel.t) :=
  _ ← cassert (bool_decide (Channel.loop_ c = self l));
  _ ← assertInLoopThread l;
  '(p, c) ← EPollPoller.updateChannel (poller_ l) c;
  mret (set_poller l p, c).

Definition removeChannel (l : t) (c : Channel.t) : res (t * Channel.t) :=
  _ ← cassert (bool_decide (Channel.loop_ c = self l));
  _ ← assertInLoopThread l;
  _ ← (if eventHandling_ l then
         cassert (bool_decide (currentActiveChannel_ l = Some (Channel.addr c)) ||
                  bool_decide (Channel.addr c ∉ activeChannels_ l))
       else mret ());
  '(p, c) ← EPollPoller.removeChannel (poller_ l) c;
  mret (set_poller l p, c).

Definition hasChannel (l : t) (c : Channel.t) : res bool :=
  _ ← cassert (bool_decide (Channel.loop_ c = self l));
  _ ← assertInLoopThread l;
  mret (EPollPoller.hasChannel (poller_ l) c).

#[global] Instance loop_channels : ChannelLoop t := {|
  Channel.updateChannel := updateChannel;
  Channel.removeChannel := removeChannel;
  Channel.hasChannel := hasChannel;
  Channel.isInLoopThread := isInLoopThread
|}.

(** The constructor, in the thread [tid], without the timer queue: the poller, the
    eventfd and the wakeup channel, which is always read. *)
Definition make (this wakeup_addr : positive) (tid wakeupfd : Z) (e : E) (v : V) :
    res (t * Channel.t) :=
  let l := mk this false false false false 0 tid 0 (EPollPoller.make e) v [] None [] tid in
  ChannelOps.enableReading l (Channel.make wakeup_addr this wakeupfd).

(** ** Running functors and dispatching events

    The rest of the loop acts on a world [W] that holds the loop, the live channels
    and whatever the callbacks reach. *)
Section Run.
Context {W : Type} (get : W → t) (put : W → t → W).
Context (heap : W → gmap positive Channel.t) (put_heap : W → gmap positive Channel.t → W).
Variable run : F → W → res W.
Variable handleEvent : positive → Z → W → res W. (* Channel::handleEvent *)

Definition runInLoop (w : W) (cb : F) : res W :=
  if isInLoopThread (get w) then run cb w else mret (put w (queueInLoop (get w) cb)).

Fixpoint run_functors (functors : list F) (w : W) : res W :=
  match functors with
  | [] => mret w
  | functor :: functors' => w ← run functor w; run_functors functors' w
  end.

(** [doPendingFunctors] as its accesses to what the threads share, with the local vector
    [functors]. *)
Definition run_functor_stage (c : functor_stage) (x : list F * W) : res (list F * W) :=
  let '(functors, w) := x in
  match c with
  | RunFunctors => w ← run_functors functors w; mret ([], w)
  | _ => let '(functors, l) := on_queue c functors (get w) in mret (functors, put w l)
  end.

Fixpoint run_stages {A} (run_stage : A → list F * W → res (list F * W)) (cs : list A) (x : list F * W) :
    res (list F * W) :=
  match cs with
  | [] => mret x
  | c :: cs' => x ← run_stage c x; run_stages run_stage cs' x
  end.

Definition doPendingFunctors (w : W) : res W :=
  snd <$> run_stages run_functor_stage doPendingFunctors_code ([], w).

Fixpoint dispatch (channels : list positive) (w : W) : res W :=
  match channels with
  | [] => mret w
  | channel :: channels' =>
      let w := put w (set_currentActiveChannel (get w) (Some channel)) in
      w ← handleEvent channel (pollReturnTime_ (get w)) w;
      dispatch channels' w
  end.

(** The stages of an iteration of [loop]; [now] and [r] are what the poll returned. *)
Definition run_stage (now : Z) (r : EPollPoller.wait_result) (c : stage) (x : list F * W) : res (list F * W) :=
  match c with
  | PollEvents =>
      let '(functors, w) := x in
      '(p, h, active) ← EPollPoller.poll (poller_ (get w)) (heap w) r [];
      let w := put_heap w h in
      let l := set_activeChannels (set_poller (get w) p) active in
      mret (functors, put w (set_iteration (set_pollReturnTime l now) (i64 (iteration_ l + 1))))
  | HandleEvents =>
      let '(functors, w) := x in
      let w := put w (set_eventHandling (get w) true) in
      w ← dispatch (activeChannels_ (get w)) w;
      mret (functors, put w (set_eventHandling (set_currentActiveChannel (get w) None) false))
  | Functors c => run_functor_stage c x
  end.

Definition iterate (now : Z) (r : EPollPoller.wait_result) (w : W) : res W :=
  snd <$> run_stages (run_stage now r) iterate_code ([], w).

(** The [while] of [loop], for as many polls as the environment answers. *)
Fixpoint iterations (polls : list (Z * EPollPoller.wait_result)) (w : W) : res W :=
  if quit_ (get w) then mret w else
  match polls with
  | [] => mret w
  | (now, r) :: polls' => w ← iterate now r w; iterations polls' w
  end.

Definition loop (polls : list (Z * EPollPoller.wait_result)) (w : W) : res W :=
  _ ← cassert (negb (looping_ (get w)));
  _ ← assertInLoopThread (get w);
  let w := put w (set_quit (set_looping (get w) true) false) in
  w ← iterations polls w;
  mret (if quit_ (get w) then put w (set_looping (get w) false) else w).

End Run.
End EventLoop.
#[global] Arguments t E V F : clear implicits.
End EventLoop.

(** ** The loop keeps what it promises to the owners of channels *)

Section Promises.
Import EventLoop.
Context `{EP : Epoll E, EL : !EpollLaws E EP, EV : Eventfd V} {F : Type}.

Definition channels_ok (l : t E V F) (h : gmap positive Channel.t) : Prop :=
  poller_ok (poller_ l) h ∧ ∀ a c, h !! a = Some c → Channel.loop_ c = self l.

(** A channel may be removed outside event handling, from its own callback, or when
    it is not among the active ones. *)
Definition removable (l : t E V F) (c : Channel.t) : Prop :=
  eventHandling_ l = true →
  currentActiveChannel_ l = Some (Channel.addr c) ∨ Channel.addr c ∉ activeChannels_ l.

#[global] Instance loop_laws : ChannelLoopLaws (t E V F) loop_channels.
Proof.
  refine {| loop_inv := channels_ok; may_remove := removable |}.
  - intros l c c' Ha Hm He. rewrite <-Ha. by apply Hm.
  - intros l h c0 c Hin [Hok Hown] Hc0 Hs Hf. cbn in Hin |- *. unfold updateChannel, assertInLoopThread.
    destruct (updateChannel_spec _ _ _ _ Hok Hc0 Hs Hf) as (p' & c' & Hu & Hc' & Hn & _ & Hok').
    rewrite (bool_decide_true (Channel.loop_ c = self l))
      by (destruct Hs as (_ & Hl & _); rewrite <-Hl; by eapply Hown).
    rewrite Hin, Hu. cbn [mbind res_bind cassert mret res_ret]. eexists _, c'. split_and!; [done..| |].
    + split; [done|]. intros a d. rewrite lookup_insert_Some.
      intros [[<- <-]|[_ Hd]]; [|by eapply Hown].
      rewrite Hc'. destruct Hs as (_ & Hl & _). cbn. rewrite <-Hl. by eapply Hown.
    + done.
  - intros l h c0 c Hin [Hok Hown] Hc0 Hs Hu Hn Hm. cbn in Hin |- *.
    unfold removeChannel, assertInLoopThread.
    destruct (removeChannel_spec _ _ _ _ Hok Hc0 Hs Hu Hn) as (p' & Hr & _ & Hok').
    rewrite (bool_decide_true (Channel.loop_ c = self l))
      by (destruct Hs as (_ & Hl & _); rewrite <-Hl; by eapply Hown).
    rewrite Hin, Hr. change (cassert true) with (Ok ()). cbn [mbind res_bind mret res_ret].
    match goal with |- context [mbind _ ?m] => assert (m = Ok ()) as -> end.
    { destruct (eventHandling_ l) eqn:He; [|done].
      destruct (Hm He) as [Hcur|Hact]; [by rewrite (bool_decide_true _ Hcur)|].
      by rewrite (bool_decide_true _ Hact), orb_true_r. }
    cbn [mbind res_bind]. eexists. split_and!; [done..|].
    split; [done|]. intros a d. rewrite lookup_insert_Some.
    intros [[<- <-]|[_ Hd]]; [|by eapply Hown].
    destruct Hs as (_ & Hl & _). cbn. rewrite <-Hl. by eapply Hown.
Defined.

End Promises.

(** ** Functors queued from any thread

    The thread of the loop runs the stages of [iterate_code] over and over; a thread that
    queues a functor runs [queueInLoop_code], which is also what the loop's own thread does
    in a callback or in a functor.  Any of them may be interrupted between two accesses. *)
Section Interleaving.
Import EventLoop.
Context `{EP : Epoll E, EV : Eventfd V, EVL : !EventfdLaws V EV} {F : Type}.

(** [rest]: the stages left of the iteration; [functors]: what is left of the vector of
    [doPendingFunctors]; [woken]: the poll found the eventfd readable, and [handleRead] has
    not run; [calls]: the threads inside [queueInLoop]; [rounds] counts the iterations
    begun; [submitted] and [executed] record the functors in order. *)
Record sys := mksys {
  lp : EventLoop.t E V F;
  rest : list stage;
  functors : list F;
  woken : bool;
  calls : gmap Z (code (E := E) (V := V) (F := F));
  submitted : list F;
  executed : list F;
  rounds : nat
}.
Implicit Types (s : sys) (θ : Z) (l : EventLoop.t E V F) (c : code (E := E) (V := V) (F := F)).

(** The next access of a thread inside [queueInLoop]: the loop, what is left of the call,
    and the functor that was pushed. *)
Definition call_step θ c l : EventLoop.t E V F * code * list F :=
  match c with
  | Push cb k => (push l cb, k, [cb])
  | If test yes no => (l, if test (set_tid l θ) then yes else no, [])
  | Wakeup k => (wakeup l, k, [])
  | Done => (l, Done, [])
  end.

Definition advance θ s : option sys :=
  c ← calls s !! θ;
  let '(l, k, new) := call_step θ c (lp s) in
  let cs := match k with Done => delete θ (calls s) | _ => <[θ := k]> (calls s) end in
  Some (mksys l (rest s) (functors s) (woken s) cs (submitted s ++ new) (executed s) (rounds s)).

Definition set_stage s l (cs : list stage) (fs : list F) (woken : bool) : sys :=
  mksys l cs fs woken (calls s) (submitted s) (executed s) (rounds s).

(** The next step of the thread of the loop outside [queueInLoop].  A poll returns: it has
    a timeout.  Of the events, only the wakeup is followed; a functor runs in one step,
    apart from what it queues. *)
Definition loop_step s : option sys :=
  if decide (is_Some (calls s !! threadId_ (lp s))) then None else
  match rest s with
  | [] =>
      if quit_ (lp s) then None
      else Some (mksys (lp s) iterate_code [] false (calls s) (submitted s) (executed s) (S (rounds s)))
  | PollEvents :: cs => Some (set_stage s (lp s) cs (functors s) (eventfd_readable (wakeupFd_ (lp s))))
  | HandleEvents :: cs =>
      if woken s then Some (set_stage s (handleRead (lp s)) (rest s) (functors s) false)
      else Some (set_stage s (lp s) cs (functors s) false)
  | Functors RunFunctors :: cs =>
      match functors s with
      | f :: fs => Some (mksys (lp s) (rest s) fs (woken s) (calls s) (submitted s) (executed s ++ [f]) (rounds s))
      | [] => Some (set_stage s (lp s) cs [] (woken s))
      end
  | Functors c :: cs =>
      let '(fs, l) := on_queue c (functors s) (lp s) in Some (set_stage s l cs fs (woken s))
  end.

(** A thread that may call [queueInLoop]: the loop's own does so in callbacks and functors. *)
Definition may_call s θ : Prop :=
  calls s !! θ = None ∧
  (θ = threadId_ (lp s) → match rest s with HandleEvents :: _ | Functors RunFunctors :: _ => True | _ => False end).

Inductive sys_step : sys → sys → Prop :=
  | step_call s θ f :
      may_call s θ →
      sys_step s (mksys (lp s) (rest s) (functors s) (woken s) (<[θ := queueInLoop_code f]> (calls s))
                    (submitted s) (executed s) (rounds s))
  | step_advance s s' θ : advance θ s = Some s' → sys_step s s'
  | step_loop s s' : loop_step s = Some s' → sys_step s s'.

(** A loop that starts looping, with functors queued before it did. *)
Definition sys_init s : Prop :=
  rest s = [] ∧ functors s = [] ∧ calls s = ∅ ∧ quit_ (lp s) = false ∧ callingPendingFunctors_ (lp s) = false ∧
  executed s = [] ∧ submitted s = pendingFunctors_ (lp s) ∧
  (pendingFunctors_ (lp s) ≠ [] → eventfd_readable (wakeupFd_ (lp s)) = true).

Definition sys_reachable s0 s : Prop := sys_init s0 ∧ rtc sys_step s0 s.

(** *** The invariant *)

Fixpoint tails {A} (xs : list A) : list (list A) := xs :: match xs with [] => [] | _ :: xs' => tails xs' end.

Definition calling_stage (cs : list stage) : bool :=
  match cs with
  | Functors (Swap | RunFunctors | SetCalling false) :: _ => true
  | _ => false
  end.

(** A call that has pushed its functor, and will write to the eventfd. *)
Definition owes l θ c : Prop :=
  match c with
  | Push _ _ | Done => False
  | _ => eventfd_readable (wakeupFd_ (exec c (set_tid l θ))) = true
  end.
(** The stages at which nothing queued may be left uncovered: around the poll, and while
    functors run. *)
Definition exposed (cs : list stage) : Prop :=
  match cs with
  | [] | PollEvents :: _ | Functors (RunFunctors | SetCalling false) :: _ => True
  | _ => False
  end.
Definition covered s : Prop :=
  pendingFunctors_ (lp s) ≠ [] →
  eventfd_readable (wakeupFd_ (lp s)) = true ∨ ∃ θ c, calls s !! θ = Some c ∧ owes (lp s) θ c.

Record sys_inv s : Prop := {
  si_calls θ c : calls s !! θ = Some c →
    (∃ f, c = queueInLoop_code f) ∨ c = If needs_wakeup (Wakeup Done) Done ∨ c = Wakeup Done;
  si_thread : is_Some (calls s !! threadId_ (lp s)) →
    match rest s with HandleEvents :: _ | Functors RunFunctors :: _ => True | _ => False end;
  si_rest : rest s ∈ tails iterate_code;
  si_quit : quit_ (lp s) = false;
  si_calling : callingPendingFunctors_ (lp s) = calling_stage (rest s);
  si_wakeup : exposed (rest s) → covered s;
  si_functors : match rest s with Functors RunFunctors :: _ => True | _ => functors s = [] end;
  si_fifo : executed s ++ functors s ++ pendingFunctors_ (lp s) = submitted s
}.

Lemma needs_wakeup_other l θ : θ ≠ threadId_ l → needs_wakeup (set_tid l θ) = true.
Proof. intros H. unfold needs_wakeup, isInLoopThread. cbn. apply orb_true_intro. left. by apply negb_true_iff, Z.eqb_neq. Qed.

Lemma owes_if l θ : needs_wakeup (set_tid l θ) = true → owes l θ (If needs_wakeup (Wakeup Done) Done).
Proof. intros H. cbn. rewrite H. apply readable_after_write. Qed.

Lemma owes_other l θ c : θ ≠ threadId_ l → c = If needs_wakeup (Wakeup Done) Done ∨ c = Wakeup Done → owes l θ c.
Proof. intros H [->| ->]; [by apply owes_if, needs_wakeup_other|apply readable_after_write]. Qed.

(** What a call owes depends on the flag of the loop, its thread and the eventfd only. *)
Lemma owes_ext l l' θ c :
  (∃ f, c = queueInLoop_code f) ∨ c = If needs_wakeup (Wakeup Done) Done ∨ c = Wakeup Done →
  threadId_ l' = threadId_ l → callingPendingFunctors_ l' = callingPendingFunctors_ l → owes l θ c →
  (eventfd_readable (wakeupFd_ l) = true → eventfd_readable (wakeupFd_ l') = true) → owes l' θ c.
Proof.
  intros Hc Ht Hcall Ho Hfd. destruct Hc as [[f ->]|[->| ->]]; [done| |apply readable_after_write].
  cbn in *. unfold needs_wakeup, isInLoopThread in *. cbn in *. rewrite Ht, Hcall.
  destruct (_ || _); [apply readable_after_write|auto].
Qed.

Lemma tails_cases (cs : list stage) :
  cs ∈ tails iterate_code → cs = iterate_code ∨ cs = HandleEvents :: map Functors doPendingFunctors_code ∨
  cs = map Functors doPendingFunctors_code ∨ cs = [Functors Swap; Functors RunFunctors; Functors (SetCalling false)] ∨
  cs = [Functors RunFunctors; Functors (SetCalling false)] ∨ cs = [Functors (SetCalling false)] ∨ cs = [].
Proof. cbn. rewrite !elem_of_cons, elem_of_nil. tauto. Qed.

Lemma call_inv s θ f :
  sys_inv s → may_call s θ →
  sys_inv (mksys (lp s) (rest s) (functors s) (woken s) (<[θ := queueInLoop_code f]> (calls s))
    (submitted s) (executed s) (rounds s)).
Proof.
  intros [Hc Ht Hr Hq Hcall Hw Hf Hfifo] [Hno Hth].
  assert (covered s → covered (mksys (lp s) (rest s) (functors s) (woken s) (<[θ := queueInLoop_code f]> (calls s))
    (submitted s) (executed s) (rounds s))) as Hcov.
  { intros H Hne. destruct (H Hne) as [?|(θ' & c & Hl & Ho)]; [by left|]. right. exists θ', c. split; [|done].
    cbn. rewrite lookup_insert_ne; congruence. }
  split; cbn [lp rest functors woken calls submitted executed]; try done.
  - intros θ' c. rewrite lookup_insert_Some. intros [[_ <-]|[_ H]]; [left; by eexists|by eapply Hc].
  - intros [c H]. rewrite lookup_insert_Some in H. destruct H as [[Heq _]|[_ H]]; [by apply Hth|apply Ht; by eexists].
  - auto.
Qed.

(** A call whose loop is in a stage that must be covered is one that will write. *)
Lemma call_needs_wakeup s θ c :
  sys_inv s → calls s !! θ = Some c →
  exposed (rest s) → needs_wakeup (set_tid (lp s) θ) = true.
Proof.
  intros [_ Ht _ _ Hcall _ _ _] Hθ. destruct (decide (θ = threadId_ (lp s))) as [->|Hne].
  - specialize (Ht ltac:(by eexists)). unfold needs_wakeup. cbn. rewrite Hcall.
    destruct (rest s) as [|[| |[[]| |]] ?]; try done. cbn. by rewrite orb_true_r.
  - intros _. by apply needs_wakeup_other.
Qed.

Lemma advance_inv s s' θ : sys_inv s → advance θ s = Some s' → sys_inv s'.
Proof.
  intros Hinv. pose proof Hinv as [Hc Ht Hr Hq Hcall Hw Hf Hfifo]. unfold advance.
  destruct (calls s !! θ) as [c|] eqn:Eθ; [|done]. cbn [mbind option_bind].
  pose proof (call_needs_wakeup s θ c Hinv Eθ) as Hneed.
  assert (∀ θ' x (m : gmap Z code) p, is_Some (<[θ := x]> m !! p) → m = calls s → is_Some (calls s !! p)) as Hins.
  { intros θ' x m p [y Hy] ->. rewrite lookup_insert_Some in Hy. destruct Hy as [[<- _]|[_ Hy]]; by eexists. }
  destruct (Hc θ c Eθ) as [[f ->]|[->| ->]]; cbn [call_step queueInLoop_code]; intros [= <-].
  - split; cbn [lp rest functors woken calls submitted executed push]; try done.
    + intros θ' c'. rewrite lookup_insert_Some. intros [[_ <-]|[_ H]]; [auto|by eapply Hc].
    + intros H. apply Ht. by eapply Hins.
    + intros Hst _. right. exists θ, (If needs_wakeup (Wakeup Done) Done). cbn [calls].
      rewrite lookup_insert_eq. split; [done|]. apply owes_if.
      exact (Hneed Hst).
    + cbn. by rewrite <-Hfifo, !app_assoc.
  - destruct (needs_wakeup (set_tid (lp s) θ)) eqn:En.
    + split; cbn [lp rest functors woken calls submitted executed]; rewrite ?app_nil_r; try done.
      * intros θ' c'. rewrite lookup_insert_Some. intros [[_ <-]|[_ H]]; [auto|by eapply Hc].
      * intros H. apply Ht. by eapply Hins.
      * intros Hst Hne. destruct (Hw Hst Hne) as [?|(θ' & c' & Hl & Ho)]; [by left|].
        right. cbn [calls lp]. destruct (decide (θ' = θ)) as [->|Hne'].
        -- exists θ, (Wakeup Done). rewrite lookup_insert_eq. split; [done|]. apply readable_after_write.
        -- exists θ', c'. by rewrite lookup_insert_ne.
    + split; cbn [lp rest functors woken calls submitted executed]; rewrite ?app_nil_r; try done.
      * intros θ' c' [_ H]%lookup_delete_Some. by eapply Hc.
      * intros [c' [_ H]%lookup_delete_Some]. apply Ht. by eexists.
      * intros Hst. by specialize (Hneed Hst).
  - split; cbn [lp rest functors woken calls submitted executed wakeup]; rewrite ?app_nil_r; try done.
    + intros θ' c' [_ H]%lookup_delete_Some. by eapply Hc.
    + intros [c' [_ H]%lookup_delete_Some]. apply Ht. by eexists.
    + intros _ _. left. apply readable_after_write.
Qed.

Lemma loop_step_inv s s' : sys_inv s → loop_step s = Some s' → sys_inv s'.
Proof.
  intros [Hc Ht Hr Hq Hcall Hw Hf Hfifo]. unfold loop_step. destruct (decide _) as [|Hno]; [done|].
  assert (∀ θ c, calls s !! θ = Some c → θ ≠ threadId_ (lp s)) as Hother by (intros θ c H ->; apply Hno; by eexists).
  assert (∀ l cs fs wk, threadId_ l = threadId_ (lp s) → callingPendingFunctors_ l = calling_stage cs →
    quit_ l = false → wakeupFd_ l = wakeupFd_ (lp s) → cs ∈ tails iterate_code →
    (exposed cs → pendingFunctors_ l = [] ∨ (exposed (rest s) ∧ pendingFunctors_ l = pendingFunctors_ (lp s))) →
    match cs with Functors RunFunctors :: _ => True | _ => fs = [] end →
    executed s ++ fs ++ pendingFunctors_ l = submitted s →
    ∀ r, sys_inv (mksys l cs fs wk (calls s) (submitted s) (executed s) r)) as Hmk.
  { intros l cs fs wk Hl1 Hl2 Hl3 Hl4 Hcs Hcov Hfs Hff r.
    assert (exposed cs → covered (mksys l cs fs wk (calls s) (submitted s) (executed s) r)) as Hcv.
    { intros Hex Hne. destruct (Hcov Hex) as [He|[H He]]; cbn [lp calls] in *; [done|]. rewrite He in Hne. rewrite Hl4.
      destruct (Hw H Hne) as [?|(θ & c & Hθ & Ho)]; [by left|]. right. exists θ, c. split; [done|].
      destruct (Hc θ c Hθ) as [[f ->]|Hcc]; [done|]. apply owes_other; [rewrite Hl1; by eapply Hother|done]. }
    split; cbn [lp rest functors woken calls submitted executed]; try done.
    - rewrite Hl1. intros H. by destruct (Hno H). }
  destruct (tails_cases _ Hr) as [Er|[Er|[Er|[Er|[Er|[Er|Er]]]]]]; rewrite Er in *;
    cbn [iterate_code doPendingFunctors_code map on_queue calling_stage] in *; unfold set_stage.
  - intros [= <-]. apply Hmk; try done. cbn. set_solver.
  - destruct (woken s); intros [= <-].
    + split; cbn [lp rest functors woken calls submitted executed]; done.
    + apply Hmk; try done. cbn. set_solver.
  - intros [= <-]. apply Hmk; try done. cbn. set_solver.
  - intros [= <-]. rewrite Hf in *. apply Hmk; try done; [cbn; set_solver|by left|].
    cbn. by rewrite app_nil_r.
  - destruct (functors s) as [|f fs] eqn:Ef; intros [= <-].
    + apply Hmk; try done; [cbn; set_solver|by right].
    + split; cbn [lp rest functors woken calls submitted executed]; try done.
      by rewrite <-app_assoc.
  - intros [= <-]. rewrite Hf in *. apply Hmk; try done; [cbn; set_solver|by right].
  - rewrite Hq. intros [= <-]. apply Hmk; try done; [cbn; set_solver|by right|by rewrite Hf in Hfifo].
Qed.

Lemma sys_step_inv s s' : sys_inv s → sys_step s s' → sys_inv s'.
Proof. intros Hi Hs. revert Hi. destruct Hs; intros Hi; [by apply call_inv|by eapply advance_inv|by eapply loop_step_inv]. Qed.

Lemma sys_reachable_inv s0 s : sys_reachable s0 s → sys_inv s.
Proof.
  intros [(Hr & Hf & Hc & Hq & Hcall & He & Hs & Hfd) Hrtc].
  assert (sys_inv s0) as Hinv.
  { split; rewrite ?Hr, ?Hf, ?Hc, ?He; try done.
    - intros [c H]. by rewrite lookup_empty in H.
    - cbn. set_solver.
    - intros _ Hne. left. auto. }
  clear -Hinv Hrtc EVL. induction Hrtc as [|x y z Hxy _ IH]; [done|]. eauto using sys_step_inv.
Qed.

(** C22 (safety). No wakeup is lost, whatever the interleaving of the loop with threads that
    queue functors: when the loop is about to poll with functors pending, the eventfd is
    readable, so that [poll] returns at once, or some other thread is still inside
    [queueInLoop], behind the push of its functor, and what is left of its call makes the
    eventfd readable.  In particular nothing waits for the timeout of the poll when no
    thread is inside [queueInLoop]. *)
Theorem no_lost_wakeup s0 s (cs : list stage) :
  sys_reachable s0 s → rest s = PollEvents :: cs → pendingFunctors_ (lp s) ≠ [] →
  eventfd_readable (wakeupFd_ (lp s)) = true ∨
  ∃ θ c, calls s !! θ = Some c ∧ θ ≠ threadId_ (lp s) ∧ (match c with Push _ _ => False | _ => True end) ∧
    eventfd_readable (wakeupFd_ (exec c (set_tid (lp s) θ))) = true.
Proof.
  intros Hr Hp Hne. apply sys_reachable_inv in Hr as [_ Ht _ _ _ Hw _ _]. rewrite Hp in *.
  destruct (Hw I Hne) as [?|(θ & c & Hθ & Ho)]; [by left|]. right. exists θ, c. split; [done|]. split.
  - intros ->. apply Ht. by eexists.
  - by destruct c.
Qed.

(** Functors run at most once, in the order in which they were
    queued, whatever the interleaving: those executed, those swapped out and those
    pending are together the submitted ones, in order. *)
Theorem functors_fifo s0 s :
  sys_reachable s0 s → executed s ++ functors s ++ pendingFunctors_ (lp s) = submitted s.
Proof. intros Hr. by apply sys_reachable_inv in Hr as []. Qed.

(** *** Every functor runs *)

(** What has become of the functors [sub], submitted when [r] iterations had begun: in the
    next iteration the swap takes them, and when that is over they have run. *)
Record taken (sub : list F) (r : nat) s : Prop := {
  tk_submitted : sub `prefix_of` submitted s;
  tk_rounds : (r <= rounds s)%nat;
  tk_swapped : rounds s = S r → Functors Swap ∉ rest s → sub `prefix_of` executed s ++ functors s;
  tk_done : (S (S r) <= rounds s)%nat → sub `prefix_of` executed s
}.

Lemma taken_step sub r s s' : sys_inv s → taken sub r s → sys_step s s' → taken sub r s'.
Proof.
  intros Hi Htk Hs. revert Hi Htk. destruct Hs as [s θ f Hm|s s' θ Ha|s s' Hl]; intros Hi [Hsub Hrd Hsw Hdn].
  - by split.
  - unfold advance in Ha. destruct (calls s !! θ) as [c|]; [|done]. cbn [mbind option_bind] in Ha.
    destruct (call_step θ c (lp s)) as [[l k] new]. injection Ha as <-. split; cbn; try done. by apply prefix_app_r.
  - destruct Hi as [_ _ Hr Hq _ _ Hf Hfifo]. unfold loop_step in Hl. destruct (decide _); [done|].
    destruct (tails_cases _ Hr) as [Er|[Er|[Er|[Er|[Er|[Er|Er]]]]]]; rewrite Er in *;
      cbn [iterate_code doPendingFunctors_code map on_queue] in *; unfold set_stage in *.
    + injection Hl as <-. split; cbn; try done. set_solver.
    + destruct (woken s); injection Hl as <-; (split; cbn; try done; set_solver).
    + injection Hl as <-. split; cbn; try done. set_solver.
    + injection Hl as <-. split; cbn; try done. intros _ _. rewrite Hf in Hfifo. cbn in Hfifo. by rewrite Hfifo.
    + destruct (functors s) as [|f fs]; injection Hl as <-.
      * split; cbn; try done. intros Ea _. apply Hsw; [done|]. set_solver.
      * split; cbn; [done..| |].
        -- intros Ea Hn. rewrite <-app_assoc. by apply Hsw.
        -- intros Ea. apply prefix_app_r. auto.
    + injection Hl as <-. split; cbn; try done. intros Ea _. apply Hsw; [done|]. set_solver.
    + rewrite Hq in Hl. injection Hl as <-. split; cbn; try done; [lia|set_solver|]. intros Ea.
      destruct (decide (rounds s = S r)) as [Ea'|]; [|apply Hdn; lia].
      rewrite Hf, app_nil_r in Hsw. apply Hsw; [done|]. set_solver.
Qed.

(** The loop's thread, [n] steps of it and nobody else's. *)
Fixpoint alone (n : nat) s : option sys :=
  match n with O => Some s | S n' => s' ← loop_step s; alone n' s' end.

Lemma alone_app n m s s1 s2 : alone n s = Some s1 → alone m s1 = Some s2 → alone (n + m) s = Some s2.
Proof.
  revert s. induction n as [|n IH]; intros s; cbn; [by intros [= ->]|]. destruct (loop_step s) as [x|]; [|done]. apply IH.
Qed.

Lemma alone_steps n s s' : alone n s = Some s' → rtc sys_step s s'.
Proof.
  revert s. induction n as [|n IH]; intros s; cbn; [by intros [= ->]|]. destruct (loop_step s) as [x|] eqn:Ea; [|done].
  intros H. eapply rtc_l; [by apply step_loop|by apply IH].
Qed.

(** How many steps the loop is away from the end of its iteration, at most. *)
Definition stages_left s : nat := 2 * length (rest s) + length (functors s) + (if woken s then 1 else 0).

Lemma loop_alone s :
  sys_inv s → calls s = ∅ → rest s ≠ [] →
  ∃ s', loop_step s = Some s' ∧ calls s' = ∅ ∧ rounds s' = rounds s ∧
    (stages_left s' + length (pendingFunctors_ (lp s')) < stages_left s + length (pendingFunctors_ (lp s)))%nat.
Proof.
  intros [_ _ Hr Hq _ _ Hf _] Hc Hne. unfold loop_step. rewrite Hc, decide_False by (intros [x H]; by rewrite lookup_empty in H).
  destruct (tails_cases _ Hr) as [Er|[Er|[Er|[Er|[Er|[Er|Er]]]]]]; rewrite Er in *;
    cbn [iterate_code doPendingFunctors_code map on_queue] in *; unfold set_stage, stages_left; rewrite ?Er, ?Hf.
  - eexists. split; [done|]. cbn. destruct (eventfd_readable _), (woken s); split_and!; (done || lia).
  - destruct (woken s); (eexists; split; [done|]; cbn; split_and!; (done || lia)).
  - eexists. split; [done|]. cbn. destruct (woken s); split_and!; (done || lia).
  - eexists. split; [done|]. cbn. destruct (woken s); split_and!; (done || lia).
  - destruct (functors s); (eexists; split; [done|]; cbn; destruct (woken s); split_and!; (done || lia)).
  - eexists. split; [done|]. cbn. destruct (woken s); split_and!; (done || lia).
  - done.
Qed.

Lemma finish_iteration s :
  sys_inv s → calls s = ∅ →
  ∃ n s', alone n s = Some s' ∧ sys_inv s' ∧ calls s' = ∅ ∧ rest s' = [] ∧ rounds s' = rounds s ∧
    (n + length (pendingFunctors_ (lp s')) <= stages_left s + length (pendingFunctors_ (lp s)))%nat.
Proof.
  remember (stages_left s + length (pendingFunctors_ (lp s)))%nat as m eqn:Em.
  revert s Em. induction m as [m IH] using lt_wf_ind. intros s Em Hi Hc.
  destruct (decide (rest s = [])) as [Hr|Hr].
  - exists O, s. split_and!; try done. unfold stages_left in Em. lia.
  - destruct (loop_alone s Hi Hc Hr) as (s1 & E1 & Hc1 & Hr1 & Hlt).
    destruct (IH _ ltac:(rewrite Em; exact Hlt) s1 eq_refl) as (n & s' & En & Hi' & Hc' & Hr' & Hrd & Hn); [by eapply loop_step_inv|done|].
    exists (S n), s'. cbn. rewrite E1. split_and!; [done..|congruence|lia].
Qed.

Lemma begin_iteration s :
  sys_inv s → calls s = ∅ → rest s = [] →
  ∃ s', loop_step s = Some s' ∧ calls s' = ∅ ∧ rounds s' = S (rounds s) ∧ stages_left s' = 12%nat ∧ lp s' = lp s.
Proof.
  intros [_ _ _ Hq _ _ _ _] Hc Hr. unfold loop_step. rewrite Hc, decide_False by (intros [x H]; by rewrite lookup_empty in H).
  rewrite Hr, Hq. eexists. split; [done|]. done.
Qed.

(** C23 (liveness). Queued functors are not forgotten, as long as nobody quits the loop.
    The thread of the loop is never stuck: it has a next step, inside [queueInLoop] or
    outside.  Whatever the other threads do, when the loop has begun two more iterations,
    every functor that was submitted has run (in the order of submission).  And these come:
    when no thread is inside [queueInLoop] and nobody interferes, the loop begins them
    after boundedly many steps of its own. *)
Theorem functors_run s0 s :
  sys_reachable s0 s →
  is_Some (match calls s !! threadId_ (lp s) with Some _ => advance (threadId_ (lp s)) s | None => loop_step s end) ∧
  (∀ s', rtc sys_step s s' → (rounds s + 2 <= rounds s')%nat → submitted s `prefix_of` executed s') ∧
  (calls s = ∅ → ∃ n s', alone n s = Some s' ∧ rounds s' = (rounds s + 2)%nat ∧ executed s' = submitted s ∧
     (n <= 30 + length (functors s) + length (pendingFunctors_ (lp s)))%nat).
Proof.
  intros Hreach. pose proof (sys_reachable_inv s0 s Hreach) as Hi.
  assert (∀ s', rtc sys_step s s' → (rounds s + 2 <= rounds s')%nat → submitted s `prefix_of` executed s') as Hfair.
  { intros s' Hs Hrd. enough (taken (submitted s) (rounds s) s') as [_ _ _ Hdn] by (apply Hdn; lia).
    assert (taken (submitted s) (rounds s) s) as Htk by (split; [done|done|lia|lia]).
    clear Hrd. revert Htk. generalize (submitted s), (rounds s). intros sub r Htk.
    clear Hreach. induction Hs as [|x y z Hxy _ IH]; [done|]. apply IH; [by eapply sys_step_inv|by eapply taken_step]. }
  split; [|split; [done|]].
  - destruct (calls s !! _) as [c|] eqn:Ec.
    + unfold advance. rewrite Ec. cbn [mbind option_bind]. by destruct (call_step _ _ _) as [[l k] new].
    + destruct Hi as [_ _ Hr Hq _ _ _ _]. unfold loop_step. rewrite decide_False by (rewrite Ec; by intros []).
      destruct (tails_cases _ Hr) as [Er|[Er|[Er|[Er|[Er|[Er|Er]]]]]]; rewrite Er; cbn [iterate_code doPendingFunctors_code map on_queue];
        [by eexists|by destruct (woken s)|by eexists|by eexists|by destruct (functors s)|by eexists|rewrite Hq; by eexists].
  - intros Hc. destruct (finish_iteration s Hi Hc) as (n1 & s1 & E1 & Hi1 & Hc1 & Hr1 & Hrd1 & Hn1).
    destruct (begin_iteration s1 Hi1 Hc1 Hr1) as (s2 & E2 & Hc2 & Hrd2 & Hl2 & Hlp2).
    assert (sys_inv s2) as Hi2 by (by eapply loop_step_inv).
    destruct (finish_iteration s2 Hi2 Hc2) as (n3 & s3 & E3 & Hi3 & Hc3 & Hr3 & Hrd3 & Hn3).
    destruct (begin_iteration s3 Hi3 Hc3 Hr3) as (s4 & E4 & Hc4 & Hrd4 & _).
    assert (alone (n1 + (1 + (n3 + 1))) s = Some s4) as Ea.
    { eapply alone_app; [done|]. eapply (alone_app 1); [cbn; by rewrite E2|]. eapply alone_app; [done|]. cbn. by rewrite E4. }
    exists (n1 + (1 + (n3 + 1)))%nat, s4. split_and!; [done|lia| |].
    + assert (submitted s4 = submitted s) as Hsub.
      { clear -Ea. revert s Ea. generalize (n1 + (1 + (n3 + 1)))%nat. intros n. induction n as [|n IH]; intros s; cbn; [by intros [= ->]|].
        destruct (loop_step s) as [x|] eqn:Ex; [|done]. intros H. rewrite (IH x H). unfold loop_step, set_stage in Ex.
        destruct (decide _); [done|]. repeat case_match; by simplify_eq. }
      pose proof (Hfair s4 (alone_steps _ _ _ Ea) ltac:(lia)) as [k Hk].
      assert (sys_inv s4) as [_ _ _ _ _ _ _ Hff] by (by eapply loop_step_inv). rewrite Hsub in Hff.
      rewrite Hk in Hff |- *. rewrite <-!app_assoc in Hff. symmetry in Hff. rewrite <-(app_nil_r (submitted s)) in Hff at 1.
      apply app_inv_head, eq_sym in Hff. apply app_eq_nil in Hff as [-> _]. apply app_nil_r.
    + unfold stages_left in Hn1. rewrite Hlp2 in Hn3. assert (length (rest s) <= 6)%nat.
      { destruct Hi as [_ _ Hr _ _ _ _ _]. destruct (tails_cases _ Hr) as [Er|[Er|[Er|[Er|[Er|[Er|Er]]]]]]; rewrite Er; cbn; lia. }
      destruct (woken s); lia.
Qed.

End Interleaving.

(** ** A concrete eventfd, for the witnesses *)

Module ToyEventfd.

#[export] Instance toy_eventfd : Eventfd N := {|
  eventfd_write v := (v + 1)%N;
  eventfd_read v := 0%N;
  eventfd_readable v := (0 <? v)%N
|}.

#[export] Instance toy_eventfd_laws : EventfdLaws N toy_eventfd.
Proof. split. intros v. apply N.ltb_lt. cbn. lia. Qed.

End ToyEventfd.

Section Witness.
Import EventLoop ToyEpoll ToyEventfd.

(** A loop of thread 1 that is about to poll, and thread 2, which has pushed a functor. *)
Definition toy_loop : EventLoop.t interest_list N string :=
  mk 1 true false false false 0 1 0 (EPollPoller.make ∅) 0%N [] None [] 1.
Definition toy_sys0 : sys (V := N) := mksys toy_loop [] [] false ∅ [] [] 0.
Definition toy_sys1 : sys (V := N) :=
  mksys (push toy_loop "hello"%string) iterate_code [] false {[2 := If needs_wakeup (Wakeup Done) Done]} ["hello"%string] [] 1.
Definition toy_sys2 : sys (V := N) :=
  mksys (wakeup (push toy_loop "hello"%string)) iterate_code [] false ∅ ["hello"%string] [] 1.

Lemma toy_reachable1 : sys_reachable toy_sys0 toy_sys1.
Proof.
  split; [by repeat split|]. eapply rtc_l; [by apply step_loop; reflexivity|].
  eapply rtc_l; [apply (step_call _ 2 "hello"%string); split; [reflexivity|discriminate]|].
  apply rtc_once, (step_advance _ _ 2). reflexivity.
Qed.

Lemma toy_reachable2 : sys_reachable toy_sys0 toy_sys2.
Proof.
  split; [apply toy_reachable1|]. etrans; [apply toy_reachable1|].
  eapply rtc_l; [apply (step_advance _ _ 2); reflexivity|].
  apply rtc_once, (step_advance _ _ 2). reflexivity.
Qed.

Lemma no_lost_wakeup_witness :
  eventfd_readable (wakeupFd_ (lp toy_sys1)) = false ∧
  (∃ θ c, calls toy_sys1 !! θ = Some c ∧ eventfd_readable (wakeupFd_ (exec c (set_tid (lp toy_sys1) θ))) = true) ∧
  eventfd_readable (wakeupFd_ (lp toy_sys2)) = true.
Proof.
  split; [reflexivity|]. split.
  - destruct (no_lost_wakeup toy_sys0 toy_sys1 _ toy_reachable1 eq_refl) as [H|(θ & c & Hc & _ & _ & H)]; [discriminate..|].
    by exists θ, c.
  - destruct (no_lost_wakeup toy_sys0 toy_sys2 _ toy_reachable2 eq_refl) as [H|(θ & c & Hc & _)]; [discriminate|exact H|].
    discriminate Hc.
Defined.

Lemma functors_fifo_witness :
  executed toy_sys1 ++ functors toy_sys1 ++ pendingFunctors_ (lp toy_sys1) = ["hello"%string].
Proof. apply (functors_fifo toy_sys0 toy_sys1 toy_reachable1). Defined.

Lemma functors_run_witness :
  ∃ n s', alone n toy_sys2 = Some s' ∧ rounds s' = 3%nat ∧ executed s' = ["hello"%string] ∧ (n <= 31)%nat.
Proof. apply (functors_run toy_sys0 toy_sys2 toy_reachable2). reflexivity. Defined.

End Witness.
