(* ===== verification/Reactor.v ===== *)
(** * EventLoop.cc with its timer queue: the loop that connections use

    [EventLoop] owns a [TimerQueue] and hands it functors of its own.  The reactor is
    the pair; it discharges the interfaces [ChannelLoop] and [FunctorLoop] that the
    connections are proved against. *)
From S2P Require Import Prelude Text Timestamp Channel EPollPoller TimerQueue EventLoop.

Module Reactor.

(** The functors of a loop: those of its users, and those of its timer queue. *)
Inductive functor (F : Type) :=
  | User (f : F)
  | AddTimerInLoop (timer : positive)
  | CancelInLoop (timer : positive) (sequence : Z).
Arguments User {F} f.
Arguments AddTimerInLoop {F} timer.
Arguments CancelInLoop {F} timer sequence.

Section Reactor.
Context `{EP : Epoll E, EV : Eventfd V} {F : Type}.

(** [clock] is what [Timestamp::now()] reads, [next] the address of the next [Timer]
    object, [numCreated] the global counter [Timer::s_numCreated_]. *)
Record t := mk {
  loop : EventLoop.t E V (functor F);
  timerQueue_ : TimerQueue.t F;
  next : positive;
  numCreated : Z;
  clock : Z
}.

Definition set_loop (r : t) (l : EventLoop.t E V (functor F)) : t :=
  mk l (timerQueue_ r) (next r) (numCreated r) (clock r).
Definition set_timers (r : t) (q : TimerQueue.t F) : t :=
  mk (loop r) q (next r) (numCreated r) (clock r).

Definition isInLoopThread (r : t) : bool := EventLoop.isInLoopThread (loop r).

Definition queueInLoop (r : t) (f : F) : t := set_loop r (EventLoop.queueInLoop (loop r) (User f)).

Definition addTimerInLoop (timer : positive) (r : t) : res t :=
  _ ← EventLoop.assertInLoopThread (loop r);
  q ← TimerQueue.addTimerInLoop (clock r) timer (timerQueue_ r);
  mret (set_timers r q).

Definition cancelInLoop (timerId : positive * Z) (r : t) : res t :=
  _ ← EventLoop.assertInLoopThread (loop r);
  q ← TimerQueue.cancelInLoop timerId (timerQueue_ r);
  mret (set_timers r q).

(** [TimerQueue::addTimer]: a new [Timer] object, inserted in the loop thread; the
    returned [TimerId]. *)
Definition addTimer (cb : F) (when : Z) (interval : double) (r : t) : res (t * (positive * Z)) :=
  let a := next r in
  let sequence := i64 (numCreated r + 1) in
  let tm := Timer.make cb when interval sequence in
  let r := mk (loop r) (TimerQueue.newTimer a tm (timerQueue_ r)) (Pos.succ a) sequence (clock r) in
  r ← (if isInLoopThread r then addTimerInLoop a r
       else mret (set_loop r (EventLoop.queueInLoop (loop r) (AddTimerInLoop a))));
  mret (r, (a, sequence)).

Definition runAt (time : Z) (cb : F) (r : t) : res (t * (positive * Z)) :=
  addTimer cb time (SpecFloat.S754_zero false) r.

Definition runAfter (delay : double) (cb : F) (r : t) : res (t * (positive * Z)) :=
  time ← Timestamp.addTime (clock r) delay;
  runAt time cb r.

Definition runEvery (interval : double) (cb : F) (r : t) : res (t * (positive * Z)) :=
  time ← Timestamp.addTime (clock r) interval;
  addTimer cb time interval r.

Definition cancel (timerId : positive * Z) (r : t) : res t :=
  if isInLoopThread r then cancelInLoop timerId r
  else mret (set_loop r (EventLoop.queueInLoop (loop r) (CancelInLoop timerId.1 timerId.2))).

(** Running one of the loop's functors; [run] runs those of the users. *)
Definition run_functor {W} (get : W → t) (put : W → t → W) (run : F → W → res W)
    (f : functor F) (w : W) : res W :=
  match f with
  | User f => run f w
  | AddTimerInLoop timer => r ← addTimerInLoop timer (get w); mret (put w r)
  | CancelInLoop timer sequence => r ← cancelInLoop (timer, sequence) (get w); mret (put w r)
  end.

(** ** The interfaces *)

Definition lift (op : EventLoop.t E V (functor F) → Channel.t → res (EventLoop.t E V (functor F) * Channel.t))
    (r : t) (c : Channel.t) : res (t * Channel.t) :=
  '(l, c) ← op (loop r) c;
  mret (set_loop r l, c).

#[global] Instance reactor_channels : ChannelLoop t := {|
  Channel.updateChannel := lift EventLoop.updateChannel;
  Channel.removeChannel := lift EventLoop.removeChannel;
  Channel.hasChannel r := EventLoop.hasChannel (loop r);
  Channel.isInLoopThread := isInLoopThread
|}.

#[global] Instance reactor_functors : FunctorLoop t F := {|
  queueFunctor := queueInLoop;
  runFunctorAfter r delay f := fst <$> runAfter delay f r
|}.

End Reactor.
#[global] Arguments t E V F : clear implicits.
End Reactor.

Section Laws.
Import Reactor.
Context `{EP : Epoll E, EL : !EpollLaws E EP, EV : Eventfd V} {F : Type}.

#[global] Instance reactor_channel_laws : ChannelLoopLaws (Reactor.t E V F) reactor_channels.
Proof.
  refine {| loop_inv r := channels_ok (loop r); may_remove r := removable (loop r) |}.
  - intros r c c'. exact (may_remove_addr (ChannelLoopLaws := loop_laws) (loop r) c c').
  - intros r h c0 c Hin Hh Hc0 Hs Hf. cbn in *. unfold lift.
    destruct (update_spec (ChannelLoopLaws := loop_laws) (loop r) h c0 c Hin Hh Hc0 Hs Hf) as (l & c' & Hu & ?). cbn in Hu.
    rewrite Hu. cbn [mbind res_bind mret res_ret]. by exists (set_loop r l), c'.
  - intros r h c0 c Hin Hh Hc0 Hs Hu Hn Hm. cbn in *. unfold lift.
    destruct (remove_spec (ChannelLoopLaws := loop_laws) (loop r) h c0 c Hin Hh Hc0 Hs Hu Hn Hm) as (l & Hr & ?). cbn in Hr.
    rewrite Hr. cbn [mbind res_bind mret res_ret]. by exists (set_loop r l).
Defined.

(** Queueing touches the functors and the eventfd of the loop only. *)
Lemma queue_frame (l : EventLoop.t E V (functor F)) f :
  EventLoop.isInLoopThread (EventLoop.queueInLoop l f) = EventLoop.isInLoopThread l ∧
  (∀ h, channels_ok l h → channels_ok (EventLoop.queueInLoop l f) h) ∧
  (∀ d, removable l d → removable (EventLoop.queueInLoop l f) d).
Proof.
  unfold EventLoop.queueInLoop. cbn [EventLoop.exec EventLoop.queueInLoop_code].
  destruct (EventLoop.needs_wakeup (EventLoop.push l f)); done.
Qed.

#[global] Instance reactor_functor_laws :
  FunctorLoopLaws (Reactor.t E V F) F reactor_channels reactor_channel_laws reactor_functors.
Proof.
  split.
  - intros r f. apply (queue_frame (loop r) (User f)).
  - intros r r' s f. cbn. unfold runAfter, runAt, addTimer, addTimerInLoop, isInLoopThread. cbn [loop].
    destruct (Timestamp.addTime _ _) as [time|]; [|done]. cbn [mbind res_bind].
    destruct (EventLoop.isInLoopThread (loop r)) eqn:Hin.
    + unfold EventLoop.assertInLoopThread. cbn [loop]. rewrite Hin. cbn [mbind res_bind mret res_ret].
      destruct (TimerQueue.addTimerInLoop _ _ _); [|done]. cbn. intros [= <-]. done.
    + cbn [mbind res_bind mret res_ret fmap res_fmap fst]. intros [= <-]. cbn.
      rewrite <-Hin. apply queue_frame.
Qed.

End Laws.
