(* ===== verification/TcpConnection.v ===== *)
(** * TcpConnection.h, TcpConnection.cc: one TCP connection

    The connection is proved against interfaces: its loop is any loop that registers
    channels ([ChannelLoop]) and queues functors ([FunctorLoop]), its socket any
    kernel socket ([Socket]).  The user callbacks act on the whole connection
    ([user_] stands for what else they reach). *)
From S2P Require Import Prelude Text Buffer Channel EPollPoller TimerQueue EventLoop Reactor.

Definition EPIPE : Z := 32.
Definition EWOULDBLOCK : Z := 11.
Definition ECONNRESET : Z := 104.

(** What a connection asks of the kernel about its socket (Socket.cc, SocketsOps.cc
    pass these calls on). *)
Inductive write_result :=
  | Wrote (n : Z)
  | WriteError (errno : Z).

Class Socket (S : Type) := {
  sock_write : S → list byte → write_result * S;
  sock_readv : S → Z → Buffer.read_result * S;
  sock_shutdownWrite : S → S
}.

(** Documented behaviour: [write] takes a prefix of the bytes or fails without taking
    any, [readv] gives at most the room it is offered; [taken] is what the kernel has
    taken for sending. *)
Class SocketLaws (S : Type) (SO : Socket S) := {
  taken : S → list byte;
  write_law s d r s' :
    sock_write s d = (r, s') →
    match r with
    | Wrote n => 0 <= n <= zlen d ∧ taken s' = taken s ++ ztake n d
    | WriteError _ => taken s' = taken s
    end;
  readv_law s room r s' :
    sock_readv s room = (r, s') →
    taken s' = taken s ∧
    match r with Buffer.ReadBytes d => zlen d <= room | Buffer.ReadError _ => True end;
  shutdown_law s : taken (sock_shutdownWrite s) = taken s
}.

Module TcpConnection.

Inductive StateE := kDisconnected | kConnecting | kConnected | kDisconnecting.

#[export] Instance StateE_eq_dec : EqDecision StateE.
Proof. solve_decision. Defined.

Definition stateToString (s : StateE) : string :=
  match s with
  | kDisconnected => "kDisconnected"
  | kConnecting => "kConnecting"
  | kConnected => "kConnected"
  | kDisconnecting => "kDisconnecting"
  end.

(** The functors a connection gives to its loop. *)
Inductive functor :=
  | SendInLoop (message : list byte)
  | ShutdownInLoop
  | ForceCloseInLoop
  | ForceClose
  | StartReadInLoop
  | StopReadInLoop
  | WriteComplete
  | HighWaterMark (size : Z)
  | ConnectEstablished
  | ConnectDestroyed.

Section TcpConnection.
Context {L S U : Type} `{CL : ChannelLoop L, FL : FunctorLoop L functor, SO : Socket S}.

(** [writeCompleteCallback_] and [highWaterMarkCallback_] are only tested for being
    set and queued. *)
Record t := mk {
  loop_ : L;
  name_ : string;
  state_ : StateE;
  reading_ : bool;
  socket_ : S;
  channel_ : Channel.t;
  writeCompleteCallback_ : bool;
  highWaterMarkCallback_ : bool;
  highWaterMark_ : Z;
  inputBuffer_ : Buffer.t;
  outputBuffer_ : Buffer.t;
  user_ : U
}.

Definition set_loop (c : t) (v : L) : t :=
  mk v (name_ c) (state_ c) (reading_ c) (socket_ c) (channel_ c) (writeCompleteCallback_
     c) (highWaterMarkCallback_ c) (highWaterMark_ c) (inputBuffer_ c) (outputBuffer_ c)
     (user_ c).
Definition set_state (c : t) (v : StateE) : t :=
  mk (loop_ c) (name_ c) v (reading_ c) (socket_ c) (channel_ c) (writeCompleteCallback_
     c) (highWaterMarkCallback_ c) (highWaterMark_ c) (inputBuffer_ c) (outputBuffer_ c)
     (user_ c).
Definition set_reading (c : t) (v : bool) : t :=
  mk (loop_ c) (name_ c) (state_ c) v (socket_ c) (channel_ c) (writeCompleteCallback_ c)
     (highWaterMarkCallback_ c) (highWaterMark_ c) (inputBuffer_ c) (outputBuffer_ c) (user_
     c).
Definition set_socket (c : t) (v : S) : t :=
  mk (loop_ c) (name_ c) (state_ c) (reading_ c) v (channel_ c) (writeCompleteCallback_ c)
     (highWaterMarkCallback_ c) (highWaterMark_ c) (inputBuffer_ c) (outputBuffer_ c) (user_
     c).
Definition set_channel (c : t) (v : Channel.t) : t :=
  mk (loop_ c) (name_ c) (state_ c) (reading_ c) (socket_ c) v (writeCompleteCallback_ c)
     (highWaterMarkCallback_ c) (highWaterMark_ c) (inputBuffer_ c) (outputBuffer_ c) (user_
     c).
Definition set_writeCompleteCallback (c : t) (v : bool) : t :=
  mk (loop_ c) (name_ c) (state_ c) (reading_ c) (socket_ c) (channel_ c) v
     (highWaterMarkCallback_ c) (highWaterMark_ c) (inputBuffer_ c) (outputBuffer_ c) (user_
     c).
Definition set_inputBuffer (c : t) (v : Buffer.t) : t :=
  mk (loop_ c) (name_ c) (state_ c) (reading_ c) (socket_ c) (channel_ c)
     (writeCompleteCallback_ c) (highWaterMarkCallback_ c) (highWaterMark_ c) v
     (outputBuffer_ c) (user_ c).
Definition set_outputBuffer (c : t) (v : Buffer.t) : t :=
  mk (loop_ c) (name_ c) (state_ c) (reading_ c) (socket_ c) (channel_ c)
     (writeCompleteCallback_ c) (highWaterMarkCallback_ c) (highWaterMark_ c) (inputBuffer_
     c) v (user_ c).
Definition set_user (c : t) (v : U) : t :=
  mk (loop_ c) (name_ c) (state_ c) (reading_ c) (socket_ c) (channel_ c)
     (writeCompleteCallback_ c) (highWaterMarkCallback_ c) (highWaterMark_ c) (inputBuffer_
     c) (outputBuffer_ c) v.

Definition kHighWaterMark : Z := 64 * 1024 * 1024.

(** The constructor, for a socket already connected. *)
Definition make (l : L) (name : string) (s : S) (a loop_id : positive) (sockfd : Z) (u : U) : res t :=
  i ← Buffer.make Buffer.kInitialSize;
  o ← Buffer.make Buffer.kInitialSize;
  mret (mk l name kConnecting true s (Channel.make a loop_id sockfd) false false kHighWaterMark i o u).

(** The destructor checks the state. *)
Definition destroy (c : t) : res unit := cassert (bool_decide (state_ c = kDisconnected)).

Definition connected (c : t) : bool := bool_decide (state_ c = kConnected).
Definition disconnected (c : t) : bool := bool_decide (state_ c = kDisconnected).

Definition assertInLoopThread (c : t) : res unit :=
  if isInLoopThread (loop_ c) then mret () else Fault Fatal.

(** A channel operation on the connection's channel. *)
Definition on_channel (op : L → Channel.t → res (L * Channel.t)) (c : t) : res t :=
  '(l, ch) ← op (loop_ c) (channel_ c);
  mret (set_channel (set_loop c l) ch).

Definition queue (c : t) (f : functor) : t := set_loop c (queueFunctor (loop_ c) f).

Variable connectionCallback_ : t → res t.
Variable messageCallback_ : Z → t → res t.
Variable writeComplete : t → res t.
Variable highWaterMark : Z → t → res t.

Definition sendInLoop (data : list byte) (c : t) : res t :=
  _ ← assertInLoopThread c;
  let len := zlen data in
  if bool_decide (state_ c = kDisconnected) then mret c else
  let '(c, nwrote, remaining, faultError) :=
    if negb (Channel.isWriting (channel_ c)) && (Buffer.readableBytes (outputBuffer_ c) =? 0) then
      let '(r, s) := sock_write (socket_ c) data in
      let c := set_socket c s in
      match r with
      | Wrote n =>
          let remaining := u64 (len - n) in
          (if (remaining =? 0) && writeCompleteCallback_ c then queue c WriteComplete else c,
           n, remaining, false)
      | WriteError errno =>
          (c, 0, len, negb (errno =? EWOULDBLOCK) && ((errno =? EPIPE) || (errno =? ECONNRESET)))
      end
    else (c, 0, len, false) in
  _ ← cassert (remaining <=? len);
  if negb faultError && (0 <? remaining) then
    let oldLen := Buffer.readableBytes (outputBuffer_ c) in
    let c := if (highWaterMark_ c <=? u64 (oldLen + remaining)) && (oldLen <? highWaterMark_ c)
                && highWaterMarkCallback_ c
             then queue c (HighWaterMark (u64 (oldLen + remaining))) else c in
    rest ← mem_read data nwrote remaining;
    out ← Buffer.append (outputBuffer_ c) rest;
    let c := set_outputBuffer c out in
    if negb (Channel.isWriting (channel_ c)) then on_channel ChannelOps.enableWriting c else mret c
  else mret c.

Definition shutdownInLoop (c : t) : res t :=
  _ ← assertInLoopThread c;
  mret (if negb (Channel.isWriting (channel_ c))
        then set_socket c (sock_shutdownWrite (socket_ c)) else c).

(** [handleClose] ends with the expression statement [(guardThis);]: the close
    callback is not called. *)
Definition handleClose (c : t) : res t :=
  _ ← assertInLoopThread c;
  _ ← cassert (bool_decide (state_ c = kConnected) || bool_decide (state_ c = kDisconnecting));
  let c := set_state c kDisconnected in
  c ← on_channel ChannelOps.disableAll c;
  connectionCallback_ c.

(** [handleError] only logs the pending socket error. *)
Definition handleError (c : t) : res t := mret c.

Definition handleRead (receiveTime : Z) (c : t) : res t :=
  _ ← assertInLoopThread c;
  let '(r, s) := sock_readv (socket_ c) (Buffer.readFd_room (inputBuffer_ c)) in
  '(n, _, inb) ← Buffer.readFd (inputBuffer_ c) r;
  let c := set_inputBuffer (set_socket c s) inb in
  if 0 <? n then messageCallback_ receiveTime c
  else if n =? 0 then handleClose c
  else handleError c.

Definition handleWrite (c : t) : res t :=
  _ ← assertInLoopThread c;
  if Channel.isWriting (channel_ c) then
    out ← mem_read (Buffer.buffer_ (outputBuffer_ c)) (Buffer.peek (outputBuffer_ c))
            (Buffer.readableBytes (outputBuffer_ c));
    let '(r, s) := sock_write (socket_ c) out in
    let c := set_socket c s in
    match r with
    | Wrote n =>
        if 0 <? n then
          out ← Buffer.retrieve (outputBuffer_ c) n;
          let c := set_outputBuffer c out in
          if Buffer.readableBytes (outputBuffer_ c) =? 0 then
            c ← on_channel ChannelOps.disableWriting c;
            let c := if writeCompleteCallback_ c then queue c WriteComplete else c in
            if bool_decide (state_ c = kDisconnecting) then shutdownInLoop c else mret c
          else mret c
        else mret c
    | WriteError _ => mret c
    end
  else mret c.

Definition forceCloseInLoop (c : t) : res t :=
  _ ← assertInLoopThread c;
  if bool_decide (state_ c = kConnected) || bool_decide (state_ c = kDisconnecting)
  then handleClose c else mret c.

Definition startReadInLoop (c : t) : res t :=
  _ ← assertInLoopThread c;
  if negb (reading_ c) || negb (Channel.isReading (channel_ c)) then
    c ← on_channel ChannelOps.enableReading c;
    mret (set_reading c true)
  else mret c.

Definition stopReadInLoop (c : t) : res t :=
  _ ← assertInLoopThread c;
  if reading_ c || Channel.isReading (channel_ c) then
    c ← on_channel ChannelOps.disableReading c;
    mret (set_reading c false)
  else mret c.

Definition connectEstablished (c : t) : res t :=
  _ ← assertInLoopThread c;
  _ ← cassert (bool_decide (state_ c = kConnecting));
  let c := set_state c kConnected in
  let c := set_channel c (Channel.tie (channel_ c)) in
  c ← on_channel ChannelOps.enableReading c;
  connectionCallback_ c.

Definition connectDestroyed (c : t) : res t :=
  _ ← assertInLoopThread c;
  c ← (if bool_decide (state_ c = kConnected) then
         let c := set_state c kDisconnected in
         c ← on_channel ChannelOps.disableAll c;
         connectionCallback_ c
       else mret c);
  on_channel ChannelOps.remove c.

(** ** The thread-safe interface *)

Definition forceClose (c : t) : res t :=
  mret (if bool_decide (state_ c = kConnected) || bool_decide (state_ c = kDisconnecting)
        then queue (set_state c kDisconnecting) ForceCloseInLoop else c).

Definition forceCloseWithDelay (seconds : double) (c : t) : res t :=
  if bool_decide (state_ c = kConnected) || bool_decide (state_ c = kDisconnecting) then
    let c := set_state c kDisconnecting in
    l ← runFunctorAfter (loop_ c) seconds ForceClose;
    mret (set_loop c l)
  else mret c.

(** What the loop does with a functor of this connection. *)
Definition run (f : functor) (c : t) : res t :=
  match f with
  | SendInLoop message => sendInLoop message c
  | ShutdownInLoop => shutdownInLoop c
  | ForceCloseInLoop => forceCloseInLoop c
  | ForceClose => forceClose c
  | StartReadInLoop => startReadInLoop c
  | StopReadInLoop => stopReadInLoop c
  | WriteComplete => writeComplete c
  | HighWaterMark size => highWaterMark size c
  | ConnectEstablished => connectEstablished c
  | ConnectDestroyed => connectDestroyed c
  end.

(** [EventLoop::runInLoop]. *)
Definition runInLoop (c : t) (f : functor) : res t :=
  if isInLoopThread (loop_ c) then run f c else mret (queue c f).

Definition send (message : list byte) (c : t) : res t :=
  if bool_decide (state_ c = kConnected) then
    if isInLoopThread (loop_ c) then sendInLoop message c
    else runInLoop c (SendInLoop message)
  else mret c.

(** [send] of a buffer, which it empties. *)
Definition send_buffer (buf : Buffer.t) (c : t) : res (t * Buffer.t) :=
  if bool_decide (state_ c = kConnected) then
    if isInLoopThread (loop_ c) then
      d ← mem_read (Buffer.buffer_ buf) (Buffer.peek buf) (Buffer.readableBytes buf);
      c ← sendInLoop d c;
      mret (c, Buffer.retrieveAll buf)
    else
      '(d, buf) ← Buffer.retrieveAllAsString buf;
      c ← runInLoop c (SendInLoop d);
      mret (c, buf)
  else mret (c, buf).

Definition shutdown (c : t) : res t :=
  if bool_decide (state_ c = kConnected)
  then runInLoop (set_state c kDisconnecting) ShutdownInLoop else mret c.

Definition startRead (c : t) : res t := runInLoop c StartReadInLoop.
Definition stopRead (c : t) : res t := runInLoop c StopReadInLoop.

(** The channel callbacks set by the constructor; [guard]: the owner is alive. *)
Definition handleEvent (guard : bool) (receiveTime : Z) (c : t) : res t :=
  ChannelOps.handleEvent channel_ set_channel (Some handleRead) (Some handleWrite)
    (Some handleClose) (Some handleError) guard receiveTime c.

End TcpConnection.
#[global] Arguments t L S U : clear implicits.
End TcpConnection.

(** ** The invariant of a connection *)

Section Invariant.
Import TcpConnection.
Context {L S U : Type} `{CL : ChannelLoop L, CLL : !ChannelLoopLaws L CL,
  FL : FunctorLoop L functor, FLL : !FunctorLoopLaws L functor CL CLL FL,
  SO : Socket S, SL : !SocketLaws S SO}.
Implicit Types c : t L S U.

(** The loop serves the channel; no other registered channel has its descriptor. *)
Definition chan_ok (l : L) (ch : Channel.t) : Prop :=
  ∃ h d0, loop_inv l h ∧ h !! Channel.addr ch = Some d0 ∧ same_registration d0 ch ∧ fresh_fd h ch.

Lemma chan_ok_same l ch ch' : same_registration ch ch' → chan_ok l ch → chan_ok l ch'.
Proof.
  intros (Ha & Hl & Hf & Hi) (h & d0 & Hh & Hd0 & (? & ? & ? & ?) & Hfr). exists h, d0.
  split_and!; [done|by rewrite <-Ha| |].
  - split_and!; congruence.
  - intros a d Hd Hfd Hne. eapply Hfr; [done|congruence..].
Qed.

Lemma chan_ok_queue l ch f : chan_ok l ch → chan_ok (queueFunctor l f) ch.
Proof.
  intros (h & d0 & Hh & ?). exists h, d0. split; [|done]. by apply queue_law.
Qed.

Lemma chan_ok_runAfter l l' ch s f : runFunctorAfter l s f = Ok l' → chan_ok l ch → chan_ok l' ch.
Proof.
  intros Hr (h & d0 & Hh & ?). exists h, d0. split; [|done]. by eapply runAfter_law.
Qed.

Lemma chan_update l ch :
  isInLoopThread l = true → chan_ok l ch →
  ∃ l' ch', updateChannel l ch = Ok (l', ch') ∧ isInLoopThread l' = true ∧ chan_ok l' ch' ∧
    Channel.events_ ch' = Channel.events_ ch ∧ Channel.revents_ ch' = Channel.revents_ ch ∧
    Channel.tied_ ch' = Channel.tied_ ch ∧ ¬ unregistered ch' ∧ Channel.addr ch' = Channel.addr ch ∧
    ∀ d, may_remove l d → may_remove l' d.
Proof.
  intros Hin (h & d0 & Hh & Hd0 & Hs & Hf).
  destruct (update_spec l h d0 ch Hin Hh Hd0 Hs Hf) as (l' & ch' & Hu & Hc' & Hn & Hin' & Hh' & Hm).
  exists l', ch'. assert (Channel.addr ch' = Channel.addr ch) as Ha by by rewrite Hc'.
  split_and!; [done|done| |by rewrite Hc'|by rewrite Hc'|by rewrite Hc'|done|done|done].
  exists (<[Channel.addr ch := ch']> h), ch'. split_and!; [done|by rewrite Ha, lookup_insert_eq|done|].
  intros a d. rewrite lookup_insert_Some, Ha. intros [[<- <-]|[Hne Hd]] Hfd Hna; [done|].
  eapply Hf; [exact Hd|rewrite Hfd; by rewrite Hc'|done].
Qed.

(** What the peer will receive: the bytes the kernel took and those still queued. *)
Definition stream c : list byte := taken (socket_ c) ++ Buffer.content (outputBuffer_ c).

Definition is_open c : bool :=
  bool_decide (state_ c = kConnected) || bool_decide (state_ c = kDisconnecting).

(** Bytes are waiting in the output buffer of an open connection. *)
Definition writing c : bool :=
  is_open c && negb (bool_decide (Buffer.content (outputBuffer_ c) = [])).

(** The memory of the two buffers. *)
Definition size c : Z :=
  zlen (Buffer.buffer_ (inputBuffer_ c)) + zlen (Buffer.buffer_ (outputBuffer_ c)).

(** The buffers are well formed, the loop serves the channel and runs in this thread. *)
Record base c : Prop := {
  base_in : Buffer.wf (inputBuffer_ c);
  base_out : Buffer.wf (outputBuffer_ c);
  base_chan : chan_ok (loop_ c) (channel_ c);
  base_thread : isInLoopThread (loop_ c) = true
}.

(** The channel asks for write events exactly while output is waiting, and for
    nothing unless the connection is open. *)
Record inv c : Prop := {
  inv_base : base c;
  inv_events : ∃ r, Channel.events_ (channel_ c) = interest r (writing c) ∧
                    (is_open c = false → r = false);
  inv_connecting : state_ c = kConnecting → Buffer.content (outputBuffer_ c) = []
}.

Definition rank (s : StateE) : Z :=
  match s with kConnecting => 0 | kConnected => 1 | kDisconnecting => 2 | kDisconnected => 3 end.

(** What only the poller and the owner of the channel change. *)
Record keeps c c' : Prop := {
  keeps_revents : Channel.revents_ (channel_ c') = Channel.revents_ (channel_ c);
  keeps_addr : Channel.addr (channel_ c') = Channel.addr (channel_ c);
  keeps_tied : Channel.tied_ (channel_ c') = Channel.tied_ (channel_ c);
  keeps_registered : ¬ unregistered (channel_ c) → ¬ unregistered (channel_ c');
  keeps_removable d : may_remove (loop_ c) d → may_remove (loop_ c') d
}.

Lemma keeps_refl c : keeps c c.
Proof. by split. Qed.

Lemma keeps_trans c1 c2 c3 : keeps c1 c2 → keeps c2 c3 → keeps c1 c3.
Proof. intros [] []. split; [congruence..|auto|auto]. Qed.

(** [evolves k c c']: the connection went from [c] to [c'], keeping its invariant;
    the stream only grew at its end, the state only moved towards disconnection, and
    the buffers grew by at most [k] bytes. *)
Record evolves (k : Z) c c' : Prop := {
  ev_inv : inv c';
  ev_keeps : keeps c c';
  ev_stream : stream c `prefix_of` stream c';
  ev_state : rank (state_ c) <= rank (state_ c');
  ev_size : size c' <= size c + k
}.

Lemma evolves_refl c : inv c → evolves 0 c c.
Proof. intros. split; [done|apply keeps_refl|done|lia|lia]. Qed.

Lemma evolves_trans k1 k2 c1 c2 c3 :
  evolves k1 c1 c2 → evolves k2 c2 c3 → evolves (k1 + k2) c1 c3.
Proof. intros [? ? ? ? ?] [? ? ? ? ?]. split; [done|by eapply keeps_trans|by etrans|lia|lia]. Qed.

Lemma evolves_weaken k k' c c' : k <= k' → evolves k c c' → evolves k' c c'.
Proof. intros ? []. split; [done..|lia]. Qed.

Lemma inv_writing c : inv c → Channel.isWriting (channel_ c) = writing c.
Proof. intros [_ [r [Hr Hro]] _]. by apply interest_isWriting in Hr. Qed.

Lemma thread_ok c : inv c → assertInLoopThread c = Ok ().
Proof. intros [[] _ _]. unfold assertInLoopThread. by rewrite base_thread0. Qed.

(** Changing the interest of the channel. *)
Lemma on_channel_update c (op : L → Channel.t → res (L * Channel.t)) ev :
  (∀ l ch, op l ch = ChannelOps.update l (Channel.set_events ch (ev (Channel.events_ ch)))) →
  base c →
  ∃ l ch, on_channel op c = Ok (set_channel (set_loop c l) ch) ∧
    base (set_channel (set_loop c l) ch) ∧ ¬ unregistered ch ∧
    Channel.events_ ch = ev (Channel.events_ (channel_ c)) ∧
    keeps c (set_channel (set_loop c l) ch).
Proof.
  intros Hop [Hi Ho Hc Ht]. unfold on_channel. rewrite Hop. unfold ChannelOps.update.
  edestruct (chan_update (loop_ c)) as (l & ch & -> & Hin & Hok & Hev & Hrev & Hti & Hn & Ha & Hm);
    [done|by eapply chan_ok_same, Hc|].
  cbn [mbind res_bind mret res_ret]. exists l, ch. split_and!; [done|by split|done|by rewrite Hev|by split].
Qed.

Lemma base_queue c f : base c → base (queue c f).
Proof.
  intros []. split; [done|done| |].
  - by apply chan_ok_queue.
  - cbn. by rewrite (proj1 (queue_law _ _)).
Qed.

Lemma keeps_queue c f : keeps c (queue c f).
Proof. split; [done..|]. intros d. by apply queue_law. Qed.

(** A queued functor changes nothing but the queue of the loop. *)
Lemma inv_queue c f : inv c → inv (queue c f).
Proof. intros [? ? ?]. split; [by apply base_queue|done|done]. Qed.

Lemma writing_open c : is_open c = true → writing c = negb (bool_decide (Buffer.content (outputBuffer_ c) = [])).
Proof. unfold writing. by intros ->. Qed.

Lemma open_not_connecting c : is_open c = true → state_ c = kConnecting → False.
Proof. unfold is_open. by destruct (state_ c). Qed.

(** Appending what the kernel did not take. *)
Lemma buffer_rest c rest :
  inv c → is_open c = true → rest ≠ [] → size c + zlen rest < 2 ^ 62 →
  ∃ c', (out ← Buffer.append (outputBuffer_ c) rest;
         let c := set_outputBuffer c out in
         if negb (Channel.isWriting (channel_ c)) then on_channel ChannelOps.enableWriting c
         else mret c) = Ok c' ∧
    inv c' ∧ keeps c c' ∧ state_ c' = state_ c ∧ stream c' = stream c ++ rest ∧
    size c' <= size c + zlen rest.
Proof.
  intros Hinv Hopen Hne Hsz. pose proof Hinv as [Hb [r [Hr Hro]] _]. pose proof Hb as [Hi Ho Hc Ht].
  unfold size in *. destruct (append_spec (outputBuffer_ c) rest) as (out & -> & Hwf & Hcont & Hlen & _);
    [done|zpos; lia|].
  cbn [mbind res_bind]. set (c1 := set_outputBuffer c out).
  assert (base c1) as Hb1 by by split.
  assert (is_open c1 = true) as Ho1 by done.
  assert (writing c1 = true) as Hw1.
  { rewrite writing_open by done. cbn. rewrite bool_decide_false; [done|]. rewrite Hcont.
    by intros [_ ?]%app_nil. }
  assert (stream c1 = stream c ++ rest) as Hs1 by (unfold stream; cbn; by rewrite Hcont, app_assoc).
  change (Channel.isWriting (channel_ c1)) with (Channel.isWriting (channel_ c)).
  rewrite (inv_writing c) by done. destruct (writing c) eqn:Hw; cbn [negb].
  - exists c1. split_and!; [done| |done|done|done|cbn; lia].
    split; [done|exists r; by rewrite Hw1|]. intros Hco. by destruct (open_not_connecting c1).
  - destruct (on_channel_update c1 ChannelOps.enableWriting (λ e, Z.lor e Channel.kWriteEvent))
      as (l & ch & -> & Hb2 & _ & Hev & Hk); [done..|].
    eexists. split_and!; [done| |by destruct Hk; split|done|done|cbn; lia]. split; [done| |].
    + exists r. split; [|done]. cbn. rewrite Hev. cbn. rewrite Hr, interest_write_on.
      f_equal. symmetry. exact Hw1.
    + intros Hco. by destruct (open_not_connecting c1).
Qed.

(** The cases in which the message is dropped: the connection is down, or the direct
    write reports that the peer is gone. *)
Definition refused c (data : list byte) : bool :=
  bool_decide (state_ c = kDisconnected) ||
  (negb (writing c) &&
   match (sock_write (socket_ c) data).1 with
   | WriteError e => (e =? EPIPE) || (e =? ECONNRESET)
   | Wrote _ => false
   end).

(** The part of [sendInLoop] after the direct write. *)
Lemma send_rest c data nwrote remaining (b : bool) :
  inv c → is_open c = true → 0 <= nwrote → nwrote + remaining = zlen data → 0 <= remaining →
  size c + remaining < 2 ^ 62 →
  ∃ c', (if 0 <? remaining then
    let oldLen := Buffer.readableBytes (outputBuffer_ c) in
    let c := if b then queue c (HighWaterMark (u64 (oldLen + remaining))) else c in
    rest ← mem_read data nwrote remaining;
    out ← Buffer.append (outputBuffer_ c) rest;
    let c := set_outputBuffer c out in
    if negb (Channel.isWriting (channel_ c)) then on_channel ChannelOps.enableWriting c else mret c
  else mret c) = Ok c' ∧
    inv c' ∧ keeps c c' ∧ state_ c' = state_ c ∧ stream c' = stream c ++ zdrop nwrote data ∧
    size c' <= size c + remaining.
Proof.
  intros Hinv Hopen Hn Hlen Hrem Hsz. destruct (0 <? remaining) eqn:E.
  - cbv zeta. set (c1 := if b then queue c _ else c).
    assert (inv c1 ∧ keeps c c1 ∧ is_open c1 = true ∧ state_ c1 = state_ c ∧ stream c1 = stream c ∧ size c1 = size c)
      as (Hi1 & Hk1 & Ho1 & Hs1 & Hst1 & Hsz1).
    { unfold c1. destruct b; [|by split_and!]. split_and!; [by apply inv_queue|apply keeps_queue|done..]. }
    rewrite mem_read_ok by lia. cbn [mbind res_bind].
    rewrite Hlen. unfold zslice. rewrite (ztake_ge _ (zdrop nwrote data)) by (rewrite zlen_drop; lia).
    destruct (buffer_rest c1 (zdrop nwrote data)) as (c' & Heq & ? & Hk & ? & ? & Hs'); [done|done| |rewrite zlen_drop; lia|].
    { intros Hz. apply (f_equal zlen) in Hz. rewrite zlen_drop, zlen_nil in Hz by lia. lia. }
    rewrite zlen_drop in Hs' by lia. exists c'.
    split_and!; [exact Heq|done|by eapply keeps_trans|congruence|congruence|lia].
  - exists c. split_and!; [done|done|apply keeps_refl|done| |lia]. rewrite zdrop_ge by lia. by rewrite app_nil_r.
Qed.

Lemma sendInLoop_spec data c :
  inv c → state_ c ≠ kConnecting → size c + zlen data < 2 ^ 62 →
  ∃ c', sendInLoop data c = Ok c' ∧ inv c' ∧ keeps c c' ∧ state_ c' = state_ c ∧
    stream c' = stream c ++ (if refused c data then [] else data) ∧
    size c' <= size c + zlen data.
Proof.
  intros Hinv Hnc Hsz. unfold sendInLoop. rewrite thread_ok by done. cbn [mbind res_bind].
  pose proof (zlen_nonneg data) as Hlen.
  unfold refused. case_bool_decide as Hd; cbn [orb].
  { exists c. rewrite app_nil_r. split_and!; [done|done|apply keeps_refl|done|done|lia]. }
  assert (is_open c = true) as Hopen by (unfold is_open; by destruct (state_ c)).
  pose proof Hinv as [[_ Hwf _ _] _ _].
  rewrite (inv_writing c) by done. rewrite readable_content by done.
  rewrite (writing_open c) by done.
  assert (zlen data < 2 ^ 62) as Hd62 by (unfold size in Hsz; zpos; lia).
  destruct (decide (Buffer.content (outputBuffer_ c) = [])) as [He|He].
  - rewrite bool_decide_true, He by done. change (zlen [] =? 0) with true. cbn [negb andb].
    destruct (sock_write (socket_ c) data) as [res s] eqn:Hsw. pose proof (write_law _ _ _ _ Hsw) as Hlaw.
    set (c1 := set_socket c s). cbn [fst]. assert (size c1 = size c) as Hsz1 by done.
    assert (∀ d, taken s = taken (socket_ c) ++ d → inv c1 ∧ is_open c1 = true ∧ stream c1 = stream c ++ d) as Hc1.
    { intros d Ht. split_and!; [|done|].
      - destruct Hinv as [[] ? ?]. split; [by split|done|done].
      - unfold stream. cbn. by rewrite Ht, He, !app_nil_r. }
    destruct res as [n|e].
    + destruct Hlaw as [Hn Htk]. destruct (Hc1 _ Htk) as (Hi1 & Ho1 & Hst1).
      rewrite uN_small by lia.
      set (c2 := if (zlen data - n =? 0) && writeCompleteCallback_ c1 then queue c1 WriteComplete else c1).
      assert (inv c2 ∧ keeps c c2 ∧ is_open c2 = true ∧ state_ c2 = state_ c ∧ stream c2 = stream c1 ∧ size c2 = size c)
        as (Hi2 & Hk2 & Ho2 & Hs2 & Hst2 & Hsz2).
      { unfold c2. destruct (_ && _); [|by split_and!].
        split_and!; [by apply inv_queue|by destruct (keeps_queue c1 WriteComplete); split|done..]. }
      cbv beta iota. rewrite cassert_true by lia. cbn [mbind res_bind negb andb].
      destruct (send_rest c2 data n (zlen data - n)
        ((highWaterMark_ c2 <=? u64 (Buffer.readableBytes (outputBuffer_ c2) + (zlen data - n))) &&
         (Buffer.readableBytes (outputBuffer_ c2) <? highWaterMark_ c2) && highWaterMarkCallback_ c2))
        as (c' & Heq & ? & Hk & ? & Hst & ?); [done|done|lia..|].
      exists c'. split_and!; [exact Heq|done|by eapply keeps_trans|congruence| |lia].
      rewrite Hst, Hst2, Hst1, <-app_assoc. by rewrite ztake_drop.
    + rewrite <-(app_nil_r (taken (socket_ c))) in Hlaw. destruct (Hc1 _ Hlaw) as (Hi1 & Ho1 & Hst1).
      cbv beta iota. rewrite cassert_true by lia. cbn [mbind res_bind].
      assert (negb (e =? EWOULDBLOCK) && ((e =? EPIPE) || (e =? ECONNRESET)) = ((e =? EPIPE) || (e =? ECONNRESET))) as ->.
      { unfold EWOULDBLOCK, EPIPE, ECONNRESET. destruct (e =? 11) eqn:E; [|done]. apply Z.eqb_eq in E. by subst. }
      destruct (_ || _); cbn [negb andb].
      * exists c1. split_and!; [done|done|done|done|done|lia].
      * edestruct (send_rest c1 data 0 (zlen data)) as (c' & Heq & ? & Hk & ? & Hst & ?); [done|done|lia..|].
        exists c'. split_and!; [exact Heq|done|by destruct Hk; split|done| |lia]. by rewrite Hst, Hst1, app_nil_r.
  - rewrite bool_decide_false by done. cbn [negb andb].
    cbv beta iota. rewrite cassert_true by lia. cbn [mbind res_bind].
    edestruct (send_rest c data 0 (zlen data)) as (c' & Heq & ? & Hk & ? & Hst & ?); [done|done|lia..|].
    exists c'. split_and!; [exact Heq|done..].
Qed.

(** The half-close waits for the output: it is sent only when nothing is left. *)
Lemma shutdownInLoop_spec c :
  inv c →
  shutdownInLoop c =
    Ok (if writing c then c else set_socket c (sock_shutdownWrite (socket_ c))).
Proof.
  intros Hinv. unfold shutdownInLoop. rewrite thread_ok, inv_writing by done. by destruct (writing c).
Qed.

Lemma inv_set_socket c s :
  inv c → inv (set_socket c s) ∧ keeps c (set_socket c s).
Proof. intros [[] ? ?]. split; [split; [by split|done|done]|by split]. Qed.

Lemma writing_inv c :
  writing c = true → is_open c = true ∧ Buffer.content (outputBuffer_ c) ≠ [].
Proof.
  unfold writing. intros [Ho Hn]%andb_true_iff. split; [done|].
  by apply negb_true_iff, bool_decide_eq_false in Hn.
Qed.

(** The end of [handleWrite] when the output has been written out. *)
Lemma drained_spec c r :
  base c → is_open c = true → Channel.events_ (channel_ c) = interest r true →
  Buffer.content (outputBuffer_ c) = [] →
  ∃ c', (c ← on_channel ChannelOps.disableWriting c;
         let c := if writeCompleteCallback_ c then queue c WriteComplete else c in
         if bool_decide (state_ c = kDisconnecting) then shutdownInLoop c else mret c) = Ok c' ∧
    inv c' ∧ keeps c c' ∧ state_ c' = state_ c ∧ outputBuffer_ c' = outputBuffer_ c ∧
    inputBuffer_ c' = inputBuffer_ c ∧
    socket_ c' = (if bool_decide (state_ c = kDisconnecting) then sock_shutdownWrite (socket_ c) else socket_ c).
Proof.
  intros Hb Hopen Hr Hnil.
  destruct (on_channel_update c ChannelOps.disableWriting (λ e, Z.land e (Z.lnot Channel.kWriteEvent)))
    as (l & ch & -> & Hb1 & _ & Hev & Hk1); [done..|]. cbn [mbind res_bind].
  set (c1 := set_channel (set_loop c l) ch) in *.
  assert (writing c1 = false) as Hw1 by (unfold writing; cbn; by rewrite Hnil, andb_false_r).
  assert (inv c1) as Hi1.
  { split; [done| |by intros ?%open_not_connecting]. exists r. rewrite Hw1. split; [|change (is_open c1) with (is_open c); congruence].
    cbn. rewrite Hev, Hr. apply interest_write_off. }
  cbv zeta. set (c2 := if writeCompleteCallback_ c1 then queue c1 WriteComplete else c1).
  assert (inv c2 ∧ keeps c c2 ∧ state_ c2 = state_ c ∧ outputBuffer_ c2 = outputBuffer_ c ∧
    inputBuffer_ c2 = inputBuffer_ c ∧ socket_ c2 = socket_ c ∧ writing c2 = false)
    as (Hi2 & Hk2 & Hs2 & Ho2 & Hin2 & Hso2 & Hw2).
  { unfold c2. destruct (writeCompleteCallback_ c1); [|done].
    split_and!; [by apply inv_queue|eapply keeps_trans; [exact Hk1|apply keeps_queue]|done..]. }
  rewrite Hs2. case_bool_decide as Hd; [|exists c2; by split_and!].
  rewrite shutdownInLoop_spec, Hw2 by done.
  destruct (inv_set_socket c2 (sock_shutdownWrite (socket_ c2)) Hi2) as [Hi3 Hk3].
  eexists. split_and!; [done|done|by eapply keeps_trans|done|done|done|cbn; by rewrite Hso2].
Qed.

(** [handleWrite] on a connection with output, by what the kernel takes of it. *)
Lemma handleWrite_cases c :
  inv c → writing c = true →
  ∃ c', handleWrite c = Ok c' ∧ inv c' ∧ keeps c c' ∧ state_ c' = state_ c ∧ size c' = size c ∧
    inputBuffer_ c' = inputBuffer_ c ∧
    let out := Buffer.content (outputBuffer_ c) in
    match sock_write (socket_ c) out with
    | (Wrote n, s) =>
        Buffer.content (outputBuffer_ c') = zdrop n out ∧
        socket_ c' = (if bool_decide (n = zlen out) && bool_decide (state_ c = kDisconnecting)
                      then sock_shutdownWrite s else s)
    | (WriteError _, s) => Buffer.content (outputBuffer_ c') = out ∧ socket_ c' = s
    end.
Proof.
  intros Hinv Hw. apply writing_inv in Hw as Hw'. destruct Hw' as [Hopen Hne].
  unfold handleWrite. rewrite thread_ok, inv_writing, Hw by done. cbn [mbind res_bind].
  pose proof Hinv as [[Hwi Hwf Hch Hth] [r [Hr Hro]] _]. rewrite readable_content by done. rewrite Hw in Hr.
  set (out := Buffer.content (outputBuffer_ c)) in *. cbv zeta.
  assert (0 < zlen out) as Hpos.
  { assert (zlen out ≠ 0) by by intros ?%zlen_0. zpos. lia. }
  rewrite peek_read_spec by (done || (unfold out; zpos; lia)). cbn [mbind res_bind].
  rewrite ztake_ge by (unfold out; lia). fold out.
  destruct (sock_write (socket_ c) out) as [res s] eqn:Hsw. pose proof (write_law _ _ _ _ Hsw) as Hlaw.
  destruct (inv_set_socket c s Hinv) as [Hi1 Hk1]. set (c1 := set_socket c s) in *.
  destruct res as [n|e]; [|by exists c1].
  destruct Hlaw as [Hn _]. destruct (0 <? n) eqn:En.
  2:{ exists c1. replace n with 0 by lia. rewrite (bool_decide_false (0 = zlen out)) by lia. by split_and!. }
  destruct (retrieve_spec (outputBuffer_ c1) n) as (b & -> & Hwb & Hcb & Hbb); [done|done|].
  cbn [mbind res_bind]. set (c2 := set_outputBuffer c1 b). change (outputBuffer_ c1) with (outputBuffer_ c) in Hcb.
  fold out in Hcb. change (outputBuffer_ c2) with b. rewrite readable_content, Hcb, zlen_drop by (done || lia).
  assert (base c2) as Hb2 by by split.
  assert (size c2 = size c) as Hz2 by (unfold size; cbn; by rewrite Hbb).
  destruct (zlen out - n =? 0) eqn:Ez.
  - assert (n = zlen out) as Hnz by lia. rewrite (bool_decide_true _ Hnz). cbn [andb].
    destruct (drained_spec c2 r Hb2 Hopen Hr) as (c' & Heq & ? & Hk & ? & Ho & ? & ?).
    { cbn. rewrite Hcb, zdrop_ge; [done|lia]. }
    exists c'. split_and!; [exact Heq|done|by destruct Hk; split|done| |done|by rewrite Ho|done].
    rewrite <-Hz2. unfold size. congruence.
  - rewrite (bool_decide_false (n = zlen out)) by lia. exists c2. split_and!; [done| |by split|done|done|done|done|done].
    split; [done| |by intros ?%open_not_connecting]. exists r. split; [|done].
    change (channel_ c2) with (channel_ c). rewrite Hr, (writing_open c2) by done. f_equal.
    rewrite bool_decide_false; [done|]. cbn. rewrite Hcb. intros Hnil.
    apply (f_equal zlen) in Hnil. rewrite zlen_drop, zlen_nil in Hnil by lia. lia.
Qed.

Lemma handleWrite_spec c :
  inv c →
  ∃ c', handleWrite c = Ok c' ∧ inv c' ∧ keeps c c' ∧ state_ c' = state_ c ∧
    stream c' = stream c ∧ size c' = size c ∧ inputBuffer_ c' = inputBuffer_ c.
Proof.
  intros Hinv. destruct (writing c) eqn:Hw.
  - destruct (handleWrite_cases c Hinv Hw) as (c' & ? & ? & ? & ? & ? & ? & Hcase).
    exists c'. split_and!; [done..| |done|done]. unfold stream. cbv zeta in Hcase.
    destruct (sock_write _ _) as [[n|e] s] eqn:Hsw; apply write_law in Hsw; destruct Hcase as [-> ->].
    + destruct Hsw as [Hn Htk].
      assert (taken (if bool_decide (n = zlen (Buffer.content (outputBuffer_ c))) && bool_decide (state_ c = kDisconnecting)
        then sock_shutdownWrite s else s) = taken s) as ->
        by (destruct (_ && _); [apply shutdown_law|done]).
      rewrite Htk, <-app_assoc. by rewrite ztake_drop.
    + by rewrite Hsw.
  - unfold handleWrite. rewrite thread_ok, inv_writing, Hw by done.
    exists c. split_and!; by try apply keeps_refl.
Qed.

Lemma on_channel_inv c (op : L → Channel.t → res (L * Channel.t)) ev r r' w w' :
  (∀ l ch, op l ch = ChannelOps.update l (Channel.set_events ch (ev (Channel.events_ ch)))) →
  base c → Channel.events_ (channel_ c) = interest r w → ev (interest r w) = interest r' w' →
  w' = writing c → (is_open c = false → r' = false) →
  (state_ c = kConnecting → Buffer.content (outputBuffer_ c) = []) →
  ∃ l ch, on_channel op c = Ok (set_channel (set_loop c l) ch) ∧
    inv (set_channel (set_loop c l) ch) ∧ keeps c (set_channel (set_loop c l) ch) ∧
    ¬ unregistered ch ∧ Channel.events_ ch = interest r' w'.
Proof.
  intros Hop Hb Hev Hev' -> Hro Hc. destruct (on_channel_update c op ev Hop Hb) as (l & ch & Hon & Hb' & Hu & He & Hk).
  exists l, ch. rewrite Hev in He. rewrite <-Hev'. split_and!; [done| |done..].
  split; [done| |done]. exists r'. split; [|done]. cbn. rewrite He. exact Hev'.
Qed.

(** ** User callbacks

    A callback may do anything the interface of the connection allows: it keeps the
    invariant, only appends to the stream, never revives the connection, and adds at
    most [k] bytes of buffer. *)
Definition behaves (k : Z) (cb : t L S U → res (t L S U)) : Prop :=
  ∀ c, inv c → state_ c ≠ kConnecting → size c + k < 2 ^ 62 → ∃ c', cb c = Ok c' ∧ evolves k c c'.

(** Going down: [handleClose], and [connectDestroyed] of a live connection. *)
Lemma close_spec k (connectionCallback_ : t L S U → res (t L S U)) c :
  behaves k connectionCallback_ → inv c → size c + k < 2 ^ 62 →
  ∃ c', (c ← on_channel ChannelOps.disableAll (set_state c kDisconnected); connectionCallback_ c) = Ok c' ∧
    evolves k c c' ∧ state_ c' = kDisconnected ∧ ¬ unregistered (channel_ c').
Proof.
  intros Hcb [Hb [r [Hr Hro]] _] Hsz. set (c1 := set_state c kDisconnected).
  destruct (on_channel_inv c1 ChannelOps.disableAll (λ _, Channel.kNoneEvent) r false (writing c) false)
    as (l & ch & -> & Hi & Hk & Hu & _); [done|by destruct Hb; split|done..|].
  cbn [mbind res_bind]. destruct (Hcb (set_channel (set_loop c1 l) ch)) as (c' & -> & [Hi' Hk' Hs' Hst Hz]); [done..|].
  exists c'. split; [done|]. cbn in Hst.
  assert (state_ c' = kDisconnected) as Hd by (destruct (state_ c'); cbn in Hst; done || lia).
  split_and!; [split|done|by apply Hk'].
  - done.
  - eapply keeps_trans, Hk'. by destruct Hk; split.
  - done.
  - rewrite Hd. by destruct (state_ c).
  - done.
Qed.

Lemma handleClose_spec k (connectionCallback_ : t L S U → res (t L S U)) c :
  behaves k connectionCallback_ → inv c → is_open c = true → size c + k < 2 ^ 62 →
  ∃ c', handleClose connectionCallback_ c = Ok c' ∧ evolves k c c' ∧ state_ c' = kDisconnected.
Proof.
  intros Hcb Hinv Hopen Hsz. unfold handleClose. rewrite thread_ok by done.
  unfold is_open in Hopen. rewrite Hopen.
  destruct (close_spec k connectionCallback_ c) as (c' & Heq & ? & ? & _); [done..|].
  exists c'. split; [exact Heq|done].
Qed.

Lemma handleRead_spec k km time (connectionCallback_ : t L S U → res (t L S U)) messageCallback_ c :
  behaves k connectionCallback_ → behaves km (messageCallback_ time) → 0 <= k → 0 <= km →
  inv c → is_open c = true →
  size c + Buffer.extrabuf_size + k + km < 2 ^ 62 →
  ∃ c', handleRead connectionCallback_ messageCallback_ time c = Ok c' ∧
    evolves (Buffer.extrabuf_size + k + km) c c'.
Proof.
  intros Hcb Hmb Hk Hkm Hinv Hopen Hsz. unfold handleRead. rewrite thread_ok by done. cbn [mbind res_bind].
  destruct (sock_readv (socket_ c) _) as [res s] eqn:Hrd. apply readv_law in Hrd as [Htk Hroom].
  pose proof Hinv as [[Hwi _ _ _] _ _]. set (room := Buffer.extrabuf_size) in *. assert (0 <= room) by done.
  assert (∀ b, Buffer.wf b → inv (set_inputBuffer (set_socket c s) b) ∧
    keeps c (set_inputBuffer (set_socket c s) b) ∧
    stream (set_inputBuffer (set_socket c s) b) = stream c) as Hset.
  { intros b Hb. destruct Hinv as [[] ? ?]. split_and!; [split; [by split|done|done]|by split|].
    unfold stream. cbn. by rewrite Htk. }
  destruct res as [d|e].
  - destruct (readFd_spec (inputBuffer_ c) d) as (b & -> & Hwb & _ & Hlen); [done|done|unfold size, room in *; zpos; lia|].
    cbn [mbind res_bind]. destruct (Hset b Hwb) as (Hi1 & Hk1 & Hs1).
    set (c1 := set_inputBuffer (set_socket c s) b) in *.
    assert (size c1 <= size c + room) as Hz1 by (unfold size; cbn; lia).
    destruct (0 <? zlen d) eqn:E1; [|destruct (zlen d =? 0) eqn:E2; [|zpos; lia]].
    + destruct (Hmb c1) as (c' & -> & [? ? ? ? ?]); [done|by intros ?%open_not_connecting|lia|].
      exists c'. split; [done|]. split; [done|by eapply keeps_trans|by rewrite <-Hs1|done|lia].
    + destruct (handleClose_spec k connectionCallback_ c1) as (c' & -> & [? ? ? ? ?] & _); [done|done|done|lia|].
      exists c'. split; [done|]. split; [done|by eapply keeps_trans|by rewrite <-Hs1|done|lia].
  - rewrite readFd_error. cbn [mbind res_bind]. destruct (Hset _ Hwi) as (Hi1 & Hk1 & Hs1).
    eexists. split; [done|]. split; [done|done|by rewrite Hs1|done|]. unfold size. cbn. lia.
Qed.

Lemma connectEstablished_spec k (connectionCallback_ : t L S U → res (t L S U)) c :
  behaves k connectionCallback_ → inv c → state_ c = kConnecting → size c + k < 2 ^ 62 →
  ∃ c', connectEstablished connectionCallback_ c = Ok c' ∧ inv c' ∧
    stream c `prefix_of` stream c' ∧ 1 <= rank (state_ c') ∧ size c' <= size c + k ∧
    Channel.tied_ (channel_ c') = true ∧ ¬ unregistered (channel_ c').
Proof.
  intros Hcb Hinv Hst Hsz. unfold connectEstablished. rewrite thread_ok by done.
  rewrite bool_decide_true by done. cbn [mbind res_bind cassert].
  set (c1 := set_channel _ _). pose proof Hinv as [Hb [r [Hr Hro]] Hco].
  assert (is_open c = false) as Hop by (unfold is_open; by rewrite Hst).
  assert (writing c1 = false) as Hw.
  { unfold writing. cbn. by rewrite (Hco Hst). }
  destruct (on_channel_inv c1 ChannelOps.enableReading (λ e, Z.lor e Channel.kReadEvent) r true (writing c) false)
    as (l & ch & -> & Hi & Hk & Hu & _); [done| |done| |done|done|done|].
  { destruct Hb. split; [done|done|by eapply chan_ok_same, base_chan0|done]. }
  { rewrite interest_read_on. unfold writing. by rewrite Hop. }
  cbn [mbind res_bind]. set (c2 := set_channel (set_loop c1 l) ch) in *.
  destruct (Hcb c2) as (c' & -> & [? Hk2 ? ? ?]); [done..|].
  exists c'. split_and!; [done..|by rewrite (keeps_tied _ _ Hk2), (keeps_tied _ _ Hk)|by apply Hk2].
Qed.

(** [connectDestroyed] needs a connection that is up or down: one that is still
    disconnecting keeps its interest and fails the assertion of [remove]. *)
Lemma connectDestroyed_spec k (connectionCallback_ : t L S U → res (t L S U)) c :
  behaves k connectionCallback_ → inv c → state_ c = kConnected ∨ state_ c = kDisconnected →
  ¬ unregistered (channel_ c) → may_remove (loop_ c) (channel_ c) → size c + k < 2 ^ 62 → 0 <= k →
  ∃ c', connectDestroyed connectionCallback_ c = Ok c' ∧ state_ c' = kDisconnected ∧
    stream c `prefix_of` stream c' ∧ unregistered (channel_ c').
Proof.
  intros Hcb Hinv Hst Hu Hm Hsz Hk0. unfold connectDestroyed. rewrite thread_ok by done. cbn [mbind res_bind].
  assert (∃ c1, (if bool_decide (state_ c = kConnected) then
      c ← on_channel ChannelOps.disableAll (set_state c kDisconnected); connectionCallback_ c
      else mret c) = Ok c1 ∧
    inv c1 ∧ keeps c c1 ∧ stream c `prefix_of` stream c1 ∧ state_ c1 = kDisconnected ∧
    ¬ unregistered (channel_ c1)) as (c1 & -> & Hi & Hk & Hs & Hd & Hu1).
  { case_bool_decide as Hc.
    - destruct (close_spec k connectionCallback_ c) as (c' & Heq & [] & ? & ?); [done..|]. by exists c'.
    - exists c. split_and!; [done|done|apply keeps_refl|done| |done]. by destruct Hst. }
  cbn [mbind res_bind]. pose proof Hi as [[_ _ (h & d0 & Hh & Hd0 & Hsame & Hf) Ht] [r [Hr Hro]] _].
  assert (is_open c1 = false) as Ho by (unfold is_open; by rewrite Hd).
  rewrite (Hro Ho) in Hr. unfold writing in Hr. rewrite Ho in Hr. cbn [andb] in Hr.
  assert (Channel.isNoneEvent (channel_ c1) = true) as Hnone by by apply interest_isNone in Hr.
  unfold on_channel, ChannelOps.remove. rewrite Hnone. cbn [cassert mbind res_bind].
  destruct (remove_spec (loop_ c1) h d0 (Channel.set_addedToLoop (channel_ c1) false))
    as (l & -> & _ & _); [done..| |].
  { apply (may_remove_addr _ (channel_ c)); [by destruct Hk|]. by apply Hk. }
  eexists. by split_and!.
Qed.

Lemma forceCloseInLoop_spec k (connectionCallback_ : t L S U → res (t L S U)) c :
  behaves k connectionCallback_ → inv c → size c + k < 2 ^ 62 → 0 <= k →
  ∃ c', forceCloseInLoop connectionCallback_ c = Ok c' ∧ evolves k c c'.
Proof.
  intros Hcb Hinv Hsz Hk. unfold forceCloseInLoop. rewrite thread_ok by done. cbn [mbind res_bind].
  fold (is_open c). destruct (is_open c) eqn:Ho.
  - destruct (handleClose_spec k connectionCallback_ c) as (c' & ? & ? & _); [done..|]. eauto.
  - exists c. split; [done|]. eapply evolves_weaken, evolves_refl; [|done]. done.
Qed.

Lemma reading_spec c :
  inv c → is_open c = true →
  (∃ c', startReadInLoop c = Ok c' ∧ evolves 0 c c') ∧ (∃ c', stopReadInLoop c = Ok c' ∧ evolves 0 c c').
Proof.
  intros Hinv Hopen. pose proof Hinv as [Hb [r [Hr Hro]] Hco]. unfold startReadInLoop, stopReadInLoop.
  rewrite !thread_ok by done. cbn [mbind res_bind]. split.
  - destruct (_ || _); [|eauto using evolves_refl].
    destruct (on_channel_inv c ChannelOps.enableReading (λ e, Z.lor e Channel.kReadEvent) r true (writing c) (writing c))
      as (l & ch & -> & Hi & Hk & _); [done..|apply interest_read_on|done|congruence|done|].
    eexists. split; [done|]. split; [|by destruct Hk; split|done|done|by rewrite Z.add_0_r].
    destruct Hi as [[] ? ?]. split; [by split|done|done].
  - destruct (_ || _); [|eauto using evolves_refl].
    destruct (on_channel_inv c ChannelOps.disableReading (λ e, Z.land e (Z.lnot Channel.kReadEvent))
      r false (writing c) (writing c))
      as (l & ch & -> & Hi & Hk & _); [done..|apply interest_read_off|done|done|done|].
    eexists. split; [done|]. split; [|by destruct Hk; split|done|done|by rewrite Z.add_0_r].
    destruct Hi as [[] ? ?]. split; [by split|done|done].
Qed.

(** Changing the state of an open connection to [kDisconnecting]. *)
Lemma disconnecting_spec c :
  inv c → is_open c = true → evolves 0 c (set_state c kDisconnecting).
Proof.
  intros [[] [r [Hr Hro]] ?] Hopen. split.
  - split; [by split| |done]. exists r. split; [|done]. unfold writing in *. cbn. by rewrite Hopen in Hr.
  - by split.
  - done.
  - unfold is_open in Hopen. by destruct (state_ c).
  - unfold size. cbn. lia.
Qed.

Lemma shutdown_evolves c : inv c → ∃ c', shutdownInLoop c = Ok c' ∧ evolves 0 c c' ∧ state_ c' = state_ c.
Proof.
  intros Hinv. rewrite shutdownInLoop_spec by done. eexists. split; [done|].
  destruct (writing c); [split; [by apply evolves_refl|done]|].
  destruct (inv_set_socket c (sock_shutdownWrite (socket_ c)) Hinv). split; [|done].
  split; [done|done|unfold stream; cbn; by rewrite shutdown_law|done|unfold size; cbn; lia].
Qed.

Lemma sendInLoop_evolves data c :
  inv c → state_ c ≠ kConnecting → size c + zlen data < 2 ^ 62 →
  ∃ c', sendInLoop data c = Ok c' ∧ evolves (zlen data) c c'.
Proof.
  intros. destruct (sendInLoop_spec data c) as (c' & ? & ? & ? & Hs & Hst & ?); [done..|].
  exists c'. split; [done|]. split; [done|done|rewrite Hst; by eexists|by rewrite Hs|done].
Qed.

Lemma evolves_handling c b : inv c → evolves 0 c (set_channel c (Channel.set_eventHandling (channel_ c) b)).
Proof.
  intros [[] Hev ?]. split; [|by split|done|done|unfold size; cbn; lia].
  split; [|done|done]. split; [done|done|by eapply chan_ok_same, base_chan0|done].
Qed.

(** A hang-up is reported with unread input, or without anything else to read; the
    channel runs its close callback and its read callback otherwise. *)
Definition single_close (revents : Z) : bool :=
  negb (has revents EPOLLHUP && negb (has revents EPOLLIN) &&
        (has revents EPOLLPRI || has revents EPOLLRDHUP)).

Lemma handleEvent_spec k km guard time (connectionCallback_ : t L S U → res (t L S U)) messageCallback_ c :
  behaves k connectionCallback_ → behaves km (messageCallback_ time) → 0 <= k → 0 <= km →
  inv c → is_open c = true → single_close (Channel.revents_ (channel_ c)) = true →
  size c + Buffer.extrabuf_size + k + km < 2 ^ 62 →
  ∃ c', handleEvent connectionCallback_ messageCallback_ guard time c = Ok c' ∧
    evolves (Buffer.extrabuf_size + k + km) c c'.
Proof.
  intros Hcb Hmb Hk Hkm Hinv Hopen Hsingle Hsz.
  pose proof Hinv as [[Hwi _ _ _] _ _]. set (room := Buffer.extrabuf_size) in *. assert (0 <= room) by done.
  assert (evolves (room + k + km) c c) as Hrefl by (eapply evolves_weaken, evolves_refl; [lia|done]).
  assert (∃ c', ChannelOps.handleEventWithGuard channel_ set_channel
    (Some (handleRead connectionCallback_ messageCallback_)) (Some handleWrite)
    (Some (handleClose connectionCallback_)) (Some handleError) time c = Ok c' ∧
    evolves (room + k + km) c c') as Hg.
  2:{ unfold handleEvent, ChannelOps.handleEvent. destruct (Channel.tied_ _), guard; eauto. }
  unfold ChannelOps.handleEventWithGuard, ChannelOps.call, handleError.
  set (c0 := set_channel c _). set (ev := Channel.revents_ (channel_ c)) in *.
  assert (evolves 0 c c0) as H0 by by apply evolves_handling.
  change (Channel.revents_ (channel_ c0)) with ev.
  assert (∃ c1, (if has ev EPOLLHUP && negb (has ev EPOLLIN) then handleClose connectionCallback_ c0
                 else mret c0) = Ok c1 ∧ evolves k c c1 ∧
    (has ev EPOLLHUP && negb (has ev EPOLLIN) = false → c1 = c0)) as (c1 & -> & He1 & Hid1).
  { destruct (_ && _) eqn:E; [|exists c0; split_and!; [done|by eapply evolves_weaken|done]].
    destruct (handleClose_spec k connectionCallback_ c0) as (c1 & -> & He1 & _); [done|apply H0|done| |].
    - change (size c0) with (size c). lia.
    - exists c1. split_and!; [done| |done]. by apply (evolves_trans 0 k c c0 c1). }
  cbn [mbind res_bind]. rewrite (keeps_revents _ _ (ev_keeps _ _ _ He1)). fold ev.
  assert ((if has ev EPOLLERR then mret c1 else mret c1) = Ok c1) as -> by by destruct (has ev EPOLLERR).
  cbn [mbind res_bind]. rewrite (keeps_revents _ _ (ev_keeps _ _ _ He1)). fold ev.
  assert (∃ c2, (if has ev (Z.lor EPOLLIN (Z.lor EPOLLPRI EPOLLRDHUP))
                 then handleRead connectionCallback_ messageCallback_ time c1 else mret c1) = Ok c2 ∧
    evolves (room + k + km) c c2) as (c2 & Hc2 & He2).
  { rewrite !has_lor. destruct (has ev EPOLLIN || _) eqn:E.
    2:{ exists c1. split; [done|]. eapply evolves_weaken; [|done]. lia. }
    assert (c1 = c0) as ->.
    { apply Hid1. unfold single_close in Hsingle.
      destruct (has ev EPOLLHUP), (has ev EPOLLIN), (has ev EPOLLPRI), (has ev EPOLLRDHUP); done. }
    destruct (handleRead_spec k km time connectionCallback_ messageCallback_ c0) as (c2 & -> & He2);
      [done..|apply H0|done|done|]. exists c2. split; [done|]. by apply (evolves_trans 0 _ c c0 c2). }
  cbn [fmap option_fmap option_map]. rewrite Hc2. cbn [mbind res_bind].
  rewrite (keeps_revents _ _ (ev_keeps _ _ _ He2)). fold ev.
  assert (∃ c3, (if has ev EPOLLOUT then handleWrite c2 else mret c2) = Ok c3 ∧
    evolves (room + k + km) c c3) as (c3 & -> & He3).
  { destruct (has ev EPOLLOUT); [|eauto].
    destruct (handleWrite_spec c2) as (c3 & -> & ? & ? & Hs & Hst & Hz & _); [apply He2|].
    exists c3. split; [done|]. rewrite <-(Z.add_0_r (_ + km)). eapply evolves_trans; [done|].
    split; [done|done|by rewrite Hst|by rewrite Hs|lia]. }
  cbn [mbind res_bind]. eexists. split; [done|]. rewrite <-(Z.add_0_r (_ + km)).
  eapply evolves_trans; [done|]. apply evolves_handling, He3.
Qed.

End Invariant.

(** ** Any run of a connection *)

Section Runs.
Import TcpConnection.
Context {L S U : Type} `{CL : ChannelLoop L, CLL : !ChannelLoopLaws L CL,
  FL : FunctorLoop L functor, FLL : !FunctorLoopLaws L functor CL CLL FL,
  SO : Socket S, SL : !SocketLaws S SO}.
Variables (connectionCallback_ writeComplete : t L S U → res (t L S U))
  (messageCallback_ highWaterMark : Z → t L S U → res (t L S U)) (k : Z).
Hypotheses (Hk : 0 <= k)
  (connection_behaves : behaves k connectionCallback_)
  (message_behaves : ∀ time, behaves k (messageCallback_ time))
  (writeComplete_behaves : behaves k writeComplete)
  (highWaterMark_behaves : ∀ n, behaves k (highWaterMark n)).
Implicit Types c : t L S U.

(** What happens to an established connection in its loop thread: the poller reports
    events, the loop runs queued functors, the program calls the interface. *)
Inductive conn_event :=
  | Polled (revents receiveTime : Z)
  | Ran (f : functor)
  | Sent (message : list byte)
  | SentBuffer (buf : Buffer.t)
  | Shutdown
  | ForcedClose.

Definition run_event (e : conn_event) c : res (t L S U) :=
  match e with
  | Polled revents time =>
      handleEvent connectionCallback_ messageCallback_ true time
        (set_channel c (Channel.set_revents (channel_ c) revents))
  | Ran f => run connectionCallback_ writeComplete highWaterMark f c
  | Sent message => send connectionCallback_ writeComplete highWaterMark message c
  | SentBuffer buf => fst <$> send_buffer connectionCallback_ writeComplete highWaterMark buf c
  | Shutdown => shutdown connectionCallback_ writeComplete highWaterMark c
  | ForcedClose => forceClose c
  end.

(** The poller reports only channels with an interest; reading is switched on and off
    while the connection is open; establishing and destroying are not repeated. *)
Definition event_legal (e : conn_event) c : Prop :=
  match e with
  | Polled revents _ => Channel.isNoneEvent (channel_ c) = false ∧ single_close revents = true
  | Ran (StartReadInLoop | StopReadInLoop) => is_open c = true
  | Ran (ConnectEstablished | ConnectDestroyed) => False
  | SentBuffer buf => Buffer.wf buf
  | _ => True
  end.

Definition event_cost (e : conn_event) : Z :=
  match e with
  | Polled _ _ => Buffer.extrabuf_size + k + k
  | Ran (SendInLoop message) | Sent message => zlen message
  | SentBuffer buf => zlen (Buffer.content buf)
  | _ => k
  end.

Lemma interested_open c : inv c → Channel.isNoneEvent (channel_ c) = false → is_open c = true.
Proof.
  intros [_ [r [Hr Hro]] _] Hn. destruct (is_open c) eqn:Ho; [done|].
  rewrite (Hro eq_refl) in Hr. unfold writing in Hr. rewrite Ho in Hr.
  apply interest_isNone in Hr. by rewrite Hr in Hn.
Qed.

Lemma shutdown_spec c :
  inv c → ∃ c', shutdown connectionCallback_ writeComplete highWaterMark c = Ok c' ∧ evolves 0 c c'.
Proof.
  intros Hinv. unfold shutdown, runInLoop. case_bool_decide as Hc; [|eauto using evolves_refl].
  assert (is_open c = true) as Ho by (unfold is_open; by rewrite Hc).
  pose proof (disconnecting_spec c Hinv Ho) as Hd.
  pose proof Hd as [[[] ? ?] ? ? ? ?]. rewrite base_thread0. cbn [run].
  destruct (shutdown_evolves (set_state c kDisconnecting)) as (c' & -> & He & _); [apply Hd|].
  exists c'. split; [done|]. by apply (evolves_trans 0 0 _ _ _ Hd).
Qed.

Lemma forceClose_spec c : inv c → ∃ c', forceClose c = Ok c' ∧ evolves 0 c c'.
Proof.
  intros Hinv. unfold forceClose. fold (is_open c). eexists. split; [done|].
  destruct (is_open c) eqn:Ho; [|by apply evolves_refl].
  pose proof (disconnecting_spec c Hinv Ho) as Hd. apply (evolves_trans 0 0 _ _ _ Hd).
  split; [by apply inv_queue, Hd|apply keeps_queue|done|done|unfold size; cbn; lia].
Qed.

Lemma send_spec data c :
  inv c → state_ c ≠ kConnecting → size c + zlen data < 2 ^ 62 →
  ∃ c', send connectionCallback_ writeComplete highWaterMark data c = Ok c' ∧ evolves (zlen data) c c'.
Proof.
  intros Hinv Hnc Hsz. unfold send.
  case_bool_decide; [|exists c; split; [done|]; eapply evolves_weaken, evolves_refl; [apply zlen_nonneg|done]].
  rewrite (base_thread _ (inv_base _ Hinv)). by apply sendInLoop_evolves.
Qed.

Lemma send_buffer_spec buf c :
  inv c → state_ c ≠ kConnecting → Buffer.wf buf → size c + zlen (Buffer.content buf) < 2 ^ 62 →
  ∃ c', fst <$> send_buffer connectionCallback_ writeComplete highWaterMark buf c = Ok c' ∧
    evolves (zlen (Buffer.content buf)) c c'.
Proof.
  intros Hinv Hnc Hwf Hsz. unfold send_buffer.
  case_bool_decide; [|exists c; split; [done|]; eapply evolves_weaken, evolves_refl; [apply zlen_nonneg|done]].
  rewrite (base_thread _ (inv_base _ Hinv)). rewrite readable_content by done. zpos.
  rewrite peek_read_spec by (done || lia). cbn [mbind res_bind]. rewrite ztake_ge by lia.
  destruct (sendInLoop_evolves (Buffer.content buf) c Hinv Hnc Hsz) as (c' & -> & He). by exists c'.
Qed.

(** [evolves] without the received events, which the poller overwrites. *)
Definition advances (n : Z) c c' : Prop :=
  inv c' ∧ stream c `prefix_of` stream c' ∧ rank (state_ c) <= rank (state_ c') ∧ size c' <= size c + n.

Lemma evolves_advances n n' c c' : evolves n c c' → n <= n' → advances n' c c'.
Proof. intros [] ?. split_and!; [done..|lia]. Qed.

Lemma run_functor_spec f c :
  inv c → state_ c ≠ kConnecting → event_legal (Ran f) c → size c + event_cost (Ran f) < 2 ^ 62 →
  ∃ c', run connectionCallback_ writeComplete highWaterMark f c = Ok c' ∧
    evolves (event_cost (Ran f)) c c'.
Proof.
  intros Hinv Hnc Hl Hsz.
  assert (∀ P : t L S U → Prop, (∃ c', P c' ∧ evolves 0 c c') → ∃ c', P c' ∧ evolves k c c') as Hweak.
  { intros P (c' & HP & He). exists c'. split; [done|]. by eapply evolves_weaken. }
  destruct f; cbn [run event_legal event_cost] in *.
  - by apply sendInLoop_evolves.
  - apply Hweak. destruct (shutdown_evolves c Hinv) as (c' & ? & ? & _). eauto.
  - by apply forceCloseInLoop_spec.
  - by apply Hweak, forceClose_spec.
  - by apply Hweak, reading_spec.
  - by apply Hweak, reading_spec.
  - by apply writeComplete_behaves.
  - by apply highWaterMark_behaves.
  - done.
  - done.
Qed.

Lemma run_event_spec e c :
  inv c → state_ c ≠ kConnecting → event_legal e c → size c + event_cost e < 2 ^ 62 →
  ∃ c', run_event e c = Ok c' ∧ advances (event_cost e) c c'.
Proof.
  intros Hinv Hnc Hl Hsz.
  assert (∀ r n, n <= event_cost e → (∃ c', r = Ok c' ∧ evolves n c c') →
    ∃ c', r = Ok c' ∧ advances (event_cost e) c c') as Hadv.
  { intros r n Hn (c' & Hr & He). exists c'. split; [done|]. by eapply evolves_advances. }
  destruct e as [rev time|f|msg|buf| |]; cbn [run_event] in *.
  - destruct Hl as [Hn Hs]. set (c0 := set_channel c _).
    assert (inv c0) as Hi0.
    { destruct Hinv as [[] ? ?]. split; [|done|done]. split; [done|done|by eapply chan_ok_same, base_chan0|done]. }
    destruct (handleEvent_spec k k true time connectionCallback_ messageCallback_ c0) as (c' & Hc' & He);
      [done|done|done|done|done|by apply (interested_open c)|done|
       change (size c0) with (size c); cbn [event_cost] in Hsz; lia|].
    exists c'. split; [done|]. by destruct He.
  - eapply Hadv; [|by apply run_functor_spec]. cbn; lia.
  - eapply Hadv; [|by apply send_spec]. cbn; lia.
  - eapply Hadv; [|by apply send_buffer_spec]. cbn; lia.
  - eapply Hadv; [|by apply shutdown_spec]. cbn; lia.
  - eapply Hadv; [|by apply forceClose_spec]. cbn; lia.
Qed.

(** A run: every event is legal where it happens. *)
Inductive conn_run : list conn_event → t L S U → t L S U → Prop :=
  | run_nil c : conn_run [] c c
  | run_cons e es c c1 c' :
      event_legal e c → run_event e c = Ok c1 → conn_run es c1 c' → conn_run (e :: es) c c'.

Definition run_cost (es : list conn_event) : Z := foldr (λ e acc, event_cost e + acc) 0 es.

Lemma event_cost_nonneg e : 0 <= event_cost e.
Proof. destruct e as [| []| | | |]; cbn; zpos; unfold Buffer.extrabuf_size; lia. Qed.

Lemma run_cost_nonneg es : 0 <= run_cost es.
Proof. induction es as [|e es IH]; cbn; [lia|]. pose proof (event_cost_nonneg e). unfold run_cost in IH. lia. Qed.

(** C9 (safety). Through any run of events, functors and calls, with any outcome of
    the kernel's reads and writes, an established connection keeps its invariant (in
    particular it asks for write events exactly while output is waiting), never loses,
    reorders or repeats a byte it accepted, and only moves towards disconnection; and
    no next legal event can make an assertion fail. *)
Theorem conn_run_safe (c c' : t L S U) (es : list conn_event) :
  inv c → state_ c ≠ kConnecting → conn_run es c c' → size c + run_cost es < 2 ^ 62 →
  inv c' ∧ stream c `prefix_of` stream c' ∧ rank (state_ c) <= rank (state_ c') ∧
  ∀ e, event_legal e c' → size c + run_cost es + event_cost e < 2 ^ 62 → returns (run_event e c').
Proof.
  intros Hinv Hnc Hr. revert Hinv Hnc.
  induction Hr as [c|e es c c1 c' Hl He Hr IH]; intros Hinv Hnc Hsz; cbn [run_cost foldr] in *.
  - split_and!; [done..|lia|]. intros e Hl Hs.
    destruct (run_event_spec e c) as (c' & ? & _); [done|done|done|unfold run_cost in *; cbn in *; lia|]. by exists c'.
  - fold (run_cost es) in *. pose proof (run_cost_nonneg es).
    destruct (run_event_spec e c) as (c2 & He2 & Hi & Hp & Hrk & Hs); [done|done|done|lia|].
    rewrite He in He2. injection He2 as ->.
    assert (state_ c2 ≠ kConnecting) as Hnc2.
    { intros Hc. rewrite Hc in Hrk. by destruct (state_ c). }
    destruct (IH Hi Hnc2) as (Hi' & Hp' & Hrk' & Hnext); [lia|].
    split_and!; [done|by etrans|lia|]. intros e' Hl' Hs'. apply Hnext; [done|lia].
Qed.

End Runs.

(** ** Sending and half-closing *)

Section Output.
Import TcpConnection.
Context {L S U : Type} `{CL : ChannelLoop L, CLL : !ChannelLoopLaws L CL,
  FL : FunctorLoop L functor, FLL : !FunctorLoopLaws L functor CL CLL FL,
  SO : Socket S, SL : !SocketLaws S SO}.
Implicit Types c : t L S U.

(** C10 (functional). A message given to the loop thread is appended, whole and once,
    behind everything accepted before, however much of it the kernel takes at once;
    it is dropped whole only when the connection is down or the direct write reports a
    broken pipe or a reset.  What the kernel does not take is queued, and write events
    are then requested. *)
Theorem send_appends (data : list byte) (c : t L S U) :
  inv c → state_ c ≠ kConnecting → size c + zlen data < 2 ^ 62 →
  ∃ c', sendInLoop data c = Ok c' ∧
    stream c' = stream c ++ (if refused c data then [] else data) ∧
    inv c' ∧ state_ c' = state_ c ∧
    (is_open c' = true →
       Channel.isWriting (channel_ c') = negb (bool_decide (Buffer.content (outputBuffer_ c') = []))).
Proof.
  intros Hinv Hnc Hsz. destruct (sendInLoop_spec data c Hinv Hnc Hsz) as (c' & ? & Hi & _ & ? & ? & _).
  exists c'. split_and!; [done..|]. intros Ho. by rewrite inv_writing, writing_open.
Qed.

(** C11 (functional). A shutdown loses no output: with output waiting the socket is not
    touched, and the half-close is sent by the write event that hands the last byte to
    the kernel, which by then has taken the whole stream. *)
Theorem shutdown_flushes cc wc hw (c : t L S U) s :
  inv c → state_ c = kConnected → Buffer.content (outputBuffer_ c) ≠ [] →
  sock_write (socket_ c) (Buffer.content (outputBuffer_ c)) =
    (Wrote (zlen (Buffer.content (outputBuffer_ c))), s) →
  shutdown cc wc hw c = Ok (set_state c kDisconnecting) ∧
  ∃ c', handleWrite (set_state c kDisconnecting) = Ok c' ∧
    socket_ c' = sock_shutdownWrite s ∧ taken (socket_ c') = stream c ∧
    Buffer.content (outputBuffer_ c') = [] ∧ Channel.isWriting (channel_ c') = false.
Proof.
  intros Hinv Hst Hne Hsw. set (c1 := set_state c kDisconnecting).
  assert (is_open c = true) as Ho by (unfold is_open; by rewrite Hst).
  pose proof (disconnecting_spec c Hinv Ho) as Hd. fold c1 in Hd.
  assert (inv c1) as Hi1 by apply Hd.
  assert (writing c1 = true) as Hw1 by (unfold writing; cbn; by rewrite bool_decide_false).
  split.
  - unfold shutdown, runInLoop. rewrite bool_decide_true by done.
    change (isInLoopThread (loop_ (set_state c kDisconnecting))) with (isInLoopThread (loop_ c)).
    rewrite (base_thread _ (inv_base _ Hinv)). cbn [run]. fold c1. by rewrite shutdownInLoop_spec, Hw1.
  - destruct (handleWrite_cases c1 Hi1 Hw1) as (c' & Hh & Hi' & _ & Hs' & _ & _ & Hcase).
    cbv zeta in Hcase. cbn [socket_ outputBuffer_ state_ c1 set_state] in Hcase. rewrite Hsw in Hcase.
    rewrite !bool_decide_true in Hcase by done. cbn [andb] in Hcase. destruct Hcase as [Hout Hsock].
    rewrite zdrop_ge in Hout by lia.
    exists c'. split_and!; [done|done| |done|].
    + rewrite Hsock, shutdown_law. apply write_law in Hsw as [_ ->]. by rewrite ztake_ge by lia.
    + rewrite inv_writing by done. unfold writing. by rewrite Hout, andb_false_r.
Qed.

(** Destroying a connection that is still disconnecting aborts: its channel
    keeps its interest, and [Channel::remove] asserts that there is none. *)
Theorem destroy_while_disconnecting cc (c : t L S U) :
  inv c → state_ c = kDisconnecting → Channel.isNoneEvent (channel_ c) = false →
  connectDestroyed cc c = Fault AssertFail.
Proof.
  intros Hinv Hst Hn. unfold connectDestroyed. rewrite thread_ok by done.
  rewrite bool_decide_false by congruence. cbn [mbind res_bind mret res_ret].
  unfold on_channel, ChannelOps.remove. by rewrite Hn.
Qed.

End Output.

(** ** Witnesses: a connection on the reactor, with a kernel that takes a few bytes *)

Module ToySocket.

(** The outcomes of the next writes, and what was taken; input is never there. *)
Record sock := mksock { outcomes : list write_result; sent : list byte; closed : bool }.

#[export] Instance toy_socket : Socket sock := {|
  sock_write s d :=
    match outcomes s with
    | Wrote n :: os =>
        let m := Z.max 0 (Z.min n (zlen d)) in
        (Wrote m, mksock os (sent s ++ ztake m d) (closed s))
    | WriteError e :: os => (WriteError e, mksock os (sent s) (closed s))
    | [] => (Wrote (zlen d), mksock [] (sent s ++ d) (closed s))
    end;
  sock_readv s room := (Buffer.ReadError EWOULDBLOCK, s);
  sock_shutdownWrite s := mksock (outcomes s) (sent s) true
|}.

#[export] Instance toy_socket_laws : SocketLaws sock toy_socket.
Proof.
  refine {| taken := sent |}; cbn.
  - intros s d r s' Hw. pose proof (zlen_nonneg d). destruct (outcomes s) as [|[n|e] os]; simplify_eq; cbn.
    + split; [lia|]. by rewrite ztake_ge by lia.
    + split; [lia|done].
    + done.
  - intros s room r s' [= <- <-]. done.
  - done.
Defined.

End ToySocket.

Section Witness.
Import TcpConnection ToySocket ToyEpoll ToyEventfd.

Abbreviation toy_conn := (t (Reactor.t interest_list N functor) sock unit).

(** The channel of descriptor 7 is registered for reading. *)
Definition toy_channel : Channel.t := Channel.mk 2 1 7 Channel.kReadEvent 0 1 true true false true.

Definition toy_reactor : Reactor.t interest_list N functor :=
  Reactor.mk
    (EventLoop.mk 1 true false false false 0 1 0
       (EPollPoller.mk {[7 := 2%positive]} {[7 := (Channel.kReadEvent, 2%positive)]} 16)
       0%N [] None [] 1)
    (TimerQueue.mk [] ∅ false ∅ ∅ None) 1 0 0.

Definition toy_buffer : Buffer.t := Buffer.mk (zrep 64 x00) 8 8.

Definition toy_established {S} (out : Buffer.t) (ch : Channel.t) (r : Reactor.t interest_list N functor)
    (s : S) : t (Reactor.t interest_list N functor) S unit :=
  mk r "conn"%string kConnected true s ch true false kHighWaterMark toy_buffer out ().

Definition idle : toy_conn :=
  toy_established toy_buffer toy_channel toy_reactor (mksock [Wrote 2; Wrote 100] [] false).

Lemma indexes_single {V} (f : Channel.t → option V) (c : Channel.t) a v :
  f c = Some v → indexes {[Channel.fd_ c := v]} {[a := c]} f.
Proof.
  intros Hf fd w. rewrite lookup_singleton_Some. split.
  - intros [<- <-]. exists a, c. by rewrite lookup_singleton_eq.
  - intros (b & d & [<- <-]%lookup_singleton_Some & <- & Hw). split; congruence.
Qed.

Lemma established_inv {S} (s : S) : inv (toy_established toy_buffer toy_channel toy_reactor s).
Proof.
  split.
  - split; [split; vm_compute; congruence..| |reflexivity].
    exists {[2%positive := toy_channel]}, toy_channel.
    split_and!; [|apply lookup_singleton_eq|done|].
    + split; [split|].
      * by intros a c [<- <-]%lookup_singleton_Some.
      * intros a c [<- <-]%lookup_singleton_Some. by right; left.
      * by apply (indexes_single registered toy_channel 2%positive).
      * by apply (indexes_single wants toy_channel 2%positive).
      * by intros a c [<- <-]%lookup_singleton_Some.
    + intros a c [<- <-]%lookup_singleton_Some _ Hne. by destruct Hne.
  - exists true. split; [reflexivity|done].
  - done.
Qed.

Lemma idle_inv : inv idle.
Proof. apply established_inv. Qed.

Lemma send_appends_witness :
  ∃ c', sendInLoop (bytes_of "hello") idle = Ok c' ∧ stream c' = bytes_of "hello" ∧
        Channel.isWriting (channel_ c') = true.
Proof.
  destruct (send_appends (bytes_of "hello") idle idle_inv) as (c' & Hs & Hst & _);
    [discriminate|vm_compute; reflexivity|].
  exists c'. split; [exact Hs|]. split; [rewrite Hst; reflexivity|].
  vm_compute in Hs. injection Hs as <-. reflexivity.
Defined.

(** The same connection after a message of which the kernel took two bytes. *)
Lemma busy_spec :
  ∃ c, sendInLoop (bytes_of "hello") idle = Ok c ∧ inv c ∧ state_ c = kConnected ∧
       Buffer.content (outputBuffer_ c) = bytes_of "llo" ∧
       socket_ c = mksock [Wrote 100] (bytes_of "he") false.
Proof.
  destruct (sendInLoop_spec (bytes_of "hello") idle idle_inv) as (c & Hs & Hi & _);
    [discriminate|vm_compute; reflexivity|].
  exists c. split; [exact Hs|]. split; [exact Hi|].
  vm_compute in Hs. injection Hs as <-. repeat split.
Qed.

Lemma shutdown_flushes_witness :
  ∃ c c', sendInLoop (bytes_of "hello") idle = Ok c ∧
    handleWrite (set_state c kDisconnecting) = Ok c' ∧
    socket_ c' = mksock [] (bytes_of "hello") true.
Proof.
  destruct busy_spec as (c & Hs & Hi & Hst & Hout & Hsock).
  destruct (shutdown_flushes (λ c, Ok c) (λ c, Ok c) (λ _ c, Ok c) c
    (mksock [] (bytes_of "hello") false) Hi Hst) as (_ & c' & Hw & Hc' & _).
  - rewrite Hout. discriminate.
  - rewrite Hout, Hsock. reflexivity.
  - exists c, c'. split; [exact Hs|]. split; [exact Hw|]. rewrite Hc'. reflexivity.
Defined.

Lemma id_behaves k : 0 <= k → behaves k (λ c : toy_conn, Ok c).
Proof. intros Hk c Hc _ _. exists c. split; [done|]. eapply evolves_weaken, evolves_refl; done. Qed.

(** A message is sent of which the kernel takes two bytes, it becomes writable, and the
    connection is shut down. *)
Definition toy_run : list conn_event := [Sent (bytes_of "hello"); Polled EPOLLOUT 0; Shutdown].

Lemma conn_run_safe_witness :
  ∃ c, conn_run (λ c : toy_conn, Ok c) (λ c, Ok c) (λ _ c, Ok c) (λ _ c, Ok c) toy_run idle c ∧
    inv c ∧ stream c = bytes_of "hello" ∧
    returns (run_event (λ c : toy_conn, Ok c) (λ c, Ok c) (λ _ c, Ok c) (λ _ c, Ok c) (Sent (bytes_of "late")) c).
Proof.
  eassert (conn_run (λ c : toy_conn, Ok c) (λ c, Ok c) (λ _ c, Ok c) (λ _ c, Ok c) toy_run idle _) as Hrun.
  { eapply run_cons; [exact I|vm_compute; reflexivity|]. eapply run_cons; [split; reflexivity|vm_compute; reflexivity|].
    eapply run_cons; [exact I|vm_compute; reflexivity|]. apply run_nil. }
  destruct (conn_run_safe (λ c : toy_conn, Ok c) (λ c, Ok c) (λ _ c, Ok c) (λ _ c, Ok c) 0 ltac:(lia)
    (id_behaves 0 ltac:(lia)) (λ _, id_behaves 0 ltac:(lia)) (id_behaves 0 ltac:(lia))
    (λ _, id_behaves 0 ltac:(lia)) idle _ toy_run idle_inv ltac:(discriminate) Hrun
    ltac:(vm_compute; reflexivity)) as (Hi & _ & _ & Hnext).
  eexists. split; [exact Hrun|]. split; [exact Hi|]. split; [vm_compute; reflexivity|].
  apply Hnext; [exact I|vm_compute; reflexivity].
Defined.

Lemma destroy_while_disconnecting_witness :
  connectDestroyed (λ c, Ok c) (set_state idle kDisconnecting) = Fault AssertFail.
Proof.
  apply (destroy_while_disconnecting (λ c, Ok c) (set_state idle kDisconnecting));
    [|reflexivity|reflexivity].
  apply (disconnecting_spec idle idle_inv eq_refl).
Defined.

End Witness.
