(* ===== verification/Inet.v ===== *)
(** * InetAddress.h/.cc and the address functions of SocketsOps.cc

    IPv4 addresses: byte order, text form and back.  The integers of a [sockaddr_in]
    are those a little-endian host reads in it, so a field in network order holds the
    bytes of the value reversed. *)
From stdpp Require Import pretty.
From S2P Require Import Prelude Text.

Definition AF_INET : Z := 2.
Definition INET_ADDRSTRLEN : Z := 16.
Definition INADDR_ANY : Z := 0.
Definition INADDR_LOOPBACK : Z := 2130706433.

(** [sin_zero] is padding. *)
Record sockaddr_in := mkaddr {
  sin_family : Z;
  sin_port : Z;
  s_addr : Z
}.

(** The object after [memset(&addr_, 0, sizeof addr_)]. *)
Definition addr_zero : sockaddr_in := mkaddr 0 0 0.

#[export] Instance sockaddr_in_eq_dec : EqDecision sockaddr_in.
Proof. solve_decision. Defined.

(** [htobe16], [be16toh], [htobe32], [be32toh]: the bytes in the other order. *)
Definition bswap (n : nat) (z : Z) : Z := be_value (reverse (be_bytes n z)).

(** The bytes of [s_addr] in memory. *)
Definition addr_bytes (z : Z) : list byte := reverse (be_bytes 4 z).

(** [inet_ntop(AF_INET, ...)]. *)
Definition inet_ntop (z : Z) : string :=
  match addr_bytes z with
  | [a; b; c; d] =>
      (dec (Z_of_byte a) +:+ "." +:+ dec (Z_of_byte b) +:+ "." +:+ dec (Z_of_byte c) +:+ "." +:+
       dec (Z_of_byte d))%string
  | _ => ""%string
  end.

(** [inet_pton(AF_INET, ...)]: four numbers up to 255 without leading zeros.  [tmp]
    holds the numbers before the current one, which is [cur]; [saw_digit] says that it
    has a digit. *)
Fixpoint pton_go (tmp : list Z) (cur : Z) (saw_digit : bool) (src : list byte) : option (list Z) :=
  match src with
  | [] => if saw_digit && (zlen tmp =? 3) then Some (tmp ++ [cur]) else None
  | ch :: src' =>
      if isdigit ch then
        let new := cur * 10 + (Z_of_byte ch - 48) in
        if saw_digit && (cur =? 0) then None
        else if 255 <? new then None
        else pton_go tmp new true src'
      else if (Z_of_byte ch =? 46) && saw_digit then
        if zlen tmp =? 3 then None else pton_go (tmp ++ [cur]) 0 false src'
      else None
  end.

(** The value stored in [sin_addr], [None] when the function returns 0. *)
Definition inet_pton (s : list byte) : option Z :=
  tmp ← pton_go [] 0 false (c_str s);
  mret (be_value (reverse (byte_of_Z <$> tmp))).

Module sockets.

(** [buf] of [size] bytes holds the text; it was empty before. *)
Definition toIp (size : Z) (addr : sockaddr_in) : res string :=
  if sin_family addr =? AF_INET then
    _ ← cassert (INET_ADDRSTRLEN <=? size);
    mret (inet_ntop (s_addr addr))
  else mret ""%string.

Definition toIpPort (size : Z) (addr : sockaddr_in) : res string :=
  buf ← toIp size addr;
  let end_ := slen buf in
  let port := bswap 2 (sin_port addr) in
  _ ← cassert (end_ <? size);
  mret (buf +:+ snprintf (size - end_) (":" +:+ dec port))%string.

(** A text that is not an address leaves [sin_addr] as it is. *)
Definition fromIpPort (ip : list byte) (port : Z) (addr : sockaddr_in) : sockaddr_in :=
  let addr := mkaddr AF_INET (bswap 2 port) (s_addr addr) in
  match inet_pton ip with
  | Some a => mkaddr (sin_family addr) (sin_port addr) a
  | None => addr
  end.

End sockets.

Module InetAddress.

Definition make (port : Z) (loopbackOnly : bool) : sockaddr_in :=
  let ip := if loopbackOnly then INADDR_LOOPBACK else INADDR_ANY in
  mkaddr AF_INET (bswap 2 port) (bswap 4 ip).

Definition setIpPort (ip : list byte) (port : Z) : sockaddr_in :=
  sockets.fromIpPort ip port addr_zero.

Definition make_ip (ip : list byte) (port : Z) : sockaddr_in := sockets.fromIpPort ip port addr_zero.

Definition family (a : sockaddr_in) : Z := sin_family a.
Definition portNetEndian (a : sockaddr_in) : Z := sin_port a.

Definition toIpPort (a : sockaddr_in) : res string := sockets.toIpPort 64 a.
Definition toIp (a : sockaddr_in) : res string := sockets.toIp 64 a.

Definition ipNetEndian (a : sockaddr_in) : res Z :=
  _ ← cassert (family a =? AF_INET);
  mret (s_addr a).

Definition toPort (a : sockaddr_in) : Z := bswap 2 (portNetEndian a).

End InetAddress.

(** ** Byte order *)

Lemma be_bytes_value n l : length l = n → be_bytes n (be_value l) = l.
Proof.
  revert l. induction n as [|n IH]; intros l Hl; [by destruct l|].
  destruct l as [|b l] using rev_ind; [done|]. clear IHl. rewrite length_app in Hl. cbn in Hl.
  cbn [be_bytes]. rewrite be_value_snoc. pose proof (Z_of_byte_range b).
  replace ((256 * be_value l + Z_of_byte b) / 256) with (be_value l) by dlia.
  rewrite IH by lia. do 2 f_equal. apply Z_of_byte_inj. rewrite Z_of_byte_of_Z. dlia.
Qed.

Lemma length_be_bytes n z : length (be_bytes n z) = n.
Proof. pose proof (zlen_be_bytes n z). unfold zlen in *. lia. Qed.

Lemma bswap_range n z : 0 <= bswap n z < 2 ^ (8 * Z.of_nat n).
Proof.
  unfold bswap. pose proof (be_value_range (reverse (be_bytes n z))) as H.
  unfold zlen in H. by rewrite length_reverse, length_be_bytes in H.
Qed.

Lemma bswap_bswap n z : 0 <= z < 2 ^ (8 * Z.of_nat n) → bswap n (bswap n z) = z.
Proof.
  intros Hz. unfold bswap. rewrite be_bytes_value by (by rewrite length_reverse, length_be_bytes).
  rewrite reverse_involutive, be_value_bytes. by apply Z.mod_small.
Qed.

Lemma addr_bytes_value l : length l = 4%nat → addr_bytes (be_value (reverse l)) = l.
Proof.
  intros. unfold addr_bytes. rewrite be_bytes_value by (by rewrite length_reverse).
  apply reverse_involutive.
Qed.

Lemma addr_bytes_four z : ∃ a b c d, addr_bytes z = [a; b; c; d].
Proof.
  pose proof (length_be_bytes 4 z) as H. unfold addr_bytes. revert H. generalize (be_bytes 4 z).
  intros l H. destruct l as [|a [|b [|c [|d [|]]]]]; try done. by exists d, c, b, a.
Qed.

(** ** The text form *)

(** What the decimal digits of a byte are to the parser, and what they are not. *)
Lemma pton_octet tmp (b : byte) rest :
  pton_go tmp 0 false (bytes_of (dec (Z_of_byte b)) ++ rest) = pton_go tmp (Z_of_byte b) true rest.
Proof. by destruct b. Qed.

Lemma pton_dot tmp cur rest :
  zlen tmp < 3 → pton_go tmp cur true (bytes_of "." ++ rest) = pton_go (tmp ++ [cur]) 0 false rest.
Proof. intros. cbn. by replace (zlen tmp =? 3) with false by lia. Qed.

Lemma ntop_no_nul z : x00 ∉ bytes_of (inet_ntop z).
Proof.
  unfold inet_ntop. destruct (addr_bytes_four z) as (a & b & c & d & ->).
  assert (x00 ∉ bytes_of ".") by (by vm_compute; set_solver).
  rewrite !bytes_of_app, !not_elem_of_app. pose proof dec_no_nul. naive_solver.
Qed.

Lemma pton_ntop z : 0 <= z < 2 ^ 32 → inet_pton (bytes_of (inet_ntop z)) = Some z.
Proof.
  intros Hz. unfold inet_pton. rewrite c_str_no_nul by apply ntop_no_nul.
  unfold inet_ntop. destruct (addr_bytes_four z) as (a & b & c & d & E). rewrite E.
  rewrite !bytes_of_app.
  do 3 (rewrite pton_octet, pton_dot by done).
  rewrite <-(app_nil_r (bytes_of (dec (Z_of_byte d)))), pton_octet. cbn [app pton_go andb].
  change (zlen _ =? 3) with true. cbn [mbind option_bind mret option_ret fmap list_fmap app].
  rewrite !byte_of_Z_of_byte, <-E. unfold addr_bytes. rewrite reverse_involutive, be_value_bytes.
  f_equal. by apply Z.mod_small.
Qed.

(** The text the parser has read so far. *)
Definition pton_text (tmp : list Z) (cur : Z) (saw_digit : bool) : list byte :=
  (tmp ≫= λ z, bytes_of (dec z) ++ bytes_of ".") ++ (if saw_digit then bytes_of (dec cur) else []).

Lemma isdigit_digit ch : isdigit ch = true → ch = digit (Z_of_byte ch - 48) ∧ 0 <= Z_of_byte ch - 48 < 10.
Proof.
  unfold isdigit, digit. intros. split; [|lia].
  replace (48 + (Z_of_byte ch - 48)) with (Z_of_byte ch) by lia. by rewrite byte_of_Z_of_byte.
Qed.

(** An accepted text is the text of its numbers. *)
Lemma pton_go_sound src tmp cur saw l :
  pton_go tmp cur saw src = Some l →
  (∀ z, z ∈ tmp → 0 <= z < 256) → 0 <= cur < 256 → (saw = false → cur = 0) →
  ∃ tmp' cur', l = tmp' ++ [cur'] ∧ zlen tmp' = 3 ∧ (∀ z, z ∈ l → 0 <= z < 256) ∧
    pton_text tmp cur saw ++ src = pton_text tmp' cur' true.
Proof.
  revert tmp cur saw. induction src as [|ch src IH]; intros tmp cur saw; cbn [pton_go]; intros Hgo Ht Hc Hs.
  - destruct (saw && (zlen tmp =? 3)) eqn:E; [|done]. injection Hgo as <-. exists tmp, cur.
    destruct saw; [|done]. split_and!; [done|lia| |by rewrite app_nil_r]. set_solver.
  - destruct (isdigit ch) eqn:Ed.
    + apply isdigit_digit in Ed as [Ech Hd]. destruct (saw && _) eqn:E1; [done|].
      destruct (255 <? _) eqn:E2; [done|].
      destruct (IH _ _ _ Hgo Ht ltac:(lia) ltac:(done)) as (t' & c' & -> & Hl & Hr & Htxt).
      exists t', c'. split_and!; [done..|]. rewrite <-Htxt. unfold pton_text.
      rewrite <-!app_assoc. f_equal. replace (ch :: src) with ([ch] ++ src) by done. rewrite app_assoc. f_equal.
      rewrite Ech at 1. replace (cur * 10) with (10 * cur) by lia. destruct saw.
      * rewrite dec_snoc; [done|lia..].
      * rewrite Hs by done. by rewrite dec_digit by lia.
    + destruct (_ && saw) eqn:E1; [|done]. destruct saw; [|by rewrite andb_false_r in E1].
      destruct (zlen tmp =? 3) eqn:E2; [done|].
      destruct (IH _ _ _ Hgo) as (t' & c' & -> & Hl & Hr & Htxt); [set_solver|lia|done|].
      exists t', c'. split_and!; [done..|]. rewrite <-Htxt. unfold pton_text.
      rewrite bind_app. cbn [mbind list_bind]. rewrite !app_nil_r, <-!app_assoc. do 2 f_equal.
      assert (Z_of_byte ch = 46) as Hch by lia. apply (f_equal byte_of_Z) in Hch.
      rewrite byte_of_Z_of_byte in Hch. by subst ch.
Qed.

Lemma ntop_pton s a : inet_pton s = Some a → 0 <= a < 2 ^ 32 ∧ bytes_of (inet_ntop a) = c_str s.
Proof.
  unfold inet_pton. destruct (pton_go _ _ _ _) as [l|] eqn:E; [|done].
  cbn [mbind option_bind mret option_ret]. intros Ha. injection Ha as <-.
  apply pton_go_sound in E as (t & c & -> & Hl & Hr & Htxt); [|set_solver|lia|done].
  change (pton_text [] 0 false) with (@nil byte) in Htxt. cbn [app] in Htxt. rewrite Htxt.
  assert (∃ x y z, t = [x; y; z]) as (x & y & z & ->).
  { unfold zlen in Hl. destruct t as [|x [|y [|z [|]]]]; cbn in Hl; try lia. by exists x, y, z. }
  split.
  - match goal with |- 0 <= be_value ?k < _ => pose proof (be_value_range k) as Hb end. exact Hb.
  - unfold inet_ntop. rewrite addr_bytes_value by done. cbn [fmap list_fmap app].
    rewrite !Z_of_byte_of_Z, !Z.mod_small by (apply Hr; set_solver).
    rewrite !bytes_of_app. unfold pton_text. cbn [mbind list_bind]. by rewrite !app_nil_r, <-!app_assoc.
Qed.

(** The longest text has 15 characters. *)
Lemma ntop_len z : slen (inet_ntop z) <= 15.
Proof.
  unfold inet_ntop. destruct (addr_bytes_four z) as (a & b & c & d & ->). rewrite !slen_app.
  change (slen ".") with 1.
  assert (∀ x : byte, slen (dec (Z_of_byte x)) <= 3) as H.
  { intros x. pose proof (Z_of_byte_range x). apply (dec_len_le 3); cbn; lia. }
  pose proof (H a). pose proof (H b). pose proof (H c). pose proof (H d). lia.
Qed.

Lemma port_len p : 0 <= p < 2 ^ 16 → slen (":" +:+ dec p) <= 6.
Proof. intros. rewrite slen_app. change (slen ":") with 1. pose proof (dec_len_le 5 p). lia. Qed.

Lemma toIpPort_text a :
  sin_family a = AF_INET →
  InetAddress.toIpPort a = Ok (inet_ntop (s_addr a) +:+ ":" +:+ dec (InetAddress.toPort a))%string.
Proof.
  intros Hf. unfold InetAddress.toIpPort, sockets.toIpPort, sockets.toIp. rewrite Hf, Z.eqb_refl.
  change (cassert (INET_ADDRSTRLEN <=? 64)) with (Ok ()). cbn [mbind res_bind mret res_ret].
  pose proof (ntop_len (s_addr a)).
  pose proof (bswap_range 2 (sin_port a)) as Hp. pose proof (port_len _ Hp).
  rewrite cassert_true by lia. cbn [mbind res_bind]. by rewrite snprintf_fits by lia.
Qed.

Lemma toIpPort_len a s :
  sin_family a = AF_INET → InetAddress.toIpPort a = Ok s → slen s <= 21.
Proof.
  intros Hf. rewrite toIpPort_text by done. intros [= <-]. rewrite slen_app.
  pose proof (ntop_len (s_addr a)). pose proof (port_len _ (bswap_range 2 (sin_port a))).
  unfold InetAddress.toPort, InetAddress.portNetEndian. lia.
Qed.

(** C37 (roundtrip). Text and addresses: an IPv4 address built from what [toIp] and
    [toPort] return is the address itself; a text that [inet_pton] accepts is returned
    unchanged by [toIp] of the address built from it, and any other text silently gives
    0.0.0.0; [toIpPort] is the two texts with a colon and always fits its 64 bytes. *)
Theorem inet_roundtrip (a : sockaddr_in) (ip : list byte) (port : Z) :
  sin_family a = AF_INET → 0 <= sin_port a < 2 ^ 16 → 0 <= s_addr a < 2 ^ 32 → 0 <= port < 2 ^ 16 →
  (∃ text, InetAddress.toIp a = Ok text ∧
     InetAddress.make_ip (bytes_of text) (InetAddress.toPort a) = a ∧
     InetAddress.toIpPort a = Ok (text +:+ ":" +:+ dec (InetAddress.toPort a))%string) ∧
  InetAddress.toPort (InetAddress.make_ip ip port) = port ∧
  ∃ text, InetAddress.toIp (InetAddress.make_ip ip port) = Ok text ∧
    match inet_pton ip with
    | Some _ => bytes_of text = c_str ip
    | None => text = "0.0.0.0"%string
    end.
Proof.
  intros Hf Hp Ha Hport. split_and!.
  - exists (inet_ntop (s_addr a)). unfold InetAddress.toIp, sockets.toIp. rewrite Hf, Z.eqb_refl.
    split; [done|]. split; [|by apply toIpPort_text].
    unfold InetAddress.make_ip, sockets.fromIpPort. rewrite pton_ntop by done. cbn [sin_family sin_port].
    unfold InetAddress.toPort, InetAddress.portNetEndian. rewrite bswap_bswap by done.
    destruct a as [f p s]. cbn in *. by subst f.
  - unfold InetAddress.make_ip, sockets.fromIpPort, InetAddress.toPort, InetAddress.portNetEndian.
    destruct (inet_pton ip); cbn [sin_port]; by apply bswap_bswap.
  - unfold InetAddress.make_ip, sockets.fromIpPort, InetAddress.toIp, sockets.toIp.
    destruct (inet_pton ip) as [s|] eqn:E; cbn [sin_family s_addr]; (eexists; split; [reflexivity|]).
    + by apply ntop_pton in E as [_ ?].
    + by vm_compute.
Qed.

Lemma inet_roundtrip_witness :
  InetAddress.toIp (mkaddr AF_INET (bswap 2 8888) (bswap 4 2130706433)) = Ok "127.0.0.1"%string ∧
  inet_pton (bytes_of "01.2.3.4") = None ∧
  ∃ text, InetAddress.toIp (InetAddress.make_ip (bytes_of "192.168.0.17") 8888) = Ok text ∧
    bytes_of text = bytes_of "192.168.0.17".
Proof.
  split; [done|]. split; [done|].
  destruct (inet_roundtrip (mkaddr AF_INET (bswap 2 8888) (bswap 4 2130706433)) (bytes_of "192.168.0.17") 8888)
    as (_ & _ & text & Ht & Hb).
  - done.
  - by vm_compute.
  - by vm_compute.
  - lia.
  - exists text. split; [done|exact Hb].
Defined.
