(* ===== verification/Sockets.v ===== *)
(** * SocketsOps.cc and Socket.cc: the system calls on sockets

    The calls go to the kernel (class [Sys], with the state [K] of the kernel and of
    [errno]); [SysLaws] is what fcntl(2) says of descriptors and of [errno].  Writing a
    log line can change [errno] as well. *)
From S2P Require Import Prelude Text State Inet.

Definition EPERM : Z := 1.
Definition EINTR : Z := 4.
Definition EBADF : Z := 9.
Definition EAGAIN : Z := 11.
Definition ENOMEM : Z := 12.
Definition EFAULT : Z := 14.
Definition EINVAL : Z := 22.
Definition ENFILE : Z := 23.
Definition EMFILE : Z := 24.
Definition EPROTO : Z := 71.
Definition ENOTSOCK : Z := 88.
Definition EOPNOTSUPP : Z := 95.
Definition ECONNABORTED : Z := 103.
Definition ENOBUFS : Z := 105.

Definition F_GETFD : Z := 1.
Definition F_SETFD : Z := 2.
Definition F_GETFL : Z := 3.
Definition F_SETFL : Z := 4.
Definition O_NONBLOCK : Z := 2048.
Definition FD_CLOEXEC : Z := 1.
Definition SOL_SOCKET : Z := 1.
Definition SO_REUSEADDR : Z := 2.
Definition SO_KEEPALIVE : Z := 9.
Definition SO_REUSEPORT : Z := 15.
Definition IPPROTO_TCP : Z := 6.
Definition TCP_NODELAY : Z := 1.

Class Sys (K : Type) := {
  errno : K → Z;
  set_errno : Z → K → K;
  log_line : K → K;
  sys_socket : Z → K → Z * K;
  sys_fcntl : Z → Z → Z → K → Z * K;
  sys_bind : Z → sockaddr_in → K → Z * K;
  sys_listen : Z → K → Z * K;
  sys_accept : Z → K → Z * sockaddr_in * K;
  sys_connect : Z → sockaddr_in → K → Z * K;
  sys_close : Z → K → Z * K;
  sys_shutdownWrite : Z → K → Z * K;
  sys_open_null : K → Z * K;
  sys_setsockopt : Z → Z → Z → Z → K → Z * K;
  sys_so_error : Z → K → Z * Z * K;
  sys_getsockname : Z → K → Z * sockaddr_in * K;
  sys_getpeername : Z → K → Z * sockaddr_in * K
}.

(** [descriptor k fd] is the status flags and the descriptor flags of an open [fd]. *)
Class SysLaws (K : Type) (SY : Sys K) := {
  descriptor : K → Z → option (Z * Z);
  errno_set e k : errno (set_errno e k) = e;
  fcntl_bad fd cmd arg k : fd < 0 → sys_fcntl fd cmd arg k = (-1, set_errno EBADF k);
  fcntl_getfl fd arg k fl fdfl :
    descriptor k fd = Some (fl, fdfl) → sys_fcntl fd F_GETFL arg k = (fl, k);
  fcntl_getfd fd arg k fl fdfl :
    descriptor k fd = Some (fl, fdfl) → sys_fcntl fd F_GETFD arg k = (fdfl, k);
  fcntl_setfl fd k fl fdfl :
    descriptor k fd = Some (fl, fdfl) →
    ∃ r k', sys_fcntl fd F_SETFL (Z.lor fl O_NONBLOCK) k = (r, k') ∧
      descriptor k' fd = Some (Z.lor fl O_NONBLOCK, fdfl);
  fcntl_setfd fd k fl fdfl :
    descriptor k fd = Some (fl, fdfl) →
    ∃ r k', sys_fcntl fd F_SETFD (Z.lor fdfl FD_CLOEXEC) k = (r, k') ∧
      descriptor k' fd = Some (fl, Z.lor fdfl FD_CLOEXEC);
  accept_fresh fd k connfd addr k' :
    sys_accept fd k = (connfd, addr, k') → 0 <= connfd → is_Some (descriptor k' connfd)
}.

Module SocketsOps.
Section SocketsOps.
Context `{SY : Sys K}.

Definition sys {A} (f : K → A * K) : st K A := λ k, Ok (f k).

Definition LOG_SYSERR : st K unit := modify log_line.

Definition setNonBlockAndCloseOnExec (sockfd : Z) : st K unit :=
  flags ← sys (sys_fcntl sockfd F_GETFL 0);
  let flags := Z.lor flags O_NONBLOCK in
  _ ← sys (sys_fcntl sockfd F_SETFL flags);
  flags ← sys (sys_fcntl sockfd F_GETFD 0);
  let flags := Z.lor flags FD_CLOEXEC in
  _ ← sys (sys_fcntl sockfd F_SETFD flags);
  mret ().

Definition createNonblockingOrDie (family : Z) : st K Z :=
  sockfd ← sys (sys_socket family);
  if sockfd <? 0 then fault Fatal else
  _ ← setNonBlockAndCloseOnExec sockfd;
  mret sockfd.

Definition bindOrDie (sockfd : Z) (addr : sockaddr_in) : st K unit :=
  ret ← sys (sys_bind sockfd addr);
  if ret <? 0 then fault Fatal else mret ().

Definition listenOrDie (sockfd : Z) : st K unit :=
  ret ← sys (sys_listen sockfd);
  if ret <? 0 then fault Fatal else mret ().

(** The errors of accept(2) that the code calls expected. *)
Definition accept_expected (e : Z) : bool :=
  (e =? EAGAIN) || (e =? ECONNABORTED) || (e =? EINTR) || (e =? EPROTO) || (e =? EPERM) || (e =? EMFILE).

Definition accept (sockfd : Z) : st K (Z * sockaddr_in) :=
  '(connfd, addr) ← sys (sys_accept sockfd);
  _ ← setNonBlockAndCloseOnExec connfd;
  if connfd <? 0 then
    savedErrno ← gets errno;
    _ ← LOG_SYSERR;
    if accept_expected savedErrno then
      _ ← modify (set_errno savedErrno);
      mret (connfd, addr)
    else fault Fatal
  else mret (connfd, addr).

Definition connect (sockfd : Z) (addr : sockaddr_in) : st K Z := sys (sys_connect sockfd addr).

Definition close (sockfd : Z) : st K unit :=
  r ← sys (sys_close sockfd);
  if r <? 0 then LOG_SYSERR else mret ().

Definition shutdownWrite (sockfd : Z) : st K unit :=
  r ← sys (sys_shutdownWrite sockfd);
  if r <? 0 then LOG_SYSERR else mret ().

Definition getSocketError (sockfd : Z) : st K Z :=
  '(r, optval) ← sys (sys_so_error sockfd);
  if r <? 0 then gets errno else mret optval.

(** On failure the zeroed address stays. *)
Definition getLocalAddr (sockfd : Z) : st K sockaddr_in :=
  '(r, localaddr) ← sys (sys_getsockname sockfd);
  mret (if r <? 0 then addr_zero else localaddr).

Definition getPeerAddr (sockfd : Z) : st K sockaddr_in :=
  '(r, peeraddr) ← sys (sys_getpeername sockfd);
  mret (if r <? 0 then addr_zero else peeraddr).

Definition isSelfConnect (sockfd : Z) : st K bool :=
  localaddr ← getLocalAddr sockfd;
  peeraddr ← getPeerAddr sockfd;
  mret (if sin_family localaddr =? AF_INET
        then (sin_port localaddr =? sin_port peeraddr) && (s_addr localaddr =? s_addr peeraddr)
        else false).

End SocketsOps.
End SocketsOps.

(** The RAII wrapper; its state is the descriptor. *)
Module SocketObj.
Section SocketObj.
Context `{SY : Sys K}.
Import SocketsOps.

Definition destroy (sockfd_ : Z) : st K unit := close sockfd_.
Definition bindAddress (sockfd_ : Z) (addr : sockaddr_in) : st K unit := bindOrDie sockfd_ addr.
Definition listen (sockfd_ : Z) : st K unit := listenOrDie sockfd_.

(** [peeraddr] is assigned on success only. *)
Definition accept (sockfd_ : Z) (peeraddr : sockaddr_in) : st K (Z * sockaddr_in) :=
  '(connfd, addr) ← SocketsOps.accept sockfd_;
  mret (connfd, if 0 <=? connfd then addr else peeraddr).

Definition shutdownWrite (sockfd_ : Z) : st K unit := SocketsOps.shutdownWrite sockfd_.

Definition optval (on : bool) : Z := if on then 1 else 0.

Definition setTcpNoDelay (sockfd_ : Z) (on : bool) : st K unit :=
  _ ← sys (sys_setsockopt sockfd_ IPPROTO_TCP TCP_NODELAY (optval on));
  mret ().

Definition setReuseAddr (sockfd_ : Z) (on : bool) : st K unit :=
  _ ← sys (sys_setsockopt sockfd_ SOL_SOCKET SO_REUSEADDR (optval on));
  mret ().

Definition setReusePort (sockfd_ : Z) (on : bool) : st K unit :=
  ret ← sys (sys_setsockopt sockfd_ SOL_SOCKET SO_REUSEPORT (optval on));
  if (ret <? 0) && on then LOG_SYSERR else mret ().

Definition setKeepAlive (sockfd_ : Z) (on : bool) : st K unit :=
  _ ← sys (sys_setsockopt sockfd_ SOL_SOCKET SO_KEEPALIVE (optval on));
  mret ().

End SocketObj.
End SocketObj.

(** ** Accepting *)
Section Accept.
Import SocketsOps.
Context `{SY : Sys K, SL : !SysLaws K SY}.

Lemma run_sys {A B} (f : K → A * K) (k : A → st K B) s : (sys f ≫= k) s = k (f s).1 (f s).2.
Proof. unfold mbind, st_bind, sys. by destruct (f s). Qed.

(** On a descriptor that is no descriptor, the call leaves [EBADF] behind. *)
Lemma nonblock_bad fd k :
  fd < 0 → ∃ k', setNonBlockAndCloseOnExec fd k = Ok ((), k') ∧ errno k' = EBADF.
Proof.
  intros Hfd. unfold setNonBlockAndCloseOnExec.
  do 4 (rewrite run_sys, fcntl_bad by done; cbn [fst snd]). eexists. split; [reflexivity|]. apply errno_set.
Qed.

Lemma nonblock_open fd k fl fdfl :
  descriptor k fd = Some (fl, fdfl) →
  ∃ k', setNonBlockAndCloseOnExec fd k = Ok ((), k') ∧
    descriptor k' fd = Some (Z.lor fl O_NONBLOCK, Z.lor fdfl FD_CLOEXEC).
Proof.
  intros Hd. unfold setNonBlockAndCloseOnExec. rewrite run_sys, (fcntl_getfl _ _ _ _ _ Hd). cbn [fst snd].
  rewrite run_sys. destruct (fcntl_setfl fd k fl fdfl Hd) as (r1 & k1 & -> & Hd1). cbn [fst snd].
  rewrite run_sys, (fcntl_getfd _ _ _ _ _ Hd1). cbn [fst snd].
  rewrite run_sys. destruct (fcntl_setfd fd k1 _ fdfl Hd1) as (r2 & k2 & -> & Hd2). cbn [fst snd].
  by exists k2.
Qed.

Lemma accept_ok sockfd k connfd addr k1 :
  sys_accept sockfd k = (connfd, addr, k1) → 0 <= connfd →
  ∃ k' fl fdfl, accept sockfd k = Ok (connfd, addr, k') ∧ descriptor k1 connfd = Some (fl, fdfl) ∧
    descriptor k' connfd = Some (Z.lor fl O_NONBLOCK, Z.lor fdfl FD_CLOEXEC).
Proof.
  intros Ha Hfd. destruct (accept_fresh _ _ _ _ _ Ha Hfd) as [[fl fdfl] Hd].
  destruct (nonblock_open _ _ _ _ Hd) as (k' & Hn & Hd'). exists k', fl, fdfl. split_and!; [|done..].
  unfold accept. rewrite run_sys, Ha. cbn [fst snd]. rewrite (st_bind_run _ _ _ _ _ Hn).
  by replace (connfd <? 0) with false by lia.
Qed.

(** The descriptor flags are set before [errno] is looked at, so every failure is
    taken for [EBADF]. *)
Lemma accept_error sockfd k connfd addr k1 :
  sys_accept sockfd k = (connfd, addr, k1) → connfd < 0 → accept sockfd k = Fault Fatal.
Proof.
  intros Ha Hfd. unfold accept. rewrite run_sys, Ha. cbn [fst snd].
  destruct (nonblock_bad _ k1 Hfd) as (k' & Hn & He). rewrite (st_bind_run _ _ _ _ _ Hn).
  replace (connfd <? 0) with true by lia. rewrite run_gets, He. done.
Qed.
End Accept.

(** ** A kernel for concrete runs

    [todo] are the connections and errors that the next calls of [accept] meet. *)
Module ToySys.

Record t := mk {
  last_error : Z;
  todo : list (Z * sockaddr_in);
  table : gmap Z (Z * Z)
}.

Definition fail (e : Z) (k : t) : Z * t := (-1, mk e (todo k) (table k)).

Definition toy_fcntl (fd cmd arg : Z) (k : t) : Z * t :=
  match table k !! fd with
  | Some (fl, fdfl) =>
      if fd <? 0 then fail EBADF k
      else if cmd =? F_GETFL then (fl, k)
      else if cmd =? F_GETFD then (fdfl, k)
      else if cmd =? F_SETFL then (0, mk (last_error k) (todo k) (<[fd := (arg, fdfl)]> (table k)))
      else (0, mk (last_error k) (todo k) (<[fd := (fl, arg)]> (table k)))
  | None => fail EBADF k
  end.

(** The lowest numbers are taken first; a negative number in [todo] is an error. *)
Definition toy_open (k : t) : Z * t :=
  let fd := 3 + Z.of_nat (size (table k)) in
  (fd, mk (last_error k) (todo k) (<[fd := (0, 0)]> (table k))).

Definition toy_accept (fd : Z) (k : t) : Z * sockaddr_in * t :=
  match todo k with
  | [] => (-1, addr_zero, mk EAGAIN [] (table k))
  | (e, addr) :: rest =>
      if e <? 0 then (-1, addr_zero, mk (- e) rest (table k))
      else (e, addr, mk (last_error k) rest (<[e := (2, 0)]> (table k)))
  end.

#[export] Instance toy_sys : Sys t := {|
  errno := last_error;
  set_errno e k := mk e (todo k) (table k);
  log_line k := k;
  sys_socket _ := toy_open;
  sys_fcntl := toy_fcntl;
  sys_bind _ _ k := (0, k);
  sys_listen _ k := (0, k);
  sys_accept := toy_accept;
  sys_connect _ _ := fail 115;
  sys_close fd k := (0, mk (last_error k) (todo k) (delete fd (table k)));
  sys_shutdownWrite _ k := (0, k);
  sys_open_null := toy_open;
  sys_setsockopt _ _ _ _ k := (0, k);
  sys_so_error _ k := (0, 0, k);
  sys_getsockname fd k := (0, mkaddr AF_INET (bswap 2 8888) (bswap 4 INADDR_LOOPBACK), k);
  sys_getpeername fd k := (0, mkaddr AF_INET (bswap 2 50000) (bswap 4 INADDR_LOOPBACK), k)
|}.

#[export] Instance toy_sys_laws : SysLaws t toy_sys.
Proof.
  refine {| descriptor k fd := if fd <? 0 then None else table k !! fd |}; cbn.
  - done.
  - intros fd cmd arg k Hfd. unfold toy_fcntl. replace (fd <? 0) with true by lia. by destruct (table k !! fd) as [[]|].
  - intros fd arg k fl fdfl. destruct (fd <? 0) eqn:E; [done|]. unfold toy_fcntl. intros ->. by rewrite E.
  - intros fd arg k fl fdfl. destruct (fd <? 0) eqn:E; [done|]. unfold toy_fcntl. intros ->. by rewrite E.
  - intros fd k fl fdfl. destruct (fd <? 0) eqn:E; [done|]. unfold toy_fcntl. intros ->. rewrite E.
    eexists _, _. split; [reflexivity|]. cbn. by rewrite lookup_insert_eq.
  - intros fd k fl fdfl. destruct (fd <? 0) eqn:E; [done|]. unfold toy_fcntl. intros ->. rewrite E.
    eexists _, _. split; [reflexivity|]. cbn. by rewrite lookup_insert_eq.
  - intros fd k connfd addr k'. unfold toy_accept. destruct (todo k) as [|[e a] rest]; [intros [= <- _ _]; lia|].
    destruct (e <? 0) eqn:E; [intros [= <- _ _]; lia|]. intros [= <- <- <-] _. cbn. rewrite E, lookup_insert_eq. by eauto.
Defined.
End ToySys.
