(* ===== verification/TcpInfo.v ===== *)
(** * Socket.cc, TcpConnection.cc, WeakCallback.h: what surrounds a connection

    What the kernel tells of a connection (TCP_INFO) and its text, the option TCP_NODELAY,
    the callbacks a connection has when its user sets none, and the callback that holds its
    object weakly, with which [forceCloseWithDelay] waits. *)
From stdpp Require Import pretty.
From S2P Require Import Prelude Text State Buffer Channel TimerQueue EventLoop TcpConnection Inet Sockets.

(** The members of [struct tcp_info] that are shown. *)
Record tcp_info := TcpInfo {
  tcpi_retransmits : Z;
  tcpi_rto : Z;
  tcpi_ato : Z;
  tcpi_snd_mss : Z;
  tcpi_rcv_mss : Z;
  tcpi_lost : Z;
  tcpi_retrans : Z;
  tcpi_rtt : Z;
  tcpi_rttvar : Z;
  tcpi_snd_ssthresh : Z;
  tcpi_snd_cwnd : Z;
  tcpi_total_retrans : Z
}.

Definition tcp_info_zero : tcp_info := TcpInfo 0 0 0 0 0 0 0 0 0 0 0 0.

(** [getsockopt(fd, SOL_TCP, TCP_INFO, tcpi, &len)], which may write [*tcpi]. *)
Class SysTcpInfo (K : Type) := sys_tcp_info : Z → tcp_info → K → Z * tcp_info * K.

Module ConnectionInfo.
Section ConnectionInfo.
Context {K : Type} {SY : Sys K} {TI : SysTcpInfo K}.

Definition getTcpInfo (sockfd_ : Z) : st K (bool * tcp_info) :=
  '(r, tcpi) ← SocketsOps.sys (sys_tcp_info sockfd_ tcp_info_zero);
  mret (r =? 0, tcpi).

(** ["name=%u "] for each of them; the last one has no blank. *)
Definition info_items (tcpi : tcp_info) : list (string * Z) :=
  [("unrecovered=", tcpi_retransmits tcpi); (" rto=", tcpi_rto tcpi); (" ato=", tcpi_ato tcpi);
   (" snd_mss=", tcpi_snd_mss tcpi); (" rcv_mss=", tcpi_rcv_mss tcpi); (" lost=", tcpi_lost tcpi);
   (" retrans=", tcpi_retrans tcpi); (" rtt=", tcpi_rtt tcpi); (" rttvar=", tcpi_rttvar tcpi);
   (" sshthresh=", tcpi_snd_ssthresh tcpi); (" cwnd=", tcpi_snd_cwnd tcpi);
   (" total_retrans=", tcpi_total_retrans tcpi)]%string.

Definition info_text (items : list (string * Z)) : string :=
  foldr (λ item text, item.1 +:+ dec item.2 +:+ text)%string "" items.

(** [Socket::getTcpInfoString] on a buffer of [len] bytes that holds [buf]. *)
Definition getTcpInfoString (sockfd_ : Z) (buf : string) (len : Z) : st K (bool * string) :=
  '(ok, tcpi) ← getTcpInfo sockfd_;
  mret (ok, if (ok : bool) then snprintf len (info_text (info_items tcpi)) else buf).

(** [TcpConnection::getTcpInfoString]. *)
Definition conn_getTcpInfoString (sockfd_ : Z) : st K string :=
  '(_, buf) ← getTcpInfoString sockfd_ "" 1024;
  mret buf.

(** [TcpConnection::setTcpNoDelay]. *)
Definition conn_setTcpNoDelay (sockfd_ : Z) (on : bool) : st K unit := SocketObj.setTcpNoDelay sockfd_ on.

End ConnectionInfo.

Section Defaults.
Context {L S U : Type} `{CL : ChannelLoop L, FL : FunctorLoop L TcpConnection.functor, SO : Socket S}.

(** What [defaultConnectionCallback] logs; the connection is not touched. *)
Definition defaultConnectionCallback (localAddress peerAddress : sockaddr_in) (conn : TcpConnection.t L S U) : res string :=
  local ← InetAddress.toIpPort localAddress;
  peer ← InetAddress.toIpPort peerAddress;
  mret (local +:+ " -> " +:+ peer +:+ " is " +:+ if TcpConnection.connected conn then "UP" else "DOWN")%string.

Definition defaultMessageCallback (receiveTime : Z) (conn : TcpConnection.t L S U) : TcpConnection.t L S U :=
  TcpConnection.set_inputBuffer conn (Buffer.retrieveAll (TcpConnection.inputBuffer_ conn)).

End Defaults.
End ConnectionInfo.

(** An object is in [heap] while it lives; [object_] says which one it was. *)
Module WeakCallback.
Section WeakCallback.
Context {C : Type}.

Record t := mk { object_ : positive; function_ : C → res C }.

Definition call (cb : t) (heap : gmap positive C) : res (gmap positive C) :=
  match heap !! object_ cb with
  | Some ptr => ptr ← function_ cb ptr; mret (<[object_ cb := ptr]> heap)
  | None => mret heap
  end.

End WeakCallback.
#[global] Arguments t C : clear implicits.
End WeakCallback.

(** ** Facts *)
Section Text.
Import ConnectionInfo.
Context {K : Type} {SY : Sys K} {TI : SysTcpInfo K}.

(** Every member has at most 32 bits. *)
Definition wide (tcpi : tcp_info) : Prop := Forall (λ item, 0 <= item.2 < 2 ^ 32) (info_items tcpi).

Lemma info_text_len (items : list (string * Z)) :
  Forall (λ item, 0 <= item.2 < 2 ^ 32 ∧ slen item.1 <= 15) items → slen (info_text items) <= 25 * zlen items.
Proof.
  induction 1 as [|[name v] items [Hv Hn] _ IH]; [done|]. cbn [info_text foldr fst snd] in *. fold (info_text items).
  rewrite !slen_app, zlen_cons. pose proof (dec_len_le 10 v ltac:(lia) ltac:(lia)). lia.
Qed.

(** A number ends where a byte that is no digit follows. *)
Lemma digits_end (P : byte → bool) (l l' r r' : list byte) :
  Forall (λ b, P b = true) l → Forall (λ b, P b = true) l' →
  match r with b :: _ => P b = false | [] => True end → match r' with b :: _ => P b = false | [] => True end →
  l ++ r = l' ++ r' → l = l' ∧ r = r'.
Proof.
  revert l'. induction l as [|b l IH]; intros [|b' l'] Hl Hl' Hr Hr' E; cbn in E.
  - done.
  - subst r. apply Forall_cons in Hl' as [Hb _]. congruence.
  - subst r'. apply Forall_cons in Hl as [Hb _]. congruence.
  - injection E as -> E. apply Forall_cons in Hl as [_ Hl]. apply Forall_cons in Hl' as [_ Hl'].
    by destruct (IH l' Hl Hl' Hr Hr' E) as [-> ->].
Qed.

Lemma dec_digits v : 0 <= v → Forall (λ b, isdigit b = true) (bytes_of (dec v)).
Proof.
  assert (∀ d, 0 <= d < 10 → isdigit (digit d) = true) as Hd.
  { intros d Hd. assert (d = 0 ∨ d = 1 ∨ d = 2 ∨ d = 3 ∨ d = 4 ∨ d = 5 ∨ d = 6 ∨ d = 7 ∨ d = 8 ∨ d = 9) as H by lia.
    by destruct_or! H; subst d. }
  induction v as [v IH] using (well_founded_induction (Z.lt_wf 0)). intros Hv. destruct (decide (v < 10)).
  - rewrite dec_digit by lia. constructor; [apply Hd; lia|done].
  - pose proof (Z.div_mod v 10 ltac:(lia)) as E. pose proof (Z.mod_pos_bound v 10 ltac:(lia)). rewrite E, dec_snoc by lia.
    apply Forall_app. split; [apply IH; lia|]. constructor; [by apply Hd|done].
Qed.

(** The text gives the values back. *)
Definition delimited (name : string) : Prop :=
  match bytes_of name with b :: _ => isdigit b = false | [] => False end.

Lemma info_text_inj (items items' : list (string * Z)) :
  items.*1 = items'.*1 → Forall (λ item, delimited item.1 ∧ 0 <= item.2) items → Forall (λ item, 0 <= item.2) items' →
  bytes_of (info_text items) = bytes_of (info_text items') → items = items'.
Proof.
  revert items'. induction items as [|[name v] items IH]; intros [|[name' v'] items'] Hn Hi Hi' E; try done.
  injection Hn as <- Hn. apply Forall_cons in Hi as [[_ Hv] Hi]. apply Forall_cons in Hi' as [Hv' Hi']. cbn [snd] in *.
  cbn [info_text foldr fst snd] in E. fold (info_text items) (info_text items') in E. rewrite !bytes_of_app in E. apply app_inv_head in E.
  assert (∀ l : list (string * Z), Forall (λ item, delimited item.1) l →
    match bytes_of (info_text l) with b :: _ => isdigit b = false | [] => True end) as Hend.
  { intros [|[n w] l] Hl; [done|]. apply Forall_cons in Hl as [Hl _]. cbn [info_text foldr fst snd]. fold (info_text l). rewrite bytes_of_app.
    unfold delimited in Hl. cbn [fst] in Hl. by destruct (bytes_of n). }
  assert (Forall (λ item, delimited item.1) items) as Hd by (eapply Forall_impl; [exact Hi|]; by intros ? []).
  assert (Forall (λ item, delimited item.1) items') as Hd'.
  { apply (Forall_fmap fst delimited items'). change (Forall delimited (list_fmap _ _ fst items')). rewrite <-Hn.
    by apply (Forall_fmap fst delimited items). }
  destruct (digits_end isdigit _ _ _ _ (dec_digits v Hv) (dec_digits v' Hv') (Hend _ Hd) (Hend _ Hd') E) as [Ev E'].
  f_equal; [|by apply IH]. f_equal. apply (f_equal string_of) in Ev. rewrite !string_of_bytes_of in Ev. by apply (inj (pretty (A:=Z))) in Ev.
Qed.

(** The text of the TCP information of a connection: when the kernel gives it,
    the 1024 bytes hold all of it, so that it tells the twelve values apart; when not, it is
    empty. *)
Theorem tcp_info_text fd (k k' : K) r tcpi :
  sys_tcp_info fd tcp_info_zero k = (r, tcpi, k') → wide tcpi →
  conn_getTcpInfoString fd k = Ok (if r =? 0 then info_text (info_items tcpi) else ""%string, k') ∧
  slen (info_text (info_items tcpi)) < 1024 ∧
  ∀ tcpi', wide tcpi' → info_text (info_items tcpi') = info_text (info_items tcpi) → tcpi' = tcpi.
Proof.
  intros E Hw.
  assert (slen (info_text (info_items tcpi)) < 1024) as Hlen.
  { assert (Forall (λ item, 0 <= item.2 < 2 ^ 32 ∧ slen item.1 <= 15) (info_items tcpi)) as Hi.
    { apply Forall_and. split; [exact Hw|]. by repeat (constructor; [by vm_compute|]). }
    pose proof (info_text_len _ Hi). change (zlen (info_items tcpi)) with 12 in *. lia. }
  split; [|split; [exact Hlen|]].
  - assert (getTcpInfo fd k = Ok ((r =? 0, tcpi), k')) as Ei by (unfold getTcpInfo; by rewrite run_sys, E).
    assert (getTcpInfoString fd "" 1024 k = Ok ((r =? 0, if r =? 0 then info_text (info_items tcpi) else ""%string), k')) as Es.
    { unfold getTcpInfoString. rewrite (st_bind_run _ _ _ _ _ Ei), snprintf_fits by done. done. }
    unfold conn_getTcpInfoString. by rewrite (st_bind_run _ _ _ _ _ Es).
  - intros tcpi' Hw' Et. apply (f_equal bytes_of) in Et. destruct tcpi, tcpi'. apply info_text_inj in Et; [|done| |].
    + unfold info_items in Et. cbn in Et. by simplify_eq.
    + eapply Forall_and. split; [by repeat (constructor; [by vm_compute|])|]. eapply Forall_impl; [exact Hw'|]. cbn. lia.
    + eapply Forall_impl; [exact Hw|]. cbn. lia.
Qed.
End Text.

Section Weak.
Context {L S U : Type} `{CL : ChannelLoop L, FL : FunctorLoop L TcpConnection.functor, SO : Socket S}.
Abbreviation conn := (TcpConnection.t L S U).

(** When the delay of [forceCloseWithDelay] is over: a connection that is gone or closed is
    left alone, and another is closed in its loop. *)
Lemma delayed_close (id : positive) (heap : gmap positive conn) :
  ∃ heap', WeakCallback.call (WeakCallback.mk id TcpConnection.forceClose) heap = Ok heap' ∧
    match heap !! id with
    | None => heap' = heap
    | Some c =>
        heap' !! id = Some (match TcpConnection.state_ c with
          | TcpConnection.kConnected | TcpConnection.kDisconnecting =>
              TcpConnection.queue (TcpConnection.set_state c TcpConnection.kDisconnecting) TcpConnection.ForceCloseInLoop
          | TcpConnection.kConnecting | TcpConnection.kDisconnected => c
          end) ∧ delete id heap' = delete id heap
    end.
Proof.
  unfold WeakCallback.call. cbn [WeakCallback.object_ WeakCallback.function_]. destruct (heap !! id) as [c|] eqn:Hc; [|by eexists].
  unfold TcpConnection.forceClose. cbn [mbind res_bind mret res_ret]. eexists. split; [reflexivity|].
  rewrite lookup_insert_eq, delete_insert_eq. split; [|done]. by destruct (TcpConnection.state_ c).
Qed.
End Weak.
