(* ===== verification/Acceptor.v ===== *)
(** * Acceptor.cc: the listening socket

    The acceptor lives in the world [W] of its owner ([get]/[put]), on which the new
    connection callback runs. *)
From S2P Require Import Prelude Text State Inet Sockets Channel.

Module Acceptor.
Section Acceptor.
Context {L K : Type} `{CL : ChannelLoop L, SY : Sys K}.
Import SocketsOps.

(** [loop_] and [sys] are the loop and the kernel as the acceptor sees them. *)
Record t := mk {
  loop_ : L;
  sys_ : K;
  acceptSocket_ : Z;
  acceptChannel_ : Channel.t;
  listenning_ : bool;
  idleFd_ : Z
}.

Definition set_sys (k : K) (a : t) : t :=
  mk (loop_ a) k (acceptSocket_ a) (acceptChannel_ a) (listenning_ a) (idleFd_ a).
Definition set_listenning (b : bool) (a : t) : t :=
  mk (loop_ a) (sys_ a) (acceptSocket_ a) (acceptChannel_ a) b (idleFd_ a).
Definition set_idleFd (fd : Z) (a : t) : t :=
  mk (loop_ a) (sys_ a) (acceptSocket_ a) (acceptChannel_ a) (listenning_ a) fd.
Definition set_channel (l : L) (c : Channel.t) (a : t) : t :=
  mk l (sys_ a) (acceptSocket_ a) c (listenning_ a) (idleFd_ a).

(** A system call of the acceptor. *)
Definition kernel {A} (m : st K A) : st t A := zoom sys_ set_sys m.

Definition on_channel (op : L → Channel.t → res (L * Channel.t)) : st t unit := λ a,
  '(l, c) ← op (loop_ a) (acceptChannel_ a);
  Ok ((), set_channel l c a).

Definition assertInLoopThread : st t unit := λ a,
  if isInLoopThread (loop_ a) then Ok ((), a) else Fault Fatal.

(** The constructor; [addr] and [loop] are the addresses of the channel and the loop. *)
Definition make (l : L) (addr loop : positive) (listenAddr : sockaddr_in) (reuseport : bool) (k : K) : res t :=
  '(fd, k) ← createNonblockingOrDie (InetAddress.family listenAddr) k;
  let '(idle, k) := sys_open_null k in
  _ ← cassert (0 <=? idle);
  '(_, k) ← SocketObj.setReuseAddr fd true k;
  '(_, k) ← SocketObj.setReusePort fd reuseport k;
  '(_, k) ← SocketObj.bindAddress fd listenAddr k;
  mret (mk l k fd (Channel.make addr loop fd) false idle).

Definition destroy : st t unit :=
  _ ← on_channel ChannelOps.disableAll;
  _ ← on_channel ChannelOps.remove;
  fd ← gets idleFd_;
  _ ← kernel (sys (sys_close fd));
  mret ().

Definition listen : st t unit :=
  _ ← assertInLoopThread;
  _ ← modify (set_listenning true);
  fd ← gets acceptSocket_;
  _ ← kernel (SocketObj.listen fd);
  on_channel ChannelOps.enableReading.

Section HandleRead.
Context {W : Type} (get : W → t) (put : t → W → W).
Variable newConnectionCallback_ : option (Z → sockaddr_in → st W unit).

Definition handleRead : st W unit :=
  _ ← zoom get put assertInLoopThread;
  let peerAddr := InetAddress.make 0 false in
  sock ← gets (acceptSocket_ ∘ get);
  '(connfd, peerAddr) ← zoom get put (kernel (SocketObj.accept sock peerAddr));
  if 0 <=? connfd then
    match newConnectionCallback_ with
    | Some cb => cb connfd peerAddr
    | None => zoom get put (kernel (SocketsOps.close connfd))
    end
  else
    _ ← zoom get put (kernel LOG_SYSERR);
    e ← gets (errno ∘ sys_ ∘ get);
    if e =? EMFILE then
      idle ← gets (idleFd_ ∘ get);
      _ ← zoom get put (kernel (sys (sys_close idle)));
      '(idle, _) ← zoom get put (kernel (sys (sys_accept sock)));
      _ ← zoom get put (kernel (sys (sys_close idle)));
      idle ← zoom get put (kernel (sys sys_open_null));
      zoom get put (modify (set_idleFd idle))
    else mret ().

End HandleRead.
End Acceptor.
#[global] Arguments t L K : clear implicits.
End Acceptor.

Section Facts.
Import Acceptor.
Context {L K W : Type} `{CL : ChannelLoop L, SY : Sys K, SL : !SysLaws K SY}.
Context (get : W → t L K) (put : t L K → W → W).
Lemma thread_run (a : t L K) : isInLoopThread (loop_ a) = true → assertInLoopThread a = Ok ((), a).
Proof. unfold assertInLoopThread. by intros ->. Qed.

Lemma zoom_run {A B} (m : st (t L K) A) (k : A → st W B) w a s :
  m (get w) = Ok (a, s) → (zoom get put m ≫= k) w = k a (put s w).
Proof. intros Hm. apply st_bind_run. by apply zoom_Ok. Qed.

Lemma kernel_run {A} (m : st K A) (a : t L K) x k :
  m (sys_ a) = Ok (x, k) → kernel m a = Ok (x, set_sys k a).
Proof. intros Hm. by apply zoom_Ok. Qed.

Lemma zoom_fault {A B} (m : st (t L K) A) (k : A → st W B) w f :
  m (get w) = Fault f → (zoom get put m ≫= k) w = Fault f.
Proof. unfold mbind, st_bind, zoom. intros E. by rewrite E. Qed.

Lemma accept_fault sock (a : t L K) connfd addr k1 peer :
  sys_accept sock (sys_ a) = (connfd, addr, k1) → connfd < 0 →
  kernel (SocketObj.accept sock peer) a = Fault Fatal.
Proof.
  intros Ha Hfd. unfold kernel, zoom, SocketObj.accept. unfold mbind at 2, st_bind.
  by rewrite (accept_error _ _ _ _ _ Ha Hfd).
Qed.

Lemma accept_run sock (a : t L K) connfd addr k1 peer :
  sys_accept sock (sys_ a) = (connfd, addr, k1) → 0 <= connfd →
  ∃ k' fl fdfl, kernel (SocketObj.accept sock peer) a = Ok (connfd, addr, set_sys k' a) ∧
    descriptor k1 connfd = Some (fl, fdfl) ∧
    descriptor k' connfd = Some (Z.lor fl O_NONBLOCK, Z.lor fdfl FD_CLOEXEC).
Proof.
  intros Ha Hfd. destruct (accept_ok _ _ _ _ _ Ha Hfd) as (k' & fl & fdfl & E & Hd & Hd').
  exists k', fl, fdfl. split; [|done]. apply kernel_run. unfold SocketObj.accept.
  rewrite (st_bind_run _ _ _ _ _ E). cbv beta iota. by replace (0 <=? connfd) with true by lia.
Qed.

Lemma handleRead_accepts (w : W) connfd addr k1 cb :
  isInLoopThread (loop_ (get w)) = true → put (get w) w = w →
  sys_accept (acceptSocket_ (get w)) (sys_ (get w)) = (connfd, addr, k1) → 0 <= connfd →
  ∃ k' fl fdfl, descriptor k1 connfd = Some (fl, fdfl) ∧
    descriptor k' connfd = Some (Z.lor fl O_NONBLOCK, Z.lor fdfl FD_CLOEXEC) ∧
    handleRead get put (Some cb) w = cb connfd addr (put (set_sys k' (get w)) w).
Proof.
  intros Hin Hpg Ha Hfd. unfold handleRead.
  destruct (accept_run _ _ _ _ _ (InetAddress.make 0 false) Ha Hfd) as (k' & fl & fdfl & E & Hd & Hd').
  exists k', fl, fdfl. split_and!; [done..|]. rewrite (zoom_run _ _ _ _ _ (thread_run _ Hin)), Hpg, run_gets.
  rewrite (zoom_run _ _ _ _ _ E). cbv beta iota. by replace (0 <=? connfd) with true by lia.
Qed.

Lemma handleRead_fails (w : W) connfd addr k1 cb :
  isInLoopThread (loop_ (get w)) = true → put (get w) w = w →
  sys_accept (acceptSocket_ (get w)) (sys_ (get w)) = (connfd, addr, k1) → connfd < 0 →
  handleRead get put cb w = Fault Fatal.
Proof.
  intros Hin Hpg Ha Hfd. unfold handleRead. rewrite (zoom_run _ _ _ _ _ (thread_run _ Hin)), Hpg, run_gets.
  apply zoom_fault. by apply (accept_fault _ _ _ _ _ _ Ha).
Qed.

(** C36 (error). What becomes of a readable listening socket.  When accept(2) gives a
    descriptor, it is made non-blocking and close-on-exec, whatever other flags it has,
    and handed with the peer's address to the new connection callback, exactly once.
    When it fails, with whatever error, the process is aborted: the flags are set on
    the descriptor -1 before [errno] is read, so the errors the code means to survive
    (a connection that is gone, no free descriptor) are all taken for [EBADF]. *)
Theorem accept_outcomes (w : W) connfd addr k1 cb :
  isInLoopThread (loop_ (get w)) = true → put (get w) w = w →
  sys_accept (acceptSocket_ (get w)) (sys_ (get w)) = (connfd, addr, k1) →
  if 0 <=? connfd then
    ∃ k' fl fdfl, descriptor k1 connfd = Some (fl, fdfl) ∧
      descriptor k' connfd = Some (Z.lor fl O_NONBLOCK, Z.lor fdfl FD_CLOEXEC) ∧
      handleRead get put (Some cb) w = cb connfd addr (put (set_sys k' (get w)) w)
  else handleRead get put (Some cb) w = Fault Fatal.
Proof.
  intros Hin Hpg Ha. destruct (0 <=? connfd) eqn:Efd.
  - apply (handleRead_accepts _ _ _ _ _ Hin Hpg Ha). lia.
  - apply (handleRead_fails _ _ _ _ _ Hin Hpg Ha). lia.
Qed.
End Facts.

Section Witness.
Import Acceptor ToySys.

(** A loop that only knows its thread. *)
#[local] Instance toy_channel_loop : ChannelLoop bool := {|
  updateChannel l c := Ok (l, c);
  removeChannel l c := Ok (l, c);
  hasChannel l c := Ok false;
  isInLoopThread l := l
|}.

Definition toy_peer : sockaddr_in := mkaddr AF_INET (bswap 2 50000) (bswap 4 INADDR_LOOPBACK).

(** One connection, then no free descriptor. *)
Definition toy_acceptor (todo : list (Z * sockaddr_in)) : Acceptor.t bool ToySys.t :=
  Acceptor.mk true (ToySys.mk 0 todo {[3 := (2, 0); 4 := (0, 0)]}) 3 (Channel.make 1 1 3) true 4.

Lemma accept_outcomes_witness :
  handleRead (λ w, w) (λ a _, a) (Some (λ fd addr, modify (set_idleFd 99)))
    (toy_acceptor [(-EMFILE, addr_zero); (7, toy_peer)]) = Fault Fatal ∧
  ∃ k', handleRead (λ w, w) (λ a _, a) (Some (λ fd addr, modify (set_idleFd fd)))
    (toy_acceptor [(7, toy_peer)]) = Ok ((), set_idleFd 7 (set_sys k' (toy_acceptor [(7, toy_peer)]))).
Proof.
  split.
  - exact (accept_outcomes (CL := toy_channel_loop) (SL := toy_sys_laws) (λ w, w) (λ a _, a)
      (toy_acceptor [(-EMFILE, addr_zero); (7, toy_peer)]) (-1) addr_zero _ (λ fd addr, modify (set_idleFd 99))
      eq_refl eq_refl eq_refl).
  - destruct (accept_outcomes (CL := toy_channel_loop) (SL := toy_sys_laws) (λ w, w) (λ a _, a)
      (toy_acceptor [(7, toy_peer)]) 7 toy_peer _ (λ fd addr, modify (set_idleFd fd)) eq_refl eq_refl eq_refl)
      as (k' & fl & fdfl & _ & _ & H).
    exists k'. by rewrite H.
Defined.
End Witness.
