(* ===== verification/TcpServer.v ===== *)
(** * TcpServer.cc, EventLoopThreadPool.cc: connections and the loops that serve them

    One state holds the server, its pool of loops, the connection objects and what is
    queued in each loop; [thread] is the loop whose thread is executing.  A loop is its
    identity here (EventLoop.v shows that what is queued runs once, in order); a
    connection is an object of a type [C] with the two calls the server makes
    ([Served]), which TcpConnection.v discharges. *)
From stdpp Require Import relations pretty.
From S2P Require Import Prelude Text State StdMap Inet Sockets Buffer Channel EPollPoller.
From S2P Require Import TimerQueue EventLoop Reactor TcpConnection Acceptor.

Class Served (C : Type) := {
  srv_connectEstablished : C → res C;
  srv_connectDestroyed : C → res C;
  srv_open : C → bool
}.

(** A new connection can be established, which may leave it open; one that has closed
    can be destroyed. *)
Class ServedLaws (C : Type) (SC : Served C) := {
  srv_new : C → Prop;
  srv_down : C → Prop;
  new_closed c : srv_new c → srv_open c = false;
  down_closed c : srv_down c → srv_open c = false;
  established_law c : srv_new c → ∃ c', srv_connectEstablished c = Ok c';
  destroyed_law c : srv_down c → ∃ c', srv_connectDestroyed c = Ok c' ∧ srv_open c' = false
}.

Module EventLoopThreadPool.

Record t := mk {
  baseLoop_ : positive;
  name_ : string;
  started_ : bool;
  numThreads_ : Z;
  next_ : Z;
  loops_ : list positive
}.

Definition make (baseLoop : positive) (nameArg : string) : t := mk baseLoop nameArg false 0 0 [].

Definition setThreadNum (n : Z) (p : t) : t :=
  mk (baseLoop_ p) (name_ p) (started_ p) n (next_ p) (loops_ p).
Definition set_started (p : t) : t :=
  mk (baseLoop_ p) (name_ p) true (numThreads_ p) (next_ p) (loops_ p).
Definition set_next (n : Z) (p : t) : t :=
  mk (baseLoop_ p) (name_ p) (started_ p) (numThreads_ p) n (loops_ p).
Definition push_loop (l : positive) (p : t) : t :=
  mk (baseLoop_ p) (name_ p) (started_ p) (numThreads_ p) (next_ p) (loops_ p ++ [l]).

(** [baseLoop_->assertInLoopThread()], [thread] being the loop of this thread. *)
Definition assertInLoopThread (thread : positive) (p : t) : res unit :=
  if bool_decide (thread = baseLoop_ p) then mret () else Fault Fatal.

(** [v[i]]. *)
Definition at_ {A} (l : list A) (i : Z) : res A :=
  if i <? 0 then Fault UB else match l !! Z.to_nat i with Some x => mret x | None => Fault UB end.

Definition getNextLoop (thread : positive) (p : t) : res (positive * t) :=
  _ ← assertInLoopThread thread p;
  _ ← cassert (started_ p);
  match loops_ p with
  | [] => mret (baseLoop_ p, p)
  | _ :: _ =>
      loop ← at_ (loops_ p) (next_ p);
      let next := next_ p + 1 in
      mret (loop, set_next (if zlen (loops_ p) <=? u64 next then 0 else next) p)
  end.

Definition getLoopForHash (thread : positive) (hashCode : Z) (p : t) : res positive :=
  _ ← assertInLoopThread thread p;
  match loops_ p with
  | [] => mret (baseLoop_ p)
  | _ :: _ => at_ (loops_ p) (hashCode mod zlen (loops_ p))
  end.

Definition getAllLoops (thread : positive) (p : t) : res (list positive) :=
  _ ← assertInLoopThread thread p;
  _ ← cassert (started_ p);
  mret (match loops_ p with [] => [baseLoop_ p] | _ :: _ => loops_ p end).

Section Start.
Context {W : Type} (get : W → t) (put : t → W → W).
(** A new thread with its loop (EventLoopThread.cc), by the thread's name. *)
Variable startLoop : string → st W positive.
(** [cb(baseLoop_)], when there is a callback. *)
Variable threadInit : option (positive → st W unit).

Fixpoint start_threads (n : nat) (i : Z) : st W unit :=
  match n with
  | O => mret ()
  | S m =>
      p ← gets get;
      l ← startLoop (snprintf (slen (name_ p) + 32) (string_of (c_str (bytes_of (name_ p))) +:+ dec i));
      _ ← zoom get put (modify (push_loop l));
      start_threads m (i + 1)
  end.

Definition start (thread : positive) : st W unit :=
  p ← gets get;
  _ ← lift (cassert (negb (started_ p)));
  _ ← lift (assertInLoopThread thread p);
  _ ← zoom get put (modify set_started);
  _ ← start_threads (Z.to_nat (numThreads_ p)) 0;
  match threadInit with
  | Some cb => if numThreads_ p =? 0 then cb (baseLoop_ p) else mret ()
  | None => mret ()
  end.

End Start.
End EventLoopThreadPool.

Module TcpServer.

(** The functors that the server puts into loops; a connection is its address. *)
Inductive task :=
  | AcceptorListen
  | ConnectEstablished (c : nat)
  | ConnectDestroyed (c : nat)
  | RemoveConnectionInLoop (c : nat).

#[export] Instance task_eq_dec : EqDecision task.
Proof. solve_decision. Defined.

Section TcpServer.
Context {L K C : Type} `{CL : ChannelLoop L, SY : Sys K, SC : Served C}.

Record object := mkobject {
  c_name : string;
  c_loop : positive;
  c_conn : C
}.

Record t := mk {
  loop_ : positive;
  ipPort_ : string;
  name_ : string;
  acceptor_ : Acceptor.t L K;
  threadPool_ : EventLoopThreadPool.t;
  started_ : Z;
  nextConnId_ : Z;
  connections_ : list (list byte * nat);
  objects : gmap nat object;
  queues : gmap positive (list task);
  thread : positive;
  next_object : nat;
  next_loop : positive
}.

Definition set_acceptor (v : Acceptor.t L K) (w : t) : t :=
  mk (loop_ w) (ipPort_ w) (name_ w) v (threadPool_ w) (started_ w) (nextConnId_ w)
     (connections_ w) (objects w) (queues w) (thread w) (next_object w) (next_loop w).
Definition set_threadPool (v : EventLoopThreadPool.t) (w : t) : t :=
  mk (loop_ w) (ipPort_ w) (name_ w) (acceptor_ w) v (started_ w) (nextConnId_ w)
     (connections_ w) (objects w) (queues w) (thread w) (next_object w) (next_loop w).
Definition set_started (v : Z) (w : t) : t :=
  mk (loop_ w) (ipPort_ w) (name_ w) (acceptor_ w) (threadPool_ w) v (nextConnId_ w)
     (connections_ w) (objects w) (queues w) (thread w) (next_object w) (next_loop w).
Definition set_nextConnId (v : Z) (w : t) : t :=
  mk (loop_ w) (ipPort_ w) (name_ w) (acceptor_ w) (threadPool_ w) (started_ w) v
     (connections_ w) (objects w) (queues w) (thread w) (next_object w) (next_loop w).
Definition set_connections (v : list (list byte * nat)) (w : t) : t :=
  mk (loop_ w) (ipPort_ w) (name_ w) (acceptor_ w) (threadPool_ w) (started_ w) (nextConnId_ w)
     v (objects w) (queues w) (thread w) (next_object w) (next_loop w).
Definition set_objects (v : gmap nat object) (w : t) : t :=
  mk (loop_ w) (ipPort_ w) (name_ w) (acceptor_ w) (threadPool_ w) (started_ w) (nextConnId_ w)
     (connections_ w) v (queues w) (thread w) (next_object w) (next_loop w).
Definition set_queues (v : gmap positive (list task)) (w : t) : t :=
  mk (loop_ w) (ipPort_ w) (name_ w) (acceptor_ w) (threadPool_ w) (started_ w) (nextConnId_ w)
     (connections_ w) (objects w) v (thread w) (next_object w) (next_loop w).
Definition set_thread (v : positive) (w : t) : t :=
  mk (loop_ w) (ipPort_ w) (name_ w) (acceptor_ w) (threadPool_ w) (started_ w) (nextConnId_ w)
     (connections_ w) (objects w) (queues w) v (next_object w) (next_loop w).
Definition set_next_object (v : nat) (w : t) : t :=
  mk (loop_ w) (ipPort_ w) (name_ w) (acceptor_ w) (threadPool_ w) (started_ w) (nextConnId_ w)
     (connections_ w) (objects w) (queues w) (thread w) v (next_loop w).
Definition set_next_loop (v : positive) (w : t) : t :=
  mk (loop_ w) (ipPort_ w) (name_ w) (acceptor_ w) (threadPool_ w) (started_ w) (nextConnId_ w)
     (connections_ w) (objects w) (queues w) (thread w) (next_object w) v.

Definition queue (l : positive) (w : t) : list task := default [] (queues w !! l).

Definition assertInLoopThread (l : positive) : st t unit :=
  thread ← gets thread;
  if bool_decide (thread = l) then mret () else fault Fatal.

Definition queueInLoop (l : positive) (f : task) : st t unit :=
  modify (λ w, set_queues (<[l := queue l w ++ [f]]> (queues w)) w).

(** A call on a connection object. *)
Definition on_conn (c : nat) (op : C → res C) : st t unit :=
  on_object objects set_objects c (λ o,
    x ← op (c_conn o);
    Ok ((), mkobject (c_name o) (c_loop o) x)).

Definition removeConnectionInLoop (c : nat) : st t unit :=
  l ← gets loop_;
  _ ← assertInLoopThread l;
  o ← gets (λ w, objects w !! c);
  o ← deref o;
  '(n, m) ← gets (λ w, map_erase (bytes_of (c_name o)) (connections_ w));
  _ ← modify (set_connections m);
  _ ← lift (cassert (n =? 1));
  queueInLoop (c_loop o) (ConnectDestroyed c).

(** What a loop does with one of these functors. *)
Definition run_task (f : task) : st t unit :=
  match f with
  | AcceptorListen => zoom acceptor_ set_acceptor Acceptor.listen
  | ConnectEstablished c => on_conn c srv_connectEstablished
  | ConnectDestroyed c => on_conn c srv_connectDestroyed
  | RemoveConnectionInLoop c => removeConnectionInLoop c
  end.

Definition runInLoop (l : positive) (f : task) : st t unit :=
  thread ← gets thread;
  if bool_decide (thread = l) then run_task f else queueInLoop l f.

Definition removeConnection (c : nat) : st t unit :=
  l ← gets loop_;
  runInLoop l (RemoveConnectionInLoop c).

(** The constructor of [TcpConnection]. *)
Variable newTcpConnection : positive → string → Z → sockaddr_in → sockaddr_in → C.

Definition newConnection (sockfd : Z) (peerAddr : sockaddr_in) : st t unit :=
  l ← gets loop_;
  _ ← assertInLoopThread l;
  thread ← gets thread;
  ioLoop ← zoom threadPool_ set_threadPool (EventLoopThreadPool.getNextLoop thread);
  ipPort ← gets ipPort_;
  n ← gets nextConnId_;
  let buf := snprintf 64 ("-" +:+ string_of (c_str (bytes_of ipPort)) +:+ "#" +:+ dec n) in
  _ ← (if n =? 2 ^ 31 - 1 then fault UB else modify (set_nextConnId (n + 1)));
  name ← gets name_;
  let connName := (name +:+ buf)%string in
  localAddr ← zoom acceptor_ set_acceptor (Acceptor.kernel (SocketsOps.getLocalAddr sockfd));
  c ← gets next_object;
  _ ← modify (set_next_object (S c));
  let conn := newTcpConnection ioLoop connName sockfd localAddr peerAddr in
  _ ← modify (λ w, set_objects (<[c := mkobject connName ioLoop conn]> (objects w)) w);
  _ ← modify (λ w, set_connections (map_assign (bytes_of connName) c (connections_ w)) w);
  runInLoop ioLoop (ConnectEstablished c).

(** The constructor. *)
Definition make (loop : positive) (listenAddr : sockaddr_in) (nameArg : string) (reuseport : bool)
    (chan : positive) (l : L) (k : K) : res t :=
  ipPort ← InetAddress.toIpPort listenAddr;
  acceptor ← Acceptor.make l chan loop listenAddr reuseport k;
  mret (mk loop ipPort nameArg acceptor (EventLoopThreadPool.make loop nameArg) 0 1 [] ∅ ∅ loop 1%nat
          (Pos.succ loop)).

(** The destructor gives every connection up. *)
Fixpoint destroy_items (items : list (list byte * nat)) : st t unit :=
  match items with
  | [] => mret ()
  | item :: items' =>
      o ← gets (λ w, objects w !! item.2);
      o ← deref o;
      _ ← runInLoop (c_loop o) (ConnectDestroyed item.2);
      destroy_items items'
  end.

Definition destroy : st t unit :=
  l ← gets loop_;
  _ ← assertInLoopThread l;
  items ← gets connections_;
  destroy_items items.

Definition setThreadNum (numThreads : Z) : st t unit :=
  _ ← lift (cassert (0 <=? numThreads));
  zoom threadPool_ set_threadPool (modify (EventLoopThreadPool.setThreadNum numThreads)).

(** The thread function of a new loop thread puts its loop at a new address. *)
Definition startLoop (name : string) : st t positive :=
  l ← gets next_loop;
  _ ← modify (set_next_loop (Pos.succ l));
  mret l.

Definition start (threadInit : option (positive → st t unit)) : st t unit :=
  started ← gets started_;
  if started =? 0 then
    _ ← modify (set_started (started + 1));
    thread ← gets thread;
    _ ← EventLoopThreadPool.start threadPool_ set_threadPool startLoop threadInit thread;
    listenning ← gets (Acceptor.listenning_ ∘ acceptor_);
    _ ← lift (cassert (negb listenning));
    l ← gets loop_;
    runInLoop l AcceptorListen
  else mret ().

(** ** Runs

    A connection arrives at the listening socket, a connection changes or closes in
    its loop thread and calls the close callback, a loop runs its next functor.  The close
    callback is what [TcpServer::newConnection] sets; [TcpConnection::handleClose] as it is
    written does not call it, and ConnectionTable.v has the runs without [Close]. *)
Inductive event :=
  | Arrive
  | Change (c : nat) (conn : C)
  | Close (c : nat) (conn : C)
  | RunFunctor (l : positive).

Definition put_conn (c : nat) (conn : C) : st t positive :=
  o ← gets (λ w, objects w !! c);
  o ← deref o;
  _ ← modify (λ w, set_objects (<[c := mkobject (c_name o) (c_loop o) conn]> (objects w)) w);
  mret (c_loop o).

Definition run_event (e : event) : st t unit :=
  match e with
  | Arrive =>
      _ ← modify (λ w, set_thread (loop_ w) w);
      Acceptor.handleRead acceptor_ set_acceptor (Some newConnection)
  | Change c conn => _ ← put_conn c conn; mret ()
  | Close c conn =>
      l ← put_conn c conn;
      _ ← modify (set_thread l);
      removeConnection c
  | RunFunctor l =>
      _ ← modify (set_thread l);
      q ← gets (queue l);
      match q with
      | [] => mret ()
      | f :: q' =>
          _ ← modify (λ w, set_queues (<[l := q']> (queues w)) w);
          run_task f
      end
  end.

Fixpoint run_events (es : list event) : st t unit :=
  match es with
  | [] => mret ()
  | e :: es' => _ ← run_event e; run_events es'
  end.

End TcpServer.
#[global] Arguments t L K C : clear implicits.
#[global] Arguments object C : clear implicits.
#[global] Arguments event C : clear implicits.
End TcpServer.

(** ** The invariant *)
Section Invariant.
Import TcpServer.
Context {L K C : Type} `{CL : ChannelLoop L, SY : Sys K, SYL : !SysLaws K SY,
  SC : Served C, SCL : !ServedLaws C SC}.
Variable newTcpConnection : positive → string → Z → sockaddr_in → sockaddr_in → C.
Hypothesis constructor_new : ∀ l name fd local peer, srv_new (newTcpConnection l name fd local peer).
Implicit Types (w : t L K C) (o : object C).
#[local] Arguments map_erase : simpl never.
#[local] Arguments queue : simpl never.
#[local] Arguments bytes_of : simpl never.

(** The life of a connection, as its references tell it: who holds it, and which
    functor is queued for it. *)
Inductive phase := New | Up | Closed | Removed | Gone.

Definition listed (p : phase) : Prop := match p with New | Up | Closed => True | _ => False end.

Definition conn_ok (p : phase) (x : C) : Prop :=
  match p with
  | New => srv_new x
  | Up => True
  | Closed | Removed => srv_down x
  | Gone => srv_open x = false
  end.

Definition task_conn (f : task) : option nat :=
  match f with
  | AcceptorListen => None
  | ConnectEstablished c | ConnectDestroyed c | RemoveConnectionInLoop c => Some c
  end.

(** The functors queued for a connection in the loop [l]. *)
Definition expected w c o (p : phase) (l : positive) : list task :=
  match p with
  | New => if bool_decide (l = c_loop o) then [ConnectEstablished c] else []
  | Closed => if bool_decide (l = loop_ w) then [RemoveConnectionInLoop c] else []
  | Removed => if bool_decide (l = c_loop o) then [ConnectDestroyed c] else []
  | Up | Gone => []
  end.

Definition tasks_of (c : nat) (q : list task) : list task := filter (λ f, task_conn f = Some c) q.

Record phase_ok w c o (p : phase) : Prop := {
  ph_conn : conn_ok p (c_conn o);
  ph_listed : map_find (bytes_of (c_name o)) (connections_ w) = Some c ↔ listed p;
  ph_tasks l : tasks_of c (queue l w) = expected w c o p l
}.

(** The name of the [c]-th connection, and the loop that serves it: round robin. *)
Definition conn_name w (c : nat) : string :=
  (name_ w +:+ "-" +:+ ipPort_ w +:+ "#" +:+ dec (Z.of_nat c))%string.

Definition conn_loop w (c : nat) : positive :=
  match EventLoopThreadPool.loops_ (threadPool_ w) with
  | [] => loop_ w
  | ls => default (loop_ w) (ls !! Z.to_nat ((Z.of_nat c - 1) mod zlen ls))
  end.

Record static w : Prop := {
  st_base : EventLoopThreadPool.baseLoop_ (threadPool_ w) = loop_ w;
  st_started : EventLoopThreadPool.started_ (threadPool_ w) = true;
  st_next : EventLoopThreadPool.loops_ (threadPool_ w) ≠ [] →
    EventLoopThreadPool.next_ (threadPool_ w) =
      (nextConnId_ w - 1) mod zlen (EventLoopThreadPool.loops_ (threadPool_ w));
  st_small : zlen (EventLoopThreadPool.loops_ (threadPool_ w)) < 2 ^ 31;
  st_ids : Z.of_nat (next_object w) = nextConnId_ w;
  st_range : 1 <= nextConnId_ w < 2 ^ 31;
  st_ip : slen (ipPort_ w) <= 21;
  st_text : x00 ∉ bytes_of (ipPort_ w);
  st_thread : isInLoopThread (Acceptor.loop_ (acceptor_ w)) = true;
  st_dom c : is_Some (objects w !! c) ↔ (1 <= c < next_object w)%nat
}.

Record inv w : Prop := {
  inv_static : static w;
  inv_obj c o : objects w !! c = Some o →
    c_name o = conn_name w c ∧ c_loop o = conn_loop w c ∧ ∃ p, phase_ok w c o p;
  inv_sorted : map_sorted (connections_ w);
  inv_entry k c : map_find k (connections_ w) = Some c →
    ∃ o, objects w !! c = Some o ∧ k = bytes_of (c_name o);
  inv_task l f : f ∈ queue l w → ∃ c, task_conn f = Some c ∧ is_Some (objects w !! c)
}.

(** What does not change once the server runs. *)
Record same_config w w' : Prop := {
  sc_loop : loop_ w' = loop_ w;
  sc_ip : ipPort_ w' = ipPort_ w;
  sc_name : name_ w' = name_ w;
  sc_loops : EventLoopThreadPool.loops_ (threadPool_ w') = EventLoopThreadPool.loops_ (threadPool_ w)
}.

Lemma conn_name_inj w c1 c2 : conn_name w c1 = conn_name w c2 → c1 = c2.
Proof.
  intros H. apply (f_equal bytes_of) in H. unfold conn_name in H. rewrite !bytes_of_app in H.
  do 4 apply app_inv_head in H. apply bytes_of_inj, (inj pretty) in H. lia.
Qed.

Lemma queue_insert w w' l l0 q :
  queues w' = <[l0 := q]> (queues w) → queue l w' = if bool_decide (l = l0) then q else queue l w.
Proof.
  unfold queue. intros ->. case_bool_decide as E; [subst; by rewrite lookup_insert_eq|].
  by rewrite lookup_insert_ne.
Qed.

Lemma tasks_of_snoc c q f :
  tasks_of c (q ++ [f]) = tasks_of c q ++ (if bool_decide (task_conn f = Some c) then [f] else []).
Proof.
  unfold tasks_of. rewrite filter_app. f_equal. rewrite filter_cons, filter_nil.
  destruct (decide _); by rewrite ?bool_decide_true, ?bool_decide_false by done.
Qed.

Lemma tasks_of_cons c q f :
  tasks_of c (f :: q) = (if bool_decide (task_conn f = Some c) then [f] else []) ++ tasks_of c q.
Proof.
  unfold tasks_of. rewrite filter_cons.
  destruct (decide _); by rewrite ?bool_decide_true, ?bool_decide_false by done.
Qed.

(** One connection moves, or is made; the others keep their references. *)
Lemma inv_update w w' c o p :
  inv w → static w' → same_config w w' →
  objects w' = <[c := o]> (objects w) →
  c_name o = conn_name w' c → c_loop o = conn_loop w' c →
  phase_ok w' c o p →
  map_sorted (connections_ w') →
  (∀ k, k ≠ bytes_of (c_name o) → map_find k (connections_ w') = map_find k (connections_ w)) →
  (map_find (bytes_of (c_name o)) (connections_ w') = Some c ∨
   map_find (bytes_of (c_name o)) (connections_ w') = None) →
  (∀ l c2, c2 ≠ c → tasks_of c2 (queue l w') = tasks_of c2 (queue l w)) →
  (∀ l f, f ∈ queue l w' → task_conn f = Some c ∨ f ∈ queue l w) →
  inv w'.
Proof.
  intros [Hst Hob Hso Hen Hta] Hst' [Hl Hi Hn Hls] Hos Hna Hlo Hph Hso' Hk Hkc Hq Hf.
  assert (∀ c2, conn_name w' c2 = conn_name w c2) as Ecn by (intros; unfold conn_name; congruence).
  assert (∀ c2, conn_loop w' c2 = conn_loop w c2) as Ecl by (intros; unfold conn_loop; by rewrite Hls, Hl).
  split; [done| |done| |].
  - intros c2 o2. rewrite Hos, lookup_insert_Some. intros [[<- <-]|[Hne Ho2]]; [by eauto|].
    destruct (Hob _ _ Ho2) as (Hn2 & Hl2 & p2 & [H1 H2 H3]). rewrite Ecn, Ecl. split_and!; [done..|].
    exists p2. split; [done| |].
    + rewrite Hk; [done|]. rewrite Hn2, Hna, Ecn. intros E%bytes_of_inj%conn_name_inj. done.
    + intros l. rewrite Hq by done. rewrite H3. unfold expected. by rewrite Hl.
  - intros k c2 Hk2. destruct (decide (k = bytes_of (c_name o))) as [->|Hne].
    + destruct Hkc as [E|E]; rewrite E in Hk2; [|done]. injection Hk2 as <-.
      exists o. by rewrite Hos, lookup_insert_eq.
    + rewrite Hk in Hk2 by done. destruct (Hen _ _ Hk2) as (o2 & Ho2 & Hko2).
      destruct (decide (c2 = c)) as [->|]; [|exists o2; by rewrite Hos, lookup_insert_ne].
      destruct Hne. rewrite Hko2, Hna, Ecn. f_equal. by apply Hob.
  - intros l f Hfl. destruct (Hf _ _ Hfl) as [E|Hin].
    + exists c. rewrite Hos, lookup_insert_eq. by eauto.
    + destruct (Hta _ _ Hin) as (c2 & E2 & Hs2). exists c2. split; [done|]. rewrite Hos.
      destruct (decide (c = c2)) as [<-|]; [rewrite lookup_insert_eq; by eauto|by rewrite lookup_insert_ne].
Qed.

(** The configuration, and which objects there are. *)
Lemma static_update w w' c o :
  static w → is_Some (objects w !! c) →
  loop_ w' = loop_ w → ipPort_ w' = ipPort_ w → threadPool_ w' = threadPool_ w → acceptor_ w' = acceptor_ w →
  nextConnId_ w' = nextConnId_ w → next_object w' = next_object w →
  objects w' = <[c := o]> (objects w) →
  static w'.
Proof.
  intros [H1 H2 H3 H4 H5 H6 H7 H8 H9 H10] Hc E1 E2 E3 E4 E5 E6 E7.
  split; rewrite ?E1, ?E2, ?E3, ?E4, ?E5, ?E6; try done.
  intros c2. rewrite E7, <-H10. destruct (decide (c = c2)) as [<-|]; [|by rewrite lookup_insert_ne].
  rewrite lookup_insert_eq. split; [done|by eauto].
Qed.

(** An open connection is up: established, listed, without functors. *)
Lemma open_up w c o p : phase_ok w c o p → srv_open (c_conn o) = true → p = Up.
Proof.
  intros [Hc _ _] Ho. destruct p; cbn in Hc; [|done|..].
  - by rewrite new_closed in Ho.
  - by rewrite down_closed in Ho.
  - by rewrite down_closed in Ho.
  - congruence.
Qed.

Lemma removeInLoop_run w c o :
  thread w = loop_ w → objects w !! c = Some o →
  map_find (bytes_of (c_name o)) (connections_ w) = Some c →
  removeConnectionInLoop c w =
    Ok ((), set_queues (<[c_loop o := queue (c_loop o) w ++ [ConnectDestroyed c]]> (queues w))
              (set_connections (map_erase (bytes_of (c_name o)) (connections_ w)).2 w)).
Proof.
  intros Ht Ho Hm. unfold removeConnectionInLoop, assertInLoopThread.
  autorewrite with run. rewrite bool_decide_true by done. autorewrite with run. rewrite Ho.
  autorewrite with run. unfold map_erase at 1. rewrite Hm. autorewrite with run. done.
Qed.

Lemma conn_object_run w c o op x :
  objects w !! c = Some o → op (c_conn o) = Ok x →
  on_conn c op w = Ok ((), set_objects (<[c := mkobject (c_name o) (c_loop o) x]> (objects w)) w).
Proof.
  intros Ho Hop. unfold on_conn. eapply (on_object_Ok objects set_objects); [done|]. by rewrite Hop.
Qed.

(** The erased entry is the connection's, and no other is touched. *)
Lemma erase_facts w c o :
  inv w → objects w !! c = Some o → map_find (bytes_of (c_name o)) (connections_ w) = Some c →
  let m := (map_erase (bytes_of (c_name o)) (connections_ w)).2 in
  map_sorted m ∧ map_find (bytes_of (c_name o)) m = None ∧
  ∀ k, k ≠ bytes_of (c_name o) → map_find k m = map_find k (connections_ w).
Proof.
  intros Hinv Ho Hm m. unfold m. split; [apply map_erase_sorted, Hinv|]. rewrite map_find_erase.
  split; [by rewrite bool_decide_true|]. intros k Hk. by rewrite map_find_erase, bool_decide_false.
Qed.

(** A connection closes in the acceptor's loop, or its removal is run there: it is no
    longer listed, and its destruction is queued. *)
Lemma removed_inv w w1 c o o' :
  inv w → objects w !! c = Some o → c_name o' = c_name o → c_loop o' = c_loop o → srv_down (c_conn o') →
  map_find (bytes_of (c_name o)) (connections_ w) = Some c →
  static w1 → same_config w w1 → objects w1 = <[c := o']> (objects w) → connections_ w1 = connections_ w →
  (∀ l c2, c2 ≠ c → tasks_of c2 (queue l w1) = tasks_of c2 (queue l w)) →
  (∀ l f, f ∈ queue l w1 → f ∈ queue l w) →
  (∀ l, tasks_of c (queue l w1) = []) →
  thread w1 = loop_ w1 →
  ∃ w', removeConnectionInLoop c w1 = Ok ((), w') ∧ inv w'.
Proof.
  intros Hinv Ho Hn Hl Hd Hm Hst Hsc Hos Hcs Hq Hf Hqc Ht.
  assert (objects w1 !! c = Some o') as Ho1 by by rewrite Hos, lookup_insert_eq.
  eexists. split; [apply removeInLoop_run; [done..|by rewrite Hn, Hcs]|].
  destruct (inv_obj _ Hinv _ _ Ho) as (Hna & Hlo & _). pose proof Hsc as [E1 E2 E3 E4].
  destruct (erase_facts _ _ _ Hinv Ho Hm) as (Hs & Hnone & Hkeep).
  eapply (inv_update w _ c o' Removed); [done|..]; cbn.
  - destruct Hst. by split.
  - by destruct Hsc.
  - done.
  - rewrite Hn, Hna. unfold conn_name. cbn. congruence.
  - rewrite Hl, Hlo. unfold conn_loop. cbn. by rewrite E4, E1.
  - split; cbn; [done| |].
    + rewrite Hcs, Hn, Hnone. done.
    + intros l. erewrite (queue_insert w1 _ l) by done. case_bool_decide as E; [|apply Hqc].
      subst l. change (queue (c_loop o') (set_connections _ w1)) with (queue (c_loop o') w1).
      by rewrite tasks_of_snoc, Hqc, bool_decide_true.
  - by rewrite Hcs, Hn.
  - intros k Hk. rewrite Hcs, Hn in *. by apply Hkeep.
  - right. by rewrite Hcs, Hn.
  - intros l c2 Hne. erewrite (queue_insert w1 _ l) by done. case_bool_decide as E; [|by apply Hq]. subst l.
    rewrite tasks_of_snoc, bool_decide_false by (cbn; congruence). rewrite app_nil_r. by apply Hq.
  - intros l f. erewrite (queue_insert w1 _ l) by done. case_bool_decide as E; [|by eauto]. subst l.
    rewrite elem_of_app, list_elem_of_singleton. intros [Hin| ->]; [by eauto|by left].
Qed.

(** The next loop of the pool: the loops take turns. *)
Lemma getNextLoop_spec w :
  static w →
  ∃ p, EventLoopThreadPool.getNextLoop (loop_ w) (threadPool_ w) = Ok (conn_loop w (next_object w), p) ∧
    EventLoopThreadPool.baseLoop_ p = loop_ w ∧ EventLoopThreadPool.started_ p = true ∧
    EventLoopThreadPool.loops_ p = EventLoopThreadPool.loops_ (threadPool_ w) ∧
    (EventLoopThreadPool.loops_ p ≠ [] →
     EventLoopThreadPool.next_ p = nextConnId_ w mod zlen (EventLoopThreadPool.loops_ p)).
Proof.
  intros [Hb Hs Hn Hsm Hid Hr _ _ _ _]. unfold EventLoopThreadPool.getNextLoop, EventLoopThreadPool.assertInLoopThread.
  rewrite Hb, bool_decide_true, Hs by done. cbn [cassert mbind res_bind mret res_ret].
  unfold conn_loop. rewrite Hid. destruct (EventLoopThreadPool.loops_ (threadPool_ w)) as [|l0 ls] eqn:El.
  { eexists. split; [reflexivity|]. rewrite El. done. }
  rewrite <-El in *. set (ls' := EventLoopThreadPool.loops_ (threadPool_ w)) in *.
  assert (0 < zlen ls') as Hk by (rewrite El, zlen_cons; zpos; lia).
  rewrite Hn by (by rewrite El). pose proof (Z.mod_pos_bound (nextConnId_ w - 1) (zlen ls') Hk) as Hi.
  set (i := (nextConnId_ w - 1) mod zlen ls') in *. unfold EventLoopThreadPool.at_.
  replace (i <? 0) with false by lia.
  destruct (ls' !! Z.to_nat i) as [x|] eqn:Ex; [|apply lookup_ge_None in Ex; unfold zlen in Hi; lia].
  cbn [mbind res_bind mret res_ret default from_option]. eexists. split; [reflexivity|].
  split_and!; [done..|]. intros _. cbn. fold ls'.
  rewrite uN_small by lia.
  assert (nextConnId_ w mod zlen ls' = (i + 1) mod zlen ls') as ->.
  { unfold i. rewrite Z.add_mod_idemp_l by lia. f_equal. lia. }
  destruct (zlen ls' <=? i + 1) eqn:E.
  - replace (i + 1) with (zlen ls') by lia. by rewrite Z_mod_same_full.
  - by rewrite Z.mod_small by lia.
Qed.

Lemma connName_fits w n :
  slen (ipPort_ w) <= 21 → 0 <= n < 2 ^ 31 → x00 ∉ bytes_of (ipPort_ w) →
  snprintf 64 ("-" +:+ string_of (c_str (bytes_of (ipPort_ w))) +:+ "#" +:+ dec n) =
    ("-" +:+ ipPort_ w +:+ "#" +:+ dec n)%string.
Proof.
  intros Hip Hn Ht. rewrite c_str_no_nul, string_of_bytes_of by done. apply snprintf_fits.
  rewrite !slen_app. pose proof (dec_len_le 10 n ltac:(lia) ltac:(lia)).
  change (slen "-") with 1. change (slen "#") with 1. lia.
Qed.

Lemma getLocalAddr_total fd (k : K) : ∃ a k', SocketsOps.getLocalAddr fd k = Ok (a, k').
Proof.
  unfold SocketsOps.getLocalAddr. rewrite run_sys. destruct (sys_getsockname fd k) as [[r a] k']. cbn. by eauto.
Qed.

(** [newConnection] up to the last call: the connection is made and entered. *)
Lemma newConnection_run w fd peer :
  static w → thread w = loop_ w → nextConnId_ w < 2 ^ 31 - 1 →
  ∃ w1 o, newConnection newTcpConnection fd peer w =
      runInLoop (c_loop o) (ConnectEstablished (next_object w)) w1 ∧
    c_name o = conn_name w (next_object w) ∧ c_loop o = conn_loop w (next_object w) ∧
    srv_new (c_conn o) ∧ static w1 ∧ same_config w w1 ∧ queues w1 = queues w ∧ thread w1 = thread w ∧
    objects w1 = <[next_object w := o]> (objects w) ∧
    connections_ w1 = map_assign (bytes_of (c_name o)) (next_object w) (connections_ w).
Proof.
  intros Hst Ht Hlt. destruct (getNextLoop_spec w Hst) as (p & Hp & Hpb & Hps & Hpl & Hpn).
  pose proof Hst as [Hb Hs Hn Hsm Hid Hr Hip Htx Hth Hdom].
  destruct (getLocalAddr_total fd (Acceptor.sys_ (acceptor_ w))) as (la & k' & Hla).
  unfold newConnection, assertInLoopThread. autorewrite with run. rewrite bool_decide_true by done.
  autorewrite with run. rewrite Ht.
  erewrite (st_bind_run (zoom threadPool_ _ _)); [|by apply zoom_Ok]. autorewrite with run.
  cbn [ipPort_ set_threadPool nextConnId_ name_].
  replace (nextConnId_ w =? 2 ^ 31 - 1) with false by lia. autorewrite with run.
  erewrite (st_bind_run (zoom acceptor_ _ _));
    [|apply zoom_Ok; apply Acceptor.kernel_run; exact Hla].
  autorewrite with run. cbn [ipPort_ set_threadPool nextConnId_ name_ set_nextConnId set_acceptor next_object].
  rewrite connName_fits by (done || lia).
  match goal with |- context [mkobject ?n ?l ?x] => set (o := mkobject n l x) end.
  match goal with |- ∃ w1 o', runInLoop ?l ?f ?w2 = _ ∧ _ => exists w2, o end.
  split; [done|]. split; [unfold o, conn_name; cbn; by rewrite Hid|]. split_and!; [done|apply constructor_new|..].
  - split; cbn; [done|done| |by rewrite Hpl|lia|lia|done|done|done|].
    + intros Hne. rewrite Hpn by done. f_equal. lia.
    + intros c. destruct (decide (next_object w = c)) as [<-|Hc].
      * rewrite lookup_insert_eq. split; [lia|by eauto].
      * rewrite lookup_insert_ne, Hdom by done. lia.
  - by split.
  - done.
  - done.
  - done.
  - done.
Qed.

(** A new connection has no functors and no entry yet. *)
Lemma fresh_facts w :
  inv w → objects w !! next_object w = None ∧ (∀ l, tasks_of (next_object w) (queue l w) = []) ∧
  map_find (bytes_of (conn_name w (next_object w))) (connections_ w) = None.
Proof.
  intros [Hst Hob _ Hen Hta].
  assert (objects w !! next_object w = None) as Hn.
  { apply eq_None_not_Some. rewrite (st_dom _ Hst). lia. }
  split_and!; [done| |].
  - intros l. destruct (tasks_of _ _) as [|f q] eqn:Eq; [done|].
    assert (f ∈ tasks_of (next_object w) (queue l w)) as [E Hf]%list_elem_of_filter by (rewrite Eq; set_solver).
    destruct (Hta _ _ Hf) as (c & E' & [o Ho]). rewrite E in E'. injection E' as <-. by rewrite Hn in Ho.
  - destruct (map_find _ _) as [c|] eqn:E; [|done]. destruct (Hen _ _ E) as (o & Ho & Hk).
    destruct (Hob _ _ Ho) as (Hna & _). apply bytes_of_inj in Hk. rewrite Hna in Hk.
    apply conn_name_inj in Hk. by rewrite <-Hk, Hn in Ho.
Qed.

Lemma queueInLoop_run w l f :
  queueInLoop l f w = Ok ((), set_queues (<[l := queue l w ++ [f]]> (queues w)) w).
Proof. done. Qed.

Lemma newConnection_inv w fd peer :
  inv w → thread w = loop_ w → nextConnId_ w < 2 ^ 31 - 1 →
  ∃ w', newConnection newTcpConnection fd peer w = Ok ((), w') ∧ inv w'.
Proof.
  intros Hinv Ht Hlt. destruct (fresh_facts w Hinv) as (Hno & Htk & Hent).
  destruct (newConnection_run w fd peer (inv_static _ Hinv) Ht Hlt)
    as (w1 & o & -> & Hna & Hlo & Hnew & Hst1 & Hsc & Hqs & Hth & Hos & Hcs).
  pose proof Hsc as [E1 E2 E3 E4]. set (c := next_object w) in *.
  assert (∀ l, queue l w1 = queue l w) as Hq by (intros; unfold queue; by rewrite Hqs).
  assert (c_name o = conn_name w1 c) as Hna1 by (rewrite Hna; unfold conn_name; congruence).
  assert (c_loop o = conn_loop w1 c) as Hlo1 by (rewrite Hlo; unfold conn_loop; by rewrite E4, E1).
  assert (∀ k, map_find k (connections_ w1) =
    if bool_decide (k = bytes_of (c_name o)) then Some c else map_find k (connections_ w)) as Hmf.
  { intros k. by rewrite Hcs, map_find_assign. }
  assert (map_sorted (connections_ w1)) as Hso by (rewrite Hcs; apply map_assign_sorted, Hinv).
  unfold runInLoop. rewrite run_gets, Hth. case_bool_decide as El.
  - destruct (established_law _ Hnew) as (x & Hx). cbn [run_task].
    assert (objects w1 !! c = Some o) as Ho1 by by rewrite Hos, lookup_insert_eq.
    eexists. split; [by apply (conn_object_run _ _ _ _ _ Ho1 Hx)|].
    eapply (inv_update w _ c (mkobject (c_name o) (c_loop o) x) Up); [done|..]; cbn.
    + eapply (static_update w1 _ c); [done|by eauto|done..].
    + by destruct Hsc.
    + by rewrite Hos, insert_insert_eq.
    + by rewrite Hna1.
    + by rewrite Hlo1.
    + split; cbn; [done|by rewrite Hmf, bool_decide_true|].
      intros l. unfold queue. cbn. fold (queue l w1). by rewrite Hq.
    + done.
    + intros k Hk. by rewrite Hmf, bool_decide_false.
    + left. by rewrite Hmf, bool_decide_true.
    + intros l c2 _. unfold queue at 1. cbn. fold (queue l w1). by rewrite Hq.
    + intros l f. unfold queue at 1. cbn. fold (queue l w1). rewrite Hq. by right.
  - rewrite queueInLoop_run. eexists. split; [done|].
    eapply (inv_update w _ c o New); [done|..]; cbn.
    + by destruct Hst1; split.
    + by destruct Hsc.
    + done.
    + done.
    + done.
    + split; cbn; [done|by rewrite Hmf, bool_decide_true|].
      intros l. erewrite (queue_insert w1 _ l) by done. rewrite Hq. case_bool_decide as El2.
      * subst l. by rewrite tasks_of_snoc, Htk, bool_decide_true.
      * by rewrite Hq, Htk.
    + done.
    + intros k Hk. by rewrite Hmf, bool_decide_false.
    + left. by rewrite Hmf, bool_decide_true.
    + intros l c2 Hne. erewrite (queue_insert w1 _ l) by done. rewrite Hq. case_bool_decide as El2; [|by rewrite Hq].
      subst l. rewrite tasks_of_snoc, bool_decide_false by (cbn; congruence). by rewrite app_nil_r.
    + intros l f. erewrite (queue_insert w1 _ l) by done. rewrite Hq. case_bool_decide as El2; [|rewrite Hq; by right].
      subst l. rewrite elem_of_app, list_elem_of_singleton. intros [?| ->]; [by right|by left].
Qed.

(** Changing the thread, or the state of the kernel, changes no reference. *)
Lemma inv_set_thread w l : inv w → inv (set_thread l w).
Proof.
  intros [[H1 H2 H3 H4 H5 H6 H7 H8 H9 H10] Hob Hso Hen Hta]. split; [by split| |done..].
  intros c o Ho. destruct (Hob _ _ Ho) as (? & ? & p & [? ? Hp]). split_and!; [done..|]. exists p. split; [done..|exact Hp].
Qed.

Lemma inv_set_kernel w k : inv w → inv (set_acceptor (Acceptor.set_sys k (acceptor_ w)) w).
Proof.
  intros [[H1 H2 H3 H4 H5 H6 H7 H8 H9 H10] Hob Hso Hen Hta]. split; [by split| |done..].
  intros c o Ho. destruct (Hob _ _ Ho) as (? & ? & p & [? ? Hp]). split_and!; [done..|]. exists p. split; [done..|exact Hp].
Qed.

(** The events that can happen: a connection is there to be accepted, and its number
    fits; only an open connection changes or closes. *)
Definition event_legal (e : event C) w : Prop :=
  match e with
  | Arrive => nextConnId_ w < 2 ^ 31 - 1 ∧
      0 <= (sys_accept (Acceptor.acceptSocket_ (acceptor_ w)) (Acceptor.sys_ (acceptor_ w))).1.1
  | Change c x => ∃ o, objects w !! c = Some o ∧ srv_open (c_conn o) = true
  | Close c x => ∃ o, objects w !! c = Some o ∧ srv_open (c_conn o) = true ∧ srv_down x
  | RunFunctor _ => True
  end.

Lemma arrive_inv w :
  inv w → event_legal Arrive w → ∃ w', run_event newTcpConnection Arrive w = Ok ((), w') ∧ inv w'.
Proof.
  intros Hinv [Hlt Hfd]. cbn [run_event]. rewrite run_modify. set (w0 := set_thread (loop_ w) w).
  destruct (sys_accept (Acceptor.acceptSocket_ (acceptor_ w0)) (Acceptor.sys_ (acceptor_ w0))) as [[fd peer] k1] eqn:Ha.
  cbn in Ha. rewrite Ha in Hfd. cbn in Hfd.
  destruct (handleRead_accepts acceptor_ set_acceptor w0 fd peer k1 (newConnection newTcpConnection))
    as (k' & fl & fdfl & _ & _ & ->); [apply Hinv|done|done|done|].
  apply newConnection_inv; [|done|done]. apply inv_set_kernel. by apply inv_set_thread.
Qed.

(** An object changes without its references. *)
Lemma change_inv w c o x :
  inv w → objects w !! c = Some o → srv_open (c_conn o) = true →
  inv (set_objects (<[c := mkobject (c_name o) (c_loop o) x]> (objects w)) w).
Proof.
  intros Hinv Ho Hop. destruct (inv_obj _ Hinv _ _ Ho) as (Hna & Hlo & p & Hp).
  pose proof (open_up _ _ _ _ Hp Hop) as ->. destruct Hp as [_ Hli Hta].
  eapply (inv_update w _ c (mkobject (c_name o) (c_loop o) x) Up); [done|..]; cbn.
  - eapply (static_update w _ c); [apply Hinv|by eauto|done..].
  - by split.
  - done.
  - done.
  - done.
  - split; [done|done|exact Hta].
  - apply Hinv.
  - done.
  - left. by apply Hli.
  - done.
  - by right.
Qed.

Lemma close_inv w c x :
  inv w → event_legal (Close c x) w → ∃ w', run_event newTcpConnection (Close c x) w = Ok ((), w') ∧ inv w'.
Proof.
  intros Hinv (o & Ho & Hop & Hd). cbn [run_event]. unfold put_conn.
  autorewrite with run. rewrite Ho. autorewrite with run.
  set (o' := mkobject (c_name o) (c_loop o) x). set (w1 := set_thread _ _).
  destruct (inv_obj _ Hinv _ _ Ho) as (Hna & Hlo & p & Hp).
  pose proof (open_up _ _ _ _ Hp Hop) as ->. destruct Hp as [_ Hli Hta].
  assert (map_find (bytes_of (c_name o)) (connections_ w) = Some c) as Hm by by apply Hli.
  assert (static w1) as Hst1 by (eapply (static_update w _ c); [apply Hinv|by eauto|done..]).
  unfold removeConnection, runInLoop. rewrite !run_gets. case_bool_decide as El.
  - cbn [run_task]. by apply (removed_inv w w1 c o o').
  - rewrite queueInLoop_run. eexists. split; [done|].
    eapply (inv_update w _ c o' Closed); [done|..]; cbn.
    + by destruct Hst1; split.
    + by split.
    + done.
    + done.
    + done.
    + split; [done|done|]. intros l.  erewrite (queue_insert w _ l) by done. unfold expected. cbn.
      case_bool_decide as El2; [|by rewrite Hta].
      subst l. rewrite tasks_of_snoc, bool_decide_true by done.
      change (queue (loop_ w) w1) with (queue (loop_ w) w). by rewrite Hta.
    + apply Hinv.
    + done.
    + by left.
    + intros l c2 Hne. erewrite (queue_insert w _ l) by done. case_bool_decide as El2; [|done].
      subst l. rewrite tasks_of_snoc, bool_decide_false by (cbn; congruence). by rewrite app_nil_r.
    + intros l f. erewrite (queue_insert w _ l) by done. case_bool_decide as El2; [|by right].
      subst l. rewrite elem_of_app, list_elem_of_singleton. intros [?| ->]; [by right|by left].
Qed.

(** The functor in front of a queue tells the phase of its connection, and taking it
    leaves the connection without functors. *)
Lemma head_phase w l f q c o p :
  queue l w = f :: q → task_conn f = Some c → phase_ok w c o p →
  tasks_of c q = [] ∧ (∀ l2, l2 ≠ l → tasks_of c (queue l2 w) = []) ∧
  match f with
  | AcceptorListen => False
  | ConnectEstablished _ => p = New
  | RemoveConnectionInLoop _ => p = Closed ∧ l = loop_ w
  | ConnectDestroyed _ => p = Removed
  end.
Proof.
  intros Hq Hf [_ _ Hta]. pose proof (Hta l) as H. rewrite Hq, tasks_of_cons, bool_decide_true in H by done.
  assert (∀ l2, l2 ≠ l → expected w c o p l2 = []) as Hother.
  { intros l2 Hne. unfold expected in *. destruct p; try done; (case_bool_decide; [|done]);
      rewrite bool_decide_false by congruence; done. }
  split_and!.
  - unfold expected in H. destruct p; try done; (case_bool_decide; [|done]); by injection H.
  - intros l2 Hne. rewrite Hta. by apply Hother.
  - unfold expected in H. destruct p; try done; (case_bool_decide; [|done]); by injection H as -> _.
Qed.

(** The functor of a connection runs on its object: it was established or destroyed. *)
Lemma ran_inv w l q f c o op p' :
  inv w → queue l w = f :: q → task_conn f = Some c → objects w !! c = Some o →
  (∃ x, op (c_conn o) = Ok x ∧ conn_ok p' x) →
  (p' = Up ∧ map_find (bytes_of (c_name o)) (connections_ w) = Some c ∨
   p' = Gone ∧ map_find (bytes_of (c_name o)) (connections_ w) = None) →
  ∃ w', on_conn c op (set_queues (<[l := q]> (queues w)) (set_thread l w)) = Ok ((), w') ∧ inv w'.
Proof.
  intros Hinv Hq Hf Ho (x & Hx & Hok) Hp'. set (w1 := set_queues _ _).
  destruct (inv_obj _ Hinv _ _ Ho) as (Hna & Hlo & p & Hp).
  destruct (head_phase _ _ _ _ _ _ _ Hq Hf Hp) as (Hq1 & Hq2 & _).
  eexists. split; [by apply (conn_object_run w1 c o op x)|].
  set (o' := mkobject (c_name o) (c_loop o) x).
  eapply (inv_update w _ c o' p'); [done|..]; cbn.
  - eapply (static_update w _ c); [apply Hinv|by eauto|done..].
  - by split.
  - done.
  - done.
  - done.
  - split; cbn; [done| |].
    + destruct Hp' as [[-> ->]|[-> ->]]; done.
    + intros l2. erewrite (queue_insert w _ l2) by done.
      replace (expected _ c o' p' l2) with (@nil task) by (by destruct Hp' as [[-> _]|[-> _]]).
      case_bool_decide; [by subst|by apply Hq2].
  - apply Hinv.
  - done.
  - destruct Hp' as [[_ ?]|[_ ?]]; [by left|by right].
  - intros l2 c2 Hne. erewrite (queue_insert w _ l2) by done. case_bool_decide; [|done]. subst l2.
    rewrite Hq, tasks_of_cons, bool_decide_false by congruence. done.
  - intros l2 g. erewrite (queue_insert w _ l2) by done. case_bool_decide; [|by right]. subst l2.
    rewrite Hq. right. set_solver.
Qed.

Lemma functor_inv w l : inv w → ∃ w', run_event newTcpConnection (RunFunctor l) w = Ok ((), w') ∧ inv w'.
Proof.
  intros Hinv. cbn [run_event]. rewrite run_modify, run_gets. change (queue l (set_thread l w)) with (queue l w).
  destruct (queue l w) as [|f q] eqn:Hq; [eexists; split; [done|by apply inv_set_thread]|].
  rewrite run_modify. change (queues (set_thread l w)) with (queues w).
  assert (f ∈ queue l w) as Hin by (rewrite Hq; set_solver).
  destruct (inv_task _ Hinv _ _ Hin) as (c & Hf & [o Ho]).
  destruct (inv_obj _ Hinv _ _ Ho) as (Hna & Hlo & p & Hp).
  destruct (head_phase _ _ _ _ _ _ _ Hq Hf Hp) as (Hq1 & Hq2 & Hph). destruct Hp as [Hco Hli Hta].
  destruct f as [|c'|c'|c']; cbn in Hf; [done|injection Hf as ->..]; cbn [run_task].
  - subst p. cbn in Hco. apply (ran_inv w l q (ConnectEstablished c) c o _ Up); [done..| |left; by rewrite Hli].
    destruct (established_law _ Hco) as (x & ?). by exists x.
  - subst p. cbn in Hco. apply (ran_inv w l q (ConnectDestroyed c) c o _ Gone); [done..| |right; split; [done|]].
    + by apply destroyed_law.
    + destruct (map_find _ _) as [c2|] eqn:E; [|done]. destruct (inv_entry _ Hinv _ _ E) as (o2 & Ho2 & Hk).
      destruct (inv_obj _ Hinv _ _ Ho2) as (Hn2 & _). apply bytes_of_inj in Hk. rewrite Hna, Hn2 in Hk.
      apply conn_name_inj in Hk as ->. by destruct (proj1 Hli eq_refl).
  - destruct Hph as [-> ->]. cbn in Hco. set (w1 := set_queues _ _).
    apply (removed_inv w w1 c o o); try done.
    + by apply Hli.
    + eapply (static_update w _ c o); [apply Hinv|by eauto|done..|]. by rewrite insert_id.
    + by rewrite insert_id.
    + intros l2 c2 Hne. unfold w1. erewrite (queue_insert w _ l2) by done. case_bool_decide; [|done]. subst l2.
      rewrite Hq, tasks_of_cons, bool_decide_false by (cbn; congruence). done.
    + intros l2 f. unfold w1. erewrite (queue_insert w _ l2) by done. case_bool_decide; [|done]. subst l2.
      rewrite Hq. set_solver.
    + intros l2. unfold w1. erewrite (queue_insert w _ l2) by done. case_bool_decide; [done|by apply Hq2].
Qed.

Lemma server_event_inv w e : inv w → event_legal e w → ∃ w', run_event newTcpConnection e w = Ok ((), w') ∧ inv w'.
Proof.
  intros Hinv Hle. destruct e as [|c x|c x|l].
  - by apply arrive_inv.
  - destruct Hle as (o & Ho & Hop). cbn [run_event]. unfold put_conn. autorewrite with run. rewrite Ho.
    autorewrite with run. eexists. split; [done|]. by apply change_inv.
  - by apply close_inv.
  - by apply functor_inv.
Qed.

(** Every event of the run was possible when it happened. *)
Fixpoint legal_run (es : list (event C)) w : Prop :=
  match es with
  | [] => True
  | e :: es' => event_legal e w ∧ ∀ w', run_event newTcpConnection e w = Ok ((), w') → legal_run es' w'
  end.

Lemma events_inv w es : inv w → legal_run es w → ∃ w', run_events newTcpConnection es w = Ok ((), w') ∧ inv w'.
Proof.
  revert w. induction es as [|e es IH]; intros w Hinv Hl; [by exists w|].
  destruct Hl as [Hle Hl]. destruct (server_event_inv w e Hinv Hle) as (w1 & E & Hinv1).
  destruct (IH w1 Hinv1 (Hl _ E)) as (w' & E' & Hinv'). exists w'. split; [|done].
  cbn [run_events]. by rewrite (st_bind_run _ _ _ _ _ E).
Qed.

(** ** Starting *)

Definition threads_started (n : nat) (p p' : EventLoopThreadPool.t) : Prop :=
  EventLoopThreadPool.baseLoop_ p' = EventLoopThreadPool.baseLoop_ p ∧
  EventLoopThreadPool.started_ p' = EventLoopThreadPool.started_ p ∧
  EventLoopThreadPool.next_ p' = EventLoopThreadPool.next_ p ∧
  zlen (EventLoopThreadPool.loops_ p') = zlen (EventLoopThreadPool.loops_ p) + Z.of_nat n.

Lemma start_threads_run n i w :
  ∃ p x, EventLoopThreadPool.start_threads threadPool_ set_threadPool startLoop n i w =
      Ok ((), set_next_loop x (set_threadPool p w)) ∧ threads_started n (threadPool_ w) p.
Proof.
  revert i w. induction n as [|n IH]; intros i w.
  - exists (threadPool_ w), (next_loop w). split; [by destruct w|]. unfold threads_started. split_and!; [done..|lia].
  - cbn [EventLoopThreadPool.start_threads]. rewrite run_gets.
    erewrite (st_bind_run (startLoop _)) by done. erewrite (st_bind_run (zoom threadPool_ _ _)); [|by apply zoom_Ok].
    match goal with |- context [EventLoopThreadPool.start_threads _ _ _ n (i + 1) ?w1] =>
      destruct (IH (i + 1) w1) as (p & x & -> & (E1 & E2 & E3 & E4)) end.
    exists p, x. split; [done|]. unfold threads_started in *. cbn in *.
    rewrite E1, E2, E3, E4, zlen_app, zlen_cons, zlen_nil. split_and!; [done..|lia].
Qed.

Lemma start_run w w' :
  started_ w = 0 → thread w = loop_ w → EventLoopThreadPool.baseLoop_ (threadPool_ w) = loop_ w →
  EventLoopThreadPool.started_ (threadPool_ w) = false →
  start None w = Ok ((), w') →
  ∃ p x a, w' = set_acceptor a (set_next_loop x (set_threadPool p (set_started 1 w))) ∧
    threads_started (Z.to_nat (EventLoopThreadPool.numThreads_ (threadPool_ w)))
      (EventLoopThreadPool.set_started (threadPool_ w)) p.
Proof.
  intros H0 Ht Hb Hns Hs. unfold start in Hs. rewrite run_gets, H0 in Hs. cbn [Z.eqb] in Hs.
  rewrite run_modify, run_gets in Hs. cbn [thread set_started] in Hs. set (w1 := set_started _ w) in *.
  unfold EventLoopThreadPool.start in Hs. rewrite run_bind_assoc, run_gets, run_bind_assoc in Hs.
  change (threadPool_ w1) with (threadPool_ w) in Hs. rewrite Hns in Hs.
  erewrite (st_bind_run (lift _)) in Hs by done. rewrite run_bind_assoc in Hs.
  unfold EventLoopThreadPool.assertInLoopThread in Hs. rewrite Hb, bool_decide_true in Hs by done.
  erewrite (st_bind_run (lift _)) in Hs by done. rewrite run_bind_assoc in Hs.
  erewrite (st_bind_run (zoom threadPool_ _ _)) in Hs by done. rewrite run_bind_assoc in Hs.
  match type of Hs with (_ ≫= _) ?w2 = _ =>
    destruct (start_threads_run (Z.to_nat (EventLoopThreadPool.numThreads_ (threadPool_ w))) 0 w2)
      as (p & x & E & Hp) end.
  rewrite (st_bind_run _ _ _ _ _ E), run_mret, run_gets in Hs.
  apply st_bind_Ok in Hs as (? & w3 & Hl & Hs). unfold lift in Hl.
  destruct (cassert _) in Hl; [|done]. injection Hl as <- <-.
  rewrite run_gets in Hs. unfold runInLoop in Hs. rewrite run_gets in Hs. cbn [thread loop_ set_next_loop set_threadPool] in Hs.
  replace (bool_decide _) with true in Hs by (symmetry; by apply bool_decide_true).
  cbn [run_task] in Hs. unfold zoom in Hs. apply bind_Ok in Hs as ([[] acc] & _ & Hs). injection Hs as <-.
  by exists p, x, acc.
Qed.

Lemma start_inv loop addr name reuse chan l k n w0 w :
  sin_family addr = AF_INET → 0 <= n < 2 ^ 31 →
  make (C := C) loop addr name reuse chan l k = Ok w0 →
  (setThreadNum n ≫= λ _, start None) w0 = Ok ((), w) →
  isInLoopThread (Acceptor.loop_ (acceptor_ w)) = true → inv w.
Proof.
  intros Hf Hn Hmk Hs Hth. unfold make in Hmk. rewrite toIpPort_text in Hmk by done.
  cbn [mbind res_bind] in Hmk. destruct (Acceptor.make _ _ _ _ _ _) as [a|]; [|done].
  injection Hmk as <-. set (ip := (inet_ntop _ +:+ _)%string) in *.
  unfold setThreadNum in Hs. replace (0 <=? n) with true in Hs by lia.
  rewrite run_bind_assoc in Hs.
  erewrite (st_bind_run (lift _)) in Hs by done. erewrite (st_bind_run (zoom threadPool_ _ _)) in Hs by done.
  apply start_run in Hs as (p & x & a' & -> & (E1 & E2 & E3 & E4)); [|done..]. cbn in E1, E2, E3, E4.
  split; cbn.
  - split; cbn; try done.
    + rewrite E4. unfold zlen. cbn. lia.
    + eapply (toIpPort_len addr); [done|]. by apply toIpPort_text.
    + unfold ip. rewrite !bytes_of_app, !not_elem_of_app. split_and!; [apply ntop_no_nul|by vm_compute; set_solver|apply dec_no_nul].
    + intros c. rewrite lookup_empty. split; [by intros [? ?]|lia].
  - intros c o. by rewrite lookup_empty.
  - constructor.
  - done.
  - intros l' f. unfold queue. cbn. rewrite lookup_empty. cbn. set_solver.
Qed.

(** C14 (invariant). A server is made for an IPv4 address with any number of IO threads
    and started.  Then, through any order of new connections, changes and closes of open
    connections in their threads and functors run by any of the loops, nothing fails; in
    particular a connection that is removed is always listed, as [removeConnectionInLoop]
    asserts.  Connections get the names NAME-IP:PORT#1, #2, ... which are all different
    and never cut off, and the loops of the pool in turn.  The table lists a connection
    from its creation until its removal has run in the acceptor's loop, and each is
    established, removed and destroyed at most once, in this order, in its own loop: at
    every moment the functors queued for it are exactly the one its phase calls for.
    The close callback may be called for any connection, which includes the runs of the
    program, where it never is. *)
Theorem server_run loop addr name reuse chan l k n (w0 w : t L K C) (es : list (event C)) :
  sin_family addr = AF_INET → 0 <= n < 2 ^ 31 →
  make loop addr name reuse chan l k = Ok w0 →
  (setThreadNum n ≫= λ _, start None) w0 = Ok ((), w) →
  isInLoopThread (Acceptor.loop_ (acceptor_ w)) = true →
  legal_run es w →
  ∃ w', run_events newTcpConnection es w = Ok ((), w') ∧ inv w'.
Proof.
  intros Hf Hn Hmk Hs Hth Hl. pose proof (start_inv _ _ _ _ _ _ _ _ _ _ Hf Hn Hmk Hs Hth) as Hinv.
  by apply events_inv.
Qed.

End Invariant.

(** ** The connections of TcpConnection.cc *)
Section Tcp.
Import TcpConnection.
Context {L S U : Type} `{CL : ChannelLoop L, CLL : !ChannelLoopLaws L CL,
  FL : FunctorLoop L functor, FLL : !FunctorLoopLaws L functor CL CLL FL,
  SO : Socket S, SL : !SocketLaws S SO}.
Variables (connectionCallback_ : t L S U → res (t L S U)) (k : Z).
Hypotheses (Hcb : behaves k connectionCallback_) (Hk : 0 <= k).

Definition tcp_served : Served (t L S U) := {|
  srv_connectEstablished := connectEstablished connectionCallback_;
  srv_connectDestroyed := connectDestroyed connectionCallback_;
  srv_open := is_open
|}.

Definition tcp_served_laws : ServedLaws (t L S U) tcp_served.
Proof.
  refine {| srv_new c := TcpConnection.inv c ∧ state_ c = kConnecting ∧ size c + k < 2 ^ 62;
            srv_down c := TcpConnection.inv c ∧ state_ c = kDisconnected ∧ size c + k < 2 ^ 62 ∧
              ¬ unregistered (channel_ c) ∧ may_remove (loop_ c) (channel_ c) |}; cbn.
  - intros c (_ & Hs & _). unfold is_open. by rewrite Hs.
  - intros c (_ & Hs & _). unfold is_open. by rewrite Hs.
  - intros c (Hi & Hs & Hz). destruct (connectEstablished_spec k connectionCallback_ c) as (c' & E & _); [done..|].
    by exists c'.
  - intros c (Hi & Hs & Hz & Hu & Hm).
    destruct (connectDestroyed_spec k connectionCallback_ c) as (c' & E & Hd & _); [done|done|by right|done..|].
    exists c'. split; [done|]. unfold is_open. by rewrite Hd.
Defined.
End Tcp.

Section Witness.
Import TcpServer ToySys.

(** A connection that only knows how far it is. *)
Inductive toy := TNew | TOpen | TDown | TGone.

#[local] Instance toy_served : Served toy := {|
  srv_connectEstablished c := match c with TNew => Ok TOpen | _ => Fault AssertFail end;
  srv_connectDestroyed c := match c with TDown => Ok TGone | _ => Fault AssertFail end;
  srv_open c := match c with TOpen => true | _ => false end
|}.

#[local] Instance toy_served_laws : ServedLaws toy toy_served.
Proof.
  refine {| srv_new c := c = TNew; srv_down c := c = TDown |}; cbn.
  - by intros c ->.
  - by intros c ->.
  - intros c ->. by eexists.
  - intros c ->. by eexists.
Defined.

#[local] Existing Instance toy_channel_loop.

Definition toy_listen : sockaddr_in := InetAddress.make 8888 false.

Definition toy_make : res (TcpServer.t bool ToySys.t toy) :=
  make 1 toy_listen "IM" false 1 true (ToySys.mk 0 [(7, toy_peer); (8, toy_peer)] ∅).

(** Two connections on two loops; the first one closes and is destroyed. *)
Definition toy_events : list (event toy) :=
  [Arrive; RunFunctor 2; Arrive; Close 1 TDown; RunFunctor 1; RunFunctor 3; RunFunctor 2].

(** What is left: the second connection, named and listed. *)
Definition toy_left (w : TcpServer.t bool ToySys.t toy) : list (string * nat) :=
  (λ x, (string_of x.1, x.2)) <$> connections_ w.

(** The server as made, and as started with two threads. *)
Definition toy_w0 : TcpServer.t bool ToySys.t toy := Eval vm_compute in
  match toy_make as r return match r with Ok _ => TcpServer.t bool ToySys.t toy | Fault _ => unit end with
  | Ok w => w
  | Fault _ => ()
  end.

Definition toy_start : res (unit * TcpServer.t bool ToySys.t toy) :=
  (setThreadNum 2 ≫= λ _, start None) toy_w0.

Definition toy_w : TcpServer.t bool ToySys.t toy := Eval vm_compute in
  match toy_start as r return match r with Ok _ => TcpServer.t bool ToySys.t toy | Fault _ => unit end with
  | Ok (_, w) => w
  | Fault _ => ()
  end.

Lemma server_run_witness :
  ∃ w', run_events (λ _ _ _ _ _, TNew) toy_events toy_w = Ok ((), w') ∧
    toy_left w' = [("IM-0.0.0.0:8888#2"%string, 2%nat)].
Proof.
  destruct (server_run (SCL := toy_served_laws) (λ _ _ _ _ _, TNew) (λ _ _ _ _ _, eq_refl) 1 toy_listen "IM" false 1 true
    (ToySys.mk 0 [(7, toy_peer); (8, toy_peer)] ∅) 2 toy_w0 toy_w toy_events) as (w' & E & _).
  - done.
  - lia.
  - by vm_compute.
  - by vm_compute.
  - done.
  - repeat (split; [first [by vm_compute|by eexists]|]; intros ? E; vm_compute in E; injection E as <-). done.
  - exists w'. split; [exact E|]. vm_compute in E. by injection E as <-.
Defined.
End Witness.
