(* ===== verification/ConnectionTable.v ===== *)
(** * TcpServer.cc with TcpConnection.cc: the table of connections

    TcpServer.v removes a connection when the close callback is called.  But
    [TcpConnection::handleClose] ends with the statement [(guardThis)] instead of the call,
    so in the program no connection is removed before the server itself is destroyed. *)
From S2P Require Import Prelude Text State StdMap Inet Sockets Channel TcpConnection Acceptor TcpServer.

Section Table.
Import TcpServer.
Context {L K C : Type} `{CL : ChannelLoop L, SY : Sys K, SYL : !SysLaws K SY,
  SC : Served C, SCL : !ServedLaws C SC}.
Variable newTcpConnection : positive → string → Z → sockaddr_in → sockaddr_in → C.
Hypothesis constructor_new : ∀ l name fd local peer, srv_new (newTcpConnection l name fd local peer).
Implicit Types (w : TcpServer.t L K C) (o : object C).

(** The close callback is not called; a connection that closes only changes. *)
Definition uncalled (e : TcpServer.event C) : Prop := match e with Close _ _ => False | _ => True end.

Fixpoint arrivals (es : list (TcpServer.event C)) : nat :=
  match es with
  | [] => 0
  | Arrive :: es' => S (arrivals es')
  | _ :: es' => arrivals es'
  end.

(** Every connection that was ever made is in the table, and no functor removes any. *)
Record all_listed w : Prop := {
  al_inv : inv w;
  al_tasks l f : f ∈ queue l w → ∃ c, f = ConnectEstablished c;
  al_listed c o : objects w !! c = Some o → map_find (bytes_of (c_name o)) (connections_ w) = Some c
}.

(** Only the table, the objects and the queues matter. *)
Lemma all_listed_conn w w' c o x :
  all_listed w → inv w' → objects w !! c = Some o →
  objects w' = <[c := mkobject (c_name o) (c_loop o) x]> (objects w) → connections_ w' = connections_ w →
  (∀ l f, f ∈ queue l w' → f ∈ queue l w) → all_listed w'.
Proof.
  intros [_ Ht Hl] Hi Ho Hos Hcs Hq. split; [done|intros l f Hf; by eapply Ht, Hq|].
  intros c2 o2. rewrite Hos, lookup_insert_Some, Hcs. intros [[<- <-]|[_ H2]]; cbn; by apply Hl.
Qed.

Lemma next_after_insert w w1 o : static w → static w1 → objects w1 = <[next_object w := o]> (objects w) → next_object w1 = S (next_object w).
Proof.
  intros Hst Hst1 Hos.
  assert (1 <= next_object w)%nat as H1 by (pose proof (st_ids _ Hst); pose proof (st_range _ Hst); lia).
  assert (1 <= next_object w < next_object w1)%nat as H2 by (apply (st_dom _ Hst1); by rewrite Hos, lookup_insert_eq).
  assert (¬ (1 <= S (next_object w) < next_object w1)%nat) as H3; [|lia].
  rewrite <-(st_dom _ Hst1), Hos, lookup_insert_ne by lia. rewrite (st_dom _ Hst). lia.
Qed.

Lemma arrive_listed w w' :
  all_listed w → event_legal Arrive w → run_event newTcpConnection Arrive w = Ok ((), w') →
  all_listed w' ∧ next_object w' = S (next_object w).
Proof.
  intros [Hinv Hta Hli] Hl E. destruct (arrive_inv newTcpConnection constructor_new w Hinv Hl) as (w2 & E2 & Hinv').
  rewrite E in E2. injection E2 as <-. destruct Hl as [Hlt Hfd].
  cbn [run_event] in E. rewrite run_modify in E. set (w0 := set_thread (loop_ w) w) in *.
  destruct (sys_accept (Acceptor.acceptSocket_ (acceptor_ w0)) (Acceptor.sys_ (acceptor_ w0))) as [[fd peer] k1] eqn:Ha.
  cbn in Ha. rewrite Ha in Hfd. cbn in Hfd.
  destruct (handleRead_accepts acceptor_ set_acceptor w0 fd peer k1 (newConnection newTcpConnection))
    as (k' & fl & fdfl & _ & _ & Eh); [apply Hinv|done|done|done|]. rewrite Eh in E.
  set (w1 := set_acceptor _ w0) in *.
  assert (inv w1) as Hinv1 by (apply inv_set_kernel; by apply inv_set_thread).
  destruct (newConnection_run newTcpConnection constructor_new w1 fd peer (inv_static _ Hinv1) eq_refl Hlt)
    as (w3 & o & En & Hna & _ & _ & Hst3 & Hsc & Hqs & Hth & Hos & Hcs). rewrite En in E.
  pose proof (next_after_insert w1 w3 o (inv_static _ Hinv1) Hst3 Hos) as Hnext.
  assert (∀ l f, f ∈ queue l w3 → ∃ c, f = ConnectEstablished c) as Hq3.
  { intros l f. unfold queue. rewrite Hqs. apply Hta. }
  destruct (fresh_facts newTcpConnection constructor_new w1 Hinv1) as (_ & _ & Hnone).
  assert (∀ c x, objects w3 !! c = Some x → map_find (bytes_of (c_name x)) (connections_ w3) = Some c) as Hl3.
  { intros c x. rewrite Hos, lookup_insert_Some, Hcs, map_find_assign. intros [[<- <-]|[Hne Hx]]; [by rewrite bool_decide_true|].
    pose proof (Hli c x Hx) as Hf. rewrite bool_decide_false; [done|]. intros Ek. rewrite Hna in Ek.
    change (connections_ w) with (connections_ w1) in Hf. by rewrite Ek, Hnone in Hf. }
  unfold runInLoop in E. rewrite run_gets in E. case_bool_decide as El; cbn [run_task] in E.
  - assert (objects w3 !! next_object w1 = Some o) as Ho3 by (rewrite Hos; apply lookup_insert_eq).
    unfold on_conn, on_object in E. rewrite Ho3 in E.
    destruct (srv_connectEstablished (c_conn o)) as [x|] eqn:Ex; [|done]. cbn in E. injection E as <-.
    split; [|done]. split; [done|done|]. intros c y. cbn. rewrite lookup_insert_Some. intros [[<- <-]|[_ Hy]]; cbn; [by apply (Hl3 _ o)|by apply Hl3].
  - rewrite queueInLoop_run in E. injection E as <-. split; [|done]. split; [done| |done].
    intros l f. erewrite (queue_insert w3 _ l) by done. case_bool_decide; [|apply Hq3]. subst l.
    rewrite elem_of_app, list_elem_of_singleton. intros [Hf| ->]; [by eapply Hq3|by eexists].
Qed.

Lemma event_listed e w w' :
  all_listed w → uncalled e → event_legal e w → run_event newTcpConnection e w = Ok ((), w') →
  all_listed w' ∧ next_object w' = (arrivals [e] + next_object w)%nat.
Proof.
  intros Hal Hu Hl E. pose proof Hal as [Hinv Hta Hli].
  destruct (server_event_inv newTcpConnection constructor_new w e Hinv Hl) as (w2 & E2 & Hinv'). rewrite E in E2. injection E2 as <-.
  destruct e as [|c x|c x|l]; [by apply arrive_listed| |done|]; cbn [run_event] in E.
  - destruct Hl as (o & Ho & _). unfold put_conn in E. autorewrite with run in E. rewrite Ho in E. autorewrite with run in E.
    injection E as <-. split; [|done]. by apply (all_listed_conn w _ c o x).
  - rewrite run_modify, run_gets in E. change (queue l (set_thread l w)) with (queue l w) in E.
    destruct (queue l w) as [|f q] eqn:Eq; [injection E as <-; split; [|done]; by split|].
    rewrite run_modify in E. change (queues (set_thread l w)) with (queues w) in E.
    destruct (Hta l f) as [c ->]; [rewrite Eq; set_solver|]. cbn [run_task] in E. unfold on_conn, on_object in E.
    cbn [objects set_queues set_thread] in E. destruct (objects w !! c) as [o|] eqn:Ho; [|done].
    destruct (srv_connectEstablished (c_conn o)) as [x|] eqn:Ex; [|done]. cbn in E. injection E as <-.
    split; [|done]. apply (all_listed_conn w _ c o x); [done..|].
    intros l2 f. erewrite (queue_insert w _ l2) by done. case_bool_decide; [|done]. subst l2. rewrite Eq. set_solver.
Qed.

Lemma run_listed es w :
  all_listed w → Forall uncalled es → legal_run newTcpConnection es w →
  ∃ w', run_events newTcpConnection es w = Ok ((), w') ∧ all_listed w' ∧ next_object w' = (arrivals es + next_object w)%nat.
Proof.
  revert w. induction es as [|e es IH]; intros w Hal Hu Hl; [by exists w|].
  apply Forall_cons in Hu as [Hue Hu]. destruct Hl as [Hle Hl].
  destruct (server_event_inv newTcpConnection constructor_new w e (al_inv _ Hal) Hle) as (w1 & E & _).
  destruct (event_listed e w w1 Hal Hue Hle E) as [Hal1 Hn1]. destruct (IH w1 Hal1 Hu (Hl _ E)) as (w' & E' & Hal' & Hn').
  exists w'. cbn [run_events]. rewrite (st_bind_run _ _ _ _ _ E). split_and!; [done..|]. rewrite Hn', Hn1. destruct e; cbn; lia.
Qed.

(** A server that has just been started has no connections. *)
Lemma start_listed loop addr name reuse chan l k n (w0 w : TcpServer.t L K C) :
  sin_family addr = AF_INET → 0 <= n < 2 ^ 31 →
  make loop addr name reuse chan l k = Ok w0 →
  (setThreadNum n ≫= λ _, start None) w0 = Ok ((), w) →
  isInLoopThread (Acceptor.loop_ (acceptor_ w)) = true → all_listed w ∧ next_object w = 1%nat.
Proof.
  intros Hf Hn Hmk Hs Hth. pose proof (start_inv newTcpConnection constructor_new _ _ _ _ _ _ _ _ _ _ Hf Hn Hmk Hs Hth) as Hinv.
  unfold make in Hmk. rewrite toIpPort_text in Hmk by done. cbn [mbind res_bind] in Hmk.
  destruct (Acceptor.make _ _ _ _ _ _) as [a|]; [|done]. injection Hmk as <-.
  unfold setThreadNum in Hs. replace (0 <=? n) with true in Hs by lia. rewrite run_bind_assoc in Hs.
  erewrite (st_bind_run (lift _)) in Hs by done. erewrite (st_bind_run (zoom threadPool_ _ _)) in Hs by done.
  apply start_run in Hs as (p & x & a' & -> & _); [|done..]. split; [|done]. split; [done| |].
  - intros l' f. unfold queue. cbn. rewrite lookup_empty. cbn. set_solver.
  - intros c o. cbn. by rewrite lookup_empty.
Qed.

(** When the close callback is not called, as is the case in the program (no event of
    [es] calls it), the table of connections only grows: through any order of arrivals,
    changes and closes of connections and functors run by the loops, nothing fails, and
    every connection ever accepted, open or closed, is still listed under its name.  The
    [shared_ptr] in the table keeps it alive, so that what other threads have queued for
    it, with a bare [this], finds it. *)
Theorem connections_kept loop addr name reuse chan l k n (w0 w : TcpServer.t L K C) (es : list (TcpServer.event C)) :
  sin_family addr = AF_INET → 0 <= n < 2 ^ 31 →
  make loop addr name reuse chan l k = Ok w0 →
  (setThreadNum n ≫= λ _, start None) w0 = Ok ((), w) →
  isInLoopThread (Acceptor.loop_ (acceptor_ w)) = true →
  Forall uncalled es → legal_run newTcpConnection es w →
  ∃ w', run_events newTcpConnection es w = Ok ((), w') ∧
    ∀ c, (1 <= c <= arrivals es)%nat → ∃ o, objects w' !! c = Some o ∧ c_name o = conn_name w' c ∧
      map_find (bytes_of (c_name o)) (connections_ w') = Some c.
Proof.
  intros Hf Hn Hmk Hs Hth Hu Hl. destruct (start_listed _ _ _ _ _ _ _ _ _ _ Hf Hn Hmk Hs Hth) as [Hal H1].
  destruct (run_listed es w Hal Hu Hl) as (w' & E & Hal' & Hnext). exists w'. split; [done|]. intros c Hc.
  destruct (proj2 (st_dom _ (inv_static _ (al_inv _ Hal')) c)) as [o Ho]; [lia|]. exists o. split; [done|].
  split; [by eapply inv_obj; [apply Hal'|]|by apply Hal'].
Qed.
End Table.

Section Witness.
Import TcpServer ToySys.
#[local] Existing Instance toy_served.
#[local] Existing Instance toy_channel_loop.

(** Two connections arrive, and the first one closes. *)
Definition closing_events : list (TcpServer.event toy) :=
  [Arrive; RunFunctor 2; Arrive; Change 1 TDown; RunFunctor 1; RunFunctor 3; RunFunctor 2].

Lemma connections_kept_witness :
  ∃ w', run_events (λ _ _ _ _ _, TNew) closing_events toy_w = Ok ((), w') ∧
    map_find (bytes_of "IM-0.0.0.0:8888#1") (connections_ w') = Some 1%nat ∧
    (c_conn <$> objects w' !! 1%nat) = Some TDown.
Proof.
  destruct (connections_kept (SCL := toy_served_laws) (λ _ _ _ _ _, TNew) (λ _ _ _ _ _, eq_refl) 1 toy_listen "IM" false 1 true
    (ToySys.mk 0 [(7, toy_peer); (8, toy_peer)] ∅) 2 toy_w0 toy_w closing_events) as (w' & E & Hc).
  - done.
  - lia.
  - by vm_compute.
  - by vm_compute.
  - done.
  - by repeat constructor.
  - repeat (split; [first [by vm_compute|by eexists]|]; intros ? E; vm_compute in E; injection E as <-). done.
  - exists w'. split; [exact E|]. destruct (Hc 1%nat) as (o & Ho & Hn & Hf); [by vm_compute; lia|].
    vm_compute in E. injection E as <-. vm_compute in Ho. injection Ho as <-. split; by vm_compute.
Defined.
End Witness.
