(* ===== verification/Connector.v ===== *)
(** * client/src/Connector.cc: connecting to the server, with retries

    One state holds the connector, the loop as its channels see it, the kernel, the
    functors it has queued in its loop and the timers it has set (EventLoop.v and
    TimerQueue.v show that those run, once and in order).  [handed] are the calls of the
    new connection callback; it is the last thing that [handleWrite] does. *)
From S2P Require Import Prelude Text State Inet Sockets Channel EPollPoller EventLoop Reactor.

Definition EACCES : Z := 13.
Definition EAFNOSUPPORT : Z := 97.
Definition EADDRINUSE : Z := 98.
Definition EADDRNOTAVAIL : Z := 99.
Definition ENETUNREACH : Z := 101.
Definition EISCONN : Z := 106.
Definition ECONNREFUSED : Z := 111.
Definition EALREADY : Z := 114.
Definition EINPROGRESS : Z := 115.

Module Connector.

Definition kMaxRetryDelayMs : Z := 30 * 1000.
Definition kInitRetryDelayMs : Z := 500.

Inductive States := kDisconnected | kConnecting | kConnected.

#[export] Instance States_eq_dec : EqDecision States.
Proof. solve_decision. Defined.

(** The functors that the connector puts into its loop. *)
Inductive task := StartInLoop | StopInLoop | ResetChannel.

#[export] Instance task_eq_dec : EqDecision task.
Proof. solve_decision. Defined.

Section Connector.
Context {L K : Type} `{CL : ChannelLoop L, SY : Sys K}.
Import SocketsOps.

(** [next_addr] is where the next [new Channel] is put, [loop_addr] the address of the
    loop. *)
Record t := mk {
  loop_ : L;
  sys_ : K;
  loop_addr : positive;
  serverAddr_ : sockaddr_in;
  connect_ : bool;
  state_ : States;
  channel_ : option Channel.t;
  retryDelayMs_ : Z;
  pending : list task;
  timers : list Z;
  handed : list Z;
  next_addr : positive
}.

Definition set_sys (k : K) (w : t) : t :=
  mk (loop_ w) k (loop_addr w) (serverAddr_ w) (connect_ w) (state_ w) (channel_ w) (retryDelayMs_ w)
    (pending w) (timers w) (handed w) (next_addr w).
Definition set_connect (b : bool) (w : t) : t :=
  mk (loop_ w) (sys_ w) (loop_addr w) (serverAddr_ w) b (state_ w) (channel_ w) (retryDelayMs_ w)
    (pending w) (timers w) (handed w) (next_addr w).
Definition setState (s : States) (w : t) : t :=
  mk (loop_ w) (sys_ w) (loop_addr w) (serverAddr_ w) (connect_ w) s (channel_ w) (retryDelayMs_ w)
    (pending w) (timers w) (handed w) (next_addr w).
Definition set_channel (l : L) (c : option Channel.t) (w : t) : t :=
  mk l (sys_ w) (loop_addr w) (serverAddr_ w) (connect_ w) (state_ w) c (retryDelayMs_ w)
    (pending w) (timers w) (handed w) (next_addr w).
Definition set_delay (d : Z) (w : t) : t :=
  mk (loop_ w) (sys_ w) (loop_addr w) (serverAddr_ w) (connect_ w) (state_ w) (channel_ w) d
    (pending w) (timers w) (handed w) (next_addr w).
Definition set_pending (q : list task) (w : t) : t :=
  mk (loop_ w) (sys_ w) (loop_addr w) (serverAddr_ w) (connect_ w) (state_ w) (channel_ w) (retryDelayMs_ w)
    q (timers w) (handed w) (next_addr w).
Definition set_timers (ts : list Z) (w : t) : t :=
  mk (loop_ w) (sys_ w) (loop_addr w) (serverAddr_ w) (connect_ w) (state_ w) (channel_ w) (retryDelayMs_ w)
    (pending w) ts (handed w) (next_addr w).
Definition newConnectionCallback_ (sockfd : Z) (w : t) : t :=
  mk (loop_ w) (sys_ w) (loop_addr w) (serverAddr_ w) (connect_ w) (state_ w) (channel_ w) (retryDelayMs_ w)
    (pending w) (timers w) (handed w ++ [sockfd]) (next_addr w).
Definition set_next_addr (a : positive) (w : t) : t :=
  mk (loop_ w) (sys_ w) (loop_addr w) (serverAddr_ w) (connect_ w) (state_ w) (channel_ w) (retryDelayMs_ w)
    (pending w) (timers w) (handed w) a.

Definition make (l : L) (k : K) (loop addr : positive) (serverAddr : sockaddr_in) : t :=
  mk l k loop serverAddr false kDisconnected None kInitRetryDelayMs [] [] [] addr.

(** The destructor. *)
Definition destroy : st t unit :=
  c ← gets channel_;
  lift (cassert (bool_decide (c = None))).

Definition kernel {A} (m : st K A) : st t A := zoom sys_ set_sys m.

Definition assertInLoopThread : st t unit := λ w,
  if isInLoopThread (loop_ w) then Ok ((), w) else Fault Fatal.

Definition queueInLoop (f : task) : st t unit := modify (λ w, set_pending (pending w ++ [f]) w).

(** A call on the channel; there must be one. *)
Definition on_channel (op : L → Channel.t → res (L * Channel.t)) : st t unit := λ w,
  match channel_ w with
  | Some c => '(l, c) ← op (loop_ w) c; Ok ((), set_channel l (Some c) w)
  | None => Fault UB
  end.

(** A log line of level INFO or above; the text is left out. *)
Definition LOG : st t unit := kernel LOG_SYSERR.

Definition retry (sockfd : Z) : st t unit :=
  _ ← kernel (close sockfd);
  _ ← modify (setState kDisconnected);
  connect ← gets connect_;
  if connect : bool then
    _ ← LOG;
    d ← gets retryDelayMs_;
    _ ← modify (λ w, set_timers (timers w ++ [d]) w);
    modify (set_delay (Z.min (d * 2) kMaxRetryDelayMs))
  else mret ().

Definition connecting (sockfd : Z) : st t unit :=
  _ ← modify (setState kConnecting);
  c ← gets channel_;
  _ ← lift (cassert (bool_decide (c = None)));
  a ← gets next_addr;
  loop ← gets loop_addr;
  _ ← modify (set_next_addr (Pos.succ a));
  _ ← modify (λ w, set_channel (loop_ w) (Some (Channel.make a loop sockfd)) w);
  on_channel ChannelOps.enableWriting.

(** The cases of the [switch]. *)
Definition in_progress (e : Z) : bool := (e =? 0) || (e =? EINPROGRESS) || (e =? EINTR) || (e =? EISCONN).
Definition may_retry (e : Z) : bool :=
  (e =? EAGAIN) || (e =? EADDRINUSE) || (e =? EADDRNOTAVAIL) || (e =? ECONNREFUSED) || (e =? ENETUNREACH).

Definition connect : st t unit :=
  addr ← gets serverAddr_;
  sockfd ← kernel (createNonblockingOrDie (InetAddress.family addr));
  ret ← kernel (SocketsOps.connect sockfd addr);
  e ← gets (errno ∘ sys_);
  let savedErrno := if ret =? 0 then 0 else e in
  if in_progress savedErrno then connecting sockfd
  else if may_retry savedErrno then retry sockfd
  else
    _ ← LOG;
    kernel (close sockfd).

Definition startInLoop : st t unit :=
  _ ← assertInLoopThread;
  s ← gets state_;
  _ ← lift (cassert (bool_decide (s = kDisconnected)));
  c ← gets connect_;
  if c : bool then connect else mret ().

(** [inLoop]: is the caller in the thread of the loop? *)
Definition start (inLoop : bool) : st t unit :=
  _ ← modify (set_connect true);
  if inLoop then startInLoop else queueInLoop StartInLoop.

Definition removeAndResetChannel : st t Z :=
  _ ← on_channel ChannelOps.disableAll;
  _ ← on_channel ChannelOps.remove;
  c ← gets channel_;
  c ← deref c;
  _ ← queueInLoop ResetChannel;
  mret (Channel.fd_ c).

(** Destroys the channel object, if any. *)
Definition resetChannel : st t unit := λ w,
  match channel_ w with
  | Some c => _ ← ChannelOps.destroy (loop_ w) c; Ok ((), set_channel (loop_ w) None w)
  | None => Ok ((), w)
  end.

Definition stopInLoop : st t unit :=
  _ ← assertInLoopThread;
  s ← gets state_;
  if bool_decide (s = kConnecting) then
    _ ← modify (setState kDisconnected);
    sockfd ← removeAndResetChannel;
    retry sockfd
  else mret ().

Definition stop : st t unit :=
  _ ← modify (set_connect false);
  queueInLoop StopInLoop.

Definition restart : st t unit :=
  _ ← assertInLoopThread;
  _ ← modify (setState kDisconnected);
  _ ← modify (set_delay kInitRetryDelayMs);
  _ ← modify (set_connect true);
  startInLoop.

Definition handleWrite : st t unit :=
  s ← gets state_;
  if bool_decide (s = kConnecting) then
    sockfd ← removeAndResetChannel;
    err ← kernel (getSocketError sockfd);
    if negb (err =? 0) then
      _ ← LOG;
      retry sockfd
    else
      self ← kernel (isSelfConnect sockfd);
      if self : bool then
        _ ← LOG;
        retry sockfd
      else
        _ ← modify (setState kConnected);
        connect ← gets connect_;
        if connect : bool then modify (newConnectionCallback_ sockfd) else kernel (close sockfd)
  else lift (cassert (bool_decide (s = kDisconnected))).

Definition handleError : st t unit :=
  _ ← LOG;
  s ← gets state_;
  if bool_decide (s = kConnecting) then
    sockfd ← removeAndResetChannel;
    _ ← kernel (getSocketError sockfd);
    retry sockfd
  else mret ().

(** ** What happens in the loop *)

Definition run_task (f : task) : st t unit :=
  match f with
  | StartInLoop => startInLoop
  | StopInLoop => stopInLoop
  | ResetChannel => resetChannel
  end.

(** The channel that is handling an event, in its owner. *)
Definition the_channel (w : t) : Channel.t := default (Channel.make 1 1 0) (channel_ w).
Definition put_channel (w : t) (c : Channel.t) : t := set_channel (loop_ w) (Some c) w.

Definition callback (m : st t unit) : option (t → res t) := Some (λ w, snd <$> m w).

(** The channel has a write and an error callback. *)
Definition handleEvent (receiveTime : Z) (w : t) : res t :=
  ChannelOps.handleEvent the_channel put_channel None (callback handleWrite) None (callback handleError)
    false receiveTime w.

Inductive event :=
  | Start (inLoop : bool)
  | Stop
  | Restart
  | RunFunctor
  | Alarm
  | Ready (revents : Z).

Definition run_event (e : event) : st t unit :=
  match e with
  | Start inLoop => start inLoop
  | Stop => stop
  | Restart => restart
  | RunFunctor =>
      q ← gets pending;
      match q with
      | [] => mret ()
      | f :: q' => _ ← modify (set_pending q'); run_task f
      end
  | Alarm =>
      ts ← gets timers;
      match ts with
      | [] => mret ()
      | _ :: ts' => _ ← modify (set_timers ts'); startInLoop
      end
  | Ready revents => λ w,
      w ← handleEvent 0 (put_channel w (Channel.set_revents (the_channel w) revents));
      Ok ((), w)
  end.

Fixpoint run_events (es : list event) : st t unit :=
  match es with
  | [] => mret ()
  | e :: es' => _ ← run_event e; run_events es'
  end.

End Connector.
#[global] Arguments t L K : clear implicits.
End Connector.

(** ** What the loop and the kernel promise *)

(** New channel objects come and unregistered ones go without the loop noticing. *)
Class ChannelLife (L : Type) (CL : ChannelLoop L) (CLL : ChannelLoopLaws L CL) := {
  loop_self : L → positive;
  self_update l c l' c' : updateChannel l c = Ok (l', c') → loop_self l' = loop_self l;
  self_remove l c l' c' : removeChannel l c = Ok (l', c') → loop_self l' = loop_self l;
  new_law l h a fd :
    loop_inv l h → h !! a = None → loop_inv l (<[a := Channel.make a (loop_self l) fd]> h);
  delete_law l h a c : loop_inv l h → h !! a = Some c → unregistered c → loop_inv l (delete a h);
  gone_law l h c0 c :
    isInLoopThread l = true → loop_inv l h → h !! Channel.addr c = Some c0 → same_registration c0 c →
    unregistered c → hasChannel l c = Ok false
}.

(** Which descriptors are open: socket(2) opens a new one, close(2) closes it, the other
    calls and the log leave them alone. *)
Class SysOpen (K : Type) (SY : Sys K) := {
  is_open : K → Z → Prop;
  socket_open family k fd k' :
    sys_socket family k = (fd, k') → 0 <= fd →
    ¬ is_open k fd ∧ ∀ d, is_open k' d ↔ d = fd ∨ is_open k d;
  close_open fd k d : is_open (sys_close fd k).2 d ↔ d ≠ fd ∧ is_open k d;
  log_open k d : is_open (log_line k) d ↔ is_open k d;
  fcntl_open fd cmd arg k d : is_open (sys_fcntl fd cmd arg k).2 d ↔ is_open k d;
  connect_open fd addr k d : is_open (sys_connect fd addr k).2 d ↔ is_open k d;
  so_error_open fd k d : is_open (sys_so_error fd k).2 d ↔ is_open k d;
  getsockname_open fd k d : is_open (sys_getsockname fd k).2 d ↔ is_open k d;
  getpeername_open fd k d : is_open (sys_getpeername fd k).2 d ↔ is_open k d
}.

Section LoopLife.
Import EventLoop.
Context `{EP : Epoll E, EL : !EpollLaws E EP, EV : Eventfd V} {F : Type}.

Lemma indexes_new {A} m h (f : Channel.t → option A) a c :
  indexes m h f → h !! a = None → f c = None → indexes m (<[a := c]> h) f.
Proof.
  intros Hi Ha Hf fd v. rewrite (Hi fd v). split; intros (b & d & Hb & Hd); exists b, d; split; [|done| |done].
  - rewrite lookup_insert_ne by congruence. done.
  - destruct (decide (b = a)) as [->|]; [|by rewrite lookup_insert_ne in Hb].
    rewrite lookup_insert_eq in Hb. destruct Hd as [_ Hd]. congruence.
Qed.

Lemma indexes_delete {A} m h (f : Channel.t → option A) a c :
  indexes m h f → h !! a = Some c → f c = None → indexes m (delete a h) f.
Proof.
  intros Hi Ha Hf fd v. rewrite (Hi fd v). split; intros (b & d & Hb & Hd); exists b, d; split; [|done| |done].
  - rewrite lookup_delete_ne; [done|]. intros <-. destruct Hd as [_ Hd]. congruence.
  - by apply lookup_delete_Some in Hb as [_ ?].
Qed.

Lemma poller_new p h c :
  poller_ok p h → h !! Channel.addr c = None → unregistered c → poller_ok p (<[Channel.addr c := c]> h).
Proof.
  intros [H1 H2 H3 H4] Ha Hu. pose proof (unregistered_None c Hu) as [Hr Hw]. split.
  - intros a d. rewrite lookup_insert_Some. intros [[<- <-]|[_ Hd]]; [done|by apply H1].
  - intros a d. rewrite lookup_insert_Some. intros [[<- <-]|[_ Hd]]; [by left|by eapply H2].
  - by apply indexes_new.
  - by apply indexes_new.
Qed.

Lemma poller_delete p h a c : poller_ok p h → h !! a = Some c → unregistered c → poller_ok p (delete a h).
Proof.
  intros [H1 H2 H3 H4] Ha Hu. pose proof (unregistered_None c Hu) as [Hr Hw]. split.
  - intros b d [_ Hd]%lookup_delete_Some. by apply H1.
  - intros b d [_ Hd]%lookup_delete_Some. by eapply H2.
  - by eapply indexes_delete.
  - by eapply indexes_delete.
Qed.

(** Every operation of the loop on channels keeps its address. *)
Lemma update_self (l : t E V F) c l' c' : updateChannel l c = Ok (l', c') → self l' = self l.
Proof.
  unfold updateChannel. destruct (cassert _); [|done]. destruct (assertInLoopThread l); [|done].
  cbn [mbind res_bind]. destruct (EPollPoller.updateChannel _ _) as [[]|]; [|done]. cbn. by intros [= <- _].
Qed.

Lemma remove_self (l : t E V F) c l' c' : removeChannel l c = Ok (l', c') → self l' = self l.
Proof.
  unfold removeChannel. destruct (cassert (bool_decide (_ = self l))); [|done]. destruct (assertInLoopThread l); [|done].
  cbn [mbind res_bind]. destruct (if eventHandling_ l then _ else _); [|done].
  cbn [mbind res_bind]. destruct (EPollPoller.removeChannel _ _) as [[]|]; [|done]. cbn. by intros [= <- _].
Qed.

#[export] Instance loop_life : ChannelLife (t E V F) loop_channels loop_laws.
Proof.
  refine {| loop_self := self |}.
  - intros l c l' c'. apply update_self.
  - intros l c l' c'. apply remove_self.
  - intros l h a fd [Hok Hown] Ha. split; [by apply (poller_new _ _ (Channel.make a (self l) fd))|].
    intros b d. rewrite lookup_insert_Some. intros [[<- <-]|[_ Hd]]; [done|by eapply Hown].
  - intros l h a c [Hok Hown] Ha Hu. split; [by eapply poller_delete|].
    intros b d [_ Hd]%lookup_delete_Some. by eapply Hown.
  - intros l h c0 c Hin [Hok Hown] Hc (Ha & Hl & Hf & Hi) Hu. cbn in Hin |- *. unfold hasChannel, assertInLoopThread.
    rewrite (bool_decide_true (Channel.loop_ c = self l)) by (rewrite <-Hl; by eapply Hown).
    rewrite Hin. cbn [cassert mbind res_bind mret res_ret]. f_equal. unfold EPollPoller.hasChannel.
    apply bool_decide_false. intros (b & d & Hd & _ & Hr)%(ok_channels _ _ Hok).
    unfold registered in Hr. destruct (Channel.index_ d =? EPollPoller.kNew) eqn:Ek; [done|].
    injection Hr as Hr. rewrite (ok_addr _ _ Hok _ _ Hd) in Hr. subst b. rewrite Hd in Hc. injection Hc as ->.
    unfold unregistered in Hu. rewrite Hi, Hu in Ek. done.
Defined.

End LoopLife.

Section ReactorLife.
Import EventLoop.
Context `{EP : Epoll E, EL : !EpollLaws E EP, EV : Eventfd V} {F : Type}.

#[export] Instance reactor_life : ChannelLife (Reactor.t E V F) Reactor.reactor_channels reactor_channel_laws.
Proof.
  refine {| loop_self r := self (Reactor.loop r) |}.
  - intros r c r' c'. cbn. unfold Reactor.lift. destruct (updateChannel _ _) as [[l c1]|] eqn:Eu; [|done].
    cbn. intros [= <- _]. by eapply update_self.
  - intros r c r' c'. cbn. unfold Reactor.lift. destruct (removeChannel _ _) as [[l c1]|] eqn:Eu; [|done].
    cbn. intros [= <- _]. by eapply remove_self.
  - intros r. exact (new_law (ChannelLife := loop_life) (Reactor.loop r)).
  - intros r. exact (delete_law (ChannelLife := loop_life) (Reactor.loop r)).
  - intros r. exact (gone_law (ChannelLife := loop_life) (Reactor.loop r)).
Defined.

End ReactorLife.

(** ** The invariant *)
Section Invariant.
Import Connector SocketsOps.
Context {L K : Type} `{CL : ChannelLoop L, CLL : !ChannelLoopLaws L CL, LI : !ChannelLife L CL CLL,
  SY : Sys K, SO : !SysOpen K SY}.
Implicit Types (w : Connector.t L K) (h : gmap positive Channel.t) (O : Z → Prop).

(** The loop's channels [h]: those that are registered have open descriptors. *)
Record env_ok w h : Prop := {
  env_inv : loop_inv (loop_ w) h;
  env_in : isInLoopThread (loop_ w) = true;
  env_self : loop_self (loop_ w) = loop_addr w;
  env_fresh a : (next_addr w <= a)%positive → h !! a = None;
  env_open a c : h !! a = Some c → ¬ unregistered c → is_open (sys_ w) (Channel.fd_ c)
}.

(** Descriptors: [O] were open at first, [fd] is the one in use. *)
Record common O (fd : option Z) w h : Prop := {
  com_env : env_ok w h;
  com_open d : is_open (sys_ w) d ↔ O d ∨ d ∈ handed w ∨ fd = Some d;
  com_own d : fd = Some d → ¬ O d ∧ d ∉ handed w;
  com_handed d : d ∈ handed w → ¬ O d;
  com_once : NoDup (handed w);
  com_delay : kInitRetryDelayMs <= retryDelayMs_ w <= kMaxRetryDelayMs;
  com_timers : Forall (λ d, kInitRetryDelayMs <= d <= kMaxRetryDelayMs) (timers w)
}.

Definition n_of (f : task) w : nat := length (filter (λ g, g = f) (pending w)).

(** The channel that waits for the connection, and one that waits to be destroyed;
    [eh]: is it handling an event? *)
Record live (eh : bool) (c : Channel.t) h : Prop := {
  live_in : ∃ c0, h !! Channel.addr c = Some c0 ∧ same_registration c0 c;
  live_reg : ¬ unregistered c;
  live_fd : fresh_fd h c;
  live_eh : Channel.eventHandling_ c = eh
}.

Record dead (eh : bool) (c : Channel.t) h : Prop := {
  dead_in : ∃ c0, h !! Channel.addr c = Some c0 ∧ same_registration c0 c;
  dead_reg : unregistered c;
  dead_out : Channel.addedToLoop_ c = false;
  dead_eh : Channel.eventHandling_ c = eh
}.

Definition gone (eh : bool) w h : Prop :=
  match channel_ w with
  | None => n_of ResetChannel w = 0%nat
  | Some c => n_of ResetChannel w = 1%nat ∧ dead eh c h
  end.

Definition starts w : nat := n_of StartInLoop w + length (timers w).

Definition sched (eh : bool) (fd : option Z) w h : Prop :=
  match state_ w with
  | kConnecting =>
      ∃ c, channel_ w = Some c ∧ fd = Some (Channel.fd_ c) ∧ live eh c h ∧
        starts w = 0%nat ∧ n_of ResetChannel w = 0%nat
  | s =>
      fd = None ∧ (starts w <= 1)%nat ∧ (s = kConnected → starts w = 0%nat) ∧ gone eh w h ∧
      (channel_ w = None ∨ n_of StartInLoop w = 0%nat)
  end.

Definition inv (eh : bool) O w : Prop := ∃ h fd, common O fd w h ∧ sched eh fd w h.

(** ** System calls *)

Lemma conn_kernel_run {A} (m : st K A) w x k : m (sys_ w) = Ok (x, k) → kernel m w = Ok (x, set_sys k w).
Proof. intros Hm. by apply zoom_Ok. Qed.

(** Calls that leave the descriptors alone. *)
Definition same_open (k k' : K) : Prop := ∀ d, is_open k' d ↔ is_open k d.

Definition quiet {A} (m : st K A) : Prop := ∀ k, ∃ x k', m k = Ok (x, k') ∧ same_open k k'.

Lemma quiet_ret {A} (x : A) : quiet (mret x).
Proof. intros k. by exists x, k. Qed.

Lemma quiet_gets {A} (f : K → A) : quiet (gets f).
Proof. intros k. by exists (f k), k. Qed.

Lemma quiet_bind {A B} (m : st K A) (f : A → st K B) : quiet m → (∀ x, quiet (f x)) → quiet (m ≫= f).
Proof.
  intros Hm Hf k. destruct (Hm k) as (x & k1 & E & H1). destruct (Hf x k1) as (y & k2 & E2 & H2).
  exists y, k2. split; [by rewrite (st_bind_run _ _ _ _ _ E)|]. intros d. by rewrite (H2 d).
Qed.

Lemma quiet_sys {A} (f : K → A * K) : (∀ k d, is_open (f k).2 d ↔ is_open k d) → quiet (sys f).
Proof. intros Hf k. exists (f k).1, (f k).2. split; [|exact (Hf k)]. unfold sys. by destruct (f k). Qed.

Lemma quiet_log : quiet LOG_SYSERR.
Proof. intros k. exists (), (log_line k). split; [done|]. exact (log_open k). Qed.

Lemma quiet_nonblock fd : quiet (setNonBlockAndCloseOnExec fd).
Proof.
  unfold setNonBlockAndCloseOnExec. repeat (apply quiet_bind; [apply quiet_sys; intros; apply fcntl_open|intros ?]).
  apply quiet_ret.
Qed.

Lemma quiet_getSocketError fd : quiet (getSocketError fd).
Proof.
  unfold getSocketError. apply quiet_bind; [apply quiet_sys; intros; apply so_error_open|]. intros [r v].
  destruct (r <? 0); [apply quiet_gets|apply quiet_ret].
Qed.

Lemma quiet_isSelfConnect fd : quiet (isSelfConnect fd).
Proof.
  unfold isSelfConnect, getLocalAddr, getPeerAddr.
  repeat (apply quiet_bind; [apply quiet_bind; [apply quiet_sys; intros; first [apply getsockname_open|apply getpeername_open]
    |intros [? ?]; apply quiet_ret]|intros ?]). apply quiet_ret.
Qed.

Lemma quiet_connect fd addr : quiet (SocketsOps.connect fd addr).
Proof. apply quiet_sys. intros. apply connect_open. Qed.

Lemma quiet_run {A} (m : st K A) w :
  quiet m → ∃ x k', kernel m w = Ok (x, set_sys k' w) ∧ same_open (sys_ w) k'.
Proof. intros Hm. destruct (Hm (sys_ w)) as (x & k' & E & Hs). exists x, k'. split; [by apply conn_kernel_run|done]. Qed.

Lemma close_run fd w :
  ∃ k', kernel (SocketsOps.close fd) w = Ok ((), set_sys k' w) ∧ ∀ d, is_open k' d ↔ d ≠ fd ∧ is_open (sys_ w) d.
Proof.
  pose proof (close_open fd (sys_ w)) as Hc. destruct (sys_close fd (sys_ w)) as [r k1] eqn:Es. cbn in Hc.
  assert (∃ k', SocketsOps.close fd (sys_ w) = Ok ((), k') ∧ same_open k1 k') as (k' & E & Hs).
  { unfold SocketsOps.close. rewrite run_sys, Es. cbn [fst snd]. destruct (r <? 0).
    - destruct (quiet_log k1) as ([] & k' & E & Hs). by exists k'.
    - by exists k1. }
  exists k'. split; [by apply conn_kernel_run|]. intros d. rewrite (Hs d). apply Hc.
Qed.

(** A quiet call keeps everything. *)
Lemma common_quiet O fd w h k :
  same_open (sys_ w) k → common O fd w h → common O fd (set_sys k w) h.
Proof.
  intros Hs [[E1 E2 E3 E4 E5] C2 C3 C4 C5 C6 C7]. split; try done.
  - split; try done. intros a c Hc Hu. cbn. apply Hs. by eapply E5.
  - intros d. cbn. rewrite (Hs d). apply C2.
Qed.

(** Closing the descriptor in use, once no registered channel has it. *)
Definition no_channel (fd : Z) h : Prop := ∀ a c, h !! a = Some c → Channel.fd_ c = fd → unregistered c.

Lemma common_close O fd w h k :
  common O (Some fd) w h → no_channel fd h → (∀ d, is_open k d ↔ d ≠ fd ∧ is_open (sys_ w) d) →
  common O None (set_sys k w) h.
Proof.
  intros [[E1 E2 E3 E4 E5] C2 C3 C4 C5 C6 C7] Hn Hk. destruct (C3 fd eq_refl) as [HO Hh]. split; try done.
  - split; try done. intros a c Hc Hu. cbn. apply Hk. split; [|by eapply E5].
    intros Hfd. destruct Hu. by eapply Hn.
  - intros d. cbn. rewrite Hk, C2. split.
    + intros (Hne & [?|[?|[= ->]]]); [by left|by right; left|done].
    + intros [?|[?|?]]; [..|done]; (split; [|by auto]); congruence.
Qed.

Definition retried (k : K) w : Connector.t L K :=
  let w := setState kDisconnected (set_sys k w) in
  if connect_ w then
    set_delay (Z.min (retryDelayMs_ w * 2) kMaxRetryDelayMs) (set_timers (timers w ++ [retryDelayMs_ w]) w)
  else w.

Lemma retry_run O fd w h :
  common O (Some fd) w h → no_channel fd h →
  ∃ k, retry fd w = Ok ((), retried k w) ∧ common O None (retried k w) h.
Proof.
  intros Hc Hn. unfold retry. destruct (close_run fd w) as (k1 & Ek & Hk).
  rewrite (st_bind_run _ _ _ _ _ Ek), run_modify, run_gets. pose proof (common_close _ _ _ _ _ Hc Hn Hk) as Hc1.
  unfold retried. cbn [connect_ setState set_sys]. destruct (connect_ w) eqn:Ec.
  - destruct (quiet_run LOG_SYSERR (setState kDisconnected (set_sys k1 w)) quiet_log) as ([] & k2 & E2 & H2).
    exists k2. unfold LOG. rewrite (st_bind_run _ _ _ _ _ E2), run_gets, run_modify. split; [done|].
    destruct (common_quiet O None (set_sys k1 w) h k2 H2 Hc1) as [[E1 E3 E4 E5 E6] C2 C3 C4 C5 C6 C7].
    split; try done. + unfold kMaxRetryDelayMs, kInitRetryDelayMs in *. cbn in *. lia.
    + apply Forall_app. split; [done|]. by apply Forall_singleton.
  - exists k1. split; [done|]. destruct Hc1 as [[E1 E3 E4 E5 E6] C2 C3 C4 C5 C6 C7]. by split.
Qed.

(** Calls on the channel. *)
Definition with_channel (l : L) (c : Channel.t) w : Connector.t L K := set_channel l (Some c) w.

Lemma same_registration_refl c : same_registration c c.
Proof. done. Qed.

Lemma on_channel_run op w c l c' :
  channel_ w = Some c → op (loop_ w) c = Ok (l, c') → on_channel op w = Ok ((), with_channel l c' w).
Proof. unfold on_channel. intros -> Hop. by rewrite Hop. Qed.

(** Unregistering the channel that is waited on. *)
Lemma remove_run O eh w h c :
  common O (Some (Channel.fd_ c)) w h → channel_ w = Some c → live eh c h → may_remove (loop_ w) c →
  ∃ l c' h', removeAndResetChannel w = Ok (Channel.fd_ c, set_pending (pending w ++ [ResetChannel]) (with_channel l c' w)) ∧
    common O (Some (Channel.fd_ c)) (with_channel l c' w) h' ∧ no_channel (Channel.fd_ c) h' ∧
    dead eh c' h'.
Proof.
  intros Hc Hch Hl Hm. destruct Hc as [[E1 E2 E3 E4 E5] C2 C3 C4 C5 C6 C7]. destruct Hl as [(c0 & Hc0 & Hs) Hr Hf He].
  set (c1 := Channel.set_addedToLoop (Channel.set_events c Channel.kNoneEvent) true).
  destruct (update_spec (loop_ w) h c0 c1 E2 E1 Hc0 Hs Hf) as (l1 & c2 & Hu & Ec2 & Hr2 & Hin & Hinv & Hmay).
  pose proof (self_update _ _ _ _ Hu) as Hself.
  assert (h_1 : <[Channel.addr c := c2]> h !! Channel.addr c2 = Some c2).
  { rewrite Ec2. apply lookup_insert_eq. }
  set (c3 := Channel.set_addedToLoop c2 false).
  assert (Channel.isNoneEvent c2 = true) as Hnone by (rewrite Ec2; done).
  assert (may_remove l1 c3) as Hm3.
  { eapply may_remove_addr; [|by apply Hmay]. unfold c3. rewrite Ec2. done. }
  destruct (remove_spec l1 (<[Channel.addr c := c2]> h) c2 c3 Hin Hinv h_1 (same_registration_refl c2) Hr2 Hnone Hm3)
    as (l2 & Hrm & Hin2 & Hinv2).
  pose proof (self_remove _ _ _ _ Hrm) as Hself2.
  exists l2, (Channel.set_index c3 (-1)), (<[Channel.addr c3 := Channel.set_index c3 (-1)]> (<[Channel.addr c := c2]> h)).
  assert (Channel.addr c3 = Channel.addr c) as Ea3 by (unfold c3; rewrite Ec2; done).
  assert (Channel.fd_ c3 = Channel.fd_ c) as Ef3 by (unfold c3; rewrite Ec2; done).
  split_and!.
  - unfold removeAndResetChannel. rewrite (st_bind_run _ _ _ _ _ (on_channel_run ChannelOps.disableAll w c _ _ Hch Hu)).
    assert (ChannelOps.remove l1 c2 = Ok (l2, Channel.set_index c3 (-1))) as Hrem.
    { unfold ChannelOps.remove. rewrite Hnone. exact Hrm. }
    rewrite (st_bind_run _ _ _ _ _ (on_channel_run ChannelOps.remove (with_channel l1 c2 w) c2 _ _ eq_refl Hrem)).
    rewrite run_gets. cbn [channel_ with_channel set_channel]. rewrite run_some. unfold queueInLoop. rewrite run_modify.
    rewrite <-Ef3. reflexivity.
  - rewrite Ea3, insert_insert_eq. split; try done. split; try done.
    + by rewrite Ea3, insert_insert_eq in Hinv2.
    + cbn. rewrite Hself2, Hself. done.
    + intros a Ha. cbn in Ha. rewrite lookup_insert_ne; [by apply E4|]. intros <-. pose proof (E4 _ Ha) as Hn. cbn in Hc0. by rewrite Hn in Hc0.
    + intros a d. cbn. rewrite lookup_insert_Some. intros [[<- <-]|[_ Hd]]; [by intros []|]. by eapply E5.
  - rewrite Ea3, insert_insert_eq. intros a d. rewrite lookup_insert_Some. intros [[<- <-]|[Hne Hd]] Hfd; [done|].
    eapply (Hf a); [done|done|by apply not_eq_sym].
  - rewrite Ea3, insert_insert_eq. split; try done.
    + exists (Channel.set_index c3 (-1)). change (Channel.addr (Channel.set_index c3 (-1))) with (Channel.addr c3).
      by rewrite Ea3, lookup_insert_eq.
    + cbn. unfold c3. rewrite Ec2. done.
Qed.

(** Waiting for the new socket. *)
Lemma connecting_run O fd w h :
  common O (Some fd) w h → no_channel fd h → channel_ w = None →
  ∃ l c h', connecting fd w = Ok ((), with_channel l c (set_next_addr (Pos.succ (next_addr w)) (setState kConnecting w))) ∧
    Channel.fd_ c = fd ∧
    common O (Some fd) (with_channel l c (set_next_addr (Pos.succ (next_addr w)) (setState kConnecting w))) h' ∧
    live false c h'.
Proof.
  intros [[E1 E2 E3 E4 E5] C2 C3 C4 C5 C6 C7] Hn Hch. set (a := next_addr w) in *.
  set (c0 := Channel.make a (loop_addr w) fd).
  assert (h !! a = None) as Ha by (apply E4; lia).
  pose proof (new_law _ _ a fd E1 Ha) as Hinv. rewrite E3 in Hinv. fold c0 in Hinv.
  set (c1 := Channel.set_addedToLoop (Channel.set_events c0 (Z.lor (Channel.events_ c0) Channel.kWriteEvent)) true).
  assert (fresh_fd (<[a := c0]> h) c1) as Hf.
  { intros b d. rewrite lookup_insert_Some. intros [[<- <-]|[_ Hd]] Hfd Hne; [done|]. by eapply Hn. }
  destruct (update_spec (loop_ w) (<[a := c0]> h) c0 c1 E2 Hinv (lookup_insert_eq _ _ _) ltac:(done) Hf)
    as (l & c & Hu & Ec & Hr & Hin & Hinv' & _).
  change (Channel.addr c1) with a in Hinv'. rewrite insert_insert_eq in Hinv'.
  exists l, c, (<[a := c]> h).
  assert (Channel.addr c = a ∧ Channel.fd_ c = fd ∧ Channel.eventHandling_ c = false) as (Eca & Ecf & Ece)
    by (rewrite Ec; done).
  split_and!; [|done| |].
  - unfold connecting. rewrite run_modify, run_gets. cbn [channel_ setState]. rewrite Hch.
    change (lift (cassert (bool_decide (None = None)))) with (@lift (Connector.t L K) unit (Ok ())).
    rewrite (st_bind_run (lift (Ok ())) _ _ _ _ eq_refl), !run_gets, !run_modify.
    exact (on_channel_run ChannelOps.enableWriting (with_channel (loop_ w) c0 (set_next_addr (Pos.succ a) (setState kConnecting w)))
      c0 l c eq_refl Hu).
  - split; try done. split; try done.
    + cbn. rewrite (self_update _ _ _ _ Hu). done.
    + intros b Hb. cbn in Hb. rewrite lookup_insert_ne by lia. apply E4. fold a. lia.
    + intros b d. cbn. rewrite lookup_insert_Some. intros [[<- <-]|[_ Hd]] Hud; [|by eapply E5].
      apply C2. rewrite Ecf. by right; right.
  - split; [|done| |done].
    + exists c. rewrite Eca, lookup_insert_eq. done.
    + intros b d. rewrite lookup_insert_Some, Eca. intros [[<- <-]|[_ Hd]] Hfd Hne; [done|]. rewrite Ecf in Hfd. by eapply Hn.
Qed.

Definition no_descriptor w : Prop := (sys_socket (InetAddress.family (serverAddr_ w)) (sys_ w)).1 < 0.

(** A new descriptor. *)
Lemma socket_run O w h :
  common O None w h →
  (no_descriptor w ∧ kernel (createNonblockingOrDie (InetAddress.family (serverAddr_ w))) w = Fault Fatal) ∨
  ∃ fd k, kernel (createNonblockingOrDie (InetAddress.family (serverAddr_ w))) w = Ok (fd, set_sys k w) ∧
    common O (Some fd) (set_sys k w) h ∧ no_channel fd h.
Proof.
  intros [[E1 E2 E3 E4 E5] C2 C3 C4 C5 C6 C7]. unfold no_descriptor, kernel, zoom, createNonblockingOrDie.
  rewrite run_sys. destruct (sys_socket _ (sys_ w)) as [fd k1] eqn:Es. cbn [fst snd].
  destruct (fd <? 0) eqn:Ef; [left; split; [lia|done]|]. right.
  destruct (socket_open _ _ _ _ Es ltac:(lia)) as [Hnew Hk1].
  destruct (quiet_nonblock fd k1) as ([] & k & E & Hs). exists fd, k. rewrite (st_bind_run _ _ _ _ _ E).
  split; [done|]. split.
  - split; try done.
    + split; try done. intros a c Hc Hu. cbn. apply Hs, Hk1. right. by eapply E5.
    + intros d. cbn. rewrite (Hs d), Hk1, C2. split.
      * intros [->|[?|[?|?]]]; by auto.
      * intros [?|[?|[= ->]]]; by auto.
    + intros d [= <-]. split; intros ?; apply Hnew, C2; by auto.
  - intros a c Hc Hfd. destruct (decide (unregistered c)) as [|Hu]; [done|]. destruct Hnew. rewrite <-Hfd. by eapply E5.
Qed.

(** Where a start may run: nothing else of the connector is under way. *)
Definition at_start w : Prop :=
  state_ w = kDisconnected ∧ channel_ w = None ∧ starts w = 0%nat ∧ n_of ResetChannel w = 0%nat.

Lemma connect_inv O w h :
  common O None w h → at_start w →
  (∃ w', Connector.connect w = Ok ((), w') ∧ inv false O w') ∨ (Connector.connect w = Fault Fatal ∧ no_descriptor w).
Proof.
  intros Hc (Hst & Hch & Hs & Hr). unfold Connector.connect. rewrite run_gets.
  destruct (socket_run O w h Hc) as [[Hno E]|(fd & k & E & Hc1 & Hn)].
  { right. split; [|done]. unfold mbind at 1, st_bind. by rewrite E. }
  left. rewrite (st_bind_run _ _ _ _ _ E). clear E.
  destruct (quiet_run (SocketsOps.connect fd (serverAddr_ w)) (set_sys k w) (quiet_connect _ _)) as (ret & k2 & E & Hk2).
  rewrite (st_bind_run _ _ _ _ _ E), run_gets. clear E.
  pose proof (common_quiet _ _ _ _ _ Hk2 Hc1) as Hc2. change (set_sys k2 (set_sys k w)) with (set_sys k2 w) in *.
  match goal with |- context [in_progress ?e] => destruct (in_progress e); [|destruct (may_retry e)] end.
  - destruct (connecting_run O fd (set_sys k2 w) h Hc2 Hn Hch) as (l & c & h' & E & Hfd & Hc' & Hl).
    rewrite E. eexists. split; [done|]. exists h', (Some fd). split; [done|]. exists c. rewrite Hfd. by split_and!.
  - destruct (retry_run O fd (set_sys k2 w) h Hc2 Hn) as (k3 & E & Hc3). rewrite E. eexists. split; [done|].
    exists h, None. split; [done|]. unfold sched, retried. cbn. destruct (connect_ w); cbn; unfold gone, starts, n_of; cbn;
      rewrite Hch; unfold starts, n_of in Hs, Hr; rewrite ?length_app; cbn; split_and!; done || lia || by left.
  - destruct (quiet_run LOG_SYSERR (set_sys k2 w) quiet_log) as ([] & k3 & E & Hk3). unfold LOG.
    rewrite (st_bind_run _ _ _ _ _ E). clear E. pose proof (common_quiet _ _ _ _ _ Hk3 Hc2) as Hc3.
    destruct (close_run fd (set_sys k3 (set_sys k2 w))) as (k4 & E & Hk4). rewrite E. eexists. split; [done|].
    exists h, None. split; [by apply (common_close O fd)|]. unfold sched. cbn. rewrite Hst. unfold gone. cbn. rewrite Hch.
    unfold starts, n_of in *. cbn. split_and!; done || lia || by left.
Qed.

(** ** The steps *)

Lemma common_same O fd w w' h :
  loop_ w' = loop_ w → sys_ w' = sys_ w → loop_addr w' = loop_addr w → handed w' = handed w →
  next_addr w' = next_addr w → kInitRetryDelayMs <= retryDelayMs_ w' <= kMaxRetryDelayMs → timers w' ⊆ timers w →
  common O fd w h → common O fd w' h.
Proof.
  intros Hl Hs Ha Hh Hn Hd Ht [[E1 E2 E3 E4 E5] C2 C3 C4 C5 C6 C7].
  split; [split|..]; rewrite ?Hl, ?Hs, ?Ha, ?Hh, ?Hn; try done.
  rewrite Forall_forall in *. intros d Hd'. by apply C7, Ht.
Qed.

Ltac dec_tasks := repeat first [rewrite decide_True by done|rewrite decide_False by done].

Lemma n_of_app f g w w' :
  pending w' = pending w ++ [g] → n_of f w' = (n_of f w + if decide (g = f) then 1 else 0)%nat.
Proof. unfold n_of. intros ->. rewrite filter_app, length_app. f_equal. cbn. by destruct (decide (g = f)). Qed.

Lemma n_of_cons f g q w w' :
  pending w = g :: q → pending w' = q → n_of f w = ((if decide (g = f) then 1 else 0) + n_of f w')%nat.
Proof. unfold n_of. intros -> ->. cbn. by destruct (decide (g = f)). Qed.

Lemma assert_run b w : b = true → State.lift (cassert b) w = Ok ((), w).
Proof. by intros ->. Qed.

Lemma startInLoop_inv O w h :
  common O None w h → at_start w →
  (∃ w', startInLoop w = Ok ((), w') ∧ inv false O w') ∨ (startInLoop w = Fault Fatal ∧ no_descriptor w).
Proof.
  intros Hc Hs. unfold startInLoop.
  assert (assertInLoopThread w = Ok ((), w)) as Ea by (unfold assertInLoopThread; by rewrite (env_in _ _ (com_env _ _ _ _ Hc))).
  rewrite (st_bind_run _ _ _ _ _ Ea), run_gets. destruct Hs as (Hst & Hch & Hs & Hr). rewrite Hst.
  rewrite (st_bind_run _ _ _ _ _ (assert_run _ w (bool_decide_true (kDisconnected = kDisconnected) eq_refl))), run_gets.
  destruct (connect_ w); [by apply (connect_inv O w h)|]. left. exists w. split; [done|]. exists h, None. split; [done|].
  unfold sched. rewrite Hst. unfold gone. rewrite Hch. split_and!; done || lia || by left.
Qed.

(** What the environment must respect: [start] is not called while the connector is
    under way, [restart] is called for a connection that was handed over, an alarm is
    half a second or more after the functors queued before it, an event comes from the
    registered channel. *)
Definition legal (e : event) w : Prop :=
  match e with
  | Start _ => state_ w = kDisconnected ∧ channel_ w = None ∧ starts w = 0%nat
  | Stop => True
  | Restart => state_ w = kConnected ∧ n_of ResetChannel w = 0%nat
  | RunFunctor => ∀ c, channel_ w = Some c → may_remove (loop_ w) c
  | Alarm => n_of ResetChannel w = 0%nat
  | Ready _ => state_ w = kConnecting ∧ ∀ c, channel_ w = Some c → may_remove (loop_ w) c
  end.

Definition outcome O w (r : res (unit * Connector.t L K)) : Prop :=
  (∃ w', r = Ok ((), w') ∧ inv false O w') ∨ (r = Fault Fatal ∧ no_descriptor w).

Lemma start_inv_client O b w : inv false O w → legal (Start b) w → outcome O w (run_event (Start b) w).
Proof.
  intros (h & fd & Hc & Hs) (Hst & Hch & H0). unfold sched in Hs. rewrite Hst in Hs. destruct Hs as (-> & _ & _ & Hg & _).
  unfold gone in Hg. rewrite Hch in Hg. cbn [run_event]. unfold start. rewrite run_modify. destruct b.
  - apply (startInLoop_inv O (set_connect true w) h); [by apply (common_same O None w); destruct Hc|done].
  - left. eexists. split; [reflexivity|]. exists h, None. split; [by apply (common_same O None w); destruct Hc|].
    match goal with |- sched _ _ ?w' _ => pose proof (λ f, n_of_app f StartInLoop w w' eq_refl) as Hn end.
    unfold sched. cbn [state_ set_pending set_connect]. rewrite Hst. unfold gone, starts in *.
    cbn [channel_ set_pending set_connect timers]. rewrite Hch, !Hn. dec_tasks.
    split_and!; done || lia || by left.
Qed.

Lemma stop_inv O w : inv false O w → outcome O w (run_event Stop w).
Proof.
  intros (h & fd & Hc & Hs). left. eexists. split; [reflexivity|]. exists h, fd.
  split; [by apply (common_same O fd w); destruct Hc|].
  match goal with |- sched _ _ ?w' _ => pose proof (λ f, n_of_app f StopInLoop w w' eq_refl) as Hn end.
  unfold sched, gone, starts in *. rewrite !Hn. dec_tasks. rewrite !Nat.add_0_r. exact Hs.
Qed.

Lemma restart_inv O w : inv false O w → legal Restart w → outcome O w (run_event Restart w).
Proof.
  intros (h & fd & Hc & Hs) (Hst & Hr). unfold sched in Hs. rewrite Hst in Hs. destruct Hs as (-> & _ & H0 & Hg & _).
  cbn [run_event]. unfold restart.
  assert (assertInLoopThread w = Ok ((), w)) as Ea by (unfold assertInLoopThread; by rewrite (env_in _ _ (com_env _ _ _ _ Hc))).
  rewrite (st_bind_run _ _ _ _ _ Ea), !run_modify.
  apply (startInLoop_inv O (set_connect true (set_delay kInitRetryDelayMs (setState kDisconnected w))) h).
  - apply (common_same O None w); done.
  - unfold gone in Hg. destruct (channel_ w) eqn:Ech; [lia|]. split_and!; [done|done|by apply H0|done].
Qed.

Lemma alarm_inv O w : inv false O w → legal Alarm w → outcome O w (run_event Alarm w).
Proof.
  intros (h & fd & Hc & Hs) Hr. cbn in Hr. unfold outcome. cbn [run_event]. rewrite run_gets.
  destruct (timers w) as [|d ts] eqn:Et.
  { left. exists w. split; [done|]. by exists h, fd. }
  rewrite run_modify. unfold sched, starts in Hs. rewrite Et in Hs. cbn [length] in Hs.
  destruct (state_ w) eqn:Est; [|destruct Hs as (c & _ & _ & _ & ? & _); lia|destruct Hs as (_ & _ & H0 & _); specialize (H0 eq_refl); lia].
  destruct Hs as (-> & H1 & _ & Hg & _). unfold gone in Hg. destruct (channel_ w) eqn:Ech; [lia|].
  apply (startInLoop_inv O (set_timers ts w) h).
  - apply (common_same O None w); try done; [apply Hc|]. cbn. rewrite Et. set_solver.
  - split_and!; [done|done| |done]. unfold starts. cbn [timers set_timers]. change (n_of StartInLoop (set_timers ts w)) with (n_of StartInLoop w). lia.
Qed.

(** The channel is unregistered and its descriptor in hand. *)
Record released (eh : bool) O (fd : Z) w : Prop := {
  rel_heap : ∃ h c, common O (Some fd) w h ∧ no_channel fd h ∧ channel_ w = Some c ∧ dead eh c h;
  rel_starts : starts w = 0%nat;
  rel_reset : n_of ResetChannel w = 1%nat
}.

Lemma released_quiet eh O fd w k : same_open (sys_ w) k → released eh O fd w → released eh O fd (set_sys k w).
Proof. intros Hs [(h & c & Hc & ?) ? ?]. split; [|done..]. exists h, c. split; [by apply common_quiet|done]. Qed.

Lemma released_close eh O fd w k s :
  released eh O fd w → (∀ d, is_open k d ↔ d ≠ fd ∧ is_open (sys_ w) d) → s ≠ kConnecting →
  inv eh O (setState s (set_sys k w)).
Proof.
  intros [(h & c & Hc & Hn & Hch & Hd) H0 Hr] Hk Hs. exists h, None.
  split; [apply (common_same O None (set_sys k w)); try done; [apply Hc|]; by apply (common_close O fd)|].
  unfold sched. cbn [state_ setState]. unfold gone. cbn [channel_ setState set_sys]. rewrite Hch.
  change (starts (setState s (set_sys k w))) with (starts w). change (n_of ?f (setState s (set_sys k w))) with (n_of f w).
  unfold starts in *. destruct s; [|done|]; split_and!; done || lia || (right; lia).
Qed.

Lemma released_retry eh O fd w :
  released eh O fd w → ∃ w', retry fd w = Ok ((), w') ∧ inv eh O w' ∧ state_ w' = kDisconnected ∧ is_Some (channel_ w').
Proof.
  intros [(h & c & Hc & Hn & Hch & Hd) H0 Hr]. destruct (retry_run O fd w h Hc Hn) as (k & E & Hc').
  exists (retried k w). split_and!; [done| | |]; unfold retried in *; cbn [connect_ setState set_sys] in *.
  - exists h, None. split; [done|]. unfold sched, gone, starts, n_of in *. destruct (connect_ w); cbn; rewrite Hch, ?length_app; cbn;
      split_and!; done || lia || (right; lia).
  - by destruct (connect_ w).
  - destruct (connect_ w); cbn; by rewrite Hch.
Qed.

(** The connector that waits for a connection gives its channel up. *)
Definition waiting (eh : bool) O w : Prop :=
  ∃ h c, common O (Some (Channel.fd_ c)) w h ∧ channel_ w = Some c ∧ live eh c h ∧ starts w = 0%nat ∧
    n_of ResetChannel w = 0%nat ∧ may_remove (loop_ w) c.

Lemma inv_waiting eh O w :
  inv eh O w → state_ w = kConnecting → (∀ c, channel_ w = Some c → may_remove (loop_ w) c) → waiting eh O w.
Proof.
  intros (h & fd & Hc & Hs) Hst Hm. unfold sched in Hs. rewrite Hst in Hs.
  destruct Hs as (c & Hch & -> & Hl & H0 & Hr). exists h, c. split_and!; auto.
Qed.

Lemma release eh O w :
  waiting eh O w → ∃ fd w', removeAndResetChannel w = Ok (fd, w') ∧ released eh O fd w' ∧ connect_ w' = connect_ w.
Proof.
  intros (h & c & Hc & Hch & Hl & H0 & Hr & Hm).
  destruct (remove_run O eh w h c Hc Hch Hl Hm) as (l & c' & h' & E & Hc' & Hn & Hd).
  eexists _, _. split; [exact E|]. split; [|done].
  match goal with |- released _ _ _ ?w' => pose proof (λ f, n_of_app f ResetChannel w w' eq_refl) as Hna end.
  split; [|unfold starts in *; rewrite Hna; cbn [timers set_pending with_channel set_channel]; dec_tasks; lia|rewrite Hna; dec_tasks; lia].
  exists h', c'. split_and!; [|done..]. apply (common_same O _ (with_channel l c' w)); done || apply Hc'.
Qed.

Lemma stopInLoop_inv O w :
  inv false O w → (∀ c, channel_ w = Some c → may_remove (loop_ w) c) →
  ∃ w', stopInLoop w = Ok ((), w') ∧ inv false O w'.
Proof.
  intros Hi Hm. unfold stopInLoop.
  assert (assertInLoopThread w = Ok ((), w)) as Ea.
  { destruct Hi as (h & fd & Hc & _). unfold assertInLoopThread. by rewrite (env_in _ _ (com_env _ _ _ _ Hc)). }
  rewrite (st_bind_run _ _ _ _ _ Ea), run_gets. case_bool_decide as Hst; [|by exists w].
  destruct (inv_waiting false O w Hi Hst Hm) as (h & c & Hc & Hw).
  assert (waiting false O (setState kDisconnected w)) as Hw'.
  { exists h, c. split; [|done]. apply (common_same O _ w); done || apply Hc. }
  rewrite run_modify. destruct (release _ _ _ Hw') as (fd & w1 & E & Hr & _). rewrite (st_bind_run _ _ _ _ _ E).
  destruct (released_retry _ _ _ _ Hr) as (w2 & E2 & Hi2 & _). by exists w2.
Qed.

Lemma resetChannel_inv O w h :
  common O None w h → state_ w ≠ kConnecting → (starts w <= 1)%nat → (state_ w = kConnected → starts w = 0%nat) →
  (channel_ w = None ∨ n_of StartInLoop w = 0%nat) → n_of ResetChannel w = 0%nat →
  (∀ c, channel_ w = Some c → dead false c h) →
  ∃ w', resetChannel w = Ok ((), w') ∧ inv false O w'.
Proof.
  intros Hc Hst H1 H0 Hor Hr Hd. unfold resetChannel. destruct (channel_ w) as [c|] eqn:Ech.
  - destruct (Hd c eq_refl) as [(c0 & Hc0 & Hs) Hu Hout Heh]. destruct Hc as [[E1 E2 E3 E4 E5] C2 C3 C4 C5 C6 C7].
    unfold ChannelOps.destroy. rewrite Heh, Hout, E2. change (cassert (negb false)) with (Ok ()).
    cbn [mbind res_bind]. rewrite (gone_law _ _ _ _ E2 E1 Hc0 Hs Hu). cbn [mbind res_bind]. change (cassert (negb false)) with (Ok ()).
    eexists. split; [reflexivity|]. exists (delete (Channel.addr c) h), None. split.
    + split; try done. split; try done.
      * cbn. eapply delete_law; [done|exact Hc0|]. destruct Hs as (_ & _ & _ & Hi). unfold unregistered in *. congruence.
      * intros a Ha. rewrite lookup_delete_None. right. by apply E4.
      * intros a d [_ Ha]%lookup_delete_Some. cbn. by eapply E5.
    + unfold sched, gone. cbn. unfold starts, n_of in *. cbn. destruct (state_ w); [|done|]; split_and!; done || lia || (by left) || auto.
  - exists w. split; [done|]. exists h, None. split; [done|]. unfold sched, gone. rewrite Ech.
    destruct (state_ w); [|done|]; split_and!; done || (by left) || auto.
Qed.

Lemma connector_functor_inv O w : inv false O w → legal RunFunctor w → outcome O w (run_event RunFunctor w).
Proof.
  intros Hi Hm. cbn in Hm. unfold outcome. cbn [run_event]. rewrite run_gets. destruct (pending w) as [|f q] eqn:Eq.
  { left. by exists w. }
  rewrite run_modify. pose proof (λ g, n_of_cons g f q w (set_pending q w) Eq eq_refl) as Hn.
  destruct Hi as (h & fd & Hc & Hs). assert (common O fd (set_pending q w) h) as Hc'.
  { apply (common_same O _ w); done || apply Hc. }
  set (w1 := set_pending q w) in *. unfold sched, gone, starts in Hs. rewrite !Hn in Hs. destruct f; cbn [run_task].
  - revert Hs. dec_tasks. intros Hs.
    destruct (state_ w) eqn:Est; [|destruct Hs as (c & _ & _ & _ & ? & _); lia|destruct Hs as (_ & _ & H0 & _); specialize (H0 eq_refl); lia].
    destruct Hs as (-> & H1 & _ & Hg & [Hch|]); [|lia]. rewrite Hch in Hg.
    apply (startInLoop_inv O w1 h Hc'). split_and!; [done|done| |lia]. unfold starts. change (timers w1) with (timers w). lia.
  - left. apply stopInLoop_inv; [|done]. exists h, fd. split; [done|]. unfold sched, gone, starts. revert Hs. dec_tasks. done.
  - left. revert Hs. dec_tasks. intros Hs.
    assert (state_ w ≠ kConnecting) as Hst. { intros Est. rewrite Est in Hs. destruct Hs as (c & _ & _ & _ & _ & ?). lia. }
    assert (fd = None ∧ (starts w1 <= 1)%nat ∧ (state_ w = kConnected → starts w1 = 0%nat) ∧
      match channel_ w with None => (1 + n_of ResetChannel w1)%nat = 0%nat | Some c => (1 + n_of ResetChannel w1)%nat = 1%nat ∧ dead false c h end ∧
      (channel_ w = None ∨ n_of StartInLoop w1 = 0%nat)) as (-> & H1 & H0 & Hg & Hor).
    { unfold starts. change (timers w1) with (timers w). by destruct (state_ w). }
    apply (resetChannel_inv O w1 h); try done.
    + destruct (channel_ w); lia.
    + intros c Hch. change (channel_ w1) with (channel_ w) in Hch. rewrite Hch in Hg. apply Hg.
Qed.

(** ** Events of the channel *)

Definition evt O w : Prop :=
  inv true O w ∧ is_Some (channel_ w) ∧ state_ w ≠ kConnected ∧
  (state_ w = kConnecting → ∀ c, channel_ w = Some c → may_remove (loop_ w) c).

Lemma connector_log_run w : ∃ k, LOG w = Ok ((), set_sys k w) ∧ same_open (sys_ w) k.
Proof. destruct (quiet_run LOG_SYSERR w quiet_log) as ([] & k & E & Hs). by exists k. Qed.

Lemma inv_quiet eh O w k : same_open (sys_ w) k → inv eh O w → inv eh O (set_sys k w).
Proof. intros Hs (h & fd & Hc & Hsc). exists h, fd. split; [by apply common_quiet|done]. Qed.

Lemma handleError_evt O w : evt O w → ∃ w', handleError w = Ok ((), w') ∧ evt O w'.
Proof.
  intros (Hi & Hch & Hst & Hm). unfold handleError. destruct (connector_log_run w) as (k & E & Hk).
  rewrite (st_bind_run _ _ _ _ _ E), run_gets. apply (inv_quiet _ _ _ _ Hk) in Hi. cbn [state_ set_sys].
  case_bool_decide as Hs; [|by exists (set_sys k w)].
  destruct (release true O (set_sys k w) (inv_waiting _ _ (set_sys k w) Hi Hs (Hm Hs))) as (fd & w1 & E1 & Hr & _).
  rewrite (st_bind_run _ _ _ _ _ E1).
  destruct (quiet_run (getSocketError fd) w1 (quiet_getSocketError fd)) as (e & k2 & E2 & Hk2).
  rewrite (st_bind_run _ _ _ _ _ E2).
  destruct (released_retry _ _ _ _ (released_quiet _ _ _ _ _ Hk2 Hr)) as (w2 & E3 & Hi2 & Hs2 & Hc2).
  exists w2. split; [done|]. split_and!; [done|done|by rewrite Hs2|by rewrite Hs2].
Qed.

Lemma handleWrite_evt O w : evt O w → ∃ w', handleWrite w = Ok ((), w') ∧ inv true O w' ∧ is_Some (channel_ w').
Proof.
  intros (Hi & Hch & Hst & Hm). unfold handleWrite. rewrite run_gets. case_bool_decide as Hs.
  2:{ exists w. split; [|done]. apply assert_run, bool_decide_true. by destruct (state_ w). }
  destruct (release true O w (inv_waiting _ _ _ Hi Hs (Hm Hs))) as (fd & w1 & E1 & Hr & _).
  rewrite (st_bind_run _ _ _ _ _ E1).
  destruct (quiet_run (getSocketError fd) w1 (quiet_getSocketError fd)) as (e & k2 & E2 & Hk2).
  rewrite (st_bind_run _ _ _ _ _ E2). apply (released_quiet _ _ _ _ _ Hk2) in Hr.
  set (w2 := set_sys k2 w1) in *. clearbody w2. clear E2 Hk2 E1. destruct (negb (e =? 0)).
  { destruct (connector_log_run w2) as (k3 & E3 & Hk3). rewrite (st_bind_run _ _ _ _ _ E3).
    destruct (released_retry _ _ _ _ (released_quiet _ _ _ _ _ Hk3 Hr)) as (w3 & E4 & Hi3 & _ & ?). by exists w3. }
  destruct (quiet_run (isSelfConnect fd) w2 (quiet_isSelfConnect fd)) as (self & k3 & E3 & Hk3).
  rewrite (st_bind_run _ _ _ _ _ E3). apply (released_quiet _ _ _ _ _ Hk3) in Hr.
  set (w3 := set_sys k3 w2) in *. clearbody w3. clear E3 Hk3. destruct self.
  { destruct (connector_log_run w3) as (k4 & E4 & Hk4). rewrite (st_bind_run _ _ _ _ _ E4).
    destruct (released_retry _ _ _ _ (released_quiet _ _ _ _ _ Hk4 Hr)) as (w4 & E5 & Hi4 & _ & ?). by exists w4. }
  rewrite run_modify, run_gets. cbn [connect_ setState]. destruct Hr as [(h & c & Hc & Hn & Hchn & Hd) H0 Hrs]. destruct (connect_ w3).
  - eexists. split; [reflexivity|]. split; [|by exists c]. exists h, None. split.
    + destruct Hc as [[E1 E2 E3 E4 E5] C2 C3 C4 C5 C6 C7]. destruct (C3 fd eq_refl) as [HO Hh]. split; try done.
      * intros d. cbn. rewrite C2, elem_of_app, list_elem_of_singleton. naive_solver.
      * intros d. cbn. rewrite elem_of_app, list_elem_of_singleton. naive_solver.
      * cbn. apply NoDup_app. split_and!; [done| |apply NoDup_singleton]. intros d Hd1 ->%list_elem_of_singleton. done.
    + unfold sched, gone, starts, n_of in *. cbn. rewrite Hchn. split_and!; done || lia || (right; lia).
  - destruct (close_run fd (setState kConnected w3)) as (k4 & E4 & Hk4). rewrite E4. eexists. split; [reflexivity|].
    split; [|by exists c]. apply (released_close true O fd w3 k4 kConnected); [|done|done].
    split; [|done..]. by exists h, c.
Qed.

(** Storing the channel with other flags. *)
Lemma dead_put eh eh' c c' h :
  dead eh c h → same_registration c c' → Channel.addedToLoop_ c' = Channel.addedToLoop_ c →
  Channel.eventHandling_ c' = eh' → dead eh' c' h.
Proof.
  intros [(c0 & Hc0 & S1 & S2 & S3 & S4) D2 D3 D4] (Hadr & Hlp & Hfd & Hix) Ha He. split; [|unfold unregistered in *; congruence..].
  exists c0. rewrite <-Hadr. split; [done|]. split_and!; congruence.
Qed.

Lemma put_inv eh eh' O w c c' :
  inv eh O w → channel_ w = Some c → same_registration c c' → Channel.addedToLoop_ c' = Channel.addedToLoop_ c →
  Channel.eventHandling_ c' = eh' → inv eh' O (put_channel w c').
Proof.
  intros (h & fd & Hc & Hs) Hch Hsr Ha He. exists h, fd.
  split; [by apply (common_same O fd w); done || apply Hc|].
  pose proof Hsr as (Hadr & Hlp & Hfd & Hix). unfold sched, gone, starts in *. cbn [state_ put_channel set_channel].
  change (n_of ?f (put_channel w c')) with (n_of f w). cbn [channel_ timers put_channel set_channel]. rewrite Hch in Hs.
  destruct (state_ w).
  - destruct Hs as (? & ? & ? & [? Hd] & [?|?]); [done|]. split_and!; [done..|by eapply dead_put|by right].
  - destruct Hs as (c1 & [= <-] & ? & [(c0 & Hc0 & S1 & S2 & S3 & S4) L2 L3 L4] & ? & ?). exists c'.
    split_and!; [done|congruence| |done|done]. split; [| | |done].
    + exists c0. rewrite <-Hadr. split; [done|]. split_and!; congruence.
    + unfold unregistered in *. congruence.
    + intros a d Hd. rewrite <-Hfd, <-Hadr. by apply L3.
  - destruct Hs as (? & ? & ? & [? Hd] & [?|?]); [done|]. split_and!; [done..|by eapply dead_put|by right].
Qed.

Lemma put_evt O w c :
  inv false O w → channel_ w = Some c → state_ w ≠ kConnected →
  (state_ w = kConnecting → may_remove (loop_ w) c) →
  evt O (put_channel w (Channel.set_eventHandling c true)).
Proof.
  intros Hi Hch Hst Hm. split_and!; [by eapply (put_inv false true)|done|done|].
  intros Hs d [= <-]. eapply may_remove_addr; [|by apply Hm]. done.
Qed.

Lemma call_evt O (b : bool) w (m : st (Connector.t L K) unit) (P : Connector.t L K → Prop) :
  evt O w → (∀ w', evt O w' → P w') → (∃ w', m w = Ok ((), w') ∧ P w') →
  ∃ w', (if b then ChannelOps.call (callback m) w else mret w) = Ok w' ∧ P w'.
Proof.
  intros He HP (w' & E & Hw'). destruct b; [|exists w; split; [done|by apply HP]].
  exists w'. split; [|done]. unfold ChannelOps.call, callback. cbn. by rewrite E.
Qed.

Lemma guard_inv O time w c :
  inv false O w → channel_ w = Some c → state_ w = kConnecting → may_remove (loop_ w) c →
  ∃ w', ChannelOps.handleEventWithGuard the_channel put_channel None (callback handleWrite) None
          (callback handleError) time w = Ok w' ∧ inv false O w'.
Proof.
  intros Hi Hch Hst Hm. assert (the_channel w = c) as Et by (unfold the_channel; by rewrite Hch).
  unfold ChannelOps.handleEventWithGuard. cbv zeta. rewrite Et.
  pose proof (put_evt O w c Hi Hch ltac:(by rewrite Hst) ltac:(done)) as He.
  set (w1 := put_channel w (Channel.set_eventHandling c true)) in *.
  replace (if has _ EPOLLHUP && _ then ChannelOps.call None w1 else mret w1) with (@Ok (Connector.t L K) w1) by (by destruct (_ && _)).
  cbn [mbind res_bind].
  match goal with |- context [if ?b then ChannelOps.call (callback handleError) w1 else _] =>
    destruct (call_evt O b w1 handleError (evt O) He ltac:(done) (handleError_evt O w1 He)) as (w2 & -> & He2) end.
  cbn [mbind res_bind].
  replace (if has _ (Z.lor _ _) then _ else mret w2) with (@Ok (Connector.t L K) w2) by (by destruct (has _ (Z.lor _ _))).
  cbn [mbind res_bind].
  match goal with |- context [if ?b then ChannelOps.call (callback handleWrite) w2 else _] =>
    destruct (call_evt O b w2 handleWrite (λ w, inv true O w ∧ is_Some (channel_ w)) He2) as (w3 & -> & Hi3 & c3 & Hc3) end.
  { by intros ? (? & ? & _). }
  { by apply handleWrite_evt. }
  cbn [mbind res_bind]. eexists. split; [reflexivity|]. unfold the_channel. rewrite Hc3. by eapply (put_inv true false).
Qed.

Lemma ready_inv O rev w : inv false O w → legal (Ready rev) w → outcome O w (run_event (Ready rev) w).
Proof.
  intros Hi [Hst Hm]. left. cbn [run_event].
  assert (∃ c, channel_ w = Some c ∧ Channel.eventHandling_ c = false) as (c & Hch & Heh).
  { destruct Hi as (h & fd & _ & Hs). unfold sched in Hs. rewrite Hst in Hs. destruct Hs as (c & Hch & _ & Hl & _).
    exists c. split; [done|apply Hl]. }
  unfold the_channel. rewrite Hch. change (default (Channel.make 1 1 0) (Some c)) with c. set (c1 := Channel.set_revents c rev).
  assert (inv false O (put_channel w c1)) as Hi1 by by eapply (put_inv false false).
  assert (may_remove (loop_ (put_channel w c1)) c1) as Hm1.
  { eapply (may_remove_addr _ c); [done|]. by apply Hm. }
  unfold handleEvent, ChannelOps.handleEvent. change (the_channel (put_channel w c1)) with c1. destruct (Channel.tied_ c1).
  - by exists (put_channel w c1).
  - destruct (guard_inv O 0 (put_channel w c1) c1 Hi1 eq_refl Hst Hm1) as (w' & E & Hi'). rewrite E. by exists w'.
Qed.

Lemma event_inv O e w : inv false O w → legal e w → outcome O w (run_event e w).
Proof.
  intros Hi Hl. destruct e as [b| | | | |rev].
  - by apply start_inv_client.
  - by apply stop_inv.
  - by apply restart_inv.
  - by apply connector_functor_inv.
  - by apply alarm_inv.
  - by apply ready_inv.
Qed.

Fixpoint legal_run (es : list event) w : Prop :=
  match es with
  | [] => True
  | e :: es' => legal e w ∧ ∀ w', run_event e w = Ok ((), w') → legal_run es' w'
  end.

Lemma connector_events_inv O es w :
  inv false O w → legal_run es w →
  (∃ w', run_events es w = Ok ((), w') ∧ inv false O w') ∨
  (run_events es w = Fault Fatal ∧
   ∃ es1 e es2 w1, es = es1 ++ e :: es2 ∧ run_events es1 w = Ok ((), w1) ∧ no_descriptor w1).
Proof.
  revert w. induction es as [|e es IH]; intros w Hi Hl; [left; by exists w|]. destruct Hl as [He Hl].
  cbn [run_events]. destruct (event_inv O e w Hi He) as [(w1 & E & Hi1)|[E Hno]].
  - rewrite (st_bind_run _ _ _ _ _ E). destruct (IH w1 Hi1 (Hl w1 E)) as [|(Ef & es1 & e' & es2 & w2 & -> & E2 & Hno)]; [by left|].
    right. split; [done|]. exists (e :: es1), e', es2, w2. split_and!; [done| |done]. cbn [run_events].
    by rewrite (st_bind_run _ _ _ _ _ E).
  - right. split; [unfold mbind at 1, st_bind; by rewrite E|]. by exists [], e, es, w.
Qed.

Lemma make_inv_client l k loop addr server h :
  loop_inv l h → isInLoopThread l = true → loop_self l = loop → (∀ a, (addr <= a)%positive → h !! a = None) →
  (∀ a c, h !! a = Some c → ¬ unregistered c → is_open k (Channel.fd_ c)) →
  inv false (is_open k) (make l k loop addr server).
Proof.
  intros H1 H2 H3 H4 H5. exists h, None. split.
  - split; try done; cbn.
    + intros d. split; [by left|]. intros [?|[?%elem_of_nil|?]]; done.
    + intros d ?%elem_of_nil. done.
    + apply NoDup_nil_2.
  - cbn. unfold starts, n_of. cbn. split_and!; try done; [lia|by left].
Qed.

(** The open descriptors of a connector. *)
Lemma inv_open O w :
  inv false O w →
  (∀ d, is_open (sys_ w) d ↔ O d ∨ d ∈ handed w ∨ state_ w = kConnecting ∧ Channel.fd_ <$> channel_ w = Some d) ∧
  NoDup (handed w).
Proof.
  intros (h & fd & [_ C2 C3 C4 C5 C6 C7] & Hs). split; [|done]. unfold sched in Hs. intros d. rewrite C2.
  destruct (state_ w); [destruct Hs as (-> & _)|destruct Hs as (c & -> & -> & _); cbn|destruct Hs as (-> & _)]; naive_solver.
Qed.

(** A connector never fails one of its assertions and never leaks or
    confuses a descriptor.  Whatever the kernel answers and in whatever order the loop
    thread and callers of [stop] proceed, as long as [start] is not called while the
    connector is under way and timers of half a second do not overtake queued functors:
    every event succeeds (or the process ends because socket(2) has no descriptor left);
    the open descriptors are exactly those that were open at first, the ones handed to
    the new connection callback, each once, and the one of the channel while it waits for
    a connection; at most one start is under way, and only while disconnected; and the
    delays of the retries stay between half a second and thirty seconds. *)
Theorem connector_run l k loop addr server h es :
  loop_inv l h → isInLoopThread l = true → loop_self l = loop → (∀ a, (addr <= a)%positive → h !! a = None) →
  (∀ a c, h !! a = Some c → ¬ unregistered c → is_open k (Channel.fd_ c)) →
  legal_run es (make l k loop addr server) →
  (∃ w, run_events es (make l k loop addr server) = Ok ((), w) ∧
    (∀ d, is_open (sys_ w) d ↔
       is_open k d ∨ d ∈ handed w ∨ state_ w = kConnecting ∧ Channel.fd_ <$> channel_ w = Some d) ∧
    NoDup (handed w) ∧ (∀ d, d ∈ handed w → ¬ is_open k d) ∧
    (starts w <= 1)%nat ∧ ((0 < starts w)%nat → state_ w = kDisconnected) ∧
    (state_ w = kConnecting → is_Some (channel_ w)) ∧
    Forall (λ d, kInitRetryDelayMs <= d <= kMaxRetryDelayMs) (timers w)) ∨
  (run_events es (make l k loop addr server) = Fault Fatal ∧
   ∃ es1 e es2 w1, es = es1 ++ e :: es2 ∧ run_events es1 (make l k loop addr server) = Ok ((), w1) ∧ no_descriptor w1).
Proof.
  intros H1 H2 H3 H4 H5 Hl.
  destruct (connector_events_inv _ es _ (make_inv_client l k loop addr server h H1 H2 H3 H4 H5) Hl) as [(w & E & Hi)|]; [|by right].
  left. exists w. split; [done|]. pose proof (inv_open _ _ Hi) as [Hop _].
  destruct Hi as (h' & fd & [_ C2 C3 C4 C5 C6 C7] & Hs). unfold sched in Hs. split; [done|split_and!; [done|done| | | |done]].
  - destruct (state_ w); [apply Hs|destruct Hs as (c & _ & _ & _ & -> & _); lia|apply Hs].
  - destruct (state_ w); [done|destruct Hs as (c & _ & _ & _ & -> & _); lia|]. destruct Hs as (_ & _ & H0 & _). rewrite H0 by done. lia.
  - intros Est. rewrite Est in Hs. destruct Hs as (c & -> & _). done.
Qed.
End Invariant.

(** ** A concrete kernel

    [answers] are the errors that the next calls of connect(2) meet (0: success). *)
Module ToyNet.

Record t := mk {
  last_error : Z;
  answers : list Z;
  table : list Z
}.

Definition top (l : list Z) : Z := foldr Z.max 2 l.

Lemma top_max l d : d ∈ l → d <= top l.
Proof. unfold top. induction 1; cbn [foldr]; lia. Qed.

Definition toy_socket (_ : Z) (k : t) : Z * t :=
  let fd := top (table k) + 1 in (fd, mk (last_error k) (answers k) (fd :: table k)).

Definition toy_connect (fd : Z) (_ : sockaddr_in) (k : t) : Z * t :=
  match answers k with
  | [] => (0, k)
  | e :: rest => if e =? 0 then (0, mk (last_error k) rest (table k)) else (-1, mk e rest (table k))
  end.

#[export] Instance toy_net : Sys t := {|
  errno := last_error;
  set_errno e k := mk e (answers k) (table k);
  log_line k := k;
  sys_socket := toy_socket;
  sys_fcntl _ _ _ k := (0, k);
  sys_bind _ _ k := (0, k);
  sys_listen _ k := (0, k);
  sys_accept _ k := (-1, addr_zero, k);
  sys_connect := toy_connect;
  sys_close fd k := (0, mk (last_error k) (answers k) (filter (λ d, d ≠ fd) (table k)));
  sys_shutdownWrite _ k := (0, k);
  sys_open_null := toy_socket 0;
  sys_setsockopt _ _ _ _ k := (0, k);
  sys_so_error _ k := (0, 0, k);
  sys_getsockname fd k := (0, mkaddr AF_INET (bswap 2 50000) (bswap 4 INADDR_LOOPBACK), k);
  sys_getpeername fd k := (0, mkaddr AF_INET (bswap 2 8888) (bswap 4 INADDR_LOOPBACK), k)
|}.

#[export] Instance toy_net_open : SysOpen t toy_net.
Proof.
  refine {| is_open k d := d ∈ table k |}; try done.
  - intros family k fd k' [= <- <-] _. split.
    + intros Hd%top_max. lia.
    + intros d. cbn. by rewrite elem_of_cons.
  - intros fd k d. cbn. by rewrite list_elem_of_filter.
  - intros fd addr k d. cbn. unfold toy_connect. destruct (answers k) as [|e rest]; [done|]. by destruct (e =? 0).
Defined.

End ToyNet.

Section Witness.
Import Connector ToyNet ToyEpoll ToyEventfd.

Definition toy_client_loop : EventLoop.t interest_list N unit :=
  EventLoop.mk 1 true false false false 0 1 0 (EPollPoller.make ∅) 0%N [] None [] 1.

Definition toy_server : sockaddr_in := InetAddress.make 8888 true.

Definition toy_connector (answers : list Z) : Connector.t (EventLoop.t interest_list N unit) ToyNet.t :=
  Connector.make toy_client_loop (ToyNet.mk 0 answers [2; 1; 0]) 1 2 toy_server.

(** The server refuses at first; half a second later it accepts. *)
Definition toy_attempts : list event := [Start false; RunFunctor; Alarm; Ready EPOLLOUT; RunFunctor].

Definition toy_seen (r : res (unit * Connector.t (EventLoop.t interest_list N unit) ToyNet.t)) :=
  match r with
  | Ok (_, w) => Some (state_ w, handed w, retryDelayMs_ w, pending w, table (sys_ w))
  | Fault _ => None
  end.

Example toy_attempts_run :
  toy_seen (run_events toy_attempts (toy_connector [ECONNREFUSED; EINPROGRESS])) =
  Some (kConnected, [3], 1000, [], [3; 2; 1; 0]).
Proof. vm_compute. reflexivity. Qed.

(** A stopped connector keeps its timer: starting it again before the timer runs makes
    the timer find a connector that is under way, and the assertion of [startInLoop]
    fails. *)
Example restart_while_waiting :
  run_events [Start true; Stop; RunFunctor; Start true; Alarm] (toy_connector [ECONNREFUSED; EINPROGRESS]) =
  Fault AssertFail.
Proof. vm_compute. reflexivity. Qed.

(** After a connection was made, [start] never works again. *)
Example start_after_connection :
  run_events [Start true; Ready EPOLLOUT; RunFunctor; Start true] (toy_connector [EINPROGRESS]) = Fault AssertFail.
Proof. vm_compute. reflexivity. Qed.

Lemma toy_client_loop_ok : loop_inv toy_client_loop ∅.
Proof. split; [split|]; try done; intros fd v; split; done || by intros (? & ? & ? & _). Qed.

(** The next state of a legal run, computed. *)
Ltac next_event :=
  split; [|intros ? Hrun; vm_compute in Hrun; injection Hrun as <-].

Lemma toy_attempts_legal : legal_run toy_attempts (toy_connector [ECONNREFUSED; EINPROGRESS]).
Proof.
  next_event; [by vm_compute|]. next_event; [intros c ?; done|]. next_event; [by vm_compute|].
  next_event; [split; [reflexivity|]; intros c _ Hh; vm_compute in Hh; discriminate|].
  next_event; [intros c _ Hh; vm_compute in Hh; discriminate|]. exact I.
Qed.

Lemma connector_run_witness :
  ∃ w, run_events toy_attempts (toy_connector [ECONNREFUSED; EINPROGRESS]) = Ok ((), w) ∧ NoDup (handed w) ∧
    (starts w <= 1)%nat ∧ handed w = [3].
Proof.
  destruct (connector_run toy_client_loop (ToyNet.mk 0 [ECONNREFUSED; EINPROGRESS] [2; 1; 0]) 1 2 toy_server ∅ toy_attempts)
    as [(w & E & _ & Hn & _ & Hs & _)|[E _]].
  - apply toy_client_loop_ok.
  - reflexivity.
  - reflexivity.
  - done.
  - done.
  - apply toy_attempts_legal.
  - exists w. split_and!; [exact E|exact Hn|exact Hs|]. vm_compute in E. injection E as <-. reflexivity.
  - vm_compute in E. discriminate E.
Defined.
End Witness.
