(* ===== verification/LoopLife.v ===== *)
(** * EventLoop.cc, TimerQueue.cc: the beginning and the end of a loop

    The constructors and destructors of [EventLoop] and [TimerQueue] with the two channels
    that a loop has for itself, for its eventfd and its timerfd.  The thread knows its loop
    ([t_loopInThisThread]).  A loop between the two is in Reactor.v. *)
From S2P Require Import Prelude Text Timestamp Channel EPollPoller TimerQueue EventLoop Reactor Sockets Connector.

Module LoopLife.
Section LoopLife.
Context `{EP : Epoll E, EV : Eventfd V} {F : Type}.

(** A loop with its channels; the descriptors it has closed; the loop of the thread. *)
Record t := mk {
  reactor : Reactor.t E V F;
  wakeupChannel_ : Channel.t;
  timerfdChannel_ : Channel.t;
  closed : list Z;
  t_loopInThisThread : option positive
}.

(** eventfd(2) and timerfd_create(2) returned [fd]. *)
Definition createEventfd (fd : Z) : res Z := if fd <? 0 then Fault Fatal else mret fd.
Definition createTimerfd (fd : Z) : res Z := if fd <? 0 then Fault Fatal else mret fd.

Definition getEventLoopOfCurrentThread (s : t) : option positive := t_loopInThisThread s.

(** [TimerQueue::TimerQueue]: no timers, and a channel that is always read. *)
Definition timers : TimerQueue.t F := TimerQueue.mk [] ∅ false ∅ ∅ None.
Definition make_timers (addr this : positive) (fd : Z) (r : Reactor.t E V F) : res (Reactor.t E V F * Channel.t) :=
  timerfd ← createTimerfd fd;
  ChannelOps.enableReading r (Channel.make addr this timerfd).

(** [EventLoop::EventLoop] at the address [this] in the thread [tid]. *)
Definition make (this timer_addr wakeup_addr : positive) (tid timerfd wakeupfd : Z) (e : E) (v : V)
    (next : positive) (numCreated clock : Z) (current : option positive) : res t :=
  let l := EventLoop.mk this false false false false 0 tid 0 (EPollPoller.make e) v [] None [] tid in
  '(r, timer) ← make_timers timer_addr this timerfd (Reactor.mk l timers next numCreated clock);
  wakeupfd ← createEventfd wakeupfd;
  let wakeup := Channel.make wakeup_addr this wakeupfd in
  match current with
  | Some _ => Fault Fatal
  | None =>
      '(r, wakeup) ← ChannelOps.enableReading r wakeup;
      mret (mk r wakeup timer [] (Some this))
  end.

(** A channel taken out of the loop, and its descriptor closed. *)
Definition retire (r : Reactor.t E V F) (c : Channel.t) : res (Reactor.t E V F * Channel.t * Z) :=
  '(r, c) ← ChannelOps.disableAll r c;
  '(r, c) ← ChannelOps.remove r c;
  mret (r, c, Channel.fd_ c).

(** [delete timer.second]. *)
Fixpoint delete_timers (entries : list (Z * positive)) (heap : gmap positive (Timer.t F)) : res (gmap positive (Timer.t F)) :=
  match entries with
  | [] => mret heap
  | timer :: entries' =>
      match heap !! timer.2 with
      | Some _ => delete_timers entries' (delete timer.2 heap)
      | None => Fault UB
      end
  end.

(** [TimerQueue::~TimerQueue], with its channel. *)
Definition destroy_timers (c : Channel.t) (r : Reactor.t E V F) : res (Reactor.t E V F * Channel.t * Z) :=
  '(r, c, fd) ← retire r c;
  let q := Reactor.timerQueue_ r in
  heap ← delete_timers (TimerQueue.timers_ q) (TimerQueue.heap q);
  let q := TimerQueue.mk (TimerQueue.timers_ q) (TimerQueue.activeTimers_ q) (TimerQueue.callingExpiredTimers_ q)
             (TimerQueue.cancelingTimers_ q) heap (TimerQueue.timerfd_ q) in
  _ ← ChannelOps.destroy r c;
  mret (Reactor.set_timers r q, c, fd).

(** [EventLoop::~EventLoop], then the members from the last to the first: the wakeup
    channel, the timers, the poller. *)
Definition destroy (s : t) : res t :=
  '(r, wakeup, wakeupFd) ← retire (reactor s) (wakeupChannel_ s);
  _ ← ChannelOps.destroy r wakeup;
  '(r, timer, timerfd) ← destroy_timers (timerfdChannel_ s) r;
  mret (mk r wakeup timer (closed s ++ [wakeupFd; timerfd]) None).

(** [EventLoop::cancel]. *)
Definition cancel (timerId : positive * Z) (r : Reactor.t E V F) : res (Reactor.t E V F) := Reactor.cancel timerId r.

(** [printActiveChannels]: what goes to the log for each active channel. *)
Definition printActiveChannels (l : EventLoop.t E V (Reactor.functor F)) (channels : gmap positive Channel.t) : res (list string) :=
  mapM (λ a, match channels !! a with
             | Some c => mret ("{" +:+ Channel.reventsToString c +:+ "} ")%string
             | None => Fault UB
             end) (EventLoop.activeChannels_ l).

End LoopLife.
#[global] Arguments t E V F : clear implicits.
End LoopLife.

Section Life.
Import LoopLife.
Context `{EP : Epoll E, EL : !EpollLaws E EP, EV : Eventfd V} {F : Type}.
Implicit Types (r : Reactor.t E V F) (c : Channel.t) (h : gmap positive Channel.t).

(** An operation on a channel changes only the poller of a loop. *)
Lemma reactor_frame r c r' c' :
  Channel.updateChannel r c = Ok (r', c') ∨ Channel.removeChannel r c = Ok (r', c') →
  ∃ p, r' = Reactor.set_loop r (EventLoop.set_poller (Reactor.loop r) p).
Proof.
  cbn. unfold Reactor.lift, EventLoop.updateChannel, EventLoop.removeChannel.
  intros [H|H]; destruct (cassert (bool_decide (_ = EventLoop.self _))); try done; destruct (EventLoop.assertInLoopThread _); try done;
    cbn [mbind res_bind] in H.
  - destruct (EPollPoller.updateChannel _ _) as [[p c1]|]; [|done]. injection H as <- <-. by exists p.
  - destruct (if EventLoop.eventHandling_ _ then _ else _); [|done]. cbn [mbind res_bind] in H.
    destruct (EPollPoller.removeChannel _ _) as [[p c1]|]; [|done]. injection H as <- <-. by exists p.
Qed.

(** The loop between two calls of its owner, outside event handling. *)
Definition calm r h : Prop :=
  loop_inv r h ∧ isInLoopThread r = true ∧ EventLoop.eventHandling_ (Reactor.loop r) = false.

Lemma frame_calm r p h : calm r h → loop_inv (Reactor.set_loop r (EventLoop.set_poller (Reactor.loop r) p)) h →
  calm (Reactor.set_loop r (EventLoop.set_poller (Reactor.loop r) p)) h.
Proof. by intros (_ & Ht & He) Hi. Qed.

Lemma retire_run r h c :
  calm r h → h !! Channel.addr c = Some c → ¬ unregistered c → fresh_fd h c →
  ∃ p c', let r' := Reactor.set_loop r (EventLoop.set_poller (Reactor.loop r) p) in
    retire r c = Ok (r', c', Channel.fd_ c) ∧ calm r' (<[Channel.addr c := c']> h) ∧ unregistered c' ∧
    Channel.addr c' = Channel.addr c ∧ Channel.addedToLoop_ c' = false ∧ Channel.eventHandling_ c' = Channel.eventHandling_ c ∧
    Channel.loop_ c' = Channel.loop_ c ∧ Channel.fd_ c' = Channel.fd_ c.
Proof.
  intros (Hi & Ht & He) Hc Hu Hf.
  destruct (update_spec r h c (Channel.set_addedToLoop (Channel.set_events c Channel.kNoneEvent) true) Ht Hi Hc) as (r1 & c1 & Eu & Ec1 & Hu1 & Ht1 & Hi1 & _); [done..|].
  destruct (reactor_frame _ _ _ _ (or_introl Eu)) as [p1 Ep1].
  destruct (remove_spec r1 (<[Channel.addr c := c1]> h) c1 (Channel.set_addedToLoop c1 false) Ht1 Hi1) as (r2 & Er & Ht2 & Hi2).
  - rewrite Ec1. cbn. by rewrite lookup_insert_eq.
  - by rewrite Ec1.
  - by rewrite Ec1 in Hu1 |- *.
  - by rewrite Ec1.
  - subst r1. intros Hev. cbn in Hev. congruence.
  - destruct (reactor_frame _ _ _ _ (or_intror Er)) as [p2 Ep2]. exists p2, (Channel.set_index (Channel.set_addedToLoop c1 false) (-1)).
    unfold retire, ChannelOps.disableAll, ChannelOps.update, ChannelOps.remove. rewrite Eu. cbn [mbind res_bind].
    assert (Channel.isNoneEvent c1 = true) as -> by (by rewrite Ec1). cbn [cassert mbind res_bind]. rewrite Er. cbn [mbind res_bind mret res_ret].
    rewrite Ec1 in Hi2 |- *. cbn in Hi2 |- *. rewrite insert_insert_eq in Hi2. subst r1 r2. cbn in Hi2 |- *. split_and!; done.
Qed.
Lemma destroy_run r h c :
  calm r h → h !! Channel.addr c = Some c → unregistered c → Channel.addedToLoop_ c = false → Channel.eventHandling_ c = false →
  ChannelOps.destroy r c = Ok ().
Proof.
  intros (Hi & Ht & _) Hc Hu Ha He. unfold ChannelOps.destroy. rewrite He, Ha, Ht. cbn [negb cassert mbind res_bind].
  rewrite (gone_law (ChannelLife := reactor_life) r h c c Ht Hi Hc); [done|by split_and!|done].
Qed.

(** Pending timers are distinct objects: each is deleted once. *)
Lemma delete_timers_run (entries : list (Z * positive)) (hp : gmap positive (Timer.t F)) :
  NoDup entries.*2 → (∀ e, e ∈ entries → is_Some (hp !! e.2)) →
  ∃ hp', delete_timers entries hp = Ok hp' ∧ ∀ a, hp' !! a = if bool_decide (a ∈ entries.*2) then None else hp !! a.
Proof.
  revert hp. induction entries as [|e entries IH]; intros hp Hn Hs.
  { exists hp. split; [done|]. intros a. by rewrite bool_decide_false by set_solver. }
  cbn [fmap list_fmap] in *. apply NoDup_cons in Hn as [Hne Hn]. cbn [delete_timers]. destruct (Hs e) as [tm ->]; [set_solver|].
  destruct (IH (delete e.2 hp) Hn) as (hp' & -> & Hh).
  { intros e' He'. rewrite lookup_delete_ne; [apply Hs; set_solver|]. intros Ee. apply Hne. rewrite Ee. by apply list_elem_of_fmap_2. }
  exists hp'. split; [done|]. intros a. rewrite Hh. destruct (decide (a = e.2)) as [->|Ha].
  - rewrite (bool_decide_false (e.2 ∈ entries.*2)) by done. rewrite bool_decide_true by set_solver. apply lookup_delete_eq.
  - rewrite lookup_delete_ne by done. rewrite (bool_decide_ext (a ∈ entries.*2) (a ∈ e.2 :: entries.*2)); [done|]. set_solver.
Qed.

(** The two channels of a loop among the channels it serves. *)
Record owns (s : LoopLife.t E V F) h : Prop := {
  ow_calm : calm (reactor s) h;
  ow_wakeup : h !! Channel.addr (wakeupChannel_ s) = Some (wakeupChannel_ s);
  ow_timer : h !! Channel.addr (timerfdChannel_ s) = Some (timerfdChannel_ s);
  ow_apart : Channel.addr (wakeupChannel_ s) ≠ Channel.addr (timerfdChannel_ s);
  ow_registered : ¬ unregistered (wakeupChannel_ s) ∧ ¬ unregistered (timerfdChannel_ s);
  ow_idle : Channel.eventHandling_ (wakeupChannel_ s) = false ∧ Channel.eventHandling_ (timerfdChannel_ s) = false;
  ow_timers : tq_inv (Reactor.timerQueue_ (reactor s))
}.

(** What is left of a loop [s]. *)
Record ended (s : LoopLife.t E V F) h (s' : LoopLife.t E V F) : Prop := {
  en_closed : closed s' = closed s ++ [Channel.fd_ (wakeupChannel_ s); Channel.fd_ (timerfdChannel_ s)];
  en_apart : Channel.fd_ (wakeupChannel_ s) ≠ Channel.fd_ (timerfdChannel_ s);
  en_thread : t_loopInThisThread s' = None;
  en_gone : unregistered (wakeupChannel_ s') ∧ unregistered (timerfdChannel_ s');
  en_poller : loop_inv (reactor s') (<[Channel.addr (timerfdChannel_ s) := timerfdChannel_ s']>
                (<[Channel.addr (wakeupChannel_ s) := wakeupChannel_ s']> h));
  en_timers a : TimerQueue.heap (Reactor.timerQueue_ (reactor s')) !! a =
    if bool_decide (a ∈ (TimerQueue.timers_ (Reactor.timerQueue_ (reactor s))).*2) then None
    else TimerQueue.heap (Reactor.timerQueue_ (reactor s)) !! a
}.

Lemma loop_fresh r h c : calm r h → h !! Channel.addr c = Some c → ¬ unregistered c → fresh_fd h c.
Proof. intros ((Hp & _) & _ & _) Hc Hu. by eapply ok_fresh. Qed.

Lemma loop_ends s h : owns s h → ∃ s', destroy s = Ok s' ∧ ended s h s'.
Proof.
  intros [Hcalm Hw Ht Hne [Huw Hut] [Hew Het] [_ Hnd Hheap _ _]].
  pose proof (loop_fresh _ _ _ Hcalm Hw Huw) as Hfw. set (w := wakeupChannel_ s) in *. set (t := timerfdChannel_ s) in *.
  assert (Channel.fd_ w ≠ Channel.fd_ t) as Hfd.
  { intros Efd. by apply Hut, (Hfw _ _ Ht). }
  destruct (retire_run (reactor s) h w Hcalm Hw Huw Hfw) as (p & w' & Ew & Hc1 & Huw' & Haw & Haddw & Hevw & _ & Hfdw). cbv zeta in *.
  set (r1 := Reactor.set_loop _ _) in *. set (h1 := <[Channel.addr w := w']> h) in *.
  assert (h1 !! Channel.addr t = Some t) as Ht1 by (unfold h1; by rewrite lookup_insert_ne).
  pose proof (loop_fresh _ _ _ Hc1 Ht1 Hut) as Hft.
  destruct (retire_run r1 h1 t Hc1 Ht1 Hut Hft) as (p2 & t' & Et & Hc2 & Hut' & Hat & Haddt & Hevt & _ & Hfdt). cbv zeta in *.
  set (r2 := Reactor.set_loop r1 _) in *.
  destruct (delete_timers_run _ (TimerQueue.heap (Reactor.timerQueue_ (reactor s))) Hnd) as (hp & Ehp & Hhp).
  { intros e He. destruct (Hheap e He) as (tm & -> & _). by eexists. }
  unfold destroy. fold w t. rewrite Ew. cbn [mbind res_bind]. rewrite (destroy_run r1 h1 w' Hc1); [|by unfold h1; rewrite Haw, lookup_insert_eq|done..|congruence].
  cbn [mbind res_bind]. unfold destroy_timers. rewrite Et. cbn [mbind res_bind].
  cbv zeta. change (Reactor.timerQueue_ r2) with (Reactor.timerQueue_ (reactor s)). rewrite Ehp. cbn [mbind res_bind].
  rewrite (destroy_run r2 _ t' Hc2); [|by rewrite Hat, lookup_insert_eq|done..|congruence]. cbn [mbind res_bind mret res_ret].
  eexists. split; [reflexivity|]. split; cbn [closed t_loopInThisThread wakeupChannel_ timerfdChannel_ reactor]; [done..|apply Hc2|].
  intros a. apply Hhp.
Qed.

(** A new channel for reading. *)
Lemma open_channel r h a fd :
  calm r h → h !! a = None → (∀ b c, h !! b = Some c → Channel.fd_ c ≠ fd) →
  ∃ p c, let r' := Reactor.set_loop r (EventLoop.set_poller (Reactor.loop r) p) in
    ChannelOps.enableReading r (Channel.make a (EventLoop.self (Reactor.loop r)) fd) = Ok (r', c) ∧ calm r' (<[a := c]> h) ∧
    Channel.addr c = a ∧ Channel.fd_ c = fd ∧ ¬ unregistered c ∧ Channel.isReading c = true ∧ Channel.eventHandling_ c = false.
Proof.
  intros (Hi & Ht & He) Ha Hfd. set (c0 := Channel.make a (EventLoop.self (Reactor.loop r)) fd).
  pose proof (new_law (ChannelLife := reactor_life) r h a fd Hi Ha) as Hn. change (loop_self r) with (EventLoop.self (Reactor.loop r)) in Hn. fold c0 in Hn.
  destruct (update_spec r _ c0 (Channel.set_addedToLoop (Channel.set_events c0 Channel.kReadEvent) true) Ht Hn) as (r1 & c1 & Eu & Ec1 & Hu1 & Ht1 & Hi1 & _).
  - cbn. by rewrite lookup_insert_eq.
  - done.
  - intros b c Hb Hc Hne. rewrite lookup_insert_ne in Hb by (cbn in Hne; congruence). by destruct (Hfd b c Hb).
  - destruct (reactor_frame _ _ _ _ (or_introl Eu)) as [p Ep]. exists p, c1. cbv zeta.
    unfold ChannelOps.enableReading, ChannelOps.update. change (Z.lor (Channel.events_ c0) Channel.kReadEvent) with Channel.kReadEvent.
    rewrite Eu. cbn in Hi1. rewrite insert_insert_eq in Hi1. subst r1. rewrite Ec1. split_and!; try done; by rewrite Ec1 in Hu1, Hi1.
Qed.

Lemma empty_poller (e : E) : watched e = ∅ → poller_ok (EPollPoller.make e) ∅.
Proof.
  intros He. split; [by intros ? ? ?..| |]; intros fd v; cbn; rewrite ?He, lookup_empty; (split; [done|]); intros (a & c & Hc & _); done.
Qed.

Lemma poller_empty p h : poller_ok (E := E) p h → (∀ a c, h !! a = Some c → unregistered c) →
  EPollPoller.channels_ p = ∅ ∧ watched (EPollPoller.epollfd_ p) = ∅.
Proof.
  intros [_ _ Hc Hw] Hu. split; apply map_empty; intros fd; apply eq_None_not_Some; intros [x Hx].
  - apply Hc in Hx as (a & c & Ha & _ & Hr). by rewrite (proj1 (unregistered_None c (Hu a c Ha))) in Hr.
  - apply Hw in Hx as (a & c & Ha & _ & Hr). by rewrite (proj2 (unregistered_None c (Hu a c Ha))) in Hr.
Qed.

(** The life of a loop.  A loop is made in a thread that has none, from two
    descriptors that the system gave: the eventfd and the timerfd are registered with the
    poller, for reading, and the thread knows its loop; a second loop in the thread, or a
    missing descriptor, ends the process.  However it was used since, when its owner
    destroys it, outside of events, no assertion fails: its two channels are out of the
    poller, their descriptors are closed, each once, every pending timer is deleted, once,
    and the thread may make another loop; a poller with no other channels is left
    empty. *)
Theorem loop_life this ta wa tid tfd wfd (e : E) (v : V) next n clock (current : option positive) :
  watched e = ∅ → ta ≠ wa → tfd ≠ wfd →
  (0 <= tfd → 0 <= wfd → current = None →
   ∃ s, make this ta wa tid tfd wfd e v next n clock current = Ok s ∧
     owns s {[ta := timerfdChannel_ s; wa := wakeupChannel_ s]} ∧ getEventLoopOfCurrentThread s = Some this ∧
     Channel.isReading (wakeupChannel_ s) = true ∧ Channel.isReading (timerfdChannel_ s) = true ∧
     Channel.fd_ (wakeupChannel_ s) = wfd ∧ Channel.fd_ (timerfdChannel_ s) = tfd) ∧
  (tfd < 0 ∨ 0 <= tfd ∧ (wfd < 0 ∨ is_Some current) → make (F := F) this ta wa tid tfd wfd e v next n clock current = Fault Fatal) ∧
  (∀ s h, owns s h → ∃ s', destroy s = Ok s' ∧ ended s h s' ∧
     (dom h = {[Channel.addr (wakeupChannel_ s); Channel.addr (timerfdChannel_ s)]} →
      EPollPoller.channels_ (EventLoop.poller_ (Reactor.loop (reactor s'))) = ∅ ∧
      watched (EPollPoller.epollfd_ (EventLoop.poller_ (Reactor.loop (reactor s')))) = ∅)).
Proof.
  intros He Hne Hfd. set (r0 := Reactor.mk (EventLoop.mk this false false false false 0 tid 0 (EPollPoller.make e) v [] None [] tid)
    (LoopLife.timers (F := F)) next n clock).
  assert (calm r0 ∅) as H0.
  { split; [split; [by apply empty_poller|by intros ? ? ?]|]. split; [apply Z.eqb_refl|done]. }
  destruct (open_channel r0 ∅ ta tfd H0) as (p & ct & Et & Hct & Hat & Hft & Hut & Hrt & Het); [done|done|].
  cbv zeta in *. set (r1 := Reactor.set_loop _ _) in *.
  assert (0 <= tfd → make_timers ta this tfd r0 = Ok (r1, ct)) as Emt.
  { intros H. unfold make_timers, createTimerfd. replace (tfd <? 0) with false by lia. exact Et. }
  split_and!.
  - intros Ht Hw ->. unfold make. fold r0. rewrite Emt by done. cbn [mbind res_bind]. unfold createEventfd. replace (wfd <? 0) with false by lia.
    destruct (open_channel r1 (<[ta := ct]> ∅) wa wfd Hct) as (p2 & cw & Ew & Hcw & Haw & Hfw & Huw & Hrw & Hew).
    + by rewrite lookup_insert_ne.
    + intros b c Hb. apply lookup_insert_Some in Hb as [[<- <-]|[_ Hb]]; [congruence|done].
    + cbn [mbind res_bind mret res_ret]. change (EventLoop.self (Reactor.loop r1)) with this in Ew. rewrite Ew. cbn [mbind res_bind].
      eexists. split; [reflexivity|]. split; [|done]. split; cbn [reactor wakeupChannel_ timerfdChannel_].
      * rewrite insert_empty in Hcw. by rewrite (insert_insert_ne _ ta wa) in Hcw || (unfold singletonM, map_singleton; rewrite insert_insert_ne by done; done).
      * rewrite Haw, lookup_insert_ne, lookup_singleton_eq; done.
      * by rewrite Hat, lookup_insert_eq.
      * by rewrite Haw, Hat.
      * done.
      * done.
      * split; cbn; try done; [constructor|constructor|by intros ? ?%elem_of_nil|by intros ? ?%elem_of_nil].
  - intros [Ht|[Ht H]]; unfold make; fold r0.
    + unfold make_timers, createTimerfd. by replace (tfd <? 0) with true by lia.
    + rewrite Emt by done. cbn [mbind res_bind]. unfold createEventfd. destruct (wfd <? 0) eqn:Ew; [done|]. cbn [mbind res_bind mret res_ret].
      destruct H as [H|[l ->]]; [lia|done].
  - intros s h Ho. destruct (loop_ends s h Ho) as (s' & Es & Hend). exists s'. split_and!; [done|done|]. intros Hdom.
    destruct Hend as [_ _ _ [H1 H2] [Hp _] _]. eapply poller_empty; [exact Hp|]. intros a c.
    rewrite !lookup_insert_Some. intros [[_ <-]|[Hn1 [[_ <-]|[Hn2 Ha]]]]; [done|done|].
    assert (a ∈ dom h) as Hd by (apply elem_of_dom; by eexists). rewrite Hdom in Hd. set_solver.
Qed.

End Life.
