(* ===== verification/TcpClient.v ===== *)
(** * client/src/TcpClient.cc: one connection at a time, made again when it is lost

    The client owns a [Connector] (Connector.v), whose new connection callback is
    [newConnection]; connections are objects of a type [C] as in TcpServer.v.  [destroys]
    are the [connectDestroyed] calls queued in the loop; their order relative to the
    functors of the connector has no effect on either. *)
From S2P Require Import Prelude Text State Inet Sockets Channel EPollPoller EventLoop TcpServer Connector.

Module TcpClient.

Section TcpClient.
Context {L K C : Type} `{CL : ChannelLoop L, SY : Sys K, SC : Served C}.
(** [shutdown], [forceClose] and the constructor of [TcpConnection]. *)
Variables (shutdown forceClose : C → res C).
Variable newTcpConnection : string → Z → sockaddr_in → sockaddr_in → C.

Record t := mk {
  connector_ : Connector.t L K;
  name_ : string;
  retry_ : bool;
  connect_ : bool;
  nextConnId_ : Z;
  connection_ : option nat;
  objects : gmap nat (string * C);
  destroys : list nat;
  next_object : nat
}.

Definition set_connector (v : Connector.t L K) (w : t) : t :=
  mk v (name_ w) (retry_ w) (connect_ w) (nextConnId_ w) (connection_ w) (objects w) (destroys w) (next_object w).
Definition enableRetry (w : t) : t :=
  mk (connector_ w) (name_ w) true (connect_ w) (nextConnId_ w) (connection_ w) (objects w) (destroys w) (next_object w).
Definition set_connect (v : bool) (w : t) : t :=
  mk (connector_ w) (name_ w) (retry_ w) v (nextConnId_ w) (connection_ w) (objects w) (destroys w) (next_object w).
Definition set_nextConnId (v : Z) (w : t) : t :=
  mk (connector_ w) (name_ w) (retry_ w) (connect_ w) v (connection_ w) (objects w) (destroys w) (next_object w).
Definition set_connection (v : option nat) (w : t) : t :=
  mk (connector_ w) (name_ w) (retry_ w) (connect_ w) (nextConnId_ w) v (objects w) (destroys w) (next_object w).
Definition set_objects (v : gmap nat (string * C)) (w : t) : t :=
  mk (connector_ w) (name_ w) (retry_ w) (connect_ w) (nextConnId_ w) (connection_ w) v (destroys w) (next_object w).
Definition set_destroys (v : list nat) (w : t) : t :=
  mk (connector_ w) (name_ w) (retry_ w) (connect_ w) (nextConnId_ w) (connection_ w) (objects w) v (next_object w).
Definition set_next_object (v : nat) (w : t) : t :=
  mk (connector_ w) (name_ w) (retry_ w) (connect_ w) (nextConnId_ w) (connection_ w) (objects w) (destroys w) v.

(** The constructor, with the loop, the kernel and the address of the first channel. *)
Definition make (l : L) (k : K) (loop addr : positive) (serverAddr : sockaddr_in) (nameArg : string) : t :=
  mk (Connector.make l k loop addr serverAddr) nameArg false true 1 None ∅ [] 1.

Definition on_connector {A} (m : st (Connector.t L K) A) : st t A := zoom connector_ set_connector m.

(** A call on a connection object. *)
Definition on_conn (c : nat) (op : C → res C) : st t unit :=
  on_object objects set_objects c (λ o, x ← op o.2; Ok ((), (o.1, x))).

Definition newConnection (sockfd : Z) : st t unit :=
  _ ← on_connector Connector.assertInLoopThread;
  peerAddr ← on_connector (Connector.kernel (SocketsOps.getPeerAddr sockfd));
  ipPort ← lift (InetAddress.toIpPort peerAddr);
  n ← gets nextConnId_;
  let buf := snprintf 32 (":" +:+ string_of (c_str (bytes_of ipPort)) +:+ "#" +:+ dec n) in
  _ ← (if n =? 2 ^ 31 - 1 then fault UB else modify (set_nextConnId (n + 1)));
  name ← gets name_;
  let connName := (name +:+ buf)%string in
  localAddr ← on_connector (Connector.kernel (SocketsOps.getLocalAddr sockfd));
  c ← gets next_object;
  _ ← modify (set_next_object (S c));
  let conn := newTcpConnection connName sockfd localAddr peerAddr in
  _ ← modify (λ w, set_objects (<[c := (connName, conn)]> (objects w)) w);
  _ ← modify (set_connection (Some c));
  on_conn c srv_connectEstablished.

(** The close callback. *)
Definition removeConnection (c : nat) : st t unit :=
  _ ← on_connector Connector.assertInLoopThread;
  connection ← gets connection_;
  _ ← lift (cassert (bool_decide (connection = Some c)));
  _ ← modify (set_connection None);
  _ ← modify (λ w, set_destroys (destroys w ++ [c]) w);
  retry ← gets retry_;
  connect ← gets connect_;
  if retry && connect then on_connector Connector.restart else mret ().

Definition connect (inLoop : bool) : st t unit :=
  _ ← modify (set_connect true);
  on_connector (Connector.start inLoop).

Definition disconnect : st t unit :=
  _ ← modify (set_connect false);
  connection ← gets connection_;
  match connection with
  | Some c => on_conn c shutdown
  | None => mret ()
  end.

Definition stop : st t unit :=
  _ ← modify (set_connect false);
  on_connector Connector.stop.

(** The destructor: [unique] is [connection_.unique()].  The close callback is replaced by
    one that only destroys the connection. *)
Definition destroy (unique : bool) : st t unit :=
  connection ← gets connection_;
  match connection with
  | Some c => if unique then on_conn c forceClose else mret ()
  | None => on_connector Connector.stop
  end.

(** ** Runs *)

(** The connector runs, and calls the new connection callback for what it has handed
    over. *)
Fixpoint new_connections (fds : list Z) : st t unit :=
  match fds with
  | [] => mret ()
  | fd :: fds' => _ ← newConnection fd; new_connections fds'
  end.

Definition run_connector (m : st (Connector.t L K) unit) : st t unit :=
  before ← gets (Connector.handed ∘ connector_);
  _ ← on_connector m;
  after ← gets (Connector.handed ∘ connector_);
  new_connections (drop (length before) after).

Inductive event :=
  | Connect (inLoop : bool)
  | Disconnect
  | Stop
  | EnableRetry
  | RunFunctor
  | Alarm
  | Ready (revents : Z)
  | Change (c : nat) (conn : C)
  | Close (c : nat) (conn : C)
  | RunDestroy.

Definition put_conn (c : nat) (conn : C) : st t unit := on_conn c (λ _, Ok conn).

Definition run_event (e : event) : st t unit :=
  match e with
  | Connect inLoop => connect inLoop
  | Disconnect => disconnect
  | Stop => stop
  | EnableRetry => modify enableRetry
  | RunFunctor => run_connector (Connector.run_event Connector.RunFunctor)
  | Alarm => run_connector (Connector.run_event Connector.Alarm)
  | Ready revents => run_connector (Connector.run_event (Connector.Ready revents))
  | Change c conn => put_conn c conn
  | Close c conn => _ ← put_conn c conn; removeConnection c
  | RunDestroy =>
      q ← gets destroys;
      match q with
      | [] => mret ()
      | c :: q' => _ ← modify (set_destroys q'); on_conn c srv_connectDestroyed
      end
  end.

Fixpoint run_events (es : list event) : st t unit :=
  match es with
  | [] => mret ()
  | e :: es' => _ ← run_event e; run_events es'
  end.

End TcpClient.
#[global] Arguments t L K C : clear implicits.
#[global] Arguments event C : clear implicits.
End TcpClient.

(** ** What the connector hands over *)
Section Handed.
Import Connector.
Context {L K : Type} `{CL : ChannelLoop L, SY : Sys K}.
Implicit Types w : Connector.t L K.

Definition keeps {A} (m : st (Connector.t L K) A) : Prop := ∀ w x w', m w = Ok (x, w') → handed w' = handed w.

Lemma keeps_ret {A} (x : A) : keeps (mret x).
Proof. by intros w y w' [= _ <-]. Qed.
Lemma keeps_gets {A} (f : Connector.t L K → A) : keeps (gets f).
Proof. by intros w y w' [= _ <-]. Qed.
Lemma keeps_modify f : (∀ w, handed (f w) = handed w) → keeps (modify f).
Proof. intros Hf w y w' [= <- <-]. apply Hf. Qed.
Lemma keeps_bind {A B} (m : st (Connector.t L K) A) (k : A → st (Connector.t L K) B) :
  keeps m → (∀ x, keeps (k x)) → keeps (m ≫= k).
Proof. intros Hm Hk w x w' (y & w1 & H1 & H2)%st_bind_Ok. by rewrite (Hk _ _ _ _ H2), (Hm _ _ _ H1). Qed.
Lemma keeps_kernel {A} (m : st K A) : keeps (kernel m).
Proof. intros w x w'. unfold kernel, zoom. destruct (m (sys_ w)) as [[]|]; [|done]. by intros [= _ <-]. Qed.
Lemma keeps_lift {A} (m : res A) : keeps (lift m).
Proof. intros w x w'. unfold lift. destruct m; [|done]. by intros [= _ <-]. Qed.
Lemma keeps_deref {A} (o : option A) : keeps (deref o).
Proof. destruct o; [apply keeps_ret|]. by intros w x w'. Qed.
Lemma keeps_thread : keeps assertInLoopThread.
Proof. intros w x w'. unfold assertInLoopThread. destruct (isInLoopThread _); [|done]. by intros [= _ <-]. Qed.
Lemma keeps_channel op : keeps (on_channel op).
Proof.
  intros w x w'. unfold on_channel. destruct (channel_ w); [|done]. destruct (op _ _) as [[]|]; [|done]. by intros [= _ <-].
Qed.
Lemma keeps_reset : keeps resetChannel.
Proof.
  intros w x w'. unfold resetChannel. destruct (channel_ w); [|by intros [= _ <-]].
  destruct (ChannelOps.destroy _ _); [|done]. by intros [= _ <-].
Qed.

Ltac keep :=
  repeat first
    [ apply keeps_bind; [|intros ?] | apply keeps_ret | apply keeps_gets | apply keeps_kernel | apply keeps_lift
    | apply keeps_deref | apply keeps_thread | apply keeps_channel | apply keeps_reset
    | apply keeps_modify; intros ?; done
    | progress cbv zeta
    | match goal with |- keeps (match ?b with _ => _ end) => destruct b end ].

Lemma keeps_retry fd : keeps (retry fd).
Proof. unfold retry, LOG. keep. Qed.
Lemma keeps_startInLoop : keeps startInLoop.
Proof. unfold startInLoop, Connector.connect, connecting, retry, LOG. keep. Qed.
Lemma keeps_remove : keeps removeAndResetChannel.
Proof. unfold removeAndResetChannel, queueInLoop. keep. Qed.
Lemma keeps_handleError : keeps handleError.
Proof. unfold handleError, LOG. keep; apply keeps_remove || apply keeps_retry. Qed.
Lemma keeps_start b : keeps (start b).
Proof. unfold start, queueInLoop. keep; apply keeps_startInLoop. Qed.
Lemma keeps_restart : keeps restart.
Proof. unfold restart. keep; apply keeps_startInLoop. Qed.
Lemma keeps_functor : keeps (run_event RunFunctor).
Proof.
  cbn [run_event]. unfold run_task, stopInLoop. keep; first [apply keeps_startInLoop|apply keeps_remove|apply keeps_retry].
Qed.
Lemma keeps_alarm : keeps (run_event Alarm).
Proof. cbn [run_event]. keep; apply keeps_startInLoop. Qed.

Definition hands w w' : Prop := handed w' = handed w ∨ ∃ fd, handed w' = handed w ++ [fd] ∧ state_ w' = kConnected.

Lemma handleWrite_hands w w' : handleWrite w = Ok ((), w') → hands w w'.
Proof.
  unfold handleWrite. intros (s & w1 & [= <- <-] & H)%st_bind_Ok. case_bool_decide.
  2:{ left. by eapply (keeps_lift _ w). }
  apply st_bind_Ok in H as (fd & w2 & H1%keeps_remove & H). apply st_bind_Ok in H as (e & w3 & H2%keeps_kernel & H).
  destruct (negb _).
  { left. rewrite <-H1, <-H2. eapply (keeps_bind LOG); [apply keeps_kernel|intros; apply keeps_retry|exact H]. }
  apply st_bind_Ok in H as (self & w4 & H3%keeps_kernel & H). destruct self.
  { left. rewrite <-H1, <-H2, <-H3. eapply (keeps_bind LOG); [apply keeps_kernel|intros; apply keeps_retry|exact H]. }
  apply st_bind_Ok in H as ([] & w5 & [= <-] & H). apply st_bind_Ok in H as (c & w6 & [= <- <-] & H). destruct (connect_ _).
  - injection H as <-. right. exists fd. cbn. by rewrite H3, H2, H1.
  - left. apply keeps_kernel in H. cbn in H. congruence.
Qed.

Lemma call_cases (b : bool) (m : st (Connector.t L K) unit) w w' :
  (if b then ChannelOps.call (callback m) w else mret w) = Ok w' → w' = w ∨ m w = Ok ((), w').
Proof.
  destruct b; [|intros [= <-]; by left]. unfold ChannelOps.call, callback. cbn. destruct (m w) as [[[] w1]|]; [|done].
  intros [= <-]. by right.
Qed.

Lemma ready_hands rev w w' : run_event (Ready rev) w = Ok ((), w') → hands w w'.
Proof.
  cbn [run_event]. set (w0 := put_channel w _). assert (handed w0 = handed w) as E0 by done.
  destruct (handleEvent 0 w0) as [w1|] eqn:He; [|done]. cbn. intros [= <-]. unfold hands. rewrite <-E0. clearbody w0. clear E0.
  unfold handleEvent, ChannelOps.handleEvent in He. destruct (Channel.tied_ _); [injection He as <-; by left|].
  unfold ChannelOps.handleEventWithGuard in He. cbv zeta in He. set (w2 := put_channel w0 _) in He.
  assert (handed w2 = handed w0) as E2 by done. rewrite <-E2. clearbody w2. clear E2.
  replace (if has _ EPOLLHUP && _ then ChannelOps.call None w2 else mret w2) with (@Ok (Connector.t L K) w2) in He by (by destruct (_ && _)).
  cbn [mbind res_bind] in He.
  match type of He with mbind _ ?x = _ => destruct x as [w3|] eqn:E3; [|done] end.
  assert (handed w3 = handed w2) as <-.
  { apply call_cases in E3 as [->|E3%keeps_handleError]; done. }
  clear E3. cbn [mbind res_bind] in He.
  match type of He with mbind _ ?x = _ => replace x with (@Ok (Connector.t L K) w3) in He by (by destruct (has _ (Z.lor _ _))) end.
  cbn [mbind res_bind] in He.
  match type of He with mbind _ ?x = _ => destruct x as [w4|] eqn:E4; [|done] end.
  injection He as <-. apply call_cases in E4 as [->|E4%handleWrite_hands]; [by left|exact E4].
Qed.
End Handed.

(** ** The client *)
Section Client.
Import TcpClient.
Context {L K C : Type} `{CL : ChannelLoop L, CLL : !ChannelLoopLaws L CL, LI : !ChannelLife L CL CLL,
  SY : Sys K, SO : !SysOpen K SY, SC : Served C, SCL : !ServedLaws C SC}.
Variable shutdown : C → res C.
Variable newTcpConnection : string → Z → sockaddr_in → sockaddr_in → C.
Hypothesis Hnew : ∀ name fd local peer, srv_new (newTcpConnection name fd local peer).
Implicit Types (w : TcpClient.t L K C) (O : Z → Prop).

(** An open connection is the current one; the others wait to be destroyed, or are. *)
Record client_inv O w : Prop := {
  ci_connector : Connector.inv false O (connector_ w);
  ci_id : nextConnId_ w = Z.of_nat (next_object w);
  ci_count : next_object w = S (length (Connector.handed (connector_ w)));
  ci_current c : connection_ w = Some c →
    Connector.state_ (connector_ w) = Connector.kConnected ∧ (∃ o, objects w !! c = Some o) ∧ c ∉ destroys w;
  ci_open c o : objects w !! c = Some o → srv_open o.2 = true → connection_ w = Some c;
  ci_down c : c ∈ destroys w → ∃ o, objects w !! c = Some o ∧ srv_down o.2;
  ci_once : NoDup (destroys w);
  ci_objects c : (∃ o, objects w !! c = Some o) ↔ (1 <= c < next_object w)%nat
}.

Lemma toIpPort_total a : ∃ s, InetAddress.toIpPort a = Ok s.
Proof.
  destruct (decide (sin_family a = AF_INET)) as [Hf|Hf]; [eexists; by apply toIpPort_text|].
  unfold InetAddress.toIpPort, sockets.toIpPort, sockets.toIp. apply Z.eqb_neq in Hf. rewrite Hf. by eexists.
Qed.

Lemma quiet_getPeerAddr fd : Connector.quiet (SocketsOps.getPeerAddr fd).
Proof.
  unfold SocketsOps.getPeerAddr. apply quiet_bind; [apply quiet_sys; intros; apply getpeername_open|].
  intros [r a]. apply quiet_ret.
Qed.

Lemma quiet_getLocalAddr fd : Connector.quiet (SocketsOps.getLocalAddr fd).
Proof.
  unfold SocketsOps.getLocalAddr. apply quiet_bind; [apply quiet_sys; intros; apply getsockname_open|].
  intros [r a]. apply quiet_ret.
Qed.

Lemma connector_run_op {A} (m : st (Connector.t L K) A) w x v :
  m (connector_ w) = Ok (x, v) → on_connector m w = Ok (x, set_connector v w).
Proof. intros Hm. by apply zoom_Ok. Qed.

Lemma conn_op_run c op w o x : objects w !! c = Some o → op o.2 = Ok x →
  on_conn c op w = Ok ((), set_objects (<[c := (o.1, x)]> (objects w)) w).
Proof. intros Ho Hop. eapply on_object_Ok; [done|]. by rewrite Hop. Qed.

Lemma in_thread O v : Connector.inv false O v → Connector.assertInLoopThread v = Ok ((), v).
Proof.
  intros (h & fd & Hc & _). unfold Connector.assertInLoopThread. by rewrite (env_in _ _ (com_env _ _ _ _ Hc)).
Qed.

Lemma set_connector_self w : set_connector (connector_ w) w = w.
Proof. by destruct w. Qed.

(** A quiet call of the kernel. *)
Lemma kernel_quiet {A} (m : st K A) O w :
  Connector.quiet m → Connector.inv false O (connector_ w) →
  ∃ x k, on_connector (Connector.kernel m) w = Ok (x, set_connector (Connector.set_sys k (connector_ w)) w) ∧
    Connector.inv false O (Connector.set_sys k (connector_ w)).
Proof.
  intros Hq Hi. destruct (quiet_run m (connector_ w) Hq) as (x & k & E & Hk). exists x, k.
  split; [by apply connector_run_op|by apply inv_quiet].
Qed.

(** Just after the connector has called back. *)
Record called_back O w : Prop := {
  cb_connector : Connector.inv false O (connector_ w);
  cb_state : Connector.state_ (connector_ w) = Connector.kConnected;
  cb_none : connection_ w = None;
  cb_id : nextConnId_ w = Z.of_nat (next_object w);
  cb_room : 1 <= nextConnId_ w < 2 ^ 31 - 1;
  cb_count : next_object w = length (Connector.handed (connector_ w));
  cb_open c o : objects w !! c = Some o → srv_open o.2 = false;
  cb_down c : c ∈ destroys w → ∃ o, objects w !! c = Some o ∧ srv_down o.2;
  cb_once : NoDup (destroys w);
  cb_objects c : (∃ o, objects w !! c = Some o) ↔ (1 <= c < next_object w)%nat
}.

Lemma client_new_inv O fd w :
  called_back O w →
  ∃ w', newConnection newTcpConnection fd w = Ok ((), w') ∧ client_inv O w'.
Proof.
  intros [B1 B2 B3 B4 B5 B6 B7 B8 B9 B10]. unfold newConnection.
  rewrite (st_bind_run _ _ _ _ _ (connector_run_op _ w _ _ (in_thread O _ B1))), set_connector_self.
  destruct (kernel_quiet _ O w (quiet_getPeerAddr fd) B1) as (peer & k1 & E1 & Hi1). rewrite (st_bind_run _ _ _ _ _ E1). clear E1.
  set (v1 := Connector.set_sys k1 (connector_ w)) in *.
  destruct (toIpPort_total peer) as (ip & Eip). rewrite Eip. rewrite (st_bind_run (lift (Ok ip)) _ _ ip _ eq_refl), run_gets.
  cbn [nextConnId_ set_connector]. replace (nextConnId_ w =? 2 ^ 31 - 1) with false by lia. rewrite run_modify, run_gets.
  set (w1 := set_nextConnId _ (set_connector v1 w)).
  destruct (kernel_quiet _ O w1 (quiet_getLocalAddr fd) Hi1) as (local & k2 & E2 & Hi2). rewrite (st_bind_run _ _ _ _ _ E2). clear E2.
  rewrite run_gets, !run_modify. set (v2 := Connector.set_sys k2 (connector_ w1)) in *.
  set (c := next_object (set_connector v2 w1)). change (next_object w) with c in B4, B6, B10.
  set (name := (name_ w1 +:+ _)%string). set (x := newTcpConnection name fd local peer).
  destruct (established_law x (Hnew _ _ _ _)) as (x' & Ex).
  eexists. split; [eapply (conn_op_run c _ _ (name, x)); [apply lookup_insert_eq|exact Ex]|].
  assert (objects w !! c = None) as Hc.
  { destruct (objects w !! c) eqn:E; [|done]. assert (1 <= c < c)%nat; [|lia]. apply B10. by eexists. }
  split; cbn [connector_ set_objects set_connection set_next_object set_connector nextConnId_ set_nextConnId connection_
    next_object objects destroys fst].
  - done.
  - unfold w1. cbn [nextConnId_ set_nextConnId set_connector]. lia.
  - change (Connector.handed v2) with (Connector.handed (connector_ w)). lia.
  - intros c' [= <-]. split_and!; [exact B2|rewrite lookup_insert_eq; by eexists|].
    intros Hd. destruct (B8 c Hd) as (o & Ho & _). by rewrite Hc in Ho.
  - intros c' o. rewrite insert_insert_eq, lookup_insert_Some. intros [[<- <-]|[_ Ho]]; [done|]. cbn in Ho.
    rewrite (B7 _ _ Ho). done.
  - intros c' Hd. destruct (B8 _ Hd) as (o & Ho & Hdn). exists o. split; [|done].
    rewrite !lookup_insert_ne by (intros <-; by rewrite Hc in Ho). done.
  - done.
  - intros c'. rewrite insert_insert_eq. destruct (decide (c = c')) as [<-|Hne].
    + rewrite lookup_insert_eq. split; [intros _; lia|by eexists].
    + rewrite lookup_insert_ne by done. etrans; [apply B10|]. lia.
Qed.

(** The connector ran and handed nothing over. *)
Lemma client_keep O w v :
  client_inv O w → Connector.inv false O v → Connector.handed v = Connector.handed (connector_ w) →
  (∀ c, connection_ w = Some c → Connector.state_ v = Connector.kConnected) → client_inv O (set_connector v w).
Proof.
  intros [H1 H2 H3 H4 H5 H6 H7 H8] Hv Hh Hc. split; try done; cbn [connector_ set_connector connection_ next_object].
  - by rewrite Hh.
  - intros c E. destruct (H4 c E) as (_ & ? & ?). split_and!; [by eapply Hc|done..].
Qed.

Definition client_outcome O w (r : res (unit * TcpClient.t L K C)) : Prop :=
  (∃ w', r = Ok ((), w') ∧ client_inv O w') ∨ (r = Fault Fatal ∧ no_descriptor (connector_ w)).

(** An operation of the connector that hands nothing over. *)
Lemma connector_outcome O w m :
  client_inv O w → outcome O (connector_ w) (m (connector_ w)) → keeps m →
  (∀ v c, m (connector_ w) = Ok ((), v) → connection_ w = Some c → Connector.state_ v = Connector.kConnected) →
  client_outcome O w (on_connector m w) ∧ client_outcome O w (run_connector newTcpConnection m w).
Proof.
  intros Hi [(v & E & Hv)|[E Hno]] Hk Hs.
  - pose proof (Hk _ _ _ E) as Hh. pose proof (client_keep O w v Hi Hv Hh (λ c, Hs v c E)) as Hi'.
    split; left; exists (set_connector v w); (split; [|done]); [by apply connector_run_op|].
    unfold run_connector. rewrite run_gets, (st_bind_run _ _ _ _ _ (connector_run_op m w _ _ E)), run_gets.
    unfold compose. cbn [connector_ set_connector]. rewrite Hh, drop_all. done.
  - split; right; (split; [|done]); [unfold on_connector, zoom; by rewrite E|].
    unfold run_connector. rewrite run_gets. unfold mbind at 1, st_bind, on_connector, zoom. by rewrite E.
Qed.

Lemma connected_stays_functor O v v' :
  Connector.inv false O v → Connector.state_ v = Connector.kConnected →
  Connector.run_event Connector.RunFunctor v = Ok ((), v') → Connector.state_ v' = Connector.kConnected.
Proof.
  intros Hi Hst. pose proof (in_thread O v Hi) as Ht. destruct Hi as (h & fd & Hc & Hs). cbn [Connector.run_event]. rewrite run_gets.
  destruct (Connector.pending v) as [|f q] eqn:Eq; [by intros [= <-]|]. rewrite run_modify.
  unfold sched in Hs. rewrite Hst in Hs. destruct Hs as (_ & _ & H0 & _). specialize (H0 eq_refl).
  pose proof (n_of_cons Connector.StartInLoop f q v (Connector.set_pending q v) Eq eq_refl) as Hn. destruct f; cbn [Connector.run_task].
  - unfold starts in H0. rewrite Hn, decide_True in H0 by done. lia.
  - unfold Connector.stopInLoop.
    assert (Connector.assertInLoopThread (Connector.set_pending q v) = Ok ((), Connector.set_pending q v)) as Et.
    { unfold Connector.assertInLoopThread in *. cbn [Connector.loop_ Connector.set_pending].
      by destruct (isInLoopThread (Connector.loop_ v)). }
    rewrite (st_bind_run _ _ _ _ _ Et), run_gets. cbn [Connector.state_ Connector.set_pending].
    rewrite Hst, bool_decide_false by done. by intros [= <-].
  - unfold Connector.resetChannel. destruct (Connector.channel_ _); [|by intros [= <-]].
    destruct (ChannelOps.destroy _ _); [|done]. by intros [= <-].
Qed.

Lemma connected_stays_alarm O v v' :
  Connector.inv false O v → Connector.state_ v = Connector.kConnected →
  Connector.run_event Connector.Alarm v = Ok ((), v') → Connector.state_ v' = Connector.kConnected.
Proof.
  intros (h & fd & Hc & Hs) Hst. unfold sched in Hs. rewrite Hst in Hs. destruct Hs as (_ & _ & H0 & _). specialize (H0 eq_refl).
  cbn [Connector.run_event]. rewrite run_gets. unfold starts in H0. destruct (Connector.timers v); [by intros [= <-]|]. cbn in H0. lia.
Qed.

(** What the environment respects: as for the connector, and only an open connection
    changes or closes, in a later round of the loop than the one that made it. *)
Definition client_legal (e : event C) w : Prop :=
  match e with
  | Connect b => legal (Connector.Start b) (connector_ w)
  | Disconnect => ∀ c o, connection_ w = Some c → objects w !! c = Some o → ∃ x, shutdown o.2 = Ok x
  | Stop | EnableRetry | RunDestroy => True
  | RunFunctor => legal Connector.RunFunctor (connector_ w)
  | Alarm => legal Connector.Alarm (connector_ w)
  | Ready rev => legal (Connector.Ready rev) (connector_ w) ∧ nextConnId_ w < 2 ^ 31 - 1
  | Change c _ => ∃ o, objects w !! c = Some o ∧ srv_open o.2 = true
  | Close c x => (∃ o, objects w !! c = Some o ∧ srv_open o.2 = true) ∧ srv_down x ∧
      n_of Connector.ResetChannel (connector_ w) = 0%nat
  end.

(** The current connection has another state. *)
Lemma client_change_inv O w c o x :
  client_inv O w → connection_ w = Some c → objects w !! c = Some o →
  client_inv O (set_objects (<[c := (o.1, x)]> (objects w)) w).
Proof.
  intros [H1 H2 H3 H4 H5 H6 H7 H8] Hc Ho. destruct (H4 c Hc) as (Hst & _ & Hnd). split; try done; cbn [objects set_objects connection_ destroys next_object].
  - intros c' E. simplify_eq. split_and!; [done| |done]. rewrite lookup_insert_eq. by eexists.
  - intros c' o'. rewrite lookup_insert_Some. intros [[<- _]|[_ Ho']]; [done|]. by eapply H5.
  - intros c' Hd. destruct (H6 c' Hd) as (o' & Ho' & ?). exists o'. rewrite lookup_insert_ne by (intros <-; done). done.
  - intros c'. rewrite <-H8. destruct (decide (c = c')) as [<-|]; [rewrite lookup_insert_eq|by rewrite lookup_insert_ne].
    split; intros _; by eexists.
Qed.

(** The close callback, before the reconnection. *)
Lemma closed_inv O w c o x :
  client_inv O w → connection_ w = Some c → objects w !! c = Some o → srv_down x →
  client_inv O (set_destroys (destroys w ++ [c]) (set_connection None (set_objects (<[c := (o.1, x)]> (objects w)) w))).
Proof.
  intros Hi Hc Ho Hx. pose proof (client_change_inv O w c o x Hi Hc Ho) as [H1 H2 H3 H4 H5 H6 H7 H8]. destruct (H4 c Hc) as (Hst & _ & Hnd).
  split; try done; cbn [objects set_objects connection_ destroys next_object set_destroys set_connection] in *.
  - intros c' o' Ho' Hop. pose proof (H5 c' o' Ho' Hop) as E. simplify_eq. rewrite lookup_insert_eq in Ho'. simplify_eq. cbn in Hop.
    by rewrite (down_closed _ Hx) in Hop.
  - intros c' [Hd| ->%list_elem_of_singleton]%elem_of_app; [by apply H6|]. exists (o.1, x). by rewrite lookup_insert_eq.
  - apply NoDup_app. split_and!; [done| |apply NoDup_singleton]. by intros c' Hd ->%list_elem_of_singleton.
Qed.

Lemma client_close_inv O w c x :
  client_inv O w → client_legal (Close c x) w → client_outcome O w (run_event shutdown newTcpConnection (Close c x) w).
Proof.
  intros Hi ((o & Ho & Hop) & Hx & Hr). pose proof (ci_open _ _ Hi c o Ho Hop) as Hc. cbn [run_event]. unfold put_conn.
  rewrite (st_bind_run _ _ _ _ _ (conn_op_run c (λ _, Ok x) w o x Ho eq_refl)).
  pose proof (closed_inv O w c o x Hi Hc Ho Hx) as Hi2. unfold removeConnection. set (w1 := set_objects _ w) in *.
  rewrite (st_bind_run _ _ _ _ _ (connector_run_op _ w1 _ _ (in_thread O (connector_ w1) (ci_connector _ _ Hi)))), (set_connector_self w1), run_gets.
  change (connection_ w1) with (connection_ w). rewrite Hc, bool_decide_true by done. change (lift (cassert true)) with (@lift (TcpClient.t L K C) unit (Ok ())).
  rewrite (st_bind_run (lift (Ok ())) _ _ () _ eq_refl), !run_modify, !run_gets. set (w2 := set_destroys _ _) in *.
  destruct (retry_ w2 && TcpClient.connect_ w2); [|left; by exists w2].
  change (connector_ w) with (connector_ w2) in Hr.
  apply (connector_outcome O w2 Connector.restart Hi2).
  - apply (restart_inv O (connector_ w2) (ci_connector _ _ Hi2)). split; [|exact Hr]. apply (ci_current _ _ Hi c Hc).
  - apply keeps_restart.
  - done.
Qed.

Lemma ready_client O w rev :
  client_inv O w → client_legal (Ready rev) w → client_outcome O w (run_event shutdown newTcpConnection (Ready rev) w).
Proof.
  intros Hi [Hl Hid]. pose proof Hl as [Hst _]. destruct (ready_inv O rev (connector_ w) (ci_connector _ _ Hi) Hl) as [(v & E & Hv)|[E Hno]].
  2:{ right. split; [|done]. cbn [run_event]. unfold run_connector. rewrite run_gets. unfold mbind at 1, st_bind, on_connector, zoom. by rewrite E. }
  left. cbn [run_event]. unfold run_connector.
  rewrite run_gets, (st_bind_run _ _ _ _ _ (connector_run_op _ w _ _ E)), run_gets. unfold compose. cbn [connector_ set_connector].
  assert (connection_ w = None) as Hc.
  { destruct (connection_ w) eqn:Ec; [|done]. destruct (ci_current _ _ Hi _ Ec) as (? & _). congruence. }
  destruct (ready_hands _ _ _ E) as [Hh|(fd & Hh & Hsv)]; rewrite Hh.
  - rewrite drop_all. eexists. split; [reflexivity|]. apply client_keep; [done..|]. congruence.
  - rewrite drop_app_length. cbn [new_connections].
    destruct (client_new_inv O fd (set_connector v w)) as (w' & E2 & Hi').
    { destruct Hi as [H1 H2 H3 H4 H5 H6 H7 H8]. split; cbn; try done; [lia| |].
      - rewrite Hh, length_app. cbn. lia.
      - intros c o Ho. destruct (srv_open o.2) eqn:Eo; [|done]. pose proof (H5 c o Ho Eo). congruence. }
    exists w'. split; [|done]. by rewrite (st_bind_run _ _ _ _ _ E2).
Qed.

Lemma destroy_inv O w : client_inv O w → client_outcome O w (run_event shutdown newTcpConnection RunDestroy w).
Proof.
  intros Hi. left. cbn [run_event]. rewrite run_gets. destruct (destroys w) as [|c q] eqn:Eq; [by exists w|]. rewrite run_modify.
  destruct Hi as [H1 H2 H3 H4 H5 H6 H7 H8]. destruct (H6 c) as (o & Ho & Hd); [rewrite Eq; apply list_elem_of_here|].
  destruct (destroyed_law _ Hd) as (x & Ex & Hx). eexists. split; [by eapply (conn_op_run c)|]. rewrite Eq in *.
  apply NoDup_cons in H7 as [Hnin Hnd]. split; try done; cbn [objects set_objects connection_ destroys next_object set_destroys].
  - intros c' E. destruct (H4 c' E) as (? & (o' & Ho') & Hn). split_and!; [done| |set_solver].
    rewrite lookup_insert_ne by set_solver. by eexists.
  - intros c' o'. rewrite lookup_insert_Some. intros [[<- <-]|[_ Ho']]; [cbn; by rewrite Hx|]. by eapply H5.
  - intros c' Hc'. destruct (H6 c') as (o' & Ho' & ?); [set_solver|]. exists o'. rewrite lookup_insert_ne by set_solver. done.
  - intros c'. rewrite <-H8. destruct (decide (c = c')) as [<-|]; [rewrite lookup_insert_eq|by rewrite lookup_insert_ne].
    split; intros _; by eexists.
Qed.

Lemma client_event_inv O e w :
  client_inv O w → client_legal e w → client_outcome O w (run_event shutdown newTcpConnection e w).
Proof.
  intros Hi Hl. destruct e as [b| | | | | |rev|c x|c x|].
  - cbn [run_event]. unfold TcpClient.connect. rewrite run_modify.
    assert (client_inv O (set_connect true w)) as Hi' by (by destruct Hi; split).
    apply (connector_outcome O (set_connect true w) (Connector.start b) Hi').
    + exact (start_inv_client O b (connector_ w) (ci_connector _ _ Hi) Hl).
    + apply keeps_start.
    + intros v c _ Hc. destruct (ci_current _ _ Hi c Hc) as (Hst & _). destruct Hl as [Hst' _]. congruence.
  - left. cbn [run_event]. unfold disconnect. rewrite run_modify, run_gets. cbn [connection_ set_connect].
    assert (client_inv O (set_connect false w)) as Hi' by (by destruct Hi; split).
    destruct (connection_ w) as [c|] eqn:Ec; [|by exists (set_connect false w)].
    destruct (ci_current _ _ Hi c Ec) as (_ & (o & Ho) & _). destruct (Hl c o Ec Ho) as (x & Ex).
    eexists. split; [by eapply (conn_op_run c)|]. by apply client_change_inv.
  - cbn [run_event]. unfold TcpClient.stop. rewrite run_modify.
    assert (client_inv O (set_connect false w)) as Hi' by (by destruct Hi; split).
    apply (connector_outcome O (set_connect false w) Connector.stop Hi').
    + exact (stop_inv O (connector_ w) (ci_connector _ _ Hi)).
    + by intros v x v' [= _ <-].
    + intros v c [= <-] Hc. apply (ci_current _ _ Hi c Hc).
  - left. exists (enableRetry w). split; [done|]. by destruct Hi; split.
  - apply (connector_outcome O w _ Hi); [exact (connector_functor_inv O _ (ci_connector _ _ Hi) Hl)|apply keeps_functor|].
    intros v c E Hc. eapply connected_stays_functor; [apply Hi| |exact E]. apply (ci_current _ _ Hi c Hc).
  - apply (connector_outcome O w _ Hi); [exact (alarm_inv O _ (ci_connector _ _ Hi) Hl)|apply keeps_alarm|].
    intros v c E Hc. eapply connected_stays_alarm; [apply Hi| |exact E]. apply (ci_current _ _ Hi c Hc).
  - by apply ready_client.
  - left. destruct Hl as (o & Ho & Hop). eexists. split; [by apply (conn_op_run c (λ _, Ok x) w o x)|].
    apply client_change_inv; [done| |done]. by apply (ci_open _ _ Hi c o).
  - by apply client_close_inv.
  - by apply destroy_inv.
Qed.

Fixpoint client_legal_run (es : list (event C)) w : Prop :=
  match es with
  | [] => True
  | e :: es' => client_legal e w ∧ ∀ w', run_event shutdown newTcpConnection e w = Ok ((), w') → client_legal_run es' w'
  end.

Lemma client_events_inv O es w :
  client_inv O w → client_legal_run es w →
  (∃ w', run_events shutdown newTcpConnection es w = Ok ((), w') ∧ client_inv O w') ∨
  (run_events shutdown newTcpConnection es w = Fault Fatal ∧
   ∃ es1 e es2 w1, es = es1 ++ e :: es2 ∧ run_events shutdown newTcpConnection es1 w = Ok ((), w1) ∧
     no_descriptor (connector_ w1)).
Proof.
  revert w. induction es as [|e es IH]; intros w Hi Hl; [left; by exists w|]. destruct Hl as [He Hl].
  cbn [run_events]. destruct (client_event_inv O e w Hi He) as [(w1 & E & Hi1)|[E Hno]].
  - rewrite (st_bind_run _ _ _ _ _ E). destruct (IH w1 Hi1 (Hl w1 E)) as [|(Ef & es1 & e' & es2 & w2 & -> & E2 & Hno)]; [by left|].
    right. split; [done|]. exists (e :: es1), e', es2, w2. split_and!; [done| |done]. cbn [run_events].
    by rewrite (st_bind_run _ _ _ _ _ E).
  - right. split; [unfold mbind at 1, st_bind; by rewrite E|]. by exists [], e, es, w.
Qed.

(** C29 (invariant). The client of a server, with its connector: any order of calls of
    [connect], [disconnect] and [stop], of alarms, functors, kernel events and closing
    connections that respects [client_legal] runs without a failed assertion (unless
    socket(2) has no descriptor left).  There is at most one open connection, the one
    that [connection()] returns, and only while the connector is connected; every
    descriptor that was opened is handed to exactly one connection, or is closed, or is
    the one being connected; a connection that closed is queued for destruction exactly
    once, and with [retry_] the connector starts again. *)
Theorem client_run l k loop addr server name h es :
  loop_inv l h → isInLoopThread l = true → loop_self l = loop → (∀ a, (addr <= a)%positive → h !! a = None) →
  (∀ a c, h !! a = Some c → ¬ unregistered c → is_open k (Channel.fd_ c)) →
  client_legal_run es (make l k loop addr server name) →
  (∃ w, run_events shutdown newTcpConnection es (make l k loop addr server name) = Ok ((), w) ∧
    let v := connector_ w in
    (∀ c o, objects w !! c = Some o → srv_open o.2 = true → connection_ w = Some c) ∧
    (∀ c, connection_ w = Some c → Connector.state_ v = Connector.kConnected) ∧
    next_object w = S (length (Connector.handed v)) ∧ NoDup (Connector.handed v) ∧ NoDup (destroys w) ∧
    (∀ d, is_open (Connector.sys_ v) d ↔ is_open k d ∨ d ∈ Connector.handed v ∨
       Connector.state_ v = Connector.kConnecting ∧ Channel.fd_ <$> Connector.channel_ v = Some d)) ∨
  (run_events shutdown newTcpConnection es (make l k loop addr server name) = Fault Fatal ∧
   ∃ es1 e es2 w1, es = es1 ++ e :: es2 ∧
     run_events shutdown newTcpConnection es1 (make l k loop addr server name) = Ok ((), w1) ∧
     no_descriptor (connector_ w1)).
Proof.
  intros H1 H2 H3 H4 H5 Hl. destruct (client_events_inv (is_open k) es (make l k loop addr server name)) as [(w & E & Hi)|]; [|done| |by right].
  { split; cbn; try done; [by eapply make_inv_client|by intros c ?%elem_of_nil|apply NoDup_nil_2|].
    intros c. split; [by intros (o & Ho)|lia]. }
  left. exists w. split; [done|]. cbv zeta. destruct Hi as [C1 C2 C3 C4 C5 C6 C7 C8].
  pose proof (inv_open _ _ C1) as [Hop Hnd]. split_and!; try done. by intros c (? & _)%C4.
Qed.
End Client.

Section Witness.
Import TcpClient ToyNet ToyEpoll ToyEventfd.
#[local] Existing Instance toy_served.
#[local] Existing Instance toy_served_laws.

Definition toy_tcp_client (answers : list Z) : TcpClient.t (EventLoop.t interest_list N unit) ToyNet.t toy :=
  make toy_client_loop (ToyNet.mk 0 answers [2; 1; 0]) 1 2 toy_server "Client".

(** A connection is made, lost, and made again at once. *)
Definition toy_session : list (event toy) :=
  [EnableRetry; Connect false; RunFunctor; Ready EPOLLOUT; RunFunctor; Close 1 TDown; RunDestroy; Ready EPOLLOUT].

Definition toy_shutdown (c : toy) : res toy := Ok c.
Definition toy_conn_new (_ : string) (_ : Z) (_ _ : sockaddr_in) : toy := TNew.

Ltac next_client_event := split; [|intros ? Hrun; vm_compute in Hrun; injection Hrun as <-].

Lemma toy_session_legal :
  client_legal_run toy_shutdown toy_conn_new toy_session (toy_tcp_client [EINPROGRESS; EINPROGRESS]).
Proof.
  next_client_event; [exact I|]. next_client_event; [by vm_compute|]. next_client_event; [intros c ?; done|].
  next_client_event; [split; [split; [reflexivity|]; intros c _ Hh; vm_compute in Hh; discriminate|reflexivity]|].
  next_client_event; [intros c _ Hh; vm_compute in Hh; discriminate|].
  next_client_event; [split_and!; [by eexists|done|reflexivity]|]. next_client_event; [exact I|].
  next_client_event; [split; [split; [reflexivity|]; intros c _ Hh; vm_compute in Hh; discriminate|reflexivity]|].
  exact I.
Qed.

Lemma client_run_witness :
  ∃ w, run_events toy_shutdown toy_conn_new toy_session (toy_tcp_client [EINPROGRESS; EINPROGRESS]) = Ok ((), w) ∧
    connection_ w = Some 2%nat ∧ Connector.handed (connector_ w) = [3; 4] ∧
    (∀ c o, objects w !! c = Some o → srv_open o.2 = true → c = 2%nat) ∧
    fst <$> (objects w !! 2%nat) = Some "Client:127.0.0.1:8888#2"%string.
Proof.
  destruct (client_run (SCL := toy_served_laws) toy_shutdown toy_conn_new (λ _ _ _ _, eq_refl) toy_client_loop
    (ToyNet.mk 0 [EINPROGRESS; EINPROGRESS] [2; 1; 0]) 1 2 toy_server "Client" ∅ toy_session)
    as [(w & E & Ho & _)|[E _]].
  - apply toy_client_loop_ok.
  - reflexivity.
  - reflexivity.
  - done.
  - done.
  - apply toy_session_legal.
  - exists w. split; [exact E|]. vm_compute in E. injection E as <-. split_and!; [reflexivity|reflexivity| |reflexivity].
    intros c o Hc Hop. pose proof (Ho c o Hc Hop) as H. vm_compute in H. congruence.
  - vm_compute in E. discriminate E.
Defined.
End Witness.
