(* ===== verification/Mysql.v ===== *)
(** * MysqlUtil.h, MysqlUtil.cc: a connection to MySQL and the result of its last query

    The MySQL client library is a parameter: [MysqlClient] is its interface,
    [MysqlClientLaws] the documented behaviour of result sets the class relies on.
    A [Mysql] object keeps a cursor into its result; the main theorem says that the
    caching of the current row and of the field names is invisible: every access
    gives the cell of the table that the query returned. *)
From S2P Require Import Prelude Text State.

(** ** The client library

    [D] is the state of the servers and of the library, [MYSQL] a connection
    handle, [MYSQL_RES] a stored result.  A cell is [None] for SQL [NULL]. *)
Class MysqlClient (D : Type) := {
  MYSQL : Type;
  MYSQL_RES : Type;
  mysql_init : MYSQL;
  mysql_real_connect : string → string → string → option string → Z →
    D → MYSQL → bool * MYSQL * D;
  mysql_ping : D → MYSQL → Z * MYSQL * D;
  mysql_query : string → D → MYSQL → Z * MYSQL * D;
  mysql_store_result : D → MYSQL → option MYSQL_RES * MYSQL * D;
  mysql_next_result : D → MYSQL → Z * MYSQL * D;
  mysql_close : D → MYSQL → unit * MYSQL * D;
  mysql_error : MYSQL → string;
  mysql_errno : MYSQL → Z;
  mysql_affected_rows : MYSQL → Z;
  mysql_insert_id : MYSQL → Z;
  mysql_real_escape_string : MYSQL → list byte → list byte;
  mysql_num_fields : MYSQL_RES → Z;
  mysql_num_rows : MYSQL_RES → Z;
  mysql_data_seek : MYSQL_RES → Z → MYSQL_RES;
  mysql_fetch_row : MYSQL_RES → option (list (option string)) * MYSQL_RES;
  mysql_fetch_field : MYSQL_RES → option string * MYSQL_RES;
  mysql_fetch_lengths : MYSQL_RES → option (list Z)
}.

Definition cell_len (c : option string) : Z := match c with Some s => slen s | None => 0 end.

(** What the manual documents of a stored result: it is a table with a row cursor
    and a field cursor, both at the start when it is stored; rows are as wide as the
    list of fields; [mysql_fetch_lengths] describes the row fetched last. *)
Class MysqlClientLaws (D : Type) `{MysqlClient D} := {
  res_fields : MYSQL_RES → list string;
  res_rows : MYSQL_RES → list (list (option string));
  res_cursor : MYSQL_RES → nat;
  res_field_cursor : MYSQL_RES → nat;
  num_fields_spec r : mysql_num_fields r = zlen (res_fields r);
  num_rows_spec r : mysql_num_rows r = zlen (res_rows r);
  rows_width r row : row ∈ res_rows r → length row = length (res_fields r);
  fields_count r : zlen (res_fields r) < 2 ^ 31;
  rows_count r : zlen (res_rows r) < 2 ^ 31;
  data_seek_spec r i : 0 <= i < zlen (res_rows r) →
    let r' := mysql_data_seek r i in
    res_fields r' = res_fields r ∧ res_rows r' = res_rows r ∧
    res_cursor r' = Z.to_nat i ∧ res_field_cursor r' = res_field_cursor r;
  fetch_row_spec r row r' : mysql_fetch_row r = (row, r') →
    row = res_rows r !! res_cursor r ∧
    res_fields r' = res_fields r ∧ res_rows r' = res_rows r ∧
    res_field_cursor r' = res_field_cursor r ∧
    match row with
    | Some w => res_cursor r' = S (res_cursor r) ∧
                mysql_fetch_lengths r' = Some (map cell_len w)
    | None => res_cursor r' = res_cursor r
    end;
  fetch_field_spec r f r' : mysql_fetch_field r = (f, r') →
    f = res_fields r !! res_field_cursor r ∧
    res_fields r' = res_fields r ∧ res_rows r' = res_rows r ∧
    res_cursor r' = res_cursor r ∧ res_field_cursor r' = S (res_field_cursor r) ∧
    mysql_fetch_lengths r' = mysql_fetch_lengths r;
  store_result_fresh (d : D) h r h' d' : mysql_store_result d h = (Some r, h', d') →
    res_cursor r = 0%nat ∧ res_field_cursor r = 0%nat
}.

Module Mysql.
Section Mysql.
Context {D : Type} `{MC : MysqlClient D}.

(** [Mysql::MysqlProp].  A [char] array is the text before its NUL; [szNULL] is the
    constant empty string. *)
Record MysqlProp := mk {
  sErrMsg : string;
  szHost : string;
  szUser : string;
  szPass : string;
  szDB : string;
  iPort : Z;
  iField : Z;
  iRows : Z;
  connection : MYSQL;
  result : option MYSQL_RES;
  row : option (list (option string));
  FieldIndex : gmap string Z;
  FieldNameList : list string;
  bFieldIndexInitialized : bool;
  bConnected : bool;
  iRowNum : Z;
  iErrCode : Z
}.

Definition set_sErrMsg (p : MysqlProp) (v : string) : MysqlProp :=
  mk v (szHost p) (szUser p) (szPass p) (szDB p) (iPort p) (iField p) (iRows p)
     (connection p) (result p) (row p) (FieldIndex p) (FieldNameList p)
     (bFieldIndexInitialized p) (bConnected p) (iRowNum p) (iErrCode p).
Definition set_szHost (p : MysqlProp) (v : string) : MysqlProp :=
  mk (sErrMsg p) v (szUser p) (szPass p) (szDB p) (iPort p) (iField p) (iRows p)
     (connection p) (result p) (row p) (FieldIndex p) (FieldNameList p)
     (bFieldIndexInitialized p) (bConnected p) (iRowNum p) (iErrCode p).
Definition set_szUser (p : MysqlProp) (v : string) : MysqlProp :=
  mk (sErrMsg p) (szHost p) v (szPass p) (szDB p) (iPort p) (iField p) (iRows p)
     (connection p) (result p) (row p) (FieldIndex p) (FieldNameList p)
     (bFieldIndexInitialized p) (bConnected p) (iRowNum p) (iErrCode p).
Definition set_szPass (p : MysqlProp) (v : string) : MysqlProp :=
  mk (sErrMsg p) (szHost p) (szUser p) v (szDB p) (iPort p) (iField p) (iRows p)
     (connection p) (result p) (row p) (FieldIndex p) (FieldNameList p)
     (bFieldIndexInitialized p) (bConnected p) (iRowNum p) (iErrCode p).
Definition set_szDB (p : MysqlProp) (v : string) : MysqlProp :=
  mk (sErrMsg p) (szHost p) (szUser p) (szPass p) v (iPort p) (iField p) (iRows p)
     (connection p) (result p) (row p) (FieldIndex p) (FieldNameList p)
     (bFieldIndexInitialized p) (bConnected p) (iRowNum p) (iErrCode p).
Definition set_iPort (p : MysqlProp) (v : Z) : MysqlProp :=
  mk (sErrMsg p) (szHost p) (szUser p) (szPass p) (szDB p) v (iField p) (iRows p)
     (connection p) (result p) (row p) (FieldIndex p) (FieldNameList p)
     (bFieldIndexInitialized p) (bConnected p) (iRowNum p) (iErrCode p).
Definition set_iField (p : MysqlProp) (v : Z) : MysqlProp :=
  mk (sErrMsg p) (szHost p) (szUser p) (szPass p) (szDB p) (iPort p) v (iRows p)
     (connection p) (result p) (row p) (FieldIndex p) (FieldNameList p)
     (bFieldIndexInitialized p) (bConnected p) (iRowNum p) (iErrCode p).
Definition set_iRows (p : MysqlProp) (v : Z) : MysqlProp :=
  mk (sErrMsg p) (szHost p) (szUser p) (szPass p) (szDB p) (iPort p) (iField p) v
     (connection p) (result p) (row p) (FieldIndex p) (FieldNameList p)
     (bFieldIndexInitialized p) (bConnected p) (iRowNum p) (iErrCode p).
Definition set_connection (p : MysqlProp) (v : MYSQL) : MysqlProp :=
  mk (sErrMsg p) (szHost p) (szUser p) (szPass p) (szDB p) (iPort p) (iField p) (iRows p)
     v (result p) (row p) (FieldIndex p) (FieldNameList p) (bFieldIndexInitialized p)
     (bConnected p) (iRowNum p) (iErrCode p).
Definition set_result (p : MysqlProp) (v : option MYSQL_RES) : MysqlProp :=
  mk (sErrMsg p) (szHost p) (szUser p) (szPass p) (szDB p) (iPort p) (iField p) (iRows p)
     (connection p) v (row p) (FieldIndex p) (FieldNameList p) (bFieldIndexInitialized p)
     (bConnected p) (iRowNum p) (iErrCode p).
Definition set_row (p : MysqlProp) (v : option (list (option string))) : MysqlProp :=
  mk (sErrMsg p) (szHost p) (szUser p) (szPass p) (szDB p) (iPort p) (iField p) (iRows p)
     (connection p) (result p) v (FieldIndex p) (FieldNameList p) (bFieldIndexInitialized p)
     (bConnected p) (iRowNum p) (iErrCode p).
Definition set_FieldIndex (p : MysqlProp) (v : gmap string Z) : MysqlProp :=
  mk (sErrMsg p) (szHost p) (szUser p) (szPass p) (szDB p) (iPort p) (iField p) (iRows p)
     (connection p) (result p) (row p) v (FieldNameList p) (bFieldIndexInitialized p)
     (bConnected p) (iRowNum p) (iErrCode p).
Definition set_FieldNameList (p : MysqlProp) (v : list string) : MysqlProp :=
  mk (sErrMsg p) (szHost p) (szUser p) (szPass p) (szDB p) (iPort p) (iField p) (iRows p)
     (connection p) (result p) (row p) (FieldIndex p) v (bFieldIndexInitialized p)
     (bConnected p) (iRowNum p) (iErrCode p).
Definition set_bFieldIndexInitialized (p : MysqlProp) (v : bool) : MysqlProp :=
  mk (sErrMsg p) (szHost p) (szUser p) (szPass p) (szDB p) (iPort p) (iField p) (iRows p)
     (connection p) (result p) (row p) (FieldIndex p) (FieldNameList p) v (bConnected p)
     (iRowNum p) (iErrCode p).
Definition set_bConnected (p : MysqlProp) (v : bool) : MysqlProp :=
  mk (sErrMsg p) (szHost p) (szUser p) (szPass p) (szDB p) (iPort p) (iField p) (iRows p)
     (connection p) (result p) (row p) (FieldIndex p) (FieldNameList p)
     (bFieldIndexInitialized p) v (iRowNum p) (iErrCode p).
Definition set_iRowNum (p : MysqlProp) (v : Z) : MysqlProp :=
  mk (sErrMsg p) (szHost p) (szUser p) (szPass p) (szDB p) (iPort p) (iField p) (iRows p)
     (connection p) (result p) (row p) (FieldIndex p) (FieldNameList p)
     (bFieldIndexInitialized p) (bConnected p) v (iErrCode p).
Definition set_iErrCode (p : MysqlProp) (v : Z) : MysqlProp :=
  mk (sErrMsg p) (szHost p) (szUser p) (szPass p) (szDB p) (iPort p) (iField p) (iRows p)
     (connection p) (result p) (row p) (FieldIndex p) (FieldNameList p)
     (bFieldIndexInitialized p) (bConnected p) (iRowNum p) v.

(** The methods run on the library and on the properties of one object. *)
Abbreviation M := (st (D * MysqlProp)).

Definition prop {A} (f : MysqlProp → A) : M A := gets (λ s, f s.2).
Definition upd (f : MysqlProp → MysqlProp) : M unit := modify (λ s, (s.1, f s.2)).

(** A call of the library on [&m_pProp->connection]. *)
Definition on_connection {A} (f : D → MYSQL → A * MYSQL * D) : M A := λ s,
  let '(a, h, d) := f s.1 (connection s.2) in Ok (a, (d, set_connection s.2 h)).

(** [strncpy(dst, src, n)] into an array of [n] characters, and the use of such an
    array as a C string: it is terminated only when the source was shorter. *)
Definition strncpy (n : Z) (s : string) : string := String.substring 0 (Z.to_nat n) s.
Definition terminated (n : Z) (s : string) : M string :=
  if slen s <? n then mret s else fault UB.

(** [Mysql::Mysql()] and [Mysql::Mysql(szHost, szUser, szPass, szDB, iPort)]. *)
Definition make0 : MysqlProp :=
  mk "" "" "" "" "" 0 0 0 mysql_init None None ∅ [] false false (-1) 0.

Definition make (szHost szUser szPass szDB : string) (iPort : Z) : MysqlProp :=
  mk "" (strncpy 64 szHost) (strncpy 64 szUser) (strncpy 64 szPass) (strncpy 256 szDB) iPort
     0 0 mysql_init None None ∅ [] false false (-1) 0.

Definition getErrMsg (p : MysqlProp) : string := sErrMsg p.
Definition getErrCode (p : MysqlProp) : Z := iErrCode p.
Definition IsConnected (p : MysqlProp) : bool := bConnected p.

(** [sErrMsg = s + mysql_error(); iErrCode = mysql_errno()]. *)
Definition report (s : string) : M unit :=
  upd (λ p, set_iErrCode (set_sErrMsg p (s +:+ mysql_error (connection p))%string)
                         (mysql_errno (connection p))).

Definition FreeResult : M Z :=
  upd (λ p, set_iRows (set_iField p 0) 0);;
  initialised ← prop bFieldIndexInitialized;
  (if initialised : bool
   then upd (λ p, set_bFieldIndexInitialized (set_FieldIndex p ∅) false) else mret ());;
  upd (λ p, set_row (set_iRowNum (set_result p None) (-1)) None);;
  mret 0.

Definition FreeMem : M Z := FreeResult.

Definition Connect : M Z :=
  connected ← prop bConnected;
  if negb connected then
    db ← prop szDB;
    host ← prop szHost ≫= terminated 64;
    user ← prop szUser ≫= terminated 64;
    pass ← prop szPass ≫= terminated 64;
    dbname ← (if bool_decide (db = ""%string) then mret None
              else d ← terminated 256 db; mret (Some d));
    port ← prop iPort;
    ok ← on_connection (mysql_real_connect host user pass dbname port);
    if negb ok then report "connect to mysql failed";; mret (-1)
    else upd (λ p, set_bConnected p true);; mret 0
  else mret 0.

(** [Connect(szHost, szUser, szPass, szDB, iPort)]. *)
Definition ConnectTo (szHost szUser szPass szDB : string) (iPort : Z) : M Z :=
  upd (λ p, set_iPort (set_szDB (set_szPass (set_szUser (set_szHost p
    (strncpy 64 szHost)) (strncpy 64 szUser)) (strncpy 64 szPass)) (strncpy 256 szDB)) iPort);;
  Connect.

Definition MysqlQuery (sSql : string) : M Z :=
  ret ← on_connection (mysql_query sSql);
  if negb (ret =? 0) then
    ping ← on_connection mysql_ping;
    if ping =? 0 then on_connection (mysql_query sSql) else mret ret
  else mret ret.

Definition StoreResult : M Z :=
  FreeResult;;
  r ← on_connection mysql_store_result;
  upd (λ p, set_result p r);;
  match r with
  | None => report "mysql StoreResult error: ";; mret (-1)
  | Some r => upd (λ p, set_iRows (set_iField p (mysql_num_fields r)) (u32 (mysql_num_rows r)));; mret 0
  end.

Definition MysqlStoreResult : M Z := StoreResult.
Definition MysqlNextResult : M Z := on_connection mysql_next_result.

(** The reconnection that [Query] and [Execute] begin with; [broken] is what they
    report when the server stays unreachable. *)
Definition ensureConnected (broken : M unit) : M bool :=
  Connect;;
  ping ← on_connection mysql_ping;
  if negb (ping =? 0) then
    FreeResult;;
    on_connection mysql_close;;
    upd (λ p, set_bConnected p false);;
    c ← Connect;
    if negb (c =? 0) then
      upd (λ p, set_bConnected p false);;
      broken;;
      mret false
    else mret true
  else mret true.

(** In [Query] a comma stands where [Execute] has [+], so the text of the error is
    not part of the message. *)
Definition Query (szSqlString : string) : M Z :=
  up ← ensureConnected
         (upd (λ p, set_iErrCode (set_sErrMsg p "mysql connection broken:")
                                 (mysql_errno (connection p))));
  if negb up then mret (-1)
  else
    q ← MysqlQuery szSqlString;
    if negb (q =? 0) then report "mysql query failed:";; mret (-2)
    else
      s ← StoreResult;
      if negb (s =? 0) then mret (-3) else mret 0.

Definition QueryWithoutReconnect (szSqlString : string) : M Z :=
  q ← MysqlQuery szSqlString;
  if negb (q =? 0) then report "mysql query failed:";; mret (-2)
  else
    s ← StoreResult;
    if negb (s =? 0) then mret (-3) else mret 0.

Definition Ping : M Z :=
  ping ← on_connection mysql_ping;
  if negb (ping =? 0) then
    FreeResult;;
    on_connection mysql_close;;
    upd (λ p, set_bConnected p false);;
    mret (-1)
  else mret 0.

Definition Execute (szSqlString : string) : M Z :=
  up ← ensureConnected (report "mysql connection broken:%s");
  if negb up then mret (-1)
  else
    q ← MysqlQuery szSqlString;
    if negb (q =? 0) then report "mysql query failed:%s";; mret (-2)
    else mret 0.

Definition ExecuteWithReconnect (szSqlString : string) : M Z :=
  q ← MysqlQuery szSqlString;
  if negb (q =? 0) then report "mysql query failed:";; mret (-2)
  else mret 0.

Definition GetRecordCount (p : MysqlProp) : Z := iRows p.
Definition GetFieldCount (p : MysqlProp) : Z := iField p.
Definition GetAffectedRows (p : MysqlProp) : Z := u32 (mysql_affected_rows (connection p)).
Definition GetInsertId (p : MysqlProp) : Z := u32 (mysql_insert_id (connection p)).

(** [StripField(to, from, len)] for a non-null [from] of [len] characters: [to]
    receives the escaped text as a C string. *)
Definition StripField (from : list byte) : M (list byte) :=
  h ← prop connection;
  mret (c_str (mysql_real_escape_string h from)).

(** A call of the library on [m_pProp->result]. *)
Definition on_result {A} (f : MYSQL_RES → A * MYSQL_RES) : M A :=
  r ← prop result ≫= deref;
  let '(a, r') := f r in
  upd (λ p, set_result p (Some r'));;
  mret a.

(** The loop of [InitFieldName] from index [i]. *)
Fixpoint InitFieldName_loop (n : nat) (i : Z) : M unit :=
  match n with
  | O => mret ()
  | S n' =>
      field ← on_result mysql_fetch_field ≫= deref;
      upd (λ p, set_FieldNameList (set_FieldIndex p (<[field := i]> (FieldIndex p)))
                                  (<[Z.to_nat i := field]> (FieldNameList p)));;
      InitFieldName_loop n' (i + 1)
  end.

(** [vector<string>::resize]. *)
Definition resize (n : nat) (l : list string) : list string :=
  take n l ++ replicate (n - length l) ""%string.

Definition InitFieldName : M Z :=
  initialised ← prop bFieldIndexInitialized;
  r ← prop result;
  match initialised, r with
  | false, Some r =>
      let RowCount := Z.to_nat (i32 (mysql_num_fields r)) in
      upd (λ p, set_FieldNameList p (resize RowCount (FieldNameList p)));;
      InitFieldName_loop RowCount 0;;
      upd (λ p, set_bFieldIndexInitialized p true);;
      mret 0
  | _, _ => mret 0
  end.

Definition szNULL : string := "".

(** [p = row[iField]]: the cell as a [const char*], [None] for a null pointer. *)
Definition cell (row : list (option string)) (iField : Z) : M (option string) :=
  deref (row !! Z.to_nat iField).

(** [iRow < 0 || iRow >= iRows || result == NULL]. *)
Definition outside (iRow : Z) : M bool :=
  rows ← prop iRows;
  r ← prop result;
  mret ((iRow <? 0) || (rows <=? iRow) || bool_decide (r = None)).

(** [iRow == iRowNum && NULL != row]. *)
Definition cached_row (iRow : Z) : M (option (list (option string))) :=
  n ← prop iRowNum;
  r ← prop row;
  mret (if iRow =? n then r else None).

(** The positioning of the cursor and the fetch. *)
Definition load_row (iRow : Z) : M (option (list (option string))) :=
  n ← prop iRowNum;
  (if (n =? -1) || negb (iRow =? n + 1)
   then on_result (λ r, ((), mysql_data_seek r iRow)) else mret ());;
  upd (λ p, set_iRowNum p iRow);;
  r ← on_result mysql_fetch_row;
  upd (λ p, set_row p r);;
  mret r.

(** [GetField(iRow, iField)]. *)
Definition GetFieldAt (iRow iField : Z) : M string :=
  out ← outside iRow;
  if out : bool then mret szNULL
  else
    c ← cached_row iRow;
    match c with
    | Some w => p ← cell w iField; mret (default szNULL p)
    | None =>
        w ← load_row iRow ≫= deref;
        p ← cell w iField; mret (default szNULL p)
    end.

Definition GetNextRow : M (option (list (option string))) :=
  r ← prop result;
  match r with
  | None => mret None
  | Some _ =>
      w ← on_result mysql_fetch_row;
      upd (λ p, set_row p w);;
      match w with
      | None => upd (λ p, set_iRowNum p (-1))
      | Some _ => upd (λ p, set_iRowNum p (iRowNum p + 1))
      end;;
      mret w
  end.

(** [GetField(iRow, szFieldName)] for a non-null name. *)
Definition GetField (iRow : Z) (szFieldName : string) : M string :=
  InitFieldName;;
  index ← prop FieldIndex;
  match index !! szFieldName with
  | None => mret szNULL
  | Some i => GetFieldAt iRow (u32 i)
  end.

(** [GetField(iRow, iField, iLen)]: the value and [iLen]. *)
Definition GetFieldAtLen (iRow iField : Z) : M (string * Z) :=
  out ← outside iRow;
  if out : bool then mret (szNULL, 0)
  else
    c ← cached_row iRow;
    match c with
    | Some w =>
        p ← cell w iField;
        match p with
        | None => mret (szNULL, 0)
        | Some v =>
            r ← prop result ≫= deref;
            match mysql_fetch_lengths r with
            | None => report "mysql_fetch_lengths failed:";; mret (szNULL, 0)
            | Some lengths => len ← deref (lengths !! Z.to_nat iField); mret (v, len)
            end
        end
    | None =>
        w ← load_row iRow;
        r ← prop result ≫= deref;
        match mysql_fetch_lengths r with
        | None => report "mysql_fetch_lengths failed:";; mret (szNULL, 0)
        | Some lengths =>
            w ← deref w;
            p ← cell w iField;
            match p with
            | None => mret (szNULL, 0)
            | Some v => len ← deref (lengths !! Z.to_nat iField); mret (v, len)
            end
        end
    end.

(** [GetField(iRow, szFieldName, iLen)] for a non-null name. *)
Definition GetFieldLen (iRow : Z) (szFieldName : string) : M (string * Z) :=
  InitFieldName;;
  index ← prop FieldIndex;
  match index !! szFieldName with
  | None => mret (szNULL, 0)
  | Some i => GetFieldAtLen iRow (u32 i)
  end.

Definition GetFieldNameList : M (list string) := InitFieldName;; prop FieldNameList.

Definition Close : M unit :=
  FreeResult;;
  on_connection mysql_close;;
  upd (λ p, set_bConnected p false).

(** [~Mysql()]. *)
Definition destroy : M unit :=
  connected ← prop bConnected;
  if connected : bool then FreeResult;; on_connection mysql_close else mret ().
End Mysql.
Arguments MysqlProp _ {_}.
End Mysql.

(** ** The reference: a table and a position *)

(** A table with the position of the next row to read. *)
Record table := Table {
  t_fields : list string;
  t_rows : list (list (option string));
  t_pos : nat
}.

(** The index of a field name: the last field of that name. *)
Fixpoint field_index (fields : list string) (name : string) (i : Z) : option Z :=
  match fields with
  | [] => None
  | f :: fields' =>
      match field_index fields' name (i + 1) with
      | Some j => Some j
      | None => if bool_decide (f = name) then Some i else None
      end
  end.

(** The ways the program reads a result. *)
Inductive access :=
  | AtIndex (iRow iField : Z)
  | AtName (iRow : Z) (name : string)
  | AtIndexLen (iRow iField : Z)
  | AtNameLen (iRow : Z) (name : string)
  | NextRow
  | FieldNames.

Inductive answer :=
  | Text (s : string)
  | TextLen (s : string) (len : Z)
  | Row (r : option (list (option string)))
  | Names (l : list string).

Definition in_table (t : table) (iRow : Z) : bool := (0 <=? iRow) && (iRow <? zlen (t_rows t)).

Definition t_cell (t : table) (iRow iField : Z) : option string :=
  match t_rows t !! Z.to_nat iRow with
  | Some w => default None (w !! Z.to_nat iField)
  | None => None
  end.

(** Reading a row of the table leaves the position behind that row. *)
Definition t_seek (t : table) (iRow : Z) : table :=
  if in_table t iRow then Table (t_fields t) (t_rows t) (S (Z.to_nat iRow)) else t.

Definition t_text (t : table) (iRow iField : Z) : string :=
  if in_table t iRow then default ""%string (t_cell t iRow iField) else "".

Definition t_step (t : table) (a : access) : answer * table :=
  match a with
  | AtIndex i j => (Text (t_text t i j), t_seek t i)
  | AtName i name =>
      match field_index (t_fields t) name 0 with
      | Some j => (Text (t_text t i j), t_seek t i)
      | None => (Text "", t)
      end
  | AtIndexLen i j => (TextLen (t_text t i j) (slen (t_text t i j)), t_seek t i)
  | AtNameLen i name =>
      match field_index (t_fields t) name 0 with
      | Some j => (TextLen (t_text t i j) (slen (t_text t i j)), t_seek t i)
      | None => (TextLen "" 0, t)
      end
  | NextRow =>
      let w := t_rows t !! t_pos t in
      (Row w, match w with Some _ => Table (t_fields t) (t_rows t) (S (t_pos t)) | None => t end)
  | FieldNames => (Names (t_fields t), t)
  end.

Fixpoint t_run (t : table) (l : list access) : list answer :=
  match l with
  | [] => []
  | a :: l' => let '(x, t') := t_step t a in x :: t_run t' l'
  end.

(** A numbered field of a row of the table is one of the result's. *)
Definition valid (t : table) (a : access) : bool :=
  match a with
  | AtIndex i j | AtIndexLen i j =>
      negb (in_table t i) || bool_decide (Z.to_nat j < length (t_fields t))%nat
  | _ => true
  end.

Section Properties.
Context {D : Type} {MC : MysqlClient D} {ML : MysqlClientLaws D}.
Import Mysql.
Abbreviation Prop' := (MysqlProp D).
Abbreviation M' := (st (D * Prop')).

Definition do_access (a : access) : M' answer :=
  match a with
  | AtIndex i j => s ← GetFieldAt i j; mret (Text s)
  | AtName i name => s ← GetField i name; mret (Text s)
  | AtIndexLen i j => '(s, n) ← GetFieldAtLen i j; mret (TextLen s n)
  | AtNameLen i name => '(s, n) ← GetFieldLen i name; mret (TextLen s n)
  | NextRow => r ← GetNextRow; mret (Row r)
  | FieldNames => l ← GetFieldNameList; mret (Names l)
  end.

Fixpoint do_accesses (l : list access) : M' (list answer) :=
  match l with
  | [] => mret []
  | a :: l' => x ← do_access a; xs ← do_accesses l'; mret (x :: xs)
  end.

(** The uses of an object between its construction and the query of interest. *)
Inductive command :=
  | CQuery (sql : string)
  | CQueryWithoutReconnect (sql : string)
  | CExecute (sql : string)
  | CExecuteWithReconnect (sql : string)
  | CPing
  | CClose
  | CFreeMem
  | CStoreResult
  | CNextResult
  | CAccess (a : access).

Definition run_command (c : command) : M' unit :=
  match c with
  | CQuery sql => Query sql;; mret ()
  | CQueryWithoutReconnect sql => QueryWithoutReconnect sql;; mret ()
  | CExecute sql => Execute sql;; mret ()
  | CExecuteWithReconnect sql => ExecuteWithReconnect sql;; mret ()
  | CPing => Ping;; mret ()
  | CClose => Close
  | CFreeMem => FreeMem;; mret ()
  | CStoreResult => MysqlStoreResult;; mret ()
  | CNextResult => MysqlNextResult;; mret ()
  | CAccess a => do_access a;; mret ()
  end.

Fixpoint run_commands (l : list command) : M' unit :=
  match l with
  | [] => mret ()
  | c :: l' => run_command c;; run_commands l'
  end.

(** *** The representation of a table by an object *)

(** The row that is loaded, if any, is the one before the cursor. *)
Definition row_rep (p : Prop') (r : MYSQL_RES) : Prop :=
  (iRowNum p = -1 ∧ row p = None ∧ (res_cursor r = 0%nat ∨ (length (res_rows r) <= res_cursor r)%nat)) ∨
  (∃ n w, iRowNum p = Z.of_nat n ∧ row p = Some w ∧ res_rows r !! n = Some w ∧
          res_cursor r = S n ∧ mysql_fetch_lengths r = Some (map cell_len w)).

(** The field index, once built, is that of the result. *)
Definition index_rep (p : Prop') (fields : list string) : Prop :=
  ∀ name, FieldIndex p !! name = field_index fields name 0.

Definition names_rep (p : Prop') (r : MYSQL_RES) : Prop :=
  (bFieldIndexInitialized p = false ∧ FieldIndex p = ∅ ∧ res_field_cursor r = 0%nat) ∨
  (bFieldIndexInitialized p = true ∧ index_rep p (res_fields r) ∧ FieldNameList p = res_fields r).

Definition rep (p : Prop') (t : option table) : Prop :=
  match result p, t with
  | None, None =>
      iRows p = 0 ∧ iField p = 0 ∧ row p = None ∧ iRowNum p = -1 ∧
      bFieldIndexInitialized p = false ∧ FieldIndex p = ∅
  | Some r, Some t =>
      t_fields t = res_fields r ∧ t_rows t = res_rows r ∧ t_pos t = res_cursor r ∧
      iRows p = zlen (res_rows r) ∧ iField p = zlen (res_fields r) ∧
      row_rep p r ∧ names_rep p r
  | _, _ => False
  end.

(** *** Running the methods *)

Lemma run_prop {A B} (f : Prop' → A) (k : A → M' B) s : (prop f ≫= k) s = k (f s.2) s.
Proof. done. Qed.

Lemma run_upd {B} (f : Prop' → Prop') (k : unit → M' B) s : (upd f ≫= k) s = k () (s.1, f s.2).
Proof. done. Qed.

Lemma run_on_result {A B} (f : MYSQL_RES → A * MYSQL_RES) (k : A → M' B) s r a r' :
  result s.2 = Some r → f r = (a, r') →
  (on_result f ≫= k) s = k a (s.1, set_result s.2 (Some r')).
Proof.
  intros Hr Hf. unfold on_result. rewrite !run_bind_assoc, run_prop, Hr.
  cbn [deref]. rewrite run_mret, Hf. by rewrite run_bind_assoc, run_upd, run_mret.
Qed.

(** *** Methods that do not touch the result *)

(** The fields the representation speaks of. *)
Definition view (p : Prop') :=
  (result p, iRows p, iField p, row p, iRowNum p, bFieldIndexInitialized p, FieldIndex p, FieldNameList p).

Lemma rep_view (p q : Prop') t : view q = view p → rep p t → rep q t.
Proof.
  unfold view, rep, row_rep, names_rep, index_rep. intros [= -> -> -> -> -> -> -> ->]. done.
Qed.

Definition frames {A} (m : M' A) : Prop := ∀ s a s', m s = Ok (a, s') → view s'.2 = view s.2.

Lemma frames_ret {A} (a : A) : frames (mret a).
Proof. intros s b s' H. unfold mret, st_ret in H. by simplify_eq. Qed.

Lemma frames_bind {A B} (m : M' A) (k : A → M' B) :
  frames m → (∀ a, frames (k a)) → frames (m ≫= k).
Proof.
  intros Hm Hk s b s'' H. apply st_bind_Ok in H as (a & s' & H1 & H2).
  rewrite (Hk a _ _ _ H2). by apply Hm in H1.
Qed.

Lemma frames_prop {A} (f : Prop' → A) : frames (prop f).
Proof. intros s a s' H. unfold prop, gets in H. by simplify_eq. Qed.

Lemma frames_upd (f : Prop' → Prop') : (∀ p, view (f p) = view p) → frames (upd f).
Proof. intros Hf s a s' H. unfold upd, modify in H. simplify_eq. cbn. apply Hf. Qed.

Lemma frames_on_connection {A} (f : D → MYSQL → A * MYSQL * D) : frames (on_connection f).
Proof.
  intros s a s' H. unfold on_connection in H. destruct (f s.1 (connection s.2)) as [[x h] d].
  by simplify_eq.
Qed.

Lemma frames_terminated n x : frames (terminated n x).
Proof. unfold terminated. destruct (_ <? _); [apply frames_ret|]. by intros s a s' H. Qed.

Ltac frame :=
  repeat first
    [ apply frames_bind; [|intros ?] | apply frames_ret | apply frames_prop
    | apply frames_on_connection | apply frames_terminated | (apply frames_upd; intros ?; reflexivity)
    | match goal with |- context [if ?b then _ else _] => destruct b end ].

Lemma frames_report x : frames (report x).
Proof. unfold report. frame. Qed.

Lemma frames_Connect : frames Connect.
Proof. unfold Connect. frame. all: apply frames_report. Qed.

Lemma frames_MysqlQuery sql : frames (MysqlQuery sql).
Proof. unfold MysqlQuery. frame. Qed.

(** *** The invariant: an object always represents a table or nothing *)

Definition safe {A} (m : M' A) : Prop :=
  ∀ s a s', m s = Ok (a, s') → (∃ t, rep s.2 t) → ∃ t', rep s'.2 t'.

Lemma frames_safe {A} (m : M' A) : frames m → safe m.
Proof. intros Hm s a s' H [t Ht]. exists t. eapply rep_view; [|done]. by eapply Hm. Qed.

Lemma safe_bind {A B} (m : M' A) (k : A → M' B) : safe m → (∀ a, safe (k a)) → safe (m ≫= k).
Proof.
  intros Hm Hk s b s'' H Hs. apply st_bind_Ok in H as (a & s' & H1 & H2).
  eapply Hk; [done|]. by eapply Hm.
Qed.

Lemma FreeResult_run s t : rep s.2 t → ∃ p', FreeResult s = Ok (0, (s.1, p')) ∧ rep p' None.
Proof.
  intros Hr. destruct s as [d p]. unfold FreeResult. rewrite run_upd, run_prop. cbn in Hr |- *.
  assert (bFieldIndexInitialized p = false → FieldIndex p = ∅) as Hi.
  { unfold rep, names_rep in Hr. destruct (result p), t; [|done..|].
    - destruct Hr as (_ & _ & _ & _ & _ & _ & [(_ & ? & _)|[? _]]); [done|congruence].
    - by destruct Hr as (_ & _ & _ & _ & _ & ?). }
  destruct (bFieldIndexInitialized p) eqn:E.
  - rewrite run_upd, run_upd. eexists. split; [done|]. done.
  - rewrite run_mret, run_upd. eexists. split; [done|]. cbn. by rewrite Hi, E.
Qed.

Lemma FreeResult_safe : safe FreeResult.
Proof.
  intros s a s' H [t Ht]. destruct (FreeResult_run s t Ht) as (p' & E & ?).
  rewrite E in H. simplify_eq. by exists None.
Qed.

(** Storing a result: the object represents it, read from its start. *)
Lemma StoreResult_run s t a s' :
  rep s.2 t → StoreResult s = Ok (a, s') →
  (a = 0 ∧ ∃ r, result s'.2 = Some r ∧ rep s'.2 (Some (Table (res_fields r) (res_rows r) 0))) ∨
  (a = -1 ∧ rep s'.2 None).
Proof.
  intros Hr H. unfold StoreResult in H. destruct (FreeResult_run s t Hr) as (p' & E & Hp).
  rewrite (st_bind_run _ _ _ _ _ E) in H. unfold on_connection, mbind at 1, st_bind at 1 in H. cbn in H.
  destruct (mysql_store_result s.1 (connection p')) as [[[r|] h] d] eqn:Es.
  - left. rewrite run_upd, run_upd in H. unfold mret, st_ret in H. simplify_eq. split; [done|]. cbn.
    exists r. split; [done|]. destruct (store_result_fresh _ _ _ _ _ Es) as [H1 H2].
    unfold rep in Hp |- *. destruct (result p'); [done|]. destruct Hp as (? & ? & ? & ? & ? & ?). cbn.
    pose proof (rows_count r). pose proof (zlen_nonneg (res_rows r)).
    rewrite num_fields_spec, num_rows_spec, uN_small by lia.
    do 5 (split; [done|]). unfold row_rep, names_rep. cbn. naive_solver.
  - right. rewrite run_upd in H. apply st_bind_Ok in H as (? & s1 & H1 & H2).
    unfold mret, st_ret in H2. simplify_eq. split; [done|].
    eapply rep_view; [by eapply frames_report|]. cbn.
    unfold rep in Hp |- *. cbn. by destruct (result p').
Qed.

Lemma StoreResult_safe : safe StoreResult.
Proof.
  intros s a s' H [t Ht]. destruct (StoreResult_run _ _ _ _ Ht H) as [(_ & r & _ & ?)|[_ ?]]; by eexists.
Qed.

Ltac safely :=
  repeat first
    [ apply FreeResult_safe | apply StoreResult_safe
    | (apply frames_safe; solve [apply frames_Connect | apply frames_report | apply frames_MysqlQuery | frame])
    | apply safe_bind; [|intros ?]
    | match goal with |- context [if ?b then _ else _] => destruct b end ].

Lemma ensureConnected_safe m : safe m → safe (ensureConnected m).
Proof. intros Hm. unfold ensureConnected. safely. all: done. Qed.

Lemma Query_safe sql : safe (Query sql).
Proof. unfold Query. apply safe_bind; [apply ensureConnected_safe|intros ?]. all: safely. Qed.

Lemma QueryWithoutReconnect_safe sql : safe (QueryWithoutReconnect sql).
Proof. unfold QueryWithoutReconnect. safely. Qed.

Lemma Execute_safe sql : safe (Execute sql).
Proof. unfold Execute. apply safe_bind; [apply ensureConnected_safe|intros ?]. all: safely. Qed.

Lemma Ping_safe : safe Ping.
Proof. unfold Ping. safely. Qed.

Lemma Close_safe : safe Close.
Proof. unfold Close. safely. Qed.

(** *** Reading rows *)

Lemma rep_Some (p : Prop') t :
  rep p (Some t) ↔ ∃ r, result p = Some r ∧ t_fields t = res_fields r ∧ t_rows t = res_rows r ∧
    t_pos t = res_cursor r ∧ iRows p = zlen (res_rows r) ∧ iField p = zlen (res_fields r) ∧
    row_rep p r ∧ names_rep p r.
Proof.
  unfold rep. destruct (result p) as [r|]; [|naive_solver]. split.
  - intros H. by exists r.
  - by intros (? & [= <-] & ?).
Qed.

Lemma outside_run s t i : rep s.2 (Some t) → outside i s = Ok (negb (in_table t i), s).
Proof.
  rewrite rep_Some. intros (r & Hr & _ & Hrows & _ & Hn & _). unfold outside.
  rewrite !run_prop, Hr, Hn. unfold mret, st_ret, in_table. rewrite Hrows, bool_decide_false by done.
  rewrite orb_false_r, negb_andb. do 3 f_equal; lia.
Qed.

(** The row a read finds: the one that is loaded already, or the one it loads. *)
Lemma current_row s t i :
  rep s.2 (Some t) → in_table t i = true →
  ∃ w p' r', t_rows t !! Z.to_nat i = Some w ∧ rep p' (Some (t_seek t i)) ∧
    result p' = Some r' ∧ mysql_fetch_lengths r' = Some (map cell_len w) ∧
    ((cached_row i s = Ok (Some w, s) ∧ p' = s.2) ∨
     (cached_row i s = Ok (None, s) ∧ load_row i s = Ok (Some w, (s.1, p')))).
Proof.
  intros Hrep Hin. unfold t_seek. rewrite Hin. unfold in_table in Hin.
  pose proof Hrep as Hrep'. rewrite rep_Some in Hrep'.
  destruct Hrep' as (r & Hr & Hf & Hrows & Hpos & Hn & Hfn & Hrow & Hnames).
  destruct (decide (i = iRowNum s.2)) as [Hi|Hi].
  - destruct Hrow as [(? & _)|(n & w & Hnum & Hw & Hl & Hc & Hlen)]; [lia|].
    assert (Z.to_nat i = n) as -> by lia.
    exists w, s.2, r. rewrite Hrows. do 2 (split; [try done|]).
    { rewrite rep_Some. exists r. cbn. rewrite Hnum in Hi. split_and!; try done.
      right. exists n, w. done. }
    do 2 (split; [done|]). left. split; [|done]. unfold cached_row. rewrite !run_prop.
    unfold mret, st_ret. by rewrite (proj2 (Z.eqb_eq _ _) Hi), Hw.
  - assert (∃ r1, res_fields r1 = res_fields r ∧ res_rows r1 = res_rows r ∧
        res_cursor r1 = Z.to_nat i ∧ res_field_cursor r1 = res_field_cursor r ∧
        ∀ B (k : unit → M' B),
          ((if (iRowNum s.2 =? -1) || negb (i =? iRowNum s.2 + 1)
            then on_result (λ r, ((), mysql_data_seek r i)) else mret ()) ≫= k) s
          = k () (s.1, set_result s.2 (Some r1))) as (r1 & Hf1 & Hr1 & Hc1 & Hfc1 & Hk).
    { destruct ((iRowNum s.2 =? -1) || negb (i =? iRowNum s.2 + 1)) eqn:E.
      - exists (mysql_data_seek r i). destruct (data_seek_spec r i) as (? & ? & ? & ?); [rewrite <-Hrows; lia|].
        split_and!; try done. intros B k. by rewrite (run_on_result _ k s r () (mysql_data_seek r i)).
      - exists r. destruct Hrow as [(? & _)|(n & w & Hnum & Hw & Hl & Hc & Hlen)]; [lia|].
        split_and!; try done; [lia|]. intros B k. rewrite run_mret. f_equal.
        destruct s as [d p]. f_equal. cbn in *. destruct p; cbn in *; by subst. }
    destruct (mysql_fetch_row r1) as [w r2] eqn:Efetch.
    destruct (fetch_row_spec _ _ _ Efetch) as (Hw & Hf2 & Hr2 & Hfc2 & Hc2).
    assert (∃ w', res_rows r1 !! res_cursor r1 = Some w') as [w' Hw'].
    { apply lookup_lt_is_Some. rewrite Hr1, Hc1. rewrite Hrows in Hin. unfold zlen in Hin. lia. }
    rewrite Hw' in Hw. subst w. destruct Hc2 as [Hc2 Hlen2].
    eexists w', _, r2. rewrite Hrows, <-Hr1, <-Hc1. split; [done|].
    split; [|split; [|split; [exact Hlen2|right; split]]].
    3:{ unfold cached_row. rewrite !run_prop. unfold mret, st_ret. by rewrite (proj2 (Z.eqb_neq _ _) Hi). }
    3:{ unfold load_row. rewrite run_prop, Hk, run_upd.
        rewrite (run_on_result _ _ _ r1 (Some w') r2) by done. rewrite run_upd. reflexivity. }
    2:{ done. }
    rewrite rep_Some. exists r2. cbn. rewrite Hr2, Hf2, Hf1, Hr1. split_and!; try done.
    + right. exists (Z.to_nat i), w'. cbn. split_and!; [lia|done| |congruence|done].
      rewrite Hr2. by rewrite <-Hc1.
    + unfold names_rep, index_rep in *. cbn. rewrite Hfc2, Hf2, Hf1, Hfc1. done.
Qed.

Lemma t_seek_outside t i : in_table t i = false → t_seek t i = t.
Proof. unfold t_seek. by intros ->. Qed.

Lemma GetFieldAt_run s t i j :
  rep s.2 (Some t) →
  ∃ p', rep p' (Some (t_seek t i)) ∧
    GetFieldAt i j s =
      if valid t (AtIndex i j) then Ok (t_text t i j, (s.1, p')) else Fault UB.
Proof.
  intros Hrep. unfold GetFieldAt, valid, t_text, t_cell.
  rewrite (st_bind_run _ _ _ _ _ (outside_run s t i Hrep)).
  destruct (in_table t i) eqn:Hin; cbn [negb orb].
  2:{ exists s.2. rewrite t_seek_outside by done. destruct s. done. }
  destruct (current_row s t i Hrep Hin) as (w & p' & r' & Hw & Hrep' & Hr' & Hlen & Hcase).
  exists p'. split; [done|]. rewrite Hw.
  assert (length w = length (t_fields t)) as Hwidth.
  { apply rep_Some in Hrep as (r & _ & Hf & Hrows & _). rewrite Hf. apply rows_width.
    rewrite <-Hrows. by eapply list_elem_of_lookup_2. }
  assert (∀ d : D, (x ← cell w j; mret (default szNULL x) : M' string) (d, p') =
    if bool_decide (Z.to_nat j < length (t_fields t))%nat
    then Ok (default "" (default None (w !! Z.to_nat j)), (d, p')) else Fault UB) as Hcell.
  { intros d. unfold cell. case_bool_decide as Hj; rewrite <-Hwidth in Hj.
    - apply lookup_lt_is_Some in Hj as [c ->]. by rewrite run_some.
    - by rewrite lookup_ge_None_2 by lia. }
  destruct Hcase as [[Hc ->]|[Hc Hl]]; rewrite (st_bind_run _ _ _ _ _ Hc).
  - specialize (Hcell s.1). by destruct s.
  - rewrite run_bind_assoc, (st_bind_run _ _ _ _ _ Hl), run_some. apply Hcell.
Qed.

Lemma GetFieldAtLen_run s t i j :
  rep s.2 (Some t) →
  ∃ p', rep p' (Some (t_seek t i)) ∧
    GetFieldAtLen i j s =
      if valid t (AtIndexLen i j)
      then Ok ((t_text t i j, slen (t_text t i j)), (s.1, p')) else Fault UB.
Proof.
  intros Hrep. unfold GetFieldAtLen, valid, t_text, t_cell.
  rewrite (st_bind_run _ _ _ _ _ (outside_run s t i Hrep)).
  destruct (in_table t i) eqn:Hin; cbn [negb orb].
  2:{ exists s.2. rewrite t_seek_outside by done. destruct s. done. }
  destruct (current_row s t i Hrep Hin) as (w & p' & r' & Hw & Hrep' & Hr' & Hlen & Hcase).
  exists p'. split; [done|]. rewrite Hw.
  assert (length w = length (t_fields t)) as Hwidth.
  { apply rep_Some in Hrep as (r & _ & Hf & Hrows & _). rewrite Hf. apply rows_width.
    rewrite <-Hrows. by eapply list_elem_of_lookup_2. }
  destruct Hcase as [[Hc ->]|[Hc Hl]]; rewrite (st_bind_run _ _ _ _ _ Hc);
    [|rewrite (st_bind_run _ _ _ _ _ Hl), run_bind_assoc, run_prop; cbn [fst snd];
     rewrite Hr', run_some, Hlen, run_some];
    unfold cell; case_bool_decide as Hj; rewrite <-Hwidth in Hj.
  2,4: by rewrite (lookup_ge_None_2 w) by lia.
  all: apply lookup_lt_is_Some in Hj as [c Hj]; rewrite Hj, run_some; cbn [default from_option id];
    destruct c as [v|]; cbn [default from_option id]; [|by destruct s].
  - rewrite run_bind_assoc, run_prop, Hr', run_some, Hlen, list_lookup_fmap, Hj. by destruct s.
  - rewrite list_lookup_fmap, Hj. done.
Qed.

Lemma GetNextRow_run s t :
  rep s.2 (Some t) →
  ∃ p', rep p' (Some (t_step t NextRow).2) ∧
    GetNextRow s = Ok (t_rows t !! t_pos t, (s.1, p')).
Proof.
  rewrite rep_Some. intros (r & Hr & Hf & Hrows & Hpos & Hn & Hfn & Hrow & Hnames).
  unfold GetNextRow. rewrite run_prop, Hr.
  destruct (mysql_fetch_row r) as [w r2] eqn:E.
  destruct (fetch_row_spec _ _ _ E) as (Hw & Hf2 & Hr2 & Hfc2 & Hc2).
  rewrite (run_on_result _ _ _ r w r2) by done. rewrite run_upd. cbn [t_step snd].
  rewrite Hrows, Hpos, <-Hw.
  destruct w as [w|]; rewrite run_upd; eexists; (split; [|done]); rewrite rep_Some; exists r2; cbn;
    rewrite Hr2, Hf2; (split_and!; try done; [first [by rewrite Hc2 | by destruct Hc2 as [-> _]]| |]).
  - right. destruct Hc2 as [Hc2 Hlen].
    exists (res_cursor r), w. cbn. rewrite Hr2. split_and!; try done.
    destruct Hrow as [(-> & _ & [->| ?])|(n & w' & -> & _ & _ & -> & _)]; [lia| |lia].
    symmetry in Hw. apply lookup_lt_Some in Hw. lia.
  - unfold names_rep, index_rep in *. cbn. by rewrite Hfc2, Hf2.
  - left. cbn. split_and!; try done. right. rewrite Hr2, Hc2.
    symmetry in Hw. by apply lookup_ge_None in Hw.
  - unfold names_rep, index_rep in *. cbn. by rewrite Hfc2, Hf2.
Qed.

(** *** The index of field names *)

Lemma field_index_snoc l f name i :
  field_index (l ++ [f]) name i =
    if bool_decide (f = name) then Some (i + zlen l) else field_index l name i.
Proof.
  revert i. induction l as [|g l IH]; intros i; cbn [field_index app].
  - case_bool_decide; [|done]. f_equal. unfold zlen. cbn. lia.
  - rewrite IH. case_bool_decide; [|done]. f_equal. rewrite zlen_cons. lia.
Qed.

Lemma field_index_range l name i j : field_index l name i = Some j → i <= j < i + zlen l.
Proof.
  revert i. induction l as [|g l IH]; intros i; cbn [field_index]; [done|].
  rewrite zlen_cons. pose proof (zlen_nonneg l).
  destruct (field_index l name (i + 1)) eqn:E; [intros [= ->]; apply IH in E; lia|].
  case_bool_decide; [|done]. intros [= <-]. lia.
Qed.

(** The part of an object that the construction of the index leaves alone. *)
Definition same_rows (p q : Prop') : Prop :=
  iRows q = iRows p ∧ iField q = iField p ∧ row q = row p ∧ iRowNum q = iRowNum p.

Lemma InitFieldName_loop_run n s r i :
  result s.2 = Some r → i = Z.of_nat (res_field_cursor r) →
  length (FieldNameList s.2) = length (res_fields r) →
  (res_field_cursor r + n = length (res_fields r))%nat →
  take (res_field_cursor r) (FieldNameList s.2) = take (res_field_cursor r) (res_fields r) →
  index_rep s.2 (take (res_field_cursor r) (res_fields r)) →
  ∃ p' r', InitFieldName_loop n i s = Ok ((), (s.1, p')) ∧ same_rows s.2 p' ∧
    result p' = Some r' ∧ res_fields r' = res_fields r ∧ res_rows r' = res_rows r ∧
    res_cursor r' = res_cursor r ∧ mysql_fetch_lengths r' = mysql_fetch_lengths r ∧
    index_rep p' (res_fields r) ∧ FieldNameList p' = res_fields r.
Proof.
  revert s r i. induction n as [|n IH]; intros s r i Hr -> Hlen Hn Htake Hidx; cbn [InitFieldName_loop].
  - exists s.2, r. rewrite !take_ge in Htake by lia. rewrite take_ge in Hidx by lia.
    destruct s. split_and!; try done.
  - destruct (mysql_fetch_field r) as [f r2] eqn:E.
    destruct (fetch_field_spec _ _ _ E) as (Hf & Hf2 & Hr2 & Hc2 & Hfc2 & Hl2).
    assert (∃ f', res_fields r !! res_field_cursor r = Some f') as [f' Hf'] by (apply lookup_lt_is_Some; lia).
    rewrite Hf' in Hf. subst f.
    rewrite run_bind_assoc, (run_on_result _ _ _ r (Some f') r2), run_some, run_upd by done. cbn [fst snd].
    edestruct (IH (s.1, set_FieldNameList (set_FieldIndex (set_result s.2 (Some r2))
        (<[f' := Z.of_nat (res_field_cursor r)]> (FieldIndex s.2)))
        (<[Z.to_nat (Z.of_nat (res_field_cursor r)) := f']> (FieldNameList s.2)))
        r2 (Z.of_nat (res_field_cursor r) + 1)) as (p' & r' & Hrun & Hsame & Hrest); cbn [snd].
    + done.
    + lia.
    + cbn. rewrite length_insert, Hf2. done.
    + rewrite Hf2. lia.
    + cbn. rewrite Hf2, Hfc2, Nat2Z.id. rewrite (take_S_r (res_fields r) _ _ Hf').
      rewrite (take_S_r _ _ f') by (apply list_lookup_insert_eq; lia).
      rewrite take_insert_ge by lia. by rewrite Htake.
    + unfold index_rep in *. cbn. intros name. rewrite Hf2, Hfc2, (take_S_r (res_fields r) _ _ Hf').
      rewrite field_index_snoc. case_bool_decide as En.
      * subst. rewrite lookup_insert_eq. f_equal. unfold zlen. rewrite length_take. lia.
      * rewrite lookup_insert_ne by done. apply Hidx.
    + exists p', r'. rewrite Hf2, Hr2, Hc2, Hl2 in Hrest. split_and!; try apply Hrest; try done.
      all: apply Hsame.
Qed.

Lemma resize_length n l : length (resize n l) = n.
Proof. unfold resize. rewrite length_app, length_take, length_replicate. lia. Qed.

Lemma InitFieldName_run s t :
  rep s.2 (Some t) →
  ∃ p', InitFieldName s = Ok (0, (s.1, p')) ∧ rep p' (Some t) ∧
    index_rep p' (t_fields t) ∧ FieldNameList p' = t_fields t.
Proof.
  intros Hrep. pose proof Hrep as Hrep'. rewrite rep_Some in Hrep'.
  destruct Hrep' as (r & Hr & Hf & Hrows & Hpos & Hn & Hfn & Hrow & Hnames).
  unfold InitFieldName. rewrite !run_prop, Hr.
  destruct Hnames as [(Hi & He & Hc)|(Hi & Hidx & Hlist)]; rewrite Hi; cbv iota.
  - pose proof (fields_count r). pose proof (zlen_nonneg (res_fields r)).
    rewrite num_fields_spec, sN_small by (unfold in_sN; lia). rewrite run_upd.
    edestruct (InitFieldName_loop_run (Z.to_nat (zlen (res_fields r)))
      (s.1, set_FieldNameList s.2 (resize (Z.to_nat (zlen (res_fields r))) (FieldNameList s.2))) r 0)
      as (p' & r' & Hrun & (Hs1 & Hs2 & Hs3 & Hs4) & Hr' & Hf' & Hrows' & Hc' & Hl' & Hidx' & Hlist'); cbn [snd].
    + done.
    + by rewrite Hc.
    + cbn. rewrite resize_length. unfold zlen. lia.
    + unfold zlen. lia.
    + by rewrite Hc.
    + rewrite Hc. unfold index_rep. cbn. intros name. by rewrite He, lookup_empty.
    + rewrite (st_bind_run _ _ _ _ _ Hrun), run_upd. cbn in Hs1, Hs2, Hs3, Hs4.
      eexists. split; [reflexivity|]. rewrite rep_Some. unfold index_rep. cbn. rewrite Hf.
      split; [|done]. exists r'. cbn. rewrite Hf', Hrows', Hc', Hs1, Hs2. split_and!; try done.
      * unfold row_rep in *. cbn. by rewrite Hs3, Hs4, Hrows', Hc', Hl'.
      * right. cbn. by rewrite Hf'.
  - exists s.2. destruct s. rewrite Hf. done.
Qed.

(** *** Every access *)

Lemma access_run s t a :
  rep s.2 (Some t) →
  ∃ p', rep p' (Some (t_step t a).2) ∧
    do_access a s = if valid t a then Ok ((t_step t a).1, (s.1, p')) else Fault UB.
Proof.
  intros Hrep. destruct a as [i j|i name|i j|i name| |]; cbn [do_access t_step fst snd].
  - destruct (GetFieldAt_run s t i j Hrep) as (p' & ? & E). exists p'. split; [done|].
    unfold mbind, st_bind. rewrite E. by destruct (valid _ _).
  - destruct (InitFieldName_run s t Hrep) as (p1 & E & Hrep1 & Hidx & _). unfold GetField.
    rewrite run_bind_assoc, (st_bind_run _ _ _ _ _ E), run_bind_assoc, run_prop. cbn [snd]. rewrite Hidx.
    destruct (field_index (t_fields t) name 0) as [j|] eqn:Ej; [|by eexists].
    destruct (GetFieldAt_run (s.1, p1) t i (u32 j) Hrep1) as (p' & ? & E'). exists p'. split; [done|].
    pose proof Hrep as (r & _ & Hf & _)%rep_Some. pose proof (fields_count r). rewrite <-Hf in *.
    pose proof (field_index_range _ _ _ _ Ej). unfold zlen in *. rewrite uN_small in E' |- * by lia.
    assert (valid t (AtIndex i j) = true) as Hv.
    { unfold valid. rewrite bool_decide_true by lia. apply orb_true_r. }
    rewrite Hv in E'. by rewrite (st_bind_run _ _ _ _ _ E').
  - destruct (GetFieldAtLen_run s t i j Hrep) as (p' & ? & E). exists p'. split; [done|].
    unfold mbind, st_bind. rewrite E. by destruct (valid _ _).
  - destruct (InitFieldName_run s t Hrep) as (p1 & E & Hrep1 & Hidx & _). unfold GetFieldLen.
    rewrite run_bind_assoc, (st_bind_run _ _ _ _ _ E), run_bind_assoc, run_prop. cbn [snd]. rewrite Hidx.
    destruct (field_index (t_fields t) name 0) as [j|] eqn:Ej; [|by eexists].
    destruct (GetFieldAtLen_run (s.1, p1) t i (u32 j) Hrep1) as (p' & ? & E'). exists p'. split; [done|].
    pose proof Hrep as (r & _ & Hf & _)%rep_Some. pose proof (fields_count r). rewrite <-Hf in *.
    pose proof (field_index_range _ _ _ _ Ej). unfold zlen in *. rewrite uN_small in E' |- * by lia.
    assert (valid t (AtIndexLen i j) = true) as Hv.
    { unfold valid. rewrite bool_decide_true by lia. apply orb_true_r. }
    rewrite Hv in E'. by rewrite (st_bind_run _ _ _ _ _ E').
  - destruct (GetNextRow_run s t Hrep) as (p' & ? & E). exists p'. split; [done|].
    by rewrite (st_bind_run _ _ _ _ _ E).
  - destruct (InitFieldName_run s t Hrep) as (p1 & E & Hrep1 & _ & Hl). exists p1. split; [done|].
    unfold GetFieldNameList. rewrite run_bind_assoc, (st_bind_run _ _ _ _ _ E), run_prop. cbn [snd]. by rewrite Hl.
Qed.

Lemma outside_none s i : result s.2 = None → outside i s = Ok (true, s).
Proof.
  intros Hr. unfold outside. rewrite !run_prop, Hr. unfold mret, st_ret.
  by rewrite orb_true_r.
Qed.

(** Without a result every access gives the empty answer and changes nothing. *)
Lemma access_none s a : rep s.2 None → ∃ x, do_access a s = Ok (x, s).
Proof.
  intros Hrep. unfold rep in Hrep. destruct (result s.2) eqn:Hr; [done|].
  destruct Hrep as (_ & _ & _ & _ & Hi & He).
  assert (InitFieldName s = Ok (0, s)) as Hinit.
  { unfold InitFieldName. by rewrite !run_prop, Hr, Hi. }
  destruct a; cbn [do_access]; eexists.
  - unfold GetFieldAt. rewrite run_bind_assoc, (st_bind_run _ _ _ _ _ (outside_none _ _ Hr)). reflexivity.
  - unfold GetField. rewrite run_bind_assoc, (st_bind_run _ _ _ _ _ Hinit), run_bind_assoc, run_prop, He, lookup_empty.
    reflexivity.
  - unfold GetFieldAtLen. rewrite run_bind_assoc, (st_bind_run _ _ _ _ _ (outside_none _ _ Hr)). reflexivity.
  - unfold GetFieldLen. rewrite run_bind_assoc, (st_bind_run _ _ _ _ _ Hinit), run_bind_assoc, run_prop, He, lookup_empty.
    reflexivity.
  - unfold GetNextRow. rewrite run_bind_assoc, run_prop, Hr. reflexivity.
  - unfold GetFieldNameList. rewrite run_bind_assoc, (st_bind_run _ _ _ _ _ Hinit), run_prop. reflexivity.
Qed.

Lemma access_safe a : safe (do_access a).
Proof.
  intros s x s' H [[t|] Ht].
  - destruct (access_run s t a Ht) as (p' & Hp & E). rewrite H in E.
    destruct (valid t a); simplify_eq. by eexists.
  - destruct (access_none s a Ht) as [y E]. rewrite E in H. simplify_eq. by eexists.
Qed.

Lemma commands_safe l : safe (run_commands l).
Proof.
  induction l as [|c l IH]; cbn [run_commands]; [apply frames_safe, frames_ret|].
  apply safe_bind; [|done]. destruct c; cbn [run_command].
  all: first [apply Close_safe | apply safe_bind; [|intros ?; apply frames_safe, frames_ret]].
  - apply Query_safe.
  - apply QueryWithoutReconnect_safe.
  - apply Execute_safe.
  - apply frames_safe. unfold ExecuteWithReconnect.
    apply frames_bind; [apply frames_MysqlQuery|intros q]. frame.
  - apply Ping_safe.
  - apply FreeResult_safe.
  - apply StoreResult_safe.
  - apply frames_safe, frames_on_connection.
  - apply access_safe.
Qed.

(** A query that returns 0 leaves the object at the start of a result. *)
Lemma Query_result sql s t s' :
  rep s.2 t → Query sql s = Ok (0, s') →
  ∃ r, result s'.2 = Some r ∧ rep s'.2 (Some (Table (res_fields r) (res_rows r) 0)).
Proof.
  intros Hrep H. unfold Query in H. apply st_bind_Ok in H as (up & s1 & H1 & H).
  assert (∃ t1, rep s1.2 t1) as [t1 Ht1].
  { unshelve eapply (ensureConnected_safe _ _ _ _ _ H1); [apply frames_safe; frame|by eexists]. }
  destruct up; cbn [negb] in H; [|by unfold mret, st_ret in H; simplify_eq].
  apply st_bind_Ok in H as (q & s2 & H2 & H).
  assert (rep s2.2 t1) as Ht2 by (eapply rep_view; [by eapply frames_MysqlQuery|done]).
  destruct (q =? 0); cbn [negb] in H.
  2:{ apply st_bind_Ok in H as (? & ? & _ & H). unfold mret, st_ret in H. simplify_eq. }
  apply st_bind_Ok in H as (z & s3 & H3 & H).
  destruct (StoreResult_run _ _ _ _ Ht2 H3) as [(-> & Hr)|[-> _]]; cbn in H; unfold mret, st_ret in H; by simplify_eq.
Qed.

Lemma accesses_run l s t :
  rep s.2 (Some t) → (∀ t', t_fields t' = t_fields t → t_rows t' = t_rows t → Forall (λ a, valid t' a = true) l) →
  ∃ s', do_accesses l s = Ok (t_run t l, s').
Proof.
  revert s t. induction l as [|a l IH]; intros s t Hrep Hv; cbn [do_accesses t_run]; [by eexists|].
  destruct (access_run s t a Hrep) as (p' & Hp & E).
  pose proof (Hv t eq_refl eq_refl) as Hvt. apply Forall_cons in Hvt as [Ha _]. rewrite Ha in E.
  rewrite (st_bind_run _ _ _ _ _ E). destruct (t_step t a) as [x t'] eqn:Et. cbn [fst snd] in *.
  assert (t_fields t' = t_fields t ∧ t_rows t' = t_rows t) as [Hf Hr].
  { destruct a; cbn [t_step] in Et; unfold t_seek in Et; repeat case_match; by simplify_eq. }
  destruct (IH (s.1, p') t') as [s'' E']; [done| |].
  - intros t2 H1 H2. eapply Forall_cons, Hv; congruence.
  - rewrite (st_bind_run _ _ _ _ _ E'). by eexists.
Qed.

(** C30 (refinement). However a [Mysql] object was used since it was constructed
    (queries, statements, pings, closings and reads in any order), after a query that
    returned 0 every sequence of reads by row and field number, by field name, with
    or without lengths, row by row or of the names, in any order and with rows out of
    range, returns exactly what the result table says: the cached row, the cached
    field index and the avoided seeks of the cursor are never visible.  (A field
    number must be one of the result's, as for any read of a C array.) *)
Theorem result_refines_table (d : D) (szHost szUser szPass szDB : string) (iPort : Z)
    (history : list command) (sql : string) (s s' : D * Prop') (reads : list access) :
  run_commands history (d, make szHost szUser szPass szDB iPort) = Ok ((), s) →
  Query sql s = Ok (0, s') →
  ∃ r, result s'.2 = Some r ∧
    let t := Table (res_fields r) (res_rows r) 0 in
    GetRecordCount s'.2 = zlen (t_rows t) ∧ GetFieldCount s'.2 = zlen (t_fields t) ∧
    (Forall (λ a, valid t a = true) reads →
     ∃ s'', do_accesses reads s' = Ok (t_run t reads, s'')).
Proof.
  intros Hh Hq. destruct (commands_safe history _ _ _ Hh) as [t Ht]; [by exists None|].
  destruct (Query_result sql s t s' Ht Hq) as (r & Hr & Hrep). exists r. split; [done|]. cbv zeta.
  pose proof Hrep as (r' & Hr' & _ & _ & _ & Hn & Hf & _)%rep_Some. rewrite Hr in Hr'. simplify_eq.
  do 2 (split; [done|]). intros Hv. eapply accesses_run; [done|].
  intros [f rows pos] [= ->] [= ->]. done.
Qed.

(** *** Methods that always return

    The arrays of an object are C strings when what was copied into them was short
    enough; then no method but a read outside the result can fault. *)
Definition short_login (p : Prop') : Prop :=
  slen (szHost p) < 64 ∧ slen (szUser p) < 64 ∧ slen (szPass p) < 64 ∧ slen (szDB p) < 256.

Definition total {A} (m : M' A) : Prop :=
  ∀ s, short_login s.2 → ∃ a s', m s = Ok (a, s') ∧ short_login s'.2.

Lemma total_ret {A} (a : A) : total (mret a).
Proof. intros s Hs. by eexists _, _. Qed.

Lemma total_bind {A B} (m : M' A) (k : A → M' B) : total m → (∀ a, total (k a)) → total (m ≫= k).
Proof.
  intros Hm Hk s Hs. destruct (Hm s Hs) as (a & s' & E & Hs'). rewrite (st_bind_run _ _ _ _ _ E). by apply Hk.
Qed.

Lemma total_prop {A} (f : Prop' → A) : total (prop f).
Proof. intros s Hs. by eexists _, s. Qed.

Lemma total_upd (f : Prop' → Prop') : (∀ p, short_login p → short_login (f p)) → total (upd f).
Proof. intros Hf s Hs. eexists _, _. split; [reflexivity|]. by apply Hf. Qed.

Lemma total_on_connection {A} (f : D → MYSQL → A * MYSQL * D) : total (on_connection f).
Proof.
  intros s Hs. unfold on_connection. destruct (f _ _) as [[a h] d]. eexists _, _. split; [reflexivity|]. done.
Qed.

Ltac totally_with t :=
  repeat first
    [ t | apply total_bind; [|intros ?] | apply total_ret | apply total_prop | apply total_on_connection
    | (apply total_upd; intros ? H; exact H)
    | match goal with |- context [if ?b then _ else _] => destruct b
                    | |- context [match ?o with Some _ => _ | None => _ end] => destruct o end ].

Ltac totally := totally_with fail.

Lemma total_FreeResult : total FreeResult.
Proof. unfold FreeResult. totally. Qed.

Lemma total_Connect : total Connect.
Proof.
  intros s Hs. unfold Connect. rewrite run_prop. destruct (bConnected s.2); cbn [negb]; [by eexists _, _|].
  pose proof Hs as (H1 & H2 & H3 & H4). unfold terminated.
  rewrite run_prop, run_bind_assoc, run_prop. rewrite (proj2 (Z.ltb_lt _ _) H1), run_mret.
  rewrite run_bind_assoc, run_prop, (proj2 (Z.ltb_lt _ _) H2), run_mret.
  rewrite run_bind_assoc, run_prop, (proj2 (Z.ltb_lt _ _) H3), run_mret.
  rewrite (proj2 (Z.ltb_lt _ _) H4).
  assert (∀ o : option string, ∃ a s', (port ← prop iPort; ok ← on_connection (mysql_real_connect (szHost s.2) (szUser s.2) (szPass s.2) o port);
    if negb ok then report "connect to mysql failed";; mret (-1) else upd (λ p, set_bConnected p true);; mret 0 : M' Z) s
    = Ok (a, s') ∧ short_login s'.2) as Hrest.
  { intros o. revert s Hs H1 H2 H3 H4. intros s Hs _ _ _ _.
    match goal with |- ∃ a s', ?m s = _ ∧ _ => assert (total m) as Ht; [unfold report; totally|by apply Ht] end. }
  case_bool_decide; apply Hrest.
Qed.

Lemma total_Execute q : total (Execute q).
Proof.
  unfold Execute, ensureConnected, MysqlQuery, report.
  totally_with ltac:(first [apply total_Connect|apply total_FreeResult]).
Qed.

Lemma total_StoreResult : total StoreResult.
Proof. unfold StoreResult, report. totally_with ltac:(apply total_FreeResult). Qed.

Lemma total_Query q : total (Query q).
Proof.
  unfold Query, ensureConnected, MysqlQuery, report.
  totally_with ltac:(first [apply total_Connect|apply total_FreeResult|apply total_StoreResult]).
Qed.

Lemma total_Ping : total Ping.
Proof. unfold Ping. totally_with ltac:(apply total_FreeResult). Qed.

Lemma total_destroy : total destroy.
Proof. unfold destroy. totally_with ltac:(apply total_FreeResult). Qed.

Lemma short_login_make h u pw db port :
  slen h < 64 → slen u < 64 → slen pw < 64 → slen db < 256 → short_login (make h u pw db port).
Proof.
  intros. unfold short_login, make, strncpy; cbn [szHost szUser szPass szDB].
  rewrite !substring_all by (unfold slen in *; lia). done.
Qed.
End Properties.

(** ** A client library for concrete runs

    The server answers every query with one table and never fails; [D] counts the
    statements it received. *)
Record ToyRes := { toy_rows : list (list (option string)); toy_cur : nat; toy_fcur : nat }.

Definition toy_fields : list string := ["id"; "name"; "money"]%string.
Definition toy_table : list (list (option string)) :=
  [[Some "1"; Some "alice"; Some "100.5"]; [Some "2"; Some "bob"; None]; [Some "3"; None; Some "7"]]%string.

(** A result of the toy server: rows of any other width are not its rows. *)
Definition toy_all (r : ToyRes) : list (list (option string)) :=
  filter (λ w, length w = 3%nat) (take 100 (toy_rows r)).

Definition toy_fetch (r : ToyRes) : option (list (option string)) * ToyRes :=
  match toy_all r !! toy_cur r with
  | Some w => (Some w, {| toy_rows := toy_rows r; toy_cur := S (toy_cur r); toy_fcur := toy_fcur r |})
  | None => (None, r)
  end.

#[export] Instance ToyMysql : MysqlClient nat := {
  MYSQL := unit;
  MYSQL_RES := ToyRes;
  mysql_init := ();
  mysql_real_connect _ _ _ _ _ d h := (true, h, d);
  mysql_ping d h := (0, h, d);
  mysql_query _ d h := (0, h, S d);
  mysql_store_result d h := (Some {| toy_rows := toy_table; toy_cur := 0; toy_fcur := 0 |}, h, d);
  mysql_next_result d h := (-1, h, d);
  mysql_close d h := ((), h, d);
  mysql_error _ := "";
  mysql_errno _ := 0;
  mysql_affected_rows _ := 1;
  mysql_insert_id _ := 0;
  mysql_real_escape_string _ l := l;
  mysql_num_fields _ := 3;
  mysql_num_rows r := zlen (toy_all r);
  mysql_data_seek r i := {| toy_rows := toy_rows r; toy_cur := Z.to_nat i; toy_fcur := toy_fcur r |};
  mysql_fetch_row := toy_fetch;
  mysql_fetch_field r :=
    (toy_fields !! toy_fcur r,
     {| toy_rows := toy_rows r; toy_cur := toy_cur r; toy_fcur := S (toy_fcur r) |});
  mysql_fetch_lengths r :=
    match toy_cur r with
    | O => None
    | S n => w ← toy_all r !! n; Some (map cell_len w)
    end
}.

#[export, refine] Instance ToyMysqlLaws : MysqlClientLaws nat := {
  res_fields _ := toy_fields;
  res_rows := toy_all;
  res_cursor := toy_cur;
  res_field_cursor := toy_fcur
}.
Proof.
  all: try done.
  - intros r row Hrow. apply list_elem_of_filter in Hrow as [-> _]. done.
  - intros r. unfold toy_all, zlen.
    pose proof (length_filter (λ w : list (option string), length w = 3%nat) (take 100 (toy_rows r))).
    rewrite length_take in *. lia.
  - intros r row r' Hf. cbn in Hf. unfold toy_fetch in Hf.
    destruct (toy_all r !! toy_cur r) as [w|] eqn:E; simplify_eq; [|done].
    do 4 (split; [done|]). split; [done|].
    unfold mysql_fetch_lengths, ToyMysql, toy_all in *. cbn [toy_cur toy_rows]. by rewrite E.
  - intros r f r' [= <- <-]. split_and!; try done.
  - intros d h r h' d' [= <- <- <-]. done.
Defined.

(** An object with a past, and the object after a query. *)
Definition toy_used : nat * Mysql.MysqlProp nat :=
  (2%nat, Mysql.set_bConnected (Mysql.make "127.0.0.1" "root" "pw" "IM" 3306) true).
Definition toy_queried : nat * Mysql.MysqlProp nat :=
  match Mysql.Query "select * from IMUser" toy_used with
  | Ok (_, s) => s
  | Fault _ => toy_used
  end.

(** Its result read in a mixed order. *)
Lemma result_refines_table_witness :
  ∃ s'', do_accesses [AtName 0 "name"; AtIndex 2 0; NextRow; AtNameLen 1 "money"; AtName 7 "id";
                      AtIndexLen 2 2; FieldNames] toy_queried =
    Ok ([Text "alice"; Text "3"; Row None; TextLen "" 0; Text ""; TextLen "7" 1; Names toy_fields], s'').
Proof.
  destruct (result_refines_table 0%nat "127.0.0.1" "root" "pw" "IM" 3306
    [CExecute "delete from t"; CExecute "insert"; CFreeMem] "select * from IMUser" toy_used toy_queried
    [AtName 0 "name"; AtIndex 2 0; NextRow; AtNameLen 1 "money"; AtName 7 "id"; AtIndexLen 2 2; FieldNames])
    as (r & Hr & _ & _ & Hread); [reflexivity|vm_compute; reflexivity|].
  injection Hr as <-.
  destruct (Hread ltac:(repeat constructor)) as [s'' E]. exists s''. exact E.
Defined.
