(* ===== verification/MysqlInit.v ===== *)
(** * MysqlUtil.cc: the library of MySQL is initialised; options of a connection

    [InitLibrary] is called by every constructor of [Mysql], in any thread.  Its threads are
    interchangeable, so the state counts those before each statement.  The mutex of
    [InitLibrary] is a local variable: every call locks its own, and no call waits. *)
From stdpp Require Import relations.
From S2P Require Import Prelude Text State Mysql.

Module InitLibrary.

(** The static [init], the threads before the first test, before [lock], before the second
    test, before [mysql_library_init], before the assignment, before the end; those that
    have returned; and how often [mysql_library_init] was called. *)
Record t := mk {
  init : bool;
  testing : nat;
  locking : nat;
  testing2 : nat;
  initialising : nat;
  setting : nat;
  leaving : nat;
  returned : nat;
  calls : nat
}.

(** [n] calls begin. *)
Definition start (n : nat) : t := mk false n 0 0 0 0 0 0 0.

Inductive step : t → t → Prop :=
  | test i n a b c d e f k : step (mk i (S n) a b c d e f k) (if i then mk i n a b c d (S e) f k else mk i n (S a) b c d e f k)
  | lock i n a b c d e f k : step (mk i n (S a) b c d e f k) (mk i n a (S b) c d e f k)
  | test2 i n a b c d e f k : step (mk i n a (S b) c d e f k) (if i then mk i n a b c d (S e) f k else mk i n a b (S c) d e f k)
  | library_init i n a b c d e f k : step (mk i n a b (S c) d e f k) (mk i n a b c (S d) e f (S k))
  | set i n a b c d e f k : step (mk i n a b c (S d) e f k) (mk true n a b c d (S e) f k)
  | leave i n a b c d e f k : step (mk i n a b c d (S e) f k) (mk i n a b c d e (S f) k).

(** The statements left. *)
Definition left_ (s : t) : nat :=
  6 * testing s + 5 * locking s + 4 * testing2 s + 3 * initialising s + 2 * setting s + leaving s.

End InitLibrary.

(** Options of a connection, handed to the library as they are. *)
Class MysqlOptions (D : Type) `{MysqlClient D} := {
  mysql_set_character_set : string → D → MYSQL → Z * MYSQL * D;
  mysql_character_set_name : MYSQL → string;
  mysql_options : Z → string → D → MYSQL → Z * MYSQL * D;
  mysql_set_server_option : Z → D → MYSQL → Z * MYSQL * D
}.

Module MysqlOption.
Section MysqlOption.
Import Mysql.
Context {D : Type} `{MO : MysqlOptions D}.

Definition SetCharset (sCharset : string) : st (D * MysqlProp D) Z := on_connection (mysql_set_character_set sCharset).
Definition CharacterSetName : st (D * MysqlProp D) string := prop (λ p, mysql_character_set_name (connection p)).
Definition SetOption (option : Z) (arg : string) : st (D * MysqlProp D) Z := on_connection (mysql_options option arg).
Definition SetServerOption (option : Z) : st (D * MysqlProp D) Z := on_connection (mysql_set_server_option option).

End MysqlOption.
End MysqlOption.

Section Facts.
Import InitLibrary.

(** [n] calls are under way; the library was initialised before [init] was set, and at most
    once by each call. *)
Record init_inv (n : nat) (s : InitLibrary.t) : Prop := {
  ii_threads : (testing s + locking s + testing2 s + initialising s + setting s + leaving s + returned s = n)%nat;
  ii_calls : (calls s + testing s + locking s + testing2 s + initialising s <= n)%nat;
  ii_init : init s = true → (1 <= calls s)%nat;
  ii_set : (0 < setting s)%nat → (1 <= calls s)%nat;
  ii_returned : (0 < leaving s + returned s)%nat → init s = true
}.

Lemma init_step_inv n s s' : init_inv n s → step s s' → init_inv n s' ∧ (left_ s' < left_ s)%nat.
Proof.
  intros [H1 H2 H3 H4 H5] Hs. destruct Hs as [i n0 a b c d e f k|i n0 a b c d e f k|i n0 a b c d e f k|i n0 a b c d e f k|i n0 a b c d e f k|i n0 a b c d e f k];
    cbn in *; try destruct i; (split; [split; cbn; try done; try lia; intros; try (apply H5; lia); try (pose proof (H3 eq_refl)); lia|unfold left_; cbn; lia]).
Qed.

Lemma init_reachable n s : rtc step (start n) s → init_inv n s.
Proof.
  intros Hs. eapply rtc_ind_r; [|intros s1 s2 _ Hst Hi; by eapply init_step_inv|exact Hs].
  split; cbn; (lia || done).
Qed.

Lemma init_rest s : (∀ s', ¬ step s s') → left_ s = 0%nat.
Proof.
  intros Hst. destruct s as [i n a b c d e f k]. unfold left_. cbn.
  destruct n; [|exfalso; by eapply Hst, test]. destruct a; [|exfalso; by eapply Hst, lock]. destruct b; [|exfalso; by eapply Hst, test2].
  destruct c; [|exfalso; by eapply Hst, library_init]. destruct d; [|exfalso; by eapply Hst, set]. destruct e; [|exfalso; by eapply Hst, leave]. done.
Qed.

(** The initialisation, whatever the interleaving of [n] calls: after boundedly many steps
    all of them have returned, and none returns before the library was initialised.  It is
    initialised at most once per call; once for a call that was alone, but twice when two
    calls overlap, since the mutex protects nothing. *)
Theorem library_initialised n s :
  rtc step (start n) s →
  ((0 < returned s)%nat → init s = true ∧ (1 <= calls s)%nat) ∧ (calls s <= n)%nat ∧
  (∀ k s', nsteps step k s s' → (k <= left_ s)%nat) ∧
  (∀ s', rtc step s s' → (∀ s'', ¬ step s' s'') → returned s' = n) ∧
  (∃ s2, rtc step (start 2) s2 ∧ returned s2 = 2%nat ∧ calls s2 = 2%nat).
Proof.
  intros Hs. pose proof (init_reachable n s Hs) as Hi. split_and!.
  - intros Hr. destruct Hi as [_ _ H3 _ H5]. split; [apply H5|apply H3, H5]; lia.
  - destruct Hi. lia.
  - intros k s' Hk. clear Hs. revert Hi. induction Hk as [s|k s1 s2 s3 H _ IH]; intros Hi; [lia|].
    destruct (init_step_inv n _ _ Hi H) as [Hi2 Hlt]. specialize (IH Hi2). lia.
  - intros s' Hs' Hst. assert (init_inv n s') as Hi' by (apply init_reachable; by etrans).
    pose proof (init_rest s' Hst) as Hl. destruct Hi' as [H1 _ _ _ _]. unfold left_ in Hl. lia.
  - exists (mk true 0 0 0 0 0 0 2 2). split; [|done]. unfold start.
    do 2 (eapply rtc_l; [apply test|]; cbn). do 2 (eapply rtc_l; [apply lock|]). do 2 (eapply rtc_l; [apply test2|]; cbn).
    do 2 (eapply rtc_l; [apply library_init|]). do 2 (eapply rtc_l; [apply set|]). do 2 (eapply rtc_l; [apply leave|]). done.
Qed.
End Facts.
