(* ===== verification/MysqlLinkPool.v ===== *)
(** * MysqlLinkPool.h, MysqlLinkPool.cc: the pool of database connections

    The pool keeps the idle connections in a list and the number of connections it
    gave out or keeps in [curSize].  Every public operation runs under the pool's
    mutex, so an interleaving of clients is a sequence of operations.  Connections
    are objects of a heap, so that deletion and the identity of pointers are
    visible. *)
From S2P Require Import Prelude Text State Mysql.

Module MysqlLinkPool.
Section Pool.
Context {D : Type} {MC : MysqlClient D}.

Record t := mk {
  curSize : Z;
  maxSize : Z;
  connList : list nat;
  Host : string;
  User : string;
  Pass : string;
  DB : string;
  Port : Z
}.

Definition set_curSize (l : t) (v : Z) : t :=
  mk v (maxSize l) (connList l) (Host l) (User l) (Pass l) (DB l) (Port l).
Definition set_connList (l : t) (v : list nat) : t :=
  mk (curSize l) (maxSize l) v (Host l) (User l) (Pass l) (DB l) (Port l).

(** The library, the objects of class [Mysql], the next address, and the pool. *)
Record state := State {
  lib : D;
  objs : gmap nat (Mysql.MysqlProp D);
  fresh : nat;
  pool : t
}.

Definition upd_pool (f : t → t) : st state unit :=
  modify (λ s, State (lib s) (objs s) (fresh s) (f (pool s))).

(** A method of [Comm::Mysql] called on the object at [con]. *)
Definition on_mysql {A} (con : nat) (m : st (D * Mysql.MysqlProp D) A) : st state A := λ s,
  match objs s !! con with
  | None => Fault UB
  | Some p =>
      '(a, dp) ← m (lib s, p);
      Ok (a, State dp.1 (<[con := dp.2]> (objs s)) (fresh s) (pool s))
  end.

(** [delete con]. *)
Definition delete_mysql (con : nat) : st state unit :=
  on_mysql con Mysql.destroy;;
  modify (λ s, State (lib s) (delete con (objs s)) (fresh s) (pool s)).

(** The constructor of [Comm::Mysql] does not connect and throws nothing, so the
    handler that would return [NULL] is never entered. *)
Definition CreateConnection : st state (option nat) := λ s,
  let p := pool s in
  let conn := Mysql.make (Host p) (User p) (Pass p) (DB p) (Port p) in
  Ok (Some (fresh s), State (lib s) (<[fresh s := conn]> (objs s)) (S (fresh s)) p).

Fixpoint InitConnection_loop (n : nat) : st state unit :=
  match n with
  | O => mret ()
  | S n' =>
      conn ← CreateConnection;
      match conn with
      | Some c =>
          upd_pool (λ p, set_curSize (set_connList p (connList p ++ [c])) (curSize p + 1))
      | None => mret ()
      end;;
      InitConnection_loop n'
  end.

Definition InitConnection (iInitialSize : Z) : st state unit :=
  InitConnection_loop (Z.to_nat iInitialSize).

(** The constructor of the pool. *)
Definition make (d : D) (szHost szUser szPass szDB : string) (Port maxSize : Z) : res state :=
  '((), s) ← InitConnection (cdiv maxSize 2)
    (State d ∅ 0 (mk 0 maxSize [] szHost szUser szPass szDB Port));
  mret s.

(** [MysqlLinkPool::linkpool]. *)
Definition linkpool (d : D) : res state := make d "127.0.0.1" "root" "IM@tencent123" "IM" 3306 20.

Definition GetConnection : st state (option nat) :=
  l ← gets (λ s, connList (pool s));
  match l with
  | con :: l' =>
      upd_pool (λ p, set_connList p l');;
      ping ← on_mysql con Mysql.Ping;
      con ← (if ping =? 0 then delete_mysql con;; CreateConnection else mret (Some con));
      (if bool_decide (con = None) then upd_pool (λ p, set_curSize p (curSize p - 1)) else mret ());;
      mret con
  | [] =>
      cur ← gets (λ s, curSize (pool s));
      max ← gets (λ s, maxSize (pool s));
      if cur <? max then
        con ← CreateConnection;
        match con with
        | Some c => upd_pool (λ p, set_curSize p (curSize p + 1));; mret (Some c)
        | None => mret None
        end
      else mret None
  end.

Definition ReleaseConnection (conn : option nat) : st state unit :=
  match conn with
  | Some c => upd_pool (λ p, set_connList p (connList p ++ [c]))
  | None => mret ()
  end.

Definition DestoryConnection (conn : nat) : st state unit :=
  on_mysql conn Mysql.Close;; delete_mysql conn.

Fixpoint Destory_loop (l : list nat) : st state unit :=
  match l with
  | [] => mret ()
  | c :: l' => DestoryConnection c;; Destory_loop l'
  end.

Definition DestoryMysqlLinkPool : st state unit :=
  l ← gets (λ s, connList (pool s));
  Destory_loop l;;
  upd_pool (λ p, set_connList (set_curSize p 0) []).
End Pool.
Arguments state _ {_}.
End MysqlLinkPool.

(** ** The clients of the pool *)

Section Clients.
Context {D : Type} {MC : MysqlClient D}.
Import MysqlLinkPool.

(** The pool with the connections its clients hold. *)
Inductive step : state D * list nat → state D * list nat → Prop :=
  | step_get s s' held con :
      GetConnection s = Ok (con, s') →
      step (s, held) (s', match con with Some c => c :: held | None => held end)
  | step_release s s' held held1 held2 c :
      held = held1 ++ c :: held2 →
      ReleaseConnection (Some c) s = Ok ((), s') →
      step (s, held) (s', held1 ++ held2)
  (* a client calls any method of a connection it holds *)
  | step_use {A} s s' held c (m : st (D * Mysql.MysqlProp D) A) a :
      c ∈ held → on_mysql c m s = Ok (a, s') →
      step (s, held) (s', held).

(** What the pool and its clients keep. *)
Record inv (s : state D) (held : list nat) : Prop := {
  inv_nodup : NoDup (connList (pool s) ++ held);
  inv_alive : ∀ c, c ∈ connList (pool s) ++ held → is_Some (objs s !! c);
  inv_fresh : ∀ c, is_Some (objs s !! c) → (c < fresh s)%nat;
  inv_count : curSize (pool s) = zlen (connList (pool s)) + zlen held;
  inv_max : curSize (pool s) <= maxSize (pool s)
}.

(** [FreeResult] and the calls of the library never fault. *)
Lemma FreeResult_Ok (s : D * Mysql.MysqlProp D) : ∃ p', Mysql.FreeResult s = Ok (0, (s.1, p')).
Proof.
  destruct s as [d p]. unfold Mysql.FreeResult, Mysql.upd, Mysql.prop, mbind, st_bind, modify, gets. cbn.
  destruct (Mysql.bFieldIndexInitialized p); by eexists.
Qed.

Lemma on_connection_Ok {A} (f : D → MYSQL → A * MYSQL * D) (s : D * Mysql.MysqlProp D) :
  ∃ s', Mysql.on_connection f s = Ok ((f s.1 (Mysql.connection s.2)).1.1, s').
Proof. unfold Mysql.on_connection. destruct (f _ _) as [[a h] d]. by eexists. Qed.

Lemma Ping_Ok (s : D * Mysql.MysqlProp D) :
  ∃ z s', Mysql.Ping s = Ok (z, s') ∧
    (z = 0 ↔ (mysql_ping s.1 (Mysql.connection s.2)).1.1 = 0).
Proof.
  unfold Mysql.Ping. destruct (on_connection_Ok mysql_ping s) as [s1 E].
  rewrite (st_bind_run _ _ _ _ _ E). destruct ((mysql_ping _ _).1.1 =? 0) eqn:Ez; cbn [negb].
  - eexists _, _. split; [done|]. lia.
  - destruct (FreeResult_Ok s1) as [p' E1]. rewrite (st_bind_run _ _ _ _ _ E1).
    destruct (on_connection_Ok mysql_close (s1.1, p')) as [s2 E2].
    rewrite (st_bind_run _ _ _ _ _ E2). eexists _, _. split; [done|]. lia.
Qed.

Lemma destroy_Ok (s : D * Mysql.MysqlProp D) : ∃ s', Mysql.destroy s = Ok ((), s').
Proof.
  unfold Mysql.destroy. unfold Mysql.prop at 1, gets, mbind at 1, st_bind at 1.
  destruct (Mysql.bConnected s.2); [|by eexists].
  destruct (FreeResult_Ok s) as [p' E1]. rewrite (st_bind_run _ _ _ _ _ E1).
  destruct (on_connection_Ok mysql_close (s.1, p')) as [s2 E2]. exists s2. rewrite E2.
  by destruct (mysql_close _ _) as [[[] h] d].
Qed.

Lemma on_mysql_run {A} c (m : st (D * Mysql.MysqlProp D) A) s p a d' p' :
  objs s !! c = Some p → m (lib s, p) = Ok (a, (d', p')) →
  on_mysql c m s = Ok (a, State d' (<[c := p']> (objs s)) (fresh s) (pool s)).
Proof. unfold on_mysql. intros -> Hm. by rewrite Hm. Qed.

Lemma delete_mysql_run c s p :
  objs s !! c = Some p →
  ∃ d, delete_mysql c s = Ok ((), State d (delete c (objs s)) (fresh s) (pool s)).
Proof.
  intros Hc. unfold delete_mysql. destruct (destroy_Ok (lib s, p)) as [[d' p'] E].
  rewrite (st_bind_run _ _ _ _ _ (on_mysql_run _ _ _ _ _ _ _ Hc E)).
  exists d'. unfold modify. cbn. by rewrite delete_insert_eq.
Qed.

(** How [GetConnection] runs, by the three cases of the code. *)
Lemma GetConnection_run s held :
  inv s held →
  (connList (pool s) = [] ∧ curSize (pool s) = maxSize (pool s) ∧ GetConnection s = Ok (None, s)) ∨
  ∃ c s', GetConnection s = Ok (Some c, s') ∧ inv s' (c :: held).
Proof.
  intros [Hnd Halive Hfresh Hcount Hmax]. unfold GetConnection.
  rewrite run_gets.
  destruct (connList (pool s)) as [|c l] eqn:El.
  - rewrite !run_gets.
    destruct (curSize (pool s) <? maxSize (pool s)) eqn:E; [right|left; split_and!; [done|lia|done]].
    unfold CreateConnection, upd_pool. cbv zeta. eexists _, _. split; [reflexivity|].
    assert (∀ c, c ∈ held → (c < fresh s)%nat) as Hlt by (intros c Hc; by apply Hfresh, Halive).
    constructor; cbn; rewrite ?El; cbn.
    + apply NoDup_cons. split; [|done]. intros Hin. apply Hlt in Hin. lia.
    + intros c Hc. apply elem_of_cons in Hc as [->|Hc]; [rewrite lookup_insert_eq; by eexists|].
      rewrite lookup_insert_ne; [by apply Halive|]. apply Hlt in Hc. lia.
    + intros c Hc. destruct (decide (c = fresh s)) as [->|]; [lia|].
      rewrite lookup_insert_ne in Hc by done. apply Hfresh in Hc. lia.
    + rewrite zlen_cons. change (zlen (@nil nat)) with 0 in *. lia.
    + lia.
  - right. unfold upd_pool. rewrite run_modify.
    destruct (Halive c) as [p Hp]; [set_solver|].
    cbn [app] in *. apply NoDup_cons in Hnd as [Hc Hnd].
    set (s1 := State _ _ _ _).
    destruct (Ping_Ok (lib s1, p)) as (z & [d2 p2] & Eping & _).
    rewrite (st_bind_run _ _ _ _ _ (on_mysql_run c Mysql.Ping s1 p z d2 p2 Hp Eping)).
    assert (∀ c', c' ∈ l ++ held → (c' < fresh s)%nat) as Hlt.
    { intros c' Hc'. apply Hfresh, Halive. set_solver. }
    rewrite zlen_cons in Hcount.
    destruct (z =? 0).
    + set (s2 := State _ _ _ _).
      destruct (delete_mysql_run c s2 p2) as [d3 E3]; [cbn; by rewrite lookup_insert_eq|].
      unfold mbind, st_bind, CreateConnection. rewrite E3. cbn.
      eexists _, _. split; [done|]. constructor; cbn.
      * apply NoDup_app. apply NoDup_app in Hnd as (? & Hd & ?). split_and!; [done| |].
        -- intros x Hx. apply not_elem_of_cons. split; [|by apply Hd].
           intros ->. specialize (Hlt (fresh s)). set_solver by lia.
        -- apply NoDup_cons. split; [|done]. intros Hin. specialize (Hlt (fresh s)). set_solver by lia.
      * intros x Hx. destruct (decide (x = fresh s)) as [->|Hne]; [rewrite lookup_insert_eq; by eexists|].
        rewrite lookup_insert_ne by done. rewrite delete_insert_eq.
        assert (x ∈ l ++ held) by set_solver.
        rewrite lookup_delete_ne by (intros ->; done). apply Halive. set_solver.
      * intros x Hx. destruct (decide (x = fresh s)) as [->|Hne]; [lia|].
        rewrite lookup_insert_ne in Hx by done. rewrite delete_insert_eq in Hx.
        apply lookup_delete_is_Some in Hx as [_ Hx]. apply Hfresh in Hx. lia.
      * rewrite zlen_cons. lia.
      * done.
    + eexists _, _. split; [done|]. constructor; cbn.
      * by rewrite <-Permutation_middle, NoDup_cons.
      * intros x Hx. destruct (decide (x = c)) as [->|Hne]; [rewrite lookup_insert_eq; by eexists|].
        rewrite lookup_insert_ne by done. apply Halive. set_solver.
      * intros x Hx. destruct (decide (x = c)) as [->|Hne]; [apply Hfresh; by eexists|].
        rewrite lookup_insert_ne in Hx by done. by apply Hfresh.
      * rewrite zlen_cons. lia.
      * done.
Qed.

Lemma step_inv x y : step x y → inv x.1 x.2 → inv y.1 y.2.
Proof.
  intros Hstep Hinv. destruct Hstep as [s s' held con H|s s' held held1 held2 c -> H|A s s' held c m a Hc H];
    cbn [fst snd] in *.
  - destruct (GetConnection_run s held Hinv) as [(_ & _ & E)|(c & s1 & E & Hi)];
      rewrite E in H; by simplify_eq.
  - unfold ReleaseConnection, upd_pool, modify in H. simplify_eq.
    destruct Hinv as [Hnd Halive Hfresh Hcount Hmax]. constructor; cbn; try done.
    + assert ((connList (pool s) ++ [c]) ++ held1 ++ held2 ≡ₚ connList (pool s) ++ held1 ++ c :: held2) as ->.
      { by rewrite <-app_assoc, <-Permutation_middle. }
      done.
    + intros x Hx. apply Halive. set_solver.
    + zl.
  - unfold on_mysql in H. destruct (objs s !! c) as [p|] eqn:Hp; [|done].
    destruct (m (lib s, p)) as [[x [d' p']]|]; cbn in H; simplify_eq.
    destruct Hinv as [Hnd Halive Hfresh Hcount Hmax]. constructor; cbn; try done.
    + intros x Hx. destruct (decide (x = c)) as [->|]; [rewrite lookup_insert_eq; by eexists|].
      rewrite lookup_insert_ne by done. by apply Halive.
    + intros x Hx. destruct (decide (x = c)) as [->|]; [apply Hfresh; by eexists|].
      rewrite lookup_insert_ne in Hx by done. by apply Hfresh.
Qed.

Lemma step_maxSize x y : step x y → maxSize (pool y.1) = maxSize (pool x.1).
Proof.
  intros [s s' held con H|s s' held held1 held2 c -> H|A s s' held c m a Hc H]; cbn [fst snd].
  - unfold GetConnection in H. rewrite run_gets in H. destruct (connList (pool s)) as [|c l].
    + rewrite !run_gets in H. destruct (_ <? _); [|by inv_st].
      unfold CreateConnection, upd_pool in H. by inv_st.
    + unfold upd_pool in H. rewrite run_modify in H. inv_st.
      assert (∀ A (m : st _ A) a s1 s2, on_mysql c m s1 = Ok (a, s2) → pool s2 = pool s1) as Hon.
      { intros A m a s1 s2 Hm. unfold on_mysql in Hm. destruct (objs s1 !! c); [|done].
        destruct (m _) as [[? []]|]; cbn in Hm; by simplify_eq. }
      repeat case_match; inv_st; unfold delete_mysql, CreateConnection in *; inv_st; cbn;
        repeat match goal with H : on_mysql c _ _ = Ok _ |- _ => apply Hon in H; rewrite H end; done.
  - unfold ReleaseConnection, upd_pool, modify in H. by simplify_eq.
  - unfold on_mysql in H. destruct (objs s !! c); [|done].
    destruct (m _) as [[? []]|]; cbn in H; by simplify_eq.
Qed.

(** [InitConnection] keeps the invariant as long as there is room. *)
Lemma InitConnection_inv n s :
  inv s [] → curSize (pool s) + Z.of_nat n <= maxSize (pool s) →
  ∃ s', InitConnection_loop n s = Ok ((), s') ∧ inv s' [] ∧
    curSize (pool s') = curSize (pool s) + Z.of_nat n ∧ maxSize (pool s') = maxSize (pool s).
Proof.
  revert s. induction n as [|n IH]; intros s Hinv Hroom; cbn [InitConnection_loop].
  - exists s. split_and!; [done|done|lia|done].
  - destruct Hinv as [Hnd Halive Hfresh Hcount Hmax]. rewrite app_nil_r in *.
    unfold upd_pool. unfold CreateConnection at 1, mbind at 1, st_bind at 1. rewrite run_modify. cbn [pool lib objs fresh].
    edestruct IH as (s' & -> & Hinv' & Hc & Hm); [| |exists s'; split; [done|]; split; [done|]].
    3:{ cbn in Hc, Hm. split; [lia|done]. }
    2:{ cbn. lia. }
    assert (∀ c, c ∈ connList (pool s) → (c < fresh s)%nat) as Hlt by (intros c Hc; by apply Hfresh, Halive).
    constructor; cbn; rewrite ?app_nil_r.
    + apply NoDup_app. split_and!; [done| |apply NoDup_singleton]. intros x Hx Hin.
      apply list_elem_of_singleton in Hin as ->. apply Hlt in Hx. lia.
    + intros x Hx. destruct (decide (x = fresh s)) as [->|]; [rewrite lookup_insert_eq; by eexists|].
      rewrite lookup_insert_ne by done. apply Halive. set_solver.
    + intros x Hx. destruct (decide (x = fresh s)) as [->|]; [lia|].
      rewrite lookup_insert_ne in Hx by done. apply Hfresh in Hx. lia.
    + rewrite zlen_app. change (zlen [fresh s]) with 1. change (zlen (@nil nat)) with 0 in *. lia.
    + lia.
Qed.

Lemma make_inv d h u pw db port max :
  0 <= max → ∃ s, make d h u pw db port max = Ok s ∧ inv s [] ∧ maxSize (pool s) = max ∧ curSize (pool s) = max / 2.
Proof.
  intros Hmax. unfold make, InitConnection.
  rewrite Z.quot_div_nonneg by lia. pose proof (div_bounds max 2 ltac:(lia)).
  edestruct (InitConnection_inv (Z.to_nat (max / 2)) (State d ∅ 0 (mk 0 max [] h u pw db port)))
    as (s & -> & Hinv & Hc & Hm).
  - constructor; cbn; [constructor|set_solver| |done|lia]. intros c Hc. rewrite lookup_empty in Hc. by destruct Hc.
  - cbn. lia.
  - exists s. cbn in *. split_and!; try done. lia.
Qed.

Lemma steps_inv x y : rtc step x y → inv x.1 x.2 → inv y.1 y.2.
Proof. induction 1 as [|x y z Hstep _ IH]; [done|]. intros Hx. by eapply IH, step_inv. Qed.

(** C31 (invariant). In every interleaving of clients that take connections from the
    pool, use them and give back each one they hold, no connection is held twice or
    both held and idle, every one of them is a live object, [curSize] is their number
    and never exceeds the configured maximum; a request never faults, and is refused
    exactly when all connections the maximum allows are held. *)
Theorem pool_exclusive (d : D) (szHost szUser szPass szDB : string) (Port maxSz : Z)
    (s0 s : state D) (held : list nat) :
  0 <= maxSz →
  make d szHost szUser szPass szDB Port maxSz = Ok s0 →
  rtc step (s0, []) (s, held) →
  NoDup (connList (pool s) ++ held) ∧
  (∀ c, c ∈ connList (pool s) ++ held → is_Some (objs s !! c)) ∧
  curSize (pool s) = zlen (connList (pool s)) + zlen held ∧ curSize (pool s) <= maxSz ∧
  ∃ con s', GetConnection s = Ok (con, s') ∧
    (con = None ↔ connList (pool s) = [] ∧ zlen held = maxSz).
Proof.
  intros Hmax Hmake Hsteps.
  destruct (make_inv d szHost szUser szPass szDB Port maxSz Hmax) as (s1 & E & Hinv0 & Hm & _).
  rewrite E in Hmake. simplify_eq.
  pose proof (steps_inv _ _ Hsteps Hinv0) as Hinv. cbn [fst snd] in Hinv.
  assert (maxSize (pool s) = maxSize (pool s0)) as Hms.
  { clear -Hsteps. assert (∀ x y, rtc step x y → maxSize (pool y.1) = maxSize (pool x.1)) as H.
    { clear. induction 1 as [|x y z Hs _ IH]; [done|]. rewrite IH. by apply step_maxSize. }
    apply (H _ _ Hsteps). }
  pose proof Hinv as [Hnd Halive Hfresh Hcount Hle].
  split_and!; [done|done|done|lia|].
  destruct (GetConnection_run s held Hinv) as [(He & Hfull & E1)|(c & s' & E1 & _)].
  - exists None, s. split; [done|]. rewrite He in *. change (zlen (@nil nat)) with 0 in *. split; [|done]. split; [done|lia].
  - exists (Some c), s'. split; [done|]. split; [done|]. intros [He Hh].
    unfold GetConnection in E1. rewrite run_gets, He, !run_gets in E1.
    rewrite He in Hcount. change (zlen (@nil nat)) with 0 in *.
    replace (curSize (pool s) <? maxSize (pool s)) with false in E1 by lia. done.
Qed.

(** The test of the idle connection is the wrong way round ([Ping]
    returns 0 for a connection that works): a healthy connection is destroyed and
    replaced by a new one that is not connected, a broken one is handed out. *)
Theorem get_replaces_healthy (s : state D) (held l : list nat) (c : nat) (p : Mysql.MysqlProp D) :
  inv s held → connList (pool s) = c :: l → objs s !! c = Some p →
  ∃ con s', GetConnection s = Ok (Some con, s') ∧
    ((mysql_ping (lib s) (Mysql.connection p)).1.1 = 0 →
      objs s' !! c = None ∧ con = fresh s ∧
      objs s' !! con = Some (Mysql.make (Host (pool s)) (User (pool s)) (Pass (pool s)) (DB (pool s)) (Port (pool s)))) ∧
    ((mysql_ping (lib s) (Mysql.connection p)).1.1 ≠ 0 → con = c).
Proof.
  intros Hinv Hl Hp. unfold GetConnection. rewrite run_gets, Hl. unfold upd_pool. rewrite run_modify.
  set (s1 := State _ _ _ _).
  destruct (Ping_Ok (lib s1, p)) as (z & [d2 p2] & Eping & Hz). cbn [fst snd] in Hz. change (lib s1) with (lib s) in Hz.
  rewrite (st_bind_run _ _ _ _ _ (on_mysql_run c Mysql.Ping s1 p z d2 p2 Hp Eping)).
  assert (c < fresh s)%nat by (eapply inv_fresh; [done|by eexists]).
  destruct (z =? 0) eqn:Ez.
  - set (s2 := State _ _ _ _).
    destruct (delete_mysql_run c s2 p2) as [d3 E3]; [cbn; by rewrite lookup_insert_eq|].
    unfold mbind, st_bind, CreateConnection. rewrite E3. cbn.
    eexists _, _. split; [done|]. cbn. split.
    + intros _. rewrite delete_insert_eq, lookup_insert_ne, lookup_delete_eq, lookup_insert_eq by lia. done.
    + intros Hn. apply Z.eqb_eq in Ez. tauto.
  - eexists _, _. split; [done|]. split; [|done]. intros Hn. apply Z.eqb_neq in Ez. tauto.
Qed.
End Clients.

(** ** Connections that can be used *)

Section Ready.
Context {D : Type} {MC : MysqlClient D} {ML : MysqlClientLaws D}.
Import MysqlLinkPool.

(** The pool's strings fit the arrays of the objects it makes. *)
Definition short_pool (p : t) : Prop :=
  slen (Host p) < 64 ∧ slen (User p) < 64 ∧ slen (Pass p) < 64 ∧ slen (DB p) < 256.

(** An object whose strings are terminated and whose result, if any, is as stored. *)
Definition usable (p : Mysql.MysqlProp D) : Prop := short_login p ∧ ∃ t, rep p t.

Lemma usable_make h u pw db port :
  slen h < 64 → slen u < 64 → slen pw < 64 → slen db < 256 → usable (Mysql.make h u pw db port).
Proof. intros. split; [by apply short_login_make|]. by exists None. Qed.


Record ready (s : state D) (held : list nat) : Prop := {
  ready_inv : inv s held;
  ready_pool : short_pool (pool s);
  ready_objs : ∀ c p, objs s !! c = Some p → usable p
}.

(** A method of a lent connection returns, and leaves everything usable. *)
Lemma on_mysql_ready {A} s held c (m : st (D * Mysql.MysqlProp D) A) :
  ready s held → c ∈ held → total m → safe m → ∃ a s', on_mysql c m s = Ok (a, s') ∧ ready s' held.
Proof.
  intros [Hinv Hpool Hobjs] Hc Hm Hsafe. destruct (inv_alive _ _ Hinv c) as [p Hp]; [set_solver|].
  destruct (Hobjs _ _ Hp) as [Hshort Hrep].
  destruct (Hm (lib s, p) Hshort) as (a & [d' p'] & E & Hp').
  assert (usable p') as Hu by (split; [exact Hp'|exact (Hsafe _ _ _ E Hrep)]).
  exists a. eexists. split; [by eapply on_mysql_run|]. constructor.
  - eapply (step_inv (s, held) (_, held)); [|done]. eapply step_use; [done|]. by eapply on_mysql_run.
  - done.
  - cbn. intros c' q. destruct (decide (c' = c)) as [->|]; [rewrite lookup_insert_eq; by intros [= <-]|].
    rewrite lookup_insert_ne by done. apply Hobjs.
Qed.

Lemma Release_ready s held c :
  ready s (c :: held) → ∃ s', ReleaseConnection (Some c) s = Ok ((), s') ∧ ready s' held ∧ lib s' = lib s.
Proof.
  intros [Hinv Hpool Hobjs]. eexists. split; [reflexivity|]. split; [|done]. constructor; [|done|done].
  eapply (step_inv (s, c :: held) (_, held)); [|done]. by eapply (step_release _ _ _ [] held c).
Qed.

Lemma GetConnection_ready s held :
  ready s held → connList (pool s) ≠ [] ∨ zlen held < maxSize (pool s) →
  ∃ c s', GetConnection s = Ok (Some c, s') ∧ ready s' (c :: held).
Proof.
  intros [Hinv Hpool Hobjs] Havail.
  destruct (GetConnection_run s held Hinv) as [(He & Hfull & _)|(c & s' & E & Hinv')].
  { destruct Hinv as [_ _ _ Hcount _]. rewrite He in *. change (zlen (@nil nat)) with 0 in *.
    destruct Havail; [done|lia]. }
  exists c, s'. split; [done|]. constructor; [done|..].
  all: unfold GetConnection in E; rewrite run_gets in E.
  all: destruct (connList (pool s)) as [|c0 l] eqn:El.
  all: try (rewrite !run_gets in E; destruct (curSize (pool s) <? maxSize (pool s)); [|done];
            unfold CreateConnection, upd_pool, modify, mbind, st_bind, mret, st_ret in E; cbn in E; simplify_eq; cbn).
  - done.
  - unfold upd_pool in E. rewrite run_modify in E.
    destruct (inv_alive _ _ Hinv c0) as [p0 Hp0]; [rewrite El; set_solver|].
    set (s1 := State _ _ _ _) in E. destruct (Hobjs _ _ Hp0) as [Hshort Hrep].
    destruct (total_Ping (lib s1, p0) Hshort) as (z & [d2 p2] & Ep & Hp2).
    assert (usable p2) as Hu by (split; [exact Hp2|exact (Ping_safe _ _ _ Ep Hrep)]).
    rewrite (st_bind_run _ _ _ _ _ (on_mysql_run c0 Mysql.Ping s1 p0 z d2 p2 Hp0 Ep)) in E.
    destruct (z =? 0).
    + set (s2 := State _ _ _ _) in E.
      destruct (delete_mysql_run c0 s2 p2) as [d3 E3]; [cbn; by rewrite lookup_insert_eq|].
      unfold mbind, st_bind, CreateConnection, mret, st_ret in E. rewrite E3 in E. cbn in E. simplify_eq. exact Hpool.
    + unfold mbind, st_bind, mret, st_ret in E. cbn in E. simplify_eq. exact Hpool.
  - intros c' q. destruct (decide (c' = fresh s)) as [->|].
    + rewrite lookup_insert_eq. intros [= <-]. destruct Hpool as (? & ? & ? & ?). by apply usable_make.
    + rewrite lookup_insert_ne by done. apply Hobjs.
  - unfold upd_pool in E. rewrite run_modify in E.
    destruct (inv_alive _ _ Hinv c0) as [p0 Hp0]; [rewrite El; set_solver|].
    set (s1 := State _ _ _ _) in E. destruct (Hobjs _ _ Hp0) as [Hshort Hrep].
    destruct (total_Ping (lib s1, p0) Hshort) as (z & [d2 p2] & Ep & Hp2).
    assert (usable p2) as Hu by (split; [exact Hp2|exact (Ping_safe _ _ _ Ep Hrep)]).
    rewrite (st_bind_run _ _ _ _ _ (on_mysql_run c0 Mysql.Ping s1 p0 z d2 p2 Hp0 Ep)) in E.
    destruct (z =? 0).
    + set (s2 := State _ _ _ _) in E.
      destruct (delete_mysql_run c0 s2 p2) as [d3 E3]; [cbn; by rewrite lookup_insert_eq|].
      unfold mbind, st_bind, CreateConnection, mret, st_ret in E. rewrite E3 in E. cbn in E. simplify_eq. cbn.
      intros c' q. destruct (decide (c' = fresh s)) as [->|].
      * rewrite lookup_insert_eq. intros [= <-]. destruct Hpool as (? & ? & ? & ?). by apply usable_make.
      * rewrite lookup_insert_ne by done. rewrite delete_insert_eq. intros Hq.
        apply lookup_delete_Some in Hq as [_ Hq]. by eapply Hobjs.
    + unfold mbind, st_bind, mret, st_ret in E. cbn in E. simplify_eq. cbn.
      intros c' q. destruct (decide (c' = c)) as [->|]; [rewrite lookup_insert_eq; by intros [= <-]|].
      rewrite lookup_insert_ne by done. apply Hobjs.
Qed.
End Ready.

(** A client that takes two connections of a pool of at most two and gives the first
    back; a third request before that would have been refused. *)
Definition toy_pool (n : Z) : MysqlLinkPool.state nat :=
  match MysqlLinkPool.make 0%nat "h" "u" "p" "db" 1 n with
  | Ok s => s
  | Fault _ => MysqlLinkPool.State 0%nat ∅ 0 (MysqlLinkPool.mk 0 0 [] "" "" "" "" 0)
  end.

Definition toy_get (s : MysqlLinkPool.state nat) : MysqlLinkPool.state nat :=
  match MysqlLinkPool.GetConnection s with Ok (_, s') => s' | Fault _ => s end.

Lemma pool_exclusive_witness :
  ∃ con s', MysqlLinkPool.GetConnection (toy_get (toy_get (toy_pool 2))) = Ok (con, s') ∧ con = None.
Proof.
  destruct (pool_exclusive 0%nat "h" "u" "p" "db" 1 2 (toy_pool 2) (toy_get (toy_get (toy_pool 2))) [2%nat; 1%nat])
    as (_ & _ & _ & _ & con & s' & E & Hnone).
  - done.
  - vm_compute. reflexivity.
  - eapply rtc_l; [refine (step_get (toy_pool 2) (toy_get (toy_pool 2)) [] (Some 1%nat) _); vm_compute; reflexivity|].
    eapply rtc_l; [refine (step_get (toy_get (toy_pool 2)) (toy_get (toy_get (toy_pool 2))) _ (Some 2%nat) _); vm_compute; reflexivity|].
    apply rtc_refl.
  - exists con, s'. split; [exact E|]. apply Hnone. split; vm_compute; reflexivity.
Defined.

Lemma get_replaces_healthy_witness :
  ∃ s', MysqlLinkPool.GetConnection (toy_pool 2) = Ok (Some 1%nat, s') ∧ MysqlLinkPool.objs s' !! 0%nat = None.
Proof.
  destruct (get_replaces_healthy (toy_pool 2) [] [] 0 (Mysql.make "h" "u" "p" "db" 1)) as (con & s' & E & Hok & _).
  - constructor.
    + vm_compute. repeat constructor; set_solver.
    + intros c Hc. change (c ∈ [0%nat]) in Hc. apply list_elem_of_singleton in Hc as ->. by eexists.
    + intros c [p Hp]. change (({[0%nat := Mysql.make "h" "u" "p" "db" 1]} : gmap nat _) !! c = Some p) in Hp.
      apply lookup_singleton_Some in Hp as [<- _]. change (0 < 1)%nat. lia.
    + reflexivity.
    + vm_compute. discriminate.
  - reflexivity.
  - reflexivity.
  - destruct (Hok eq_refl) as (H1 & -> & _). exists s'. split; [exact E|exact H1].
Defined.
