(* ===== verification/SqlAnswers.v ===== *)
(** * What MySQL answered

    Lemmas that tie what the business code reads from a pooled connection to the result
    the client library handed over for its query: [answered sql fields rows] says that
    the library accepted [sql] and stored this table for it. *)
From S2P Require Import Prelude Text State Mysql MysqlLinkPool.

Section Answers.
Context {D : Type} {MC : MysqlClient D} {ML : MysqlClientLaws D}.
Import Mysql.
Abbreviation Prop' := (MysqlProp D).
Abbreviation M' := (st (D * Prop')).

Definition answered (sql : string) (fields : list string) (rows : list (list (option string))) : Prop :=
  ∃ d h d1 h1 d2 h2 r, mysql_query sql d h = (0, h1, d1) ∧
    mysql_store_result d1 h1 = (Some r, h2, d2) ∧ res_fields r = fields ∧ res_rows r = rows.

(** The named column of the first row, as [GetField(0, name)] reads it. *)
Definition first_row (fields : list string) (rows : list (list (option string))) (name : string) : string :=
  match field_index fields name 0 with
  | Some j => t_text (Table fields rows 0) 0 j
  | None => ""
  end.

Lemma MysqlQuery_sent sql s s' :
  MysqlQuery sql s = Ok (0, s') → ∃ d h, mysql_query sql d h = (0, connection s'.2, s'.1).
Proof.
  unfold MysqlQuery, on_connection, mbind, st_bind, mret, st_ret. intros H.
  destruct (mysql_query sql s.1 (connection s.2)) as [[z h] d] eqn:E.
  destruct (z =? 0) eqn:Ez; cbn in H.
  - simplify_eq. exists s.1, (connection s.2). exact E.
  - destruct (mysql_ping d h) as [[z2 h2] d2]. destruct (z2 =? 0); cbn in H.
    + destruct (mysql_query sql d2 h2) as [[z3 h3] d3] eqn:E3. cbn in H. simplify_eq. by exists d2, h2.
    + simplify_eq.
Qed.

Lemma FreeResult_connection s s' z : FreeResult s = Ok (z, s') → s'.1 = s.1 ∧ connection s'.2 = connection s.2.
Proof.
  unfold FreeResult, prop, upd, gets, modify, mbind, st_bind, mret, st_ret. cbn.
  destruct (bFieldIndexInitialized _); cbn; intros; by simplify_eq.
Qed.

Lemma StoreResult_stored s t s' :
  rep s.2 t → StoreResult s = Ok (0, s') →
  ∃ r h d, mysql_store_result s.1 (connection s.2) = (Some r, h, d) ∧
    rep s'.2 (Some (Table (res_fields r) (res_rows r) 0)).
Proof.
  intros Hrep H. destruct (StoreResult_run _ _ _ _ Hrep H) as [(_ & r & Hr & Hrep')|[? _]]; [|done].
  exists r. unfold StoreResult in H. apply st_bind_Ok in H as (z & s1 & H1 & H).
  apply FreeResult_connection in H1 as [H1 H2].
  unfold on_connection, mbind at 1, st_bind at 1 in H. rewrite H1, H2 in H.
  destruct (mysql_store_result s.1 (connection s.2)) as [[[r'|] h] d] eqn:Es; cbn in H.
  - exists h, d. split; [|done].
    unfold upd, modify, mbind, st_bind, mret, st_ret in H. cbn in H. simplify_eq. cbn in Hr. by simplify_eq.
  - apply st_bind_Ok in H as (? & ? & _ & H). apply st_bind_Ok in H as (? & ? & _ & H).
    unfold mret, st_ret in H. simplify_eq.
Qed.

Lemma Query_answered sql s t s' :
  rep s.2 t → Query sql s = Ok (0, s') →
  ∃ fields rows, answered sql fields rows ∧ rep s'.2 (Some (Table fields rows 0)).
Proof.
  intros Hrep H. unfold Query in H. apply st_bind_Ok in H as (up & s1 & H1 & H).
  assert (∃ t1, rep s1.2 t1) as [t1 Ht1].
  { unshelve eapply (ensureConnected_safe _ _ _ _ _ H1); [apply frames_safe, frames_upd; done|by eexists]. }
  destruct up; cbn [negb] in H; [|by unfold mret, st_ret in H; simplify_eq].
  apply st_bind_Ok in H as (q & s2 & H2 & H).
  assert (rep s2.2 t1) as Ht2 by (eapply rep_view; [by eapply frames_MysqlQuery|done]).
  destruct (q =? 0) eqn:Eq; cbn [negb] in H.
  2:{ apply st_bind_Ok in H as (? & ? & _ & H). unfold mret, st_ret in H. simplify_eq. }
  apply Z.eqb_eq in Eq as ->. apply st_bind_Ok in H as (z & s3 & H3 & H).
  destruct (z =? 0) eqn:Ez; cbn [negb] in H; [|unfold mret, st_ret in H; simplify_eq].
  apply Z.eqb_eq in Ez as ->. unfold mret, st_ret in H. simplify_eq.
  destruct (StoreResult_stored _ _ _ Ht2 H3) as (r & h & d & Es & Hrep').
  destruct (MysqlQuery_sent _ _ _ H2) as (d0 & h0 & Hq).
  exists (res_fields r), (res_rows r). split; [|done]. by exists d0, h0, s2.1, (connection s2.2), d, h, r.
Qed.

(** *** Reads do not touch the connection data *)

Definition same_login (p q : Prop') : Prop :=
  szHost q = szHost p ∧ szUser q = szUser p ∧ szPass q = szPass p ∧ szDB q = szDB p.
Definition reads_only {A} (m : M' A) : Prop := ∀ s a s', m s = Ok (a, s') → same_login s.2 s'.2.

Lemma reads_ret {A} (a : A) : reads_only (mret a).
Proof. intros s b s' [= <- <-]. done. Qed.
Lemma reads_bind {A B} (m : M' A) (k : A → M' B) :
  reads_only m → (∀ a, reads_only (k a)) → reads_only (m ≫= k).
Proof.
  intros Hm Hk s b s' (a & s1 & H1 & H2)%st_bind_Ok.
  destruct (Hm _ _ _ H1) as (? & ? & ? & ?), (Hk _ _ _ _ H2) as (? & ? & ? & ?).
  unfold same_login. split_and!; congruence.
Qed.
Lemma reads_prop {A} (f : Prop' → A) : reads_only (prop f).
Proof. intros s a s' [= <- <-]. done. Qed.
Lemma reads_upd (f : Prop' → Prop') : (∀ p, same_login p (f p)) → reads_only (upd f).
Proof. intros Hf s a s' [= <- <-]. apply Hf. Qed.
Lemma reads_deref {A} (o : option A) : reads_only (deref o).
Proof. destruct o; [apply reads_ret|done]. Qed.
Lemma reads_on_result {A} (f : MYSQL_RES → A * MYSQL_RES) : reads_only (on_result f).
Proof.
  unfold on_result. apply reads_bind; [apply reads_bind; [apply reads_prop|intros; apply reads_deref]|].
  intros r. destruct (f r). apply reads_bind; [by apply reads_upd|intros; apply reads_ret].
Qed.

Ltac reads :=
  repeat first
    [ apply reads_on_result | apply reads_ret | apply reads_prop | apply reads_deref
    | (apply reads_upd; intros ?; done) | apply reads_bind; [|intros ?]
    | match goal with |- reads_only (match ?x with _ => _ end) => destruct x end
    | match goal with H : ∀ n i, reads_only _ |- _ => apply H end ].

Lemma reads_GetField i name : reads_only (GetField i name).
Proof.
  assert (∀ n i, reads_only (InitFieldName_loop n i)) as Hloop.
  { induction n as [|n IH]; intros j; cbn [InitFieldName_loop]; reads. apply IH. }
  unfold GetField, InitFieldName, GetFieldAt, outside, cached_row, cell, load_row. reads. destruct a; reads.
Qed.

Lemma GetField_first s t name :
  usable s.2 → rep s.2 (Some t) →
  ∃ p' t', GetField 0 name s = Ok (first_row (t_fields t) (t_rows t) name, (s.1, p')) ∧ usable p' ∧
    rep p' (Some t') ∧ t_fields t' = t_fields t ∧ t_rows t' = t_rows t.
Proof.
  intros [Hs _] Hrep. destruct (access_run s t (AtName 0 name) Hrep) as (p' & Hp & E).
  cbn [valid do_access] in E. apply st_bind_Ok in E as (v & [d q] & E1 & E2). unfold mret, st_ret in E2.
  injection E2 as Hv Hd Hq. subst d q.
  exists p', (t_step t (AtName 0 name)).2. split_and!.
  - rewrite E1. do 2 f_equal. unfold first_row. cbn [t_step] in Hv.
    destruct t as [fl rw pos]. cbn [t_fields t_rows] in *.
    by destruct (field_index fl name 0); injection Hv as ->.
  - split; [|by eexists]. destruct (reads_GetField _ _ _ _ _ E1) as (H1 & H2 & H3 & H4). cbn in *.
    unfold short_login in *. rewrite H1, H2, H3, H4. done.
  - done.
  - cbn [t_step]. unfold t_seek. by repeat case_match.
  - cbn [t_step]. unfold t_seek. by repeat case_match.
Qed.
End Answers.

Section Pool.
Context {D : Type} {MC : MysqlClient D} {ML : MysqlClientLaws D}.
Import MysqlLinkPool.

(** A method of a lent connection whose effect on its object is known. *)
Lemma on_mysql_exact {A} s held c (m : st (D * Mysql.MysqlProp D) A) p a d' p' :
  ready s held → c ∈ held → objs s !! c = Some p → m (lib s, p) = Ok (a, (d', p')) → usable p' →
  ∃ s', on_mysql c m s = Ok (a, s') ∧ ready s' held ∧ objs s' !! c = Some p'.
Proof.
  intros [Hinv Hpool Hobjs] Hc Hp E Hu. eexists. split; [by eapply on_mysql_run|]. split.
  - constructor; [|done|].
    + eapply (step_inv (s, held) (_, held)); [|done]. eapply step_use; [done|]. by eapply on_mysql_run.
    + cbn. intros c' q. destruct (decide (c' = c)) as [->|]; [rewrite lookup_insert_eq; by intros [= <-]|].
      rewrite lookup_insert_ne by done. apply Hobjs.
  - cbn. apply lookup_insert_eq.
Qed.
End Pool.
