(* ===== verification/CacheConn.v ===== *)
(** * CachePool.h, CachePool.cc: a connection to redis

    hiredis and the redis cluster are a parameter: [Hiredis] is the interface,
    [HiredisLaws] its documented behaviour.  Keys and values are byte strings; what
    reaches redis of a [std::string] is its C string.  The pools are in
    CachePool.v. *)
From S2P Require Import Prelude Text State StdMap Comm ProtobufCodec.

(** ** hiredis *)

(** [redisReply], by [type]. *)
#[warning="-register-all"]
Inductive redisReply :=
  | ReplyString (str : list byte)
  | ReplyStatus (str : list byte)
  | ReplyError (str : list byte)
  | ReplyInteger (z : Z)
  | ReplyNil
  | ReplyArray (elements : list redisReply).

(** The members [integer] (0 unless the reply is one), [str] with [len] (null and 0
    for integers, nil and arrays: appending them appends nothing) and [element]. *)
Definition reply_integer (r : redisReply) : Z := match r with ReplyInteger z => z | _ => 0 end.
Definition reply_str (r : redisReply) : list byte :=
  match r with ReplyString s | ReplyStatus s | ReplyError s => s | _ => [] end.

(** [R] is the state of the library and of the servers; a context is an address.
    A command is the list of its arguments: [redisClusterCommand] splits its format
    at the spaces and puts each [%s] whole into its argument. *)
Class Hiredis (R : Type) := {
  redisClusterContextInit : R → option nat * R;
  redisClusterConnect : string → nat → R → R;
  redisClusterCommandArgv : list (list byte) → nat → R → option redisReply * R;
  redisClusterFree : nat → R → R
}.

(** *** The commands of redis that the server uses

    A value of the database is a string or a list. *)
Inductive rvalue :=
  | VString (s : list byte)
  | VList (l : list (list byte)).

Abbreviation database := (gmap (list byte) rvalue).

Definition wrong_type : redisReply := ReplyError (bytes_of "WRONGTYPE").
Definition status_ok : redisReply := ReplyStatus (bytes_of "OK").

Definition s_of (z : Z) : list byte := bytes_of (dec z).

(** The documented effect of a command: the reply and the new database. *)
Inductive redis_command : list (list byte) → database → redisReply → database → Prop :=
  | cmd_get k db :
      redis_command [bytes_of "GET"; k] db
        (match db !! k with
         | Some (VString v) => ReplyString v
         | Some (VList _) => wrong_type
         | None => ReplyNil
         end) db
  | cmd_setex k n v db :
      0 < n → redis_command [bytes_of "SETEX"; k; s_of n; v] db status_ok (<[k := VString v]> db)
  | cmd_setnx_new k v db :
      db !! k = None →
      redis_command [bytes_of "SETNX"; k; v] db (ReplyInteger 1) (<[k := VString v]> db)
  | cmd_setnx_old k v x db :
      db !! k = Some x → redis_command [bytes_of "SETNX"; k; v] db (ReplyInteger 0) db
  | cmd_del_old k x db :
      db !! k = Some x → redis_command [bytes_of "DEL"; k] db (ReplyInteger 1) (delete k db)
  | cmd_del_new k db :
      db !! k = None → redis_command [bytes_of "DEL"; k] db (ReplyInteger 0) db
  | cmd_lpush_new k v db :
      db !! k = None →
      redis_command [bytes_of "LPUSH"; k; v] db (ReplyInteger 1) (<[k := VList [v]]> db)
  | cmd_lpush_list k v l db :
      db !! k = Some (VList l) →
      redis_command [bytes_of "LPUSH"; k; v] db (ReplyInteger (zlen (v :: l)))
        (<[k := VList (v :: l)]> db)
  | cmd_lpush_string k v s db :
      db !! k = Some (VString s) → redis_command [bytes_of "LPUSH"; k; v] db wrong_type db
  | cmd_lrange_all k db :
      redis_command [bytes_of "LRANGE"; k; s_of 0; s_of (-1)] db
        (match db !! k with
         | Some (VList l) => ReplyArray (map ReplyString l)
         | Some (VString _) => wrong_type
         | None => ReplyArray []
         end) db
  | cmd_getset k v s db :
      db !! k = Some (VString s) →
      redis_command [bytes_of "GETSET"; k; v] db (ReplyString s) (<[k := VString v]> db)
  | cmd_getset_new k v db :
      db !! k = None → redis_command [bytes_of "GETSET"; k; v] db ReplyNil (<[k := VString v]> db).

(** The effect of a command, when it has one, is determined by it. *)
Class HiredisLaws (R : Type) `{Hiredis R} := {
  rdb : R → database;
  context_db r c r' : redisClusterContextInit r = (c, r') → rdb r' = rdb r;
  connect_db addr c r : rdb (redisClusterConnect addr c r) = rdb r;
  free_db c r : rdb (redisClusterFree c r) = rdb r;
  (* a reply reports what was done; without one the command may have been done *)
  command_db args c r rep db' : redis_command args (rdb r) rep db' →
    match redisClusterCommandArgv args c r with
    | (Some rep', r') => rep' = rep ∧ rdb r' = db'
    | (None, r') => rdb r' = rdb r ∨ rdb r' = db'
    end
}.

(** ** The connection *)

Module CacheConn.
Section CacheConn.
Context {R : Type} {HR : Hiredis R}.

(** What a connection reads of its pool: it never changes. *)
Record PoolInfo := Info {
  m_pool_name : string;
  m_server_ip : string;
  m_server_port : Z;
  m_db_num : Z
}.

Record t := mk {
  m_pCachePool : PoolInfo;
  m_pContext : option nat;
  m_last_connect_time : Z
}.

Definition make (pCachePool : PoolInfo) : t := mk pCachePool None 0.

Abbreviation M := (st (R * t)).

Definition set_context (c : option nat) : M unit :=
  modify (λ s, (s.1, mk (m_pCachePool s.2) c (m_last_connect_time s.2))).

(** A call of the library. *)
Definition on_library {A} (f : R → A * R) : M A := λ s,
  let '(a, r) := f s.1 in Ok (a, (r, s.2)).

(** [redisClusterFree(m_pContext)]. *)
Definition free_context : M unit :=
  c ← gets (λ s, m_pContext s.2);
  c ← deref c;
  modify (λ s, (redisClusterFree c s.1, s.2)).

(** [~CacheConn()]. *)
Definition destroy : M unit :=
  c ← gets (λ s, m_pContext s.2);
  match c with
  | Some _ => free_context;; set_context None
  | None => mret ()
  end.

Definition cluster (p : PoolInfo) : string := (m_server_ip p +:+ ":" +:+ dec (m_server_port p))%string.

(** [Init()]: a new context every time, the old one is not freed. *)
Definition Init : M Z :=
  c ← on_library redisClusterContextInit;
  set_context c;;
  match c with
  | None => mret (-1)
  | Some c =>
      modify (λ s, (redisClusterConnect (cluster (m_pCachePool s.2)) c s.1, s.2));;
      mret 0
  end.

Definition GetPoolName (c : t) : string := m_pool_name (m_pCachePool c).

(** [redisClusterCommand(m_pContext, ...)]. *)
Definition redisClusterCommand (args : list (list byte)) : M (option redisReply) :=
  c ← gets (λ s, m_pContext s.2);
  c ← deref c;
  on_library (redisClusterCommandArgv args c).

(** The shape of the methods: [Init], the command, and the three ways out. *)
Definition command {A} (args : list (list byte)) (no_init : M A) (no_reply : A) (k : redisReply → A) : M A :=
  i ← Init;
  if negb (i =? 0) then no_init
  else
    reply ← redisClusterCommand args;
    match reply with
    | None => free_context;; set_context None;; mret no_reply
    | Some r => mret (k r)
    end.

Definition arg (s : list byte) : list byte := c_str s.
Definition word (s : string) : list byte := bytes_of s.

(** [return nullptr] from a function that returns a [std::string]. *)
Definition null_string {A} : M A := fault (Throw "basic_string::_M_construct null not valid").

Definition get (key : list byte) : M (list byte) :=
  command [word "GET"; arg key] null_string []
    (λ r, match r with ReplyString s => s | _ => [] end).

Definition setex (key : list byte) (timeout : Z) (value : list byte) : M (list byte) :=
  command [word "SETEX"; arg key; s_of timeout; arg value] (mret []) [] reply_str.

Definition setnx (key : list byte) (time : Z) : M Z :=
  command [word "SETNX"; arg key; s_of time] (mret (-1)) (-1) (λ r, i32 (reply_integer r)).

Definition expire (key : list byte) (timeout : Z) : M (list byte) :=
  command [word "EXPIRE"; arg key; s_of timeout] (mret []) [] reply_str.

Definition set (key value : list byte) : M (list byte) :=
  command [word "SET"; arg key; arg value] (mret []) [] reply_str.

Definition getset (key value : list byte) : M (list byte) :=
  command [word "GETSET"; arg key; arg value] (mret []) [] reply_str.

Definition del (key : list byte) : M (list byte) :=
  command [word "DEL"; arg key] (mret []) [] reply_str.

(** [strKey = "MGET" + keys], each key behind a space, used as the format: its
    arguments are what the spaces separate, and a percent sign would make it read
    arguments that are not there. *)
Fixpoint split_spaces (cur l : list byte) : list (list byte) :=
  match l with
  | [] => match cur with [] => [] | _ => [cur] end
  | b :: l' =>
      if byte_eqb b Init.Byte.x20 then
        match cur with [] => split_spaces [] l' | _ => cur :: split_spaces [] l' end
      else split_spaces (cur ++ [b]) l'
  end.

Fixpoint join_keys (keys : list (list byte)) : list byte :=
  match keys with
  | [] => []
  | [k] => k
  | k :: keys' => k ++ [Init.Byte.x20] ++ join_keys keys'
  end.

(** The loop over the elements of the reply; [keys[i]] is outside the vector when
    there are more elements than keys. *)
Fixpoint mget_loop (elements : list redisReply) (keys : list (list byte))
    (ret : list (list byte * list byte)) : res (list (list byte * list byte)) :=
  match elements, keys with
  | [], _ => mret ret
  | ReplyString s :: el, k :: keys' => mget_loop el keys' (map_assign k (c_str s) ret)
  | ReplyString _ :: _, [] => Fault UB
  | _ :: el, _ => mget_loop el (tail keys) ret
  end.

Definition mget (keys : list (list byte)) (ret_value : list (list byte * list byte)) :
    M (bool * list (list byte * list byte)) :=
  i ← Init;
  if negb (i =? 0) then mret (false, ret_value)
  else if bool_decide (keys = []) then mret (false, ret_value)
  else
    let strKey := join_keys keys in
    if bool_decide (strKey = []) then mret (false, ret_value)
    else if bool_decide (Init.Byte.x25 ∈ arg strKey) then fault UB
    else
      reply ← redisClusterCommand (word "MGET" :: split_spaces [] (arg strKey));
      match reply with
      | None => free_context;; set_context None;; mret (false, ret_value)
      | Some (ReplyArray el) => ret ← lift (mget_loop el keys ret_value); mret (true, ret)
      | Some _ => mret (true, ret_value)
      end.

(** Without a reply the context is freed and the pointer kept. *)
Definition isExists (key : list byte) : M bool :=
  i ← Init;
  if negb (i =? 0) then mret false
  else
    reply ← redisClusterCommand [word "EXISTS"; arg key];
    match reply with
    | None => free_context;; mret false
    | Some r => mret (negb (reply_integer r =? 0))
    end.

Definition hdel (key field : list byte) : M Z :=
  command [word "HDEL"; arg key; arg field] (mret 0) 0 reply_integer.

Definition hget (key field : list byte) : M (list byte) :=
  command [word "HGET"; arg key; arg field] (mret [])  []
    (λ r, match r with ReplyString s => s | _ => [] end).

Fixpoint hgetAll_loop (elements : list redisReply) (ret : list (list byte * list byte)) :
    list (list byte * list byte) :=
  match elements with
  | f :: v :: el => hgetAll_loop el (map_insert (reply_str f) (reply_str v) ret)
  | _ => ret
  end.

Definition hgetAll (key : list byte) (ret_value : list (list byte * list byte)) :
    M (bool * list (list byte * list byte)) :=
  command [word "HGETALL"; arg key] (mret (false, ret_value)) (false, ret_value)
    (λ r, match r with
          | ReplyArray el => if Nat.even (length el) then (true, hgetAll_loop el ret_value)
                             else (true, ret_value)
          | _ => (true, ret_value)
          end).

Definition hset (key field value : list byte) : M Z :=
  command [word "HSET"; arg key; arg field; arg value] (mret (-1)) (-1) reply_integer.

Definition hincrBy (key field : list byte) (value : Z) : M Z :=
  command [word "HINCRBY"; arg key; arg field; s_of value] (mret (-1)) (-1) reply_integer.

Definition incrBy (key : list byte) (value : Z) : M Z :=
  command [word "INCRBY"; arg key; s_of value] (mret (-1)) (-1) reply_integer.

Definition hmset (key : list byte) (hash : list (list byte * list byte)) : M (list byte) :=
  command (word "HMSET" :: arg key :: concat (map (λ x, [arg x.1; arg x.2]) hash)) (mret []) [] reply_str.

Definition hmget (key : list byte) (fields ret_value : list (list byte)) : M (bool * list (list byte)) :=
  command (word "HMGET" :: arg key :: map arg fields) (mret (false, ret_value)) (false, ret_value)
    (λ r, match r with
          | ReplyArray el => (true, ret_value ++ map reply_str el)
          | _ => (true, ret_value)
          end).

(** The format of [incr] has an equals sign as an argument of its own. *)
Definition incr (key : list byte) : M Z :=
  command [word "INCR"; word "="; arg key] (mret (-1)) (-1) reply_integer.

Definition decr (key : list byte) : M Z :=
  command [word "DECR"; arg key] (mret 0) (-1) reply_integer.

Definition lpush (key value : list byte) : M Z :=
  command [word "LPUSH"; arg key; arg value] (mret (-1)) (-1) reply_integer.

Definition rpush (key value : list byte) : M Z :=
  command [word "RPUSH"; arg key; arg value] (mret (-1)) (-1) reply_integer.

Definition llen (key : list byte) : M Z :=
  command [word "LLEN"; arg key] (mret (-1)) (-1) reply_integer.

(** [%d] takes an [int] from a [long] argument: its low 32 bits. *)
Definition lrange (key : list byte) (start stop : Z) (ret_value : list (list byte)) :
    M (bool * list (list byte)) :=
  command [word "LRANGE"; arg key; s_of (i32 start); s_of (i32 stop)]
    (mret (false, ret_value)) (false, ret_value)
    (λ r, match r with
          | ReplyArray el => (true, ret_value ++ map reply_str el)
          | _ => (true, ret_value)
          end).

Section Messages.
Context {P : Protobuf}.

(** [getpb(key, objPBValue)]: the string and the message object afterwards. *)
Definition getpb (key : list byte) (objPBValue : Message) : M (list byte * Message) :=
  value ← get key;
  let value := replaceToZero value in
  match value with
  | [] => mret (value, objPBValue)
  | _ :: _ =>
      let '(ok, m) := ParseFromArray objPBValue value in
      if ok : bool then mret (value, m) else null_string
  end.

(** [setpb(key, LifeTimeSec, objPBValue)]: the serialization and the NUL behind it
    must fit the array of 2048 characters. *)
Definition setpb (key : list byte) (LifeTimeSec : Z) (objPBValue : Message) : M (list byte) :=
  let byte_size := ByteSize objPBValue in
  let value := SerializeWithCachedSizesToArray objPBValue in
  if (zlen value <=? 2048) && (byte_size + 1 <=? 2048) then
    value ← lift (replaceFromZero value byte_size);
    setex key LifeTimeSec (c_str (ztake byte_size value ++ [x00]))
  else fault UB.
End Messages.
End CacheConn.
End CacheConn.

(** ** Running the commands *)

Section Lemmas.
Context {R : Type} {HR : Hiredis R} {HL : HiredisLaws R}.
Import CacheConn.

Lemma run_library {A B} (f : R → A * R) (k : A → st (R * t) B) s :
  (on_library f ≫= k) s = k (f s.1).1 ((f s.1).2, s.2).
Proof. unfold mbind, st_bind, on_library. by destruct (f s.1). Qed.

(** [Init] leaves the database alone and, unless it fails, the context set. *)
Lemma Init_run (s : R * t) :
  ∃ z s', Init s = Ok (z, s') ∧ rdb s'.1 = rdb s.1 ∧ m_pCachePool s'.2 = m_pCachePool s.2 ∧
    (z = 0 ∧ is_Some (m_pContext s'.2) ∨ z = -1).
Proof.
  destruct s as [r c]. unfold Init, set_context. rewrite run_library. cbn [fst snd].
  destruct (redisClusterContextInit r) as [[ctx|] r'] eqn:E; cbn [fst snd].
  - rewrite !run_modify. unfold mret, st_ret. cbn. eexists _, _. split; [done|].
    cbn. rewrite connect_db. split; [by eapply context_db|]. split; [done|]. left. by split.
  - rewrite run_modify. unfold mret, st_ret. eexists _, _. split; [done|]. cbn.
    split; [by eapply context_db|]. split; [done|]. by right.
Qed.

(** The outcome of a method: [Init] failed and nothing happened, or there was no
    reply and the command may have been executed, or it was executed and the reply
    is the result. *)
Lemma command_run {A} args (no_init : st (R * t) A) (no_reply : A) (k : redisReply → A) (s : R * t) rep db' :
  redis_command args (rdb s.1) rep db' →
  ∃ s', m_pCachePool s'.2 = m_pCachePool s.2 ∧
    ((command args no_init no_reply k s = no_init s' ∧ rdb s'.1 = rdb s.1) ∨
     (command args no_init no_reply k s = Ok (no_reply, s') ∧ (rdb s'.1 = rdb s.1 ∨ rdb s'.1 = db')) ∨
     (command args no_init no_reply k s = Ok (k rep, s') ∧ rdb s'.1 = db')).
Proof.
  intros Hcmd. unfold command. destruct (Init_run s) as (z & s1 & Ei & Hdb & Hp & Hz).
  rewrite (st_bind_run _ _ _ _ _ Ei).
  destruct Hz as [[-> [c Hc]]| ->]; cbn [negb Z.eqb].
  2:{ exists s1. split; [done|]. by left. }
  unfold redisClusterCommand. rewrite !run_bind_assoc, run_gets, Hc, run_bind_assoc, run_some, run_library.
  pose proof (command_db args c s1.1 rep db') as Hlaw. rewrite Hdb in Hlaw. specialize (Hlaw Hcmd).
  destruct (redisClusterCommandArgv args c s1.1) as [[rep'|] r'] eqn:E; cbn [fst snd].
  - destruct Hlaw as [-> Hlaw]. exists (r', s1.2). split; [done|]. right. right. split; [reflexivity|exact Hlaw].
  - unfold free_context, set_context. cbn [fst snd].
    rewrite run_bind_assoc, run_gets. cbn [fst snd]. rewrite Hc, run_bind_assoc, run_some, !run_modify. cbn [fst snd].
    eexists. split; [|right; left; split; [reflexivity|cbn; by rewrite free_db]]. done.
Qed.

(** *** Storing and loading messages *)

Context {P : Protobuf} {PL : ProtobufLaws P}.

(** What [setpb] puts into the database. *)
Definition stored (m : Message) : list byte := map escape (SerializeWithCachedSizesToArray m).

Lemma setpb_setex key life (m : Message) (s : R * t) :
  zlen (SerializeWithCachedSizesToArray m) < 2048 →
  setpb key life m s = setex key life (stored m) s.
Proof.
  intros Hlen. unfold setpb. rewrite ByteSize_serialize.
  replace (_ && _) with true by (symmetry; lia). cbv iota.
  unfold lift. rewrite replaceFromZero_all. unfold mbind at 1, st_bind at 1.
  cbn [mbind res_bind]. unfold stored. f_equal.
  rewrite ztake_ge by (unfold zlen; rewrite length_map; lia).
  rewrite c_str_app_nul by apply map_escape_no_nul. done.
Qed.

Lemma stored_c_str m : c_str (stored m) = stored m.
Proof. apply c_str_no_nul, map_escape_no_nul. Qed.

(** [setpb]: refused by the library, unanswered, or done. *)
Lemma setpb_run key life (m : Message) (s : R * t) :
  zlen (SerializeWithCachedSizesToArray m) < 2048 → 0 < life →
  ∃ ret s', setpb key life m s = Ok (ret, s') ∧ m_pCachePool s'.2 = m_pCachePool s.2 ∧
    ((ret = [] ∧ (rdb s'.1 = rdb s.1 ∨ rdb s'.1 = <[c_str key := VString (stored m)]> (rdb s.1))) ∨
     (ret = bytes_of "OK" ∧ rdb s'.1 = <[c_str key := VString (stored m)]> (rdb s.1))).
Proof.
  intros Hlen Hlife. rewrite setpb_setex by done. unfold setex, arg. rewrite stored_c_str.
  destruct (command_run [word "SETEX"; c_str key; s_of life; stored m] (mret []) [] reply_str s
    _ _ (cmd_setex (c_str key) life (stored m) (rdb s.1) Hlife)) as (s' & Hp & [[E Hdb]|[[E Hdb]|[E Hdb]]]);
    rewrite E; eexists _, s'; (split; [reflexivity|]); (split; [done|]).
  - left. auto.
  - left. auto.
  - right. auto.
Qed.

(** [getpb]: the exception when no context can be made, nothing when there is no
    answer or no such key, an exception when the value does not parse, or the
    message. *)
Lemma getpb_run key (obj : Message) (s : R * t) :
  ∃ s', m_pCachePool s'.2 = m_pCachePool s.2 ∧ rdb s'.1 = rdb s.1 ∧
    (getpb key obj s = null_string s' ∨ getpb key obj s = Ok (([], obj), s') ∨
     ∃ v, rdb s.1 !! c_str key = Some (VString v) ∧ v ≠ [] ∧
       getpb key obj s =
         (let '(ok, m) := ParseFromArray obj (replaceToZero v) in
          if ok then Ok ((replaceToZero v, m), s') else null_string s')) ∧
    (rdb s.1 !! c_str key = None → getpb key obj s = null_string s' ∨ getpb key obj s = Ok (([], obj), s')).
Proof.
  unfold getpb, get, arg.
  destruct (command_run [word "GET"; c_str key] null_string []
    (λ r, match r with ReplyString s => s | _ => [] end) s _ _ (cmd_get (c_str key) (rdb s.1)))
    as (s' & Hp & [[E Hdb]|[[E Hdb]|[E Hdb]]]); exists s'; (split; [done|]).
  - split; [done|]. unfold mbind, st_bind. rewrite E. auto.
  - split; [by destruct Hdb|]. rewrite (st_bind_run _ _ _ _ _ E). auto.
  - split; [done|]. rewrite (st_bind_run _ _ _ _ _ E). cbv beta.
    destruct (rdb s.1 !! c_str key) as [[v|l]|] eqn:Ek; [|by auto..].
    destruct v as [|b v]; [by auto|].
    split; [|done]. right. right. exists (b :: v). split; [done|]. split; [done|].
    unfold replaceToZero. cbn [map]. destruct (ParseFromArray _ _) as [[] m]; done.
Qed.

End Lemmas.

(** ** A library that answers *)

(** Contexts can be made and every command gets a reply: what the theorems about
    results (rather than about safety) assume of the environment. *)
Class HiredisReliable (R : Type) `{Hiredis R} : Prop := {
  context_some r : is_Some (redisClusterContextInit r).1;
  reply_some args c r : is_Some (redisClusterCommandArgv args c r).1
}.

Section Reliable.
Context {R : Type} {HR : Hiredis R} {HL : HiredisLaws R} {HA : HiredisReliable R}.
Context {P : Protobuf} {PL : ProtobufLaws P}.
Import CacheConn.

(** A method that returns [a] and takes the database from [db] to [db']. *)
Definition does {A} (m : st (R * t) A) (db : database) (a : A) (db' : database) : Prop :=
  ∀ s, rdb s.1 = db →
    ∃ s', m s = Ok (a, s') ∧ rdb s'.1 = db' ∧ m_pCachePool s'.2 = m_pCachePool s.2.

Lemma does_ret {A} (a : A) db : does (mret a) db a db.
Proof. intros s Hs. by exists s. Qed.

Lemma does_bind {A B} (m : st (R * t) A) (k : A → st (R * t) B) db a db' b db'' :
  does m db a db' → does (k a) db' b db'' → does (m ≫= k) db b db''.
Proof.
  intros Hm Hk s Hs. destruct (Hm s Hs) as (s1 & E & Hdb & Hp).
  destruct (Hk s1 Hdb) as (s2 & E2 & Hdb2 & Hp2).
  exists s2. rewrite (st_bind_run _ _ _ _ _ E). split_and!; [done|done|congruence].
Qed.

Lemma command_does {A} args (no_init : st (R * t) A) (no_reply : A) (k : redisReply → A) db rep db' :
  redis_command args db rep db' → does (command args no_init no_reply k) db (k rep) db'.
Proof.
  intros Hcmd s Hs. unfold command. destruct (Init_run s) as (z & s1 & Ei & Hdb & Hp & Hz).
  rewrite (st_bind_run _ _ _ _ _ Ei).
  assert (z = 0 ∧ is_Some (m_pContext s1.2)) as [-> [c Hc]].
  { destruct Hz as [?| ->]; [done|]. exfalso. destruct s as [r o].
    unfold Init, set_context in Ei. rewrite run_library in Ei. cbn [fst snd] in Ei.
    destruct (context_some r) as [ctx Hctx]. rewrite Hctx, !run_modify in Ei.
    unfold mret, st_ret in Ei. by simplify_eq. }
  cbn [negb Z.eqb].
  unfold redisClusterCommand. rewrite !run_bind_assoc, run_gets, Hc, run_bind_assoc, run_some, run_library.
  pose proof (command_db args c s1.1 rep db') as Hlaw. rewrite Hdb, Hs in Hlaw. specialize (Hlaw Hcmd).
  destruct (reply_some args c s1.1) as [rep' Hrep].
  destruct (redisClusterCommandArgv args c s1.1) as [o r'] eqn:E; cbn [fst snd] in *. subst o.
  destruct Hlaw as [-> Hlaw]. exists (r', s1.2). done.
Qed.

Lemma setpb_does key life (m : Message) db :
  zlen (SerializeWithCachedSizesToArray m) < 2048 → 0 < life →
  does (setpb key life m) db (bytes_of "OK") (<[c_str key := VString (stored m)]> db).
Proof.
  intros Hlen Hlife s Hs. rewrite setpb_setex by done. revert s Hs. unfold setex, arg. rewrite stored_c_str.
  exact (command_does _ _ _ reply_str db _ _ (cmd_setex _ _ _ _ Hlife)).
Qed.

(** Reading back what is stored under a key. *)
Lemma getpb_does key (obj m : Message) db :
  db !! c_str key = Some (VString (stored m)) →
  0 < zlen (SerializeWithCachedSizesToArray m) → tilde ∉ SerializeWithCachedSizesToArray m →
  ParseFromArray obj (SerializeWithCachedSizesToArray m) = (true, m) →
  does (getpb key obj) db (SerializeWithCachedSizesToArray m, m) db.
Proof.
  intros Hkey Hlen Htilde Hparse. unfold getpb.
  eapply does_bind.
  - unfold get, arg. eapply (command_does _ _ _ (λ r, match r with ReplyString s => s | _ => [] end)), cmd_get.
  - rewrite Hkey. cbv beta iota. unfold stored. rewrite (proj2 (replaceToZero_map_escape _) Htilde).
    destruct (SerializeWithCachedSizesToArray m) as [|b l] eqn:E; [done|]. rewrite Hparse. apply does_ret.
Qed.

(** Nothing under a key. *)
Lemma getpb_none key (obj : Message) db :
  db !! c_str key = None → does (getpb key obj) db ([], obj) db.
Proof.
  intros Hkey. unfold getpb. eapply does_bind.
  - unfold get, arg. eapply (command_does _ _ _ (λ r, match r with ReplyString s => s | _ => [] end)), cmd_get.
  - rewrite Hkey. apply does_ret.
Qed.

Lemma del_does key db x : db !! c_str key = Some x → does (del key) db [] (delete (c_str key) db).
Proof. intros H. unfold del, arg. exact (command_does _ _ _ reply_str db (ReplyInteger 1) _ (cmd_del_old _ _ _ H)). Qed.

Lemma setnx_does key time db :
  db !! c_str key = None → does (setnx key time) db 1 (<[c_str key := VString (s_of time)]> db).
Proof.
  intros H. unfold setnx, arg.
  exact (command_does _ _ _ (λ r, i32 (reply_integer r)) db (ReplyInteger 1) _ (cmd_setnx_new _ _ _ H)).
Qed.

(** The list under a key, empty when there is none. *)
Definition list_at (key : list byte) (db : database) (l : list (list byte)) : Prop :=
  match db !! key with
  | Some (VList l') => l' = l
  | Some (VString _) => False
  | None => l = []
  end.

Lemma lpush_does key value db l :
  list_at (c_str key) db l →
  does (lpush key value) db (zlen l + 1) (<[c_str key := VList (c_str value :: l)]> db).
Proof.
  intros H. unfold list_at in H. unfold lpush, arg. destruct (db !! c_str key) as [[v|l']|] eqn:E; [done|..]; subst.
  - replace (zlen l + 1) with (reply_integer (ReplyInteger (zlen (c_str value :: l)))) by (cbn; zl).
    exact (command_does _ _ _ reply_integer db _ _ (cmd_lpush_list _ _ _ _ E)).
  - exact (command_does _ _ _ reply_integer db (ReplyInteger 1) _ (cmd_lpush_new _ _ _ E)).
Qed.

Lemma lrange_all_does key db l :
  list_at (c_str key) db l → does (lrange key 0 (-1) []) db (true, l) db.
Proof.
  intros H. unfold lrange, arg. change (i32 0) with 0. change (i32 (-1)) with (-1).
  intros s Hs. edestruct (command_does [word "LRANGE"; c_str key; s_of 0; s_of (-1)]
    (mret (false, [])) (false, []) (λ r, match r with
          | ReplyArray el => (true, [] ++ map reply_str el)
          | _ => (true, []) end) db _ _ (cmd_lrange_all (c_str key) db) s Hs) as (s' & E & Hs' & Hp).
  exists s'. rewrite E. split; [|done]. do 3 f_equal. unfold list_at in H.
  destruct (db !! c_str key) as [[v|l']|]; [done|subst..]; [|done].
  cbn. by rewrite map_map, map_id.
Qed.
End Reliable.

(** ** A message and back *)

Section RoundTrip.
Context {R : Type} {HR : Hiredis R} {HL : HiredisLaws R}.
Context {P : Protobuf} {PL : ProtobufLaws P}.
Import CacheConn.

(** C33 (roundtrip). A message whose serialization is not empty, fits the 2048-byte array of
    [setpb] and holds no ['~'] is stored without a fault; once [setpb] has returned the
    reply, any connection that finds the key as it was left gets the message back, unless
    its library cannot make a context (an exception) or does not answer (the empty
    string): never another message.  When the library answers, the reply is OK and the
    message does come back. *)
Theorem setpb_getpb (key : list byte) (life : Z) (m proto : Message) (s : R * t) :
  0 < zlen (SerializeWithCachedSizesToArray m) < 2048 → tilde ∉ SerializeWithCachedSizesToArray m →
  GetPrototype (GetDescriptor m) = Some proto → 0 < life →
  ∃ ret s1, setpb key life m s = Ok (ret, s1) ∧ (HiredisReliable R → ret = bytes_of "OK") ∧
    (ret ≠ [] → ∀ s2 : R * t, rdb s2.1 !! c_str key = rdb s1.1 !! c_str key →
      ∃ s3,
        let back := Ok ((SerializeWithCachedSizesToArray m, m), s3) in
        (getpb key (New proto) s2 = null_string s3 ∨ getpb key (New proto) s2 = Ok (([], New proto), s3) ∨
         getpb key (New proto) s2 = back) ∧
        (HiredisReliable R → getpb key (New proto) s2 = back)).
Proof.
  intros Hlen Htilde Hproto Hlife.
  destruct (parse_serialize m) as (proto' & _ & Hp' & Hparse). rewrite Hproto in Hp'. injection Hp' as <-.
  destruct (setpb_run key life m s) as (ret & s1 & E & _ & Hcase); [lia|done|]. exists ret, s1. split; [done|]. split.
  { intros HA. destruct (setpb_does key life m (rdb s.1) ltac:(lia) Hlife s eq_refl) as (s' & E' & _). congruence. }
  intros Hret s2 Hsame. destruct Hcase as [[-> _]|[_ Hdb]]; [done|]. rewrite Hdb, lookup_insert_eq in Hsame.
  destruct (getpb_run key (New proto) s2) as (s3 & _ & _ & Hget & _). exists s3. split.
  - destruct Hget as [->|[->|(v & Hv & _ & ->)]]; [by auto..|]. right. right.
    rewrite Hsame in Hv. injection Hv as <-. unfold stored.
    by rewrite (proj2 (replaceToZero_map_escape _) Htilde), Hparse.
  - intros HA. destruct (getpb_does key (New proto) m _ Hsame ltac:(lia) Htilde Hparse s2 eq_refl) as (s' & E' & _). rewrite E'.
    rewrite E' in Hget. destruct Hget as [H|[H|(v & Hv & _ & H)]]; [done| |].
    + injection H as H _ _. rewrite H in Hlen. change (zlen (A := byte) []) with 0 in Hlen. lia.
    + destruct (ParseFromArray _ _) as [[] m'] in H; [|done]. by injection H as _ _ ->.
Qed.
End RoundTrip.

(** ** A redis for concrete runs

    One server that always answers; its state is the database and the number of
    contexts made. *)
Module ToyRedis.

Definition toy_exec (args : list (list byte)) (db : database) : redisReply * database :=
  match args with
  | [w; k] =>
      if decide (w = bytes_of "GET") then
        (match db !! k with
         | Some (VString v) => ReplyString v | Some (VList _) => wrong_type | None => ReplyNil end, db)
      else if decide (w = bytes_of "DEL") then
        match db !! k with
        | Some _ => (ReplyInteger 1, delete k db) | None => (ReplyInteger 0, db) end
      else (ReplyError [], db)
  | [w; k; v] =>
      if decide (w = bytes_of "SETNX") then
        match db !! k with
        | None => (ReplyInteger 1, <[k := VString v]> db) | Some _ => (ReplyInteger 0, db) end
      else if decide (w = bytes_of "LPUSH") then
        match db !! k with
        | None => (ReplyInteger 1, <[k := VList [v]]> db)
        | Some (VList l) => (ReplyInteger (zlen (v :: l)), <[k := VList (v :: l)]> db)
        | Some (VString _) => (wrong_type, db)
        end
      else if decide (w = bytes_of "GETSET") then
        match db !! k with
        | None => (ReplyNil, <[k := VString v]> db)
        | Some (VString s) => (ReplyString s, <[k := VString v]> db)
        | Some (VList _) => (wrong_type, db)
        end
      else (ReplyError [], db)
  | [w; k; a; b] =>
      if decide (w = bytes_of "SETEX") then (status_ok, <[k := VString b]> db)
      else if decide (w = bytes_of "LRANGE") then
        (match db !! k with
         | Some (VList l) => ReplyArray (map ReplyString l)
         | Some (VString _) => wrong_type
         | None => ReplyArray []
         end, db)
      else (ReplyError [], db)
  | _ => (ReplyError [], db)
  end.

#[export] Instance toy_redis : Hiredis (database * nat) := {
  redisClusterContextInit r := (Some r.2, (r.1, S r.2));
  redisClusterConnect _ _ r := r;
  redisClusterCommandArgv args _ r :=
    let '(rep, db) := toy_exec args r.1 in (Some rep, (db, r.2));
  redisClusterFree _ r := r
}.

#[export, refine] Instance toy_redis_laws : HiredisLaws (database * nat) := { rdb := fst }.
Proof.
  - intros r c r' [= <- <-]. done.
  - done.
  - done.
  - intros args c [db n] rep db' Hcmd. cbn [fst] in Hcmd.
    assert (toy_exec args db = (rep, db')) as E.
    { destruct Hcmd; cbn [toy_exec]; repeat case_decide; try done; by simplify_option_eq. }
    unfold redisClusterCommandArgv, toy_redis. cbn [fst snd]. by rewrite E.
Defined.

#[export] Instance toy_redis_reliable : HiredisReliable (database * nat).
Proof.
  split.
  - intros r. by eexists.
  - intros args c r. unfold redisClusterCommandArgv, toy_redis. destruct (toy_exec args r.1). by eexists.
Qed.
End ToyRedis.

Import ToyRedis ToyProtobuf.

Definition toy_conn : (database * nat) * CacheConn.t :=
  ((∅, 0%nat), CacheConn.make (CacheConn.Info "Master1" "127.0.0.1" 7001 0)).
Lemma setpb_getpb_witness :
  ∃ s1 s3, CacheConn.setpb (bytes_of "k") 60 (bytes_of "hello" : @Message toy) toy_conn = Ok (bytes_of "OK", s1) ∧
    CacheConn.getpb (bytes_of "k") ([] : @Message toy) s1 = Ok ((bytes_of "hello", bytes_of "hello" : @Message toy), s3).
Proof.
  destruct (setpb_getpb (bytes_of "k") 60 (bytes_of "hello" : @Message toy) ([] : @Message toy) toy_conn)
    as (ret & s1 & E & Hret & Hget).
  - vm_compute. done.
  - change (tilde ∉ bytes_of "hello"). by apply (bool_decide_unpack _).
  - done.
  - done.
  - specialize (Hret toy_redis_reliable). subst ret. destruct (Hget ltac:(done) s1 eq_refl) as (s3 & _ & Hback).
    exists s1, s3. split; [exact E|]. exact (Hback toy_redis_reliable).
Defined.
