(* ===== verification/CachePool.v ===== *)
(** * CachePool.h, CachePool.cc: the pools of redis connections and their manager

    A pool lends connections to the worker threads and makes them wait when all are
    lent; the manager keeps one pool per redis instance of dbproxyserver.conf.  The
    operations of a pool run under its lock; [GetCacheConn] may wait on the pool's
    condition variable, which the model shows as an outcome. *)
From Stdlib Require Import Ascii.
From S2P Require Import Prelude Text State StdMap Comm ProtobufCodec Config CacheConn.

(** The library and the objects of class [CacheConn]. *)
Record heap (R : Type) := Heap {
  redis : R;
  conns : gmap nat CacheConn.t;
  cfresh : nat
}.
Arguments Heap {R}.
Arguments redis {R}.
Arguments conns {R}.
Arguments cfresh {R}.

(** A method called on the connection at an address. *)
Definition on_conn {R A} (c : nat) (m : st (R * CacheConn.t) A) : st (heap R) A := λ h,
  match conns h !! c with
  | None => Fault UB
  | Some o =>
      '(a, ro) ← m (redis h, o);
      Ok (a, Heap ro.1 (<[c := ro.2]> (conns h)) (cfresh h))
  end.

Module CachePool.
Section CachePool.
Context {R : Type} {HR : Hiredis R}.

Definition MIN_CACHE_CONN_CNT : Z := 2.

Record t := mk {
  info : CacheConn.PoolInfo;
  m_cur_conn_cnt : Z;
  m_max_conn_cnt : Z;
  m_free_list : list nat
}.

Definition set_cur (p : t) (v : Z) : t := mk (info p) v (m_max_conn_cnt p) (m_free_list p).
Definition set_free (p : t) (v : list nat) : t := mk (info p) (m_cur_conn_cnt p) (m_max_conn_cnt p) v.

Definition make (pool_name server_ip : string) (server_port db_num max_conn_cnt : Z) : t :=
  mk (CacheConn.Info pool_name server_ip server_port db_num) MIN_CACHE_CONN_CNT max_conn_cnt [].

Abbreviation M := (st (heap R * t)).

Definition on_heap {A} (m : st (heap R) A) : M A := zoom fst (λ h s, (h, s.2)) m.
Definition upd (f : t → t) : M unit := modify (λ s, (s.1, f s.2)).

(** [delete pConn]. *)
Definition delete_conn (c : nat) : st (heap R) unit :=
  on_conn c CacheConn.destroy;;
  modify (λ h, Heap (redis h) (delete c (conns h)) (cfresh h)).

(** [new CacheConn(this)] and its [Init()]. *)
Definition new_conn : M (nat * Z) :=
  p ← gets (λ s, info s.2);
  c ← gets (λ s, cfresh s.1);
  on_heap (modify (λ h, Heap (redis h) (<[cfresh h := CacheConn.make p]> (conns h)) (S (cfresh h))));;
  ret ← on_heap (on_conn c CacheConn.Init);
  mret (c, ret).

(** The loop of [Init()], [n] iterations to go. *)
Fixpoint Init_loop (n : nat) : M Z :=
  match n with
  | O => mret 0
  | S n' =>
      '(c, ret) ← new_conn;
      if negb (ret =? 0) then on_heap (delete_conn c);; mret 1
      else upd (λ p, set_free p (m_free_list p ++ [c]));; Init_loop n'
  end.

Definition Init : M Z :=
  n ← gets (λ s, m_cur_conn_cnt s.2);
  Init_loop (Z.to_nat n).

(** What [GetCacheConn] returns, or that it waits for a [Signal]. *)
Inductive got :=
  | Got (c : nat)
  | Null
  | Wait.

Definition pop_front : M got :=
  l ← gets (λ s, m_free_list s.2);
  match l with
  | c :: l' => upd (λ p, set_free p l');; mret (Got c)
  | [] => fault UB
  end.

(** The body of the loop either waits, fails, or leaves the list not empty, which
    ends the loop. *)
Definition GetCacheConn : M got :=
  l ← gets (λ s, m_free_list s.2);
  match l with
  | [] =>
      cur ← gets (λ s, m_cur_conn_cnt s.2);
      max ← gets (λ s, m_max_conn_cnt s.2);
      if max <=? cur then mret Wait
      else
        '(c, ret) ← new_conn;
        if negb (ret =? 0) then on_heap (delete_conn c);; mret Null
        else
          upd (λ p, set_cur (set_free p (m_free_list p ++ [c])) (m_cur_conn_cnt p + 1));;
          pop_front
  | _ :: _ => pop_front
  end.

(** A connection that is in the list already is not put there again. *)
Definition RelCacheConn (pCacheConn : nat) : M unit :=
  upd (λ p, if bool_decide (pCacheConn ∈ m_free_list p) then p
            else set_free p (m_free_list p ++ [pCacheConn])).

Fixpoint delete_all (l : list nat) : M unit :=
  match l with
  | [] => mret ()
  | c :: l' => on_heap (delete_conn c);; delete_all l'
  end.

(** [~CachePool()]. *)
Definition destroy : M unit :=
  l ← gets (λ s, m_free_list s.2);
  delete_all l;;
  upd (λ p, set_cur (set_free p []) 0).
End CachePool.
End CachePool.

(** ** The manager *)

Module CacheManager.
Section Manager.
Context {R : Type} {HR : Hiredis R}.

Abbreviation pools := (gmap string CachePool.t).
Abbreviation M := (st (heap R * pools)).

(** [split(str, pattern)]: [strtok], so that empty parts disappear. *)
Fixpoint split_at (c : byte) (cur l : list byte) : list (list byte) :=
  match l with
  | [] => match cur with [] => [] | _ => [cur] end
  | b :: l' =>
      if byte_eqb b c then
        match cur with [] => split_at c [] l' | _ => cur :: split_at c [] l' end
      else split_at c (cur ++ [b]) l'
  end.
Definition split (str : list byte) (pattern : byte) : list (list byte) := split_at pattern [] (c_str str).

(** [snprintf(host, 64, "%s_host", ...)] and the like. *)
Definition field_name (inst : list byte) (suffix : string) : list byte :=
  bytes_of (snprintf 64 (string_of (c_str inst) +:+ suffix)%string).

(** An operation of the pool called [name]. *)
Definition on_pool {A} (name : string) (m : st (heap R * CachePool.t) A) : M A := λ s,
  match s.2 !! name with
  | None => Fault UB
  | Some p => '(a, hp) ← m (s.1, p); Ok (a, (hp.1, <[name := hp.2]> s.2))
  end.

(** One iteration of the loop of [Init()]: 0 to go on. *)
Definition Init_instance (config_file : ConfigFileReader.t) (inst : list byte) : M Z :=
  cache_host ← lift (ConfigFileReader.GetConfigName config_file (field_name inst "_host"));
  str_cache_port ← lift (ConfigFileReader.GetConfigName config_file (field_name inst "_port"));
  str_cache_db ← lift (ConfigFileReader.GetConfigName config_file (field_name inst "_db"));
  str_max_conn_cnt ← lift (ConfigFileReader.GetConfigName config_file (field_name inst "_maxconncnt"));
  match cache_host, str_cache_port, str_cache_db, str_max_conn_cnt with
  | Some host, Some port, Some db, Some max =>
      let name := string_of (c_str inst) in
      '(ret, pool) ← zoom fst (λ h s, (h, s.2)) (λ h,
         '(ret, hp) ← CachePool.Init
            (h, CachePool.make name (string_of host) (atoi port) (atoi db) (atoi max));
         Ok ((ret, hp.2), hp.1));
      if negb (ret =? 0) then mret 3
      else
        (* an instance that is named twice keeps its first pool *)
        modify (λ s, (s.1, match s.2 !! string_of inst with
                           | Some _ => s.2
                           | None => <[string_of inst := pool]> s.2
                           end));;
        mret 0
  | _, _, _, _ => mret 2
  end.

Fixpoint Init_loop (config_file : ConfigFileReader.t) (insts : list (list byte)) : M Z :=
  match insts with
  | [] => mret 0
  | i :: insts' =>
      ret ← Init_instance config_file i;
      if ret =? 0 then Init_loop config_file insts' else mret ret
  end.

Definition Init (config_file : ConfigFileReader.t) : M Z :=
  cache_instances ← lift (ConfigFileReader.GetConfigName config_file (bytes_of "CacheInstances"));
  match cache_instances with
  | None => mret 1
  | Some s => Init_loop config_file (split s (byte_of_Z 44))
  end.

Definition GetCacheConn (pool_name : string) : M CachePool.got :=
  m ← gets snd;
  match m !! pool_name with
  | Some _ => on_pool pool_name CachePool.GetCacheConn
  | None => mret CachePool.Null
  end.

(** [RelCacheConn(pCacheConn)], [None] for [NULL]; the name is read from the
    object. *)
Definition RelCacheConn (pCacheConn : option nat) : M unit :=
  match pCacheConn with
  | None => mret ()
  | Some c =>
      name ← zoom fst (λ h s, (h, s.2)) (on_conn c (gets (λ s, CacheConn.GetPoolName s.2)));
      m ← gets snd;
      match m !! name with
      | Some _ => on_pool name (CachePool.RelCacheConn c)
      | None => mret ()
      end
  end.

(** [getInstance()]: [cache_manager], made on the first call; [None] for [NULL].
    [file] is the contents of dbproxyserver.conf. *)
Definition getInstance (file : option (list byte)) (cache_manager : option pools) (h : heap R) :
    res (option pools * heap R) :=
  match cache_manager with
  | Some m => mret (Some m, h)
  | None =>
      config_file ← ConfigFileReader.LoadFile "../conf/dbproxyserver.conf" file;
      '(ret, s) ← Init config_file (h, ∅);
      mret (if ret =? 0 then (Some s.2, s.1) else (None, s.1))
  end.
End Manager.
End CacheManager.

(** ** The clients of a pool *)

Section Clients.
Context {R : Type} {HR : Hiredis R}.
Import CachePool.

(** A pool with the connections that are lent. *)
Inductive lend_step : (heap R * t) * list nat → (heap R * t) * list nat → Prop :=
  | lend_get s s' held c :
      GetCacheConn s = Ok (Got c, s') → lend_step (s, held) (s', c :: held)
  | lend_null s s' held :
      GetCacheConn s = Ok (Null, s') → lend_step (s, held) (s', held)
  | lend_release s s' held1 held2 c :
      RelCacheConn c s = Ok ((), s') → lend_step (s, held1 ++ c :: held2) (s', held1 ++ held2)
  (* a client runs any command on a connection it holds *)
  | lend_use {A} h h' p held c (m : st (R * CacheConn.t) A) a :
      c ∈ held → on_conn c m h = Ok (a, h') → lend_step ((h, p), held) ((h', p), held).

(** Addresses are allocated upwards. *)
Definition heap_ok (h : heap R) : Prop := ∀ c, is_Some (conns h !! c) → (c < cfresh h)%nat.

Record pool_inv (s : heap R * t) (held : list nat) : Prop := {
  pi_heap : heap_ok s.1;
  pi_nodup : NoDup (m_free_list s.2 ++ held);
  pi_alive : ∀ c, c ∈ m_free_list s.2 ++ held → is_Some (conns s.1 !! c);
  pi_count : m_cur_conn_cnt s.2 = zlen (m_free_list s.2) + zlen held;
  pi_max : m_cur_conn_cnt s.2 <= m_max_conn_cnt s.2
}.

(** The library has refused a context. *)
Definition no_context : Prop := ∃ r : R, (redisClusterContextInit r).1 = None.

Lemma Init_returns (s : R * CacheConn.t) :
  ∃ z s', CacheConn.Init s = Ok (z, s') ∧ (z = 0 ∨ z = -1 ∧ no_context).
Proof.
  destruct s as [r c]. unfold CacheConn.Init, CacheConn.set_context. rewrite run_library. cbn [fst snd].
  destruct (redisClusterContextInit r) as [[ctx|] r'] eqn:E; cbn [fst snd]; rewrite ?run_modify;
    eexists _, _; (split; [reflexivity|]); [by left|right]. split; [done|]. exists r. by rewrite E.
Qed.

Lemma destroy_returns (s : R * CacheConn.t) : ∃ s', CacheConn.destroy s = Ok ((), s').
Proof.
  destruct s as [r c]. unfold CacheConn.destroy, CacheConn.free_context, CacheConn.set_context.
  rewrite run_gets. destruct (CacheConn.m_pContext c) eqn:E; cbn [snd]; rewrite E; [|by eexists].
  rewrite !run_bind_assoc, run_gets. cbn [snd]. rewrite E, run_bind_assoc, run_some, run_modify. by eexists.
Qed.

Lemma on_conn_run {A} c (m : st (R * CacheConn.t) A) h o a r' o' :
  conns h !! c = Some o → m (redis h, o) = Ok (a, (r', o')) →
  on_conn c m h = Ok (a, Heap r' (<[c := o']> (conns h)) (cfresh h)).
Proof. unfold on_conn. intros -> Hm. by rewrite Hm. Qed.

Lemma run_on_heap {A B} (m : st (heap R) A) (k : A → st (heap R * t) B) s a h' :
  m s.1 = Ok (a, h') → (on_heap m ≫= k) s = k a (h', s.2).
Proof. intros Hm. unfold on_heap, zoom, mbind, st_bind. by rewrite Hm. Qed.

Lemma new_conn_run s :
  heap_ok s.1 →
  ∃ ret h', new_conn s = Ok ((cfresh s.1, ret), (h', s.2)) ∧ (ret = 0 ∨ ret = -1 ∧ no_context) ∧
    heap_ok h' ∧ is_Some (conns h' !! cfresh s.1) ∧ cfresh h' = S (cfresh s.1) ∧
    ∀ c, c ≠ cfresh s.1 → conns h' !! c = conns s.1 !! c.
Proof.
  intros Hh. unfold new_conn. rewrite !run_gets.
  erewrite run_on_heap by reflexivity. cbn [fst snd].
  destruct (Init_returns (redis s.1, CacheConn.make (info s.2))) as (z & [r' o'] & Ei & Hz).
  erewrite run_on_heap; [|eapply on_conn_run; [cbn; apply lookup_insert_eq|exact Ei]].
  unfold mret, st_ret. eexists _, _. split; [reflexivity|]. split; [done|]. cbn.
  split_and!; [|rewrite lookup_insert_eq; by eexists|done|].
  - intros c Hc. cbn in *. destruct (decide (c = cfresh s.1)) as [->|]; [lia|].
    rewrite !lookup_insert_ne in Hc by done. apply Hh in Hc. lia.
  - intros c Hc. by rewrite !lookup_insert_ne.
Qed.

Lemma delete_conn_run c h :
  is_Some (conns h !! c) → heap_ok h →
  ∃ h', delete_conn c h = Ok ((), h') ∧ heap_ok h' ∧ cfresh h' = cfresh h ∧
    ∀ c', c' ≠ c → conns h' !! c' = conns h !! c'.
Proof.
  intros [o Ho] Hh. unfold delete_conn. destruct (destroy_returns (redis h, o)) as [[r' o'] E].
  rewrite (st_bind_run _ _ _ _ _ (on_conn_run _ _ _ _ _ _ _ Ho E)).
  eexists. split; [reflexivity|]. cbn. split_and!; [|done|].
  - intros c' Hc'. cbn in *. rewrite delete_insert_eq in Hc'.
    apply lookup_delete_is_Some in Hc' as [_ Hc']. by apply Hh.
  - intros c' Hc'. by rewrite delete_insert_eq, lookup_delete_ne.
Qed.

Lemma fresh_not_in (s : heap R * t) (l : list nat) :
  heap_ok s.1 → (∀ c, c ∈ l → is_Some (conns s.1 !! c)) → cfresh s.1 ∉ l.
Proof. intros Hh Hl Hin. apply Hl, Hh in Hin. lia. Qed.

(** The three ways [GetCacheConn] can go. *)
Lemma GetCacheConn_run s held :
  pool_inv s held →
  (m_free_list s.2 = [] ∧ m_cur_conn_cnt s.2 = m_max_conn_cnt s.2 ∧ GetCacheConn s = Ok (Wait, s)) ∨
  (∃ s', GetCacheConn s = Ok (Null, s') ∧ m_max_conn_cnt s'.2 = m_max_conn_cnt s.2 ∧ pool_inv s' held) ∨
  (∃ c s', GetCacheConn s = Ok (Got c, s') ∧ m_max_conn_cnt s'.2 = m_max_conn_cnt s.2 ∧ pool_inv s' (c :: held)).
Proof.
  intros [Hh Hnd Halive Hcount Hmax]. unfold GetCacheConn. rewrite run_gets.
  destruct (m_free_list s.2) as [|c l] eqn:El.
  - rewrite !run_gets. destruct (m_max_conn_cnt s.2 <=? m_cur_conn_cnt s.2) eqn:E.
    + left. split_and!; [done|lia|done].
    + right. destruct (new_conn_run s Hh) as (ret & h' & Enew & Hret & Hh' & Hnew & Hf & Hold).
      rewrite (st_bind_run _ _ _ _ _ Enew). cbv beta iota.
      assert (cfresh s.1 ∉ held) as Hfr by (by apply fresh_not_in).
      assert (∀ x, x ∈ held → x ≠ cfresh s.1) as Hne by (intros x Hx ->; done).
      destruct Hret as [-> | [-> Hno]]; cbn [Z.eqb negb].
      * right. unfold upd. rewrite run_modify. unfold pop_front. rewrite run_gets. cbn. rewrite El. cbn.
        eexists _, _. split; [reflexivity|]. split; [done|]. constructor; cbn; rewrite ?El; cbn.
        -- done.
        -- by apply NoDup_cons.
        -- intros x [->|Hx]%elem_of_cons; [done|]. rewrite Hold by (by apply Hne). by apply Halive.
        -- zl.
        -- lia.
      * left. destruct (delete_conn_run (cfresh s.1) h' Hnew Hh') as (h2 & Ed & Hh2 & Hf2 & Hold2).
        erewrite run_on_heap by exact Ed. eexists. split; [reflexivity|]. split; [done|]. constructor; cbn; rewrite ?El; try done.
        intros x Hx. rewrite Hold2, Hold by (by apply Hne). by apply Halive.
  - right. right. unfold pop_front. rewrite run_gets, El. unfold upd. rewrite run_modify.
    eexists _, _. split; [reflexivity|]. split; [done|]. constructor; cbn; try done.
    + by rewrite <-Permutation_middle.
    + intros x Hx. apply Halive. set_solver.
    + zl.
Qed.

Lemma lend_step_inv x y :
  lend_step x y → pool_inv x.1 x.2 → pool_inv y.1 y.2 ∧ m_max_conn_cnt y.1.2 = m_max_conn_cnt x.1.2.
Proof.
  intros Hstep Hinv.
  destruct Hstep as [s s' held c H|s s' held H|s s' held1 held2 c H|A h h' p held c m a Hc H]; cbn [fst snd] in *.
  - destruct (GetCacheConn_run s held Hinv) as [(_ & _ & E)|[(s1 & E & Hm & Hi)|(c' & s1 & E & Hm & Hi)]];
      rewrite E in H; by simplify_eq.
  - destruct (GetCacheConn_run s held Hinv) as [(_ & _ & E)|[(s1 & E & Hm & Hi)|(c' & s1 & E & Hm & Hi)]];
      rewrite E in H; by simplify_eq.
  - unfold RelCacheConn, upd, modify in H. simplify_eq.
    destruct Hinv as [Hh Hnd Halive Hcount Hmax].
    assert (c ∉ m_free_list s.2) as Hc.
    { apply NoDup_app in Hnd as (_ & Hd & _). intros Hin. apply (Hd _ Hin). set_solver. }
    assert ((m_free_list s.2 ++ [c]) ++ held1 ++ held2 ≡ₚ m_free_list s.2 ++ held1 ++ c :: held2) as Hperm.
    { by rewrite <-app_assoc, <-Permutation_middle. }
    rewrite bool_decide_false by done. split; [|done]. constructor; cbn.
    + done.
    + by rewrite Hperm.
    + intros x. rewrite Hperm. apply Halive.
    + zl.
    + done.
  - destruct Hinv as [Hh Hnd Halive Hcount Hmax]. unfold on_conn in H.
    destruct (conns h !! c) as [o|] eqn:Ho; [|done]. destruct (m _) as [[x ro]|]; cbn in H; simplify_eq.
    split; [|done]. constructor; cbn in *; try done.
    + intros x. cbn. destruct (decide (x = c)) as [->|]; [intros _; apply Hh; by eexists|].
      rewrite lookup_insert_ne by done. apply Hh.
    + intros x Hx. destruct (decide (x = c)) as [->|]; [rewrite lookup_insert_eq; by eexists|].
      rewrite lookup_insert_ne by done. by apply Halive.
Qed.

(** [Init()] of a new pool: one connection per iteration, until one cannot be made. *)
Lemma Init_loop_inv n s :
  pool_inv s [] → m_cur_conn_cnt s.2 + Z.of_nat n <= m_max_conn_cnt s.2 →
  ∃ ret h' l, Init_loop n (s.1, set_cur s.2 (m_cur_conn_cnt s.2 + Z.of_nat n))
      = Ok (ret, (h', set_free (set_cur s.2 (m_cur_conn_cnt s.2 + Z.of_nat n)) l)) ∧
    (ret = 0 → pool_inv (h', set_free (set_cur s.2 (m_cur_conn_cnt s.2 + Z.of_nat n)) l) []) ∧
    (ret = 0 ∨ no_context).
Proof.
  revert s. induction n as [|n IH]; intros s Hinv Hroom.
  - cbn [Init_loop]. unfold mret, st_ret. exists 0, s.1, (m_free_list s.2).
    replace (m_cur_conn_cnt s.2 + Z.of_nat 0) with (m_cur_conn_cnt s.2) by lia.
    replace (set_free (set_cur s.2 (m_cur_conn_cnt s.2)) (m_free_list s.2)) with s.2 by (by destruct s as [? []]).
    split; [|split; [by destruct s|by left]]. do 3 f_equal. by destruct s as [? []].
  - destruct Hinv as [Hh Hnd Halive Hcount Hmax]. cbn [Init_loop]. rewrite app_nil_r in *.
    set (s1 := (s.1, set_cur s.2 (m_cur_conn_cnt s.2 + Z.of_nat (S n)))).
    destruct (new_conn_run s1 Hh) as (ret & h' & Enew & Hret & Hh' & Hnew & Hf & Hold).
    rewrite (st_bind_run _ _ _ _ _ Enew). cbv beta iota. change (cfresh s1.1) with (cfresh s.1) in *.
    change (conns s1.1) with (conns s.1) in *.
    destruct Hret as [-> | [-> Hno]]; cbn [Z.eqb negb].
    + unfold upd. rewrite run_modify. cbn [fst snd].
      destruct (IH (h', set_cur (set_free s.2 (m_free_list s.2 ++ [cfresh s.1])) (m_cur_conn_cnt s.2 + 1)))
        as (ret & h2 & l & E & Hok & Hno).
      * assert (cfresh s.1 ∉ m_free_list s.2) as Hfr by (by apply fresh_not_in).
        constructor; cbn; rewrite ?app_nil_r.
        -- done.
        -- apply NoDup_app. split_and!; [done| |apply NoDup_singleton].
           intros x Hx ->%list_elem_of_singleton. done.
        -- intros x [Hx| ->%list_elem_of_singleton]%elem_of_app; [|done].
           rewrite Hold by (intros ->; done). by apply Halive.
        -- zl.
        -- lia.
      * cbn. lia.
      * cbn in E, Hok |- *. replace (m_cur_conn_cnt s.2 + 1 + Z.of_nat n) with (m_cur_conn_cnt s.2 + Z.of_nat (S n)) in E, Hok by lia.
        exists ret, h2, l. split; [exact E|by split].
    + destruct (delete_conn_run (cfresh s.1) h' Hnew Hh') as (h2 & Ed & _).
      erewrite run_on_heap by exact Ed. unfold mret, st_ret. exists 1, h2, (m_free_list s.2).
      split; [|split; [done|by right]]. do 3 f_equal.
Qed.

Lemma Init_inv h name ip port db max h' p' :
  heap_ok h → 2 <= max → CachePool.Init (h, CachePool.make name ip port db max) = Ok (0, (h', p')) →
  pool_inv (h', p') [] ∧ m_max_conn_cnt p' = max ∧ zlen (m_free_list p') = 2.
Proof.
  intros Hh Hmax H. unfold CachePool.Init in H. rewrite run_gets in H.
  edestruct (Init_loop_inv 2 (h, mk (CacheConn.Info name ip port db) 0 max [])) as (ret & h2 & l & E & Hok & _).
  - constructor; cbn; try done; [by constructor|set_solver|lia].
  - cbn. lia.
  - change (Z.to_nat (m_cur_conn_cnt (h, CachePool.make name ip port db max).2)) with 2%nat in H.
    cbn [fst snd m_cur_conn_cnt] in E. change (0 + Z.of_nat 2) with 2 in E, Hok.
    change (set_cur (mk (CacheConn.Info name ip port db) 0 max []) 2) with (CachePool.make name ip port db max) in E.
    rewrite E in H. simplify_eq. specialize (Hok eq_refl). split; [done|]. split; [done|].
    destruct Hok as [_ _ _ Hc _]. cbn in Hc. change (zlen (@nil nat)) with 0 in Hc. cbn. lia.
Qed.

Lemma lend_steps_inv x y :
  rtc lend_step x y → pool_inv x.1 x.2 → pool_inv y.1 y.2 ∧ m_max_conn_cnt y.1.2 = m_max_conn_cnt x.1.2.
Proof.
  induction 1 as [|x y z Hs _ IH]; [done|]. intros Hx.
  destruct (lend_step_inv _ _ Hs Hx) as [Hy Hm]. destruct (IH Hy) as [Hz Hm']. split; [done|congruence].
Qed.

(** For a pool of at least two connections whose initialisation
    succeeded, in every interleaving of clients that borrow connections, run any
    commands on them and return them: no connection is lent twice or both lent and
    free, all are live objects, their number is the pool's count and at most the
    configured maximum; a request never faults and waits exactly when all connections
    are lent; and the connection that any client returns is what a waiting request
    then gets. *)
Theorem cache_pool_exclusive (h h0 : heap R) (name ip : string) (port db max : Z) (p0 : t)
    (s : heap R * t) (held : list nat) :
  heap_ok h → 2 <= max →
  CachePool.Init (h, CachePool.make name ip port db max) = Ok (0, (h0, p0)) →
  rtc lend_step ((h0, p0), []) (s, held) →
  NoDup (m_free_list s.2 ++ held) ∧
  (∀ c, c ∈ m_free_list s.2 ++ held → is_Some (conns s.1 !! c)) ∧
  m_cur_conn_cnt s.2 = zlen (m_free_list s.2) + zlen held ∧ m_cur_conn_cnt s.2 <= max ∧
  (∃ g s', GetCacheConn s = Ok (g, s') ∧ (g = Wait ↔ m_free_list s.2 = [] ∧ zlen held = max)) ∧
  (∀ c, c ∈ held → GetCacheConn s = Ok (Wait, s) →
     ∃ s' s'', RelCacheConn c s = Ok ((), s') ∧ GetCacheConn s' = Ok (Got c, s'')).
Proof.
  intros Hh Hmax Hinit Hsteps. destruct (Init_inv _ _ _ _ _ _ _ _ Hh Hmax Hinit) as (Hinv0 & Hm0 & _).
  destruct (lend_steps_inv _ _ Hsteps Hinv0) as [Hinv Hm]. cbn [fst snd] in *.
  pose proof Hinv as [_ Hnd Halive Hcount Hle]. rewrite Hm, Hm0 in Hle.
  split_and!; [done|done|done|done| |].
  - destruct (GetCacheConn_run s held Hinv) as [(He & Hfull & E)|[(s1 & E & _)|(c' & s1 & E & _)]].
    + exists Wait, s. split; [done|]. rewrite He in *. change (zlen (@nil nat)) with 0 in *. split; [|done]. split; [done|lia].
    + exists Null, s1. split; [done|]. split; [done|]. intros [He Hh']. exfalso.
      unfold GetCacheConn in E. rewrite run_gets, He, !run_gets in E. rewrite He in Hcount. change (zlen (@nil nat)) with 0 in *.
      replace (m_max_conn_cnt s.2 <=? m_cur_conn_cnt s.2) with true in E by lia. done.
    + exists (Got c'), s1. split; [done|]. split; [done|]. intros [He Hh']. exfalso.
      unfold GetCacheConn in E. rewrite run_gets, He, !run_gets in E. rewrite He in Hcount. change (zlen (@nil nat)) with 0 in *.
      replace (m_max_conn_cnt s.2 <=? m_cur_conn_cnt s.2) with true in E by lia. done.
  - intros c Hc Hwait.
    destruct (GetCacheConn_run s held Hinv) as [(He & _ & _)|[(s1 & E & _)|(c' & s1 & E & _)]];
      [|rewrite E in Hwait; done..].
    unfold RelCacheConn, upd, modify. rewrite He, bool_decide_false by set_solver.
    eexists _, _. split; [reflexivity|]. reflexivity.
Qed.
End Clients.

(** ** The configured instances *)

(** The configuration the repository ships (conf/dbproxyserver.conf). *)
Definition dbproxyserver_conf : list byte :=
  concat (map (λ l, bytes_of l ++ [c_nl])
    ["CacheInstances=Master1,Master2,Master3"; "#Master1"; "Master1_host=127.0.0.1";
     "Master1_port=7001"; "Master1_db=0"; "Master1_maxconncnt=16"; ""; "#Master2";
     "Master2_host=127.0.0.1"; "Master2_port=7002"; "Master2_db=0"; "Master2_maxconncnt=16"; "";
     "#Master3"; "Master3_host=127.0.0.1"; "Master3_port=7003"; "Master3_db=0";
     "Master3_maxconncnt=16"]%string).

(** The instance a user's data live on, as the business code names it. *)
Definition redisname (user : string) : string := ("Master" +:+ dec (redisid user))%string.

Section Manager.
Context {R : Type} {HR : Hiredis R}.
Import CachePool.

(** When the library makes contexts, a pool starts with its two connections. *)
Lemma Init_succeeds h name ip port db max :
  heap_ok h → 2 <= max → ¬ no_context →
  ∃ h' p', CachePool.Init (h, CachePool.make name ip port db max) = Ok (0, (h', p')) ∧
    pool_inv (h', p') [] ∧ m_max_conn_cnt p' = max ∧ zlen (m_free_list p') = 2.
Proof.
  intros Hh Hmax Hctx. unfold CachePool.Init. rewrite run_gets.
  edestruct (Init_loop_inv 2 (h, mk (CacheConn.Info name ip port db) 0 max [])) as (ret & h2 & l & E & Hok & Hret).
  - constructor; cbn; try done; [by constructor|set_solver|lia].
  - cbn. lia.
  - change (Z.to_nat (m_cur_conn_cnt (h, CachePool.make name ip port db max).2)) with 2%nat.
    cbn [fst snd m_cur_conn_cnt] in E. change (0 + Z.of_nat 2) with 2 in E, Hok.
    change (set_cur (mk (CacheConn.Info name ip port db) 0 max []) 2) with (CachePool.make name ip port db max) in E.
    destruct Hret as [-> |]; [|done]. eexists _, _. split; [exact E|]. specialize (Hok eq_refl).
    split; [done|]. split; [done|].
    destruct Hok as [_ _ _ Hc _]. cbn in Hc. change (zlen (@nil nat)) with 0 in Hc. cbn. lia.
Qed.

(** One configured instance adds its pool. *)
Lemma Init_instance_run cfg inst host port db max (h : heap R) (m : gmap string t) :
  heap_ok h → ¬ no_context → m !! string_of inst = None → x00 ∉ inst →
  ConfigFileReader.GetConfigName cfg (CacheManager.field_name inst "_host") = Ok (Some host) →
  ConfigFileReader.GetConfigName cfg (CacheManager.field_name inst "_port") = Ok (Some port) →
  ConfigFileReader.GetConfigName cfg (CacheManager.field_name inst "_db") = Ok (Some db) →
  ConfigFileReader.GetConfigName cfg (CacheManager.field_name inst "_maxconncnt") = Ok (Some max) →
  2 <= atoi max →
  ∃ h' p', CacheManager.Init_instance cfg inst (h, m) = Ok (0, (h', <[string_of inst := p']> m)) ∧
    heap_ok h' ∧ zlen (m_free_list p') = 2.
Proof.
  intros Hh Hctx Hm H0 E1 E2 E3 E4 Hmax. unfold CacheManager.Init_instance, lift.
  rewrite E1, E2, E3, E4. unfold zoom, mbind, st_bind. cbn [mbind res_bind fst snd].
  destruct (Init_succeeds h (string_of (c_str inst)) (string_of host) (atoi port) (atoi db) (atoi max) Hh Hmax Hctx)
    as (h' & p' & E & Hinv & _ & Hl).
  rewrite E. unfold modify, mret, st_ret. unfold res_bind. cbn [fst snd Z.eqb negb]. rewrite Hm. exists h', p'. split; [reflexivity|].
  split; [by apply Hinv|done].
Qed.

(** With the configuration file of the repository, and a library
    that makes contexts, the manager comes up with the pools Master1 to Master3, and
    for every user name a request for the instance the user is hashed to is served
    by a connection. *)
Theorem manager_covers_users (h : heap R) :
  heap_ok h → ¬ no_context →
  ∃ m h', CacheManager.getInstance (Some dbproxyserver_conf) None h = Ok (Some m, h') ∧
    dom m = ({["Master1"; "Master2"; "Master3"]} : gset string)%string ∧
    ∀ user, ∃ c s', CacheManager.GetCacheConn (redisname user) (h', m) = Ok (Got c, s').
Proof.
  intros Hh Hctx.
  set (cfg := match ConfigFileReader.LoadFile "../conf/dbproxyserver.conf" (Some dbproxyserver_conf) with
              | Ok c => c | Fault _ => ConfigFileReader.mk None [] "" end).
  assert (ConfigFileReader.LoadFile "../conf/dbproxyserver.conf" (Some dbproxyserver_conf) = Ok cfg) as Ecfg.
  { vm_compute. reflexivity. }
  unfold CacheManager.getInstance. rewrite Ecfg. cbn [mbind res_bind].
  destruct (Init_instance_run cfg (bytes_of "Master1") (bytes_of "127.0.0.1") (bytes_of "7001") (bytes_of "0")
    (bytes_of "16") h ∅ Hh Hctx) as (h1 & p1 & E1 & Hh1 & Hl1); [done|by apply (bool_decide_unpack _)|vm_compute; reflexivity..|done|].
  destruct (Init_instance_run cfg (bytes_of "Master2") (bytes_of "127.0.0.1") (bytes_of "7002") (bytes_of "0")
    (bytes_of "16") h1 {["Master1" := p1]} Hh1 Hctx) as (h2 & p2 & E2 & Hh2 & Hl2);
    [done|by apply (bool_decide_unpack _)|vm_compute; reflexivity..|done|].
  destruct (Init_instance_run cfg (bytes_of "Master3") (bytes_of "127.0.0.1") (bytes_of "7003") (bytes_of "0")
    (bytes_of "16") h2 (<["Master2" := p2]> {["Master1" := p1]}) Hh2 Hctx) as (h3 & p3 & E3 & Hh3 & Hl3);
    [done|by apply (bool_decide_unpack _)|vm_compute; reflexivity..|done|].
  exists (<["Master3" := p3]> (<["Master2" := p2]> {["Master1" := p1]})), h3.
  assert (CacheManager.Init cfg (h, ∅) = Ok (0, (h3, <["Master3" := p3]> (<["Master2" := p2]> {["Master1" := p1]})))) as EI.
  { unfold CacheManager.Init, lift.
    replace (ConfigFileReader.GetConfigName cfg (bytes_of "CacheInstances"))
      with (Ok (Some (bytes_of "Master1,Master2,Master3"))) by (vm_compute; reflexivity).
    unfold mbind at 1, st_bind at 1. cbn [mbind res_bind].
    replace (CacheManager.split (bytes_of "Master1,Master2,Master3") (byte_of_Z 44))
      with [bytes_of "Master1"; bytes_of "Master2"; bytes_of "Master3"] by (vm_compute; reflexivity).
    cbn [CacheManager.Init_loop]. rewrite (st_bind_run _ _ _ _ _ E1). cbn [Z.eqb].
    rewrite (st_bind_run _ _ _ _ _ E2). cbn [Z.eqb]. rewrite (st_bind_run _ _ _ _ _ E3). done. }
  rewrite EI. split; [done|]. split; [rewrite !dom_insert_L, dom_singleton_L; set_solver|].
  intros user. assert (∃ p, (<["Master3" := p3]> (<["Master2" := p2]> {["Master1" := p1]}) : gmap string t)
    !! redisname user = Some p ∧ zlen (m_free_list p) = 2) as (p & Hp & Hl).
  { unfold redisname. pose proof (redisid_range user) as Hr. clear -Hr Hl1 Hl2 Hl3.
    generalize dependent (redisid user). intros z Hz. rewrite !elem_of_cons, elem_of_nil in Hz.
    destruct Hz as [->|[->|[->|[]]]].
    - change ("Master" +:+ dec 1)%string with "Master1"%string. exists p1.
      by rewrite !lookup_insert_ne, lookup_singleton_eq.
    - change ("Master" +:+ dec 2)%string with "Master2"%string. exists p2.
      by rewrite lookup_insert_ne, lookup_insert_eq.
    - change ("Master" +:+ dec 3)%string with "Master3"%string. exists p3.
      by rewrite lookup_insert_eq. }
  unfold CacheManager.GetCacheConn. rewrite run_gets. cbn [snd]. rewrite Hp.
  unfold CacheManager.on_pool. cbn [fst snd]. rewrite Hp.
  unfold GetCacheConn, pop_front. rewrite run_gets. cbn [snd].
  destruct (m_free_list p) as [|c l] eqn:El; [done|]. rewrite run_gets. cbn [snd]. rewrite El.
  eexists _, _. reflexivity.
Qed.
End Manager.

(** *** A pool on the toy redis *)

Import ToyRedis.
Definition toy_heap : heap (database * nat) := Heap (∅, 0%nat) ∅ 0.
Definition toy_cache_pool (max : Z) : heap (database * nat) * CachePool.t :=
  match CachePool.Init (toy_heap, CachePool.make "Master1" "127.0.0.1" 7001 0 max) with
  | Ok (_, s) => s
  | Fault _ => (toy_heap, CachePool.make "" "" 0 0 0)
  end.
Definition toy_borrow (s : heap (database * nat) * CachePool.t) : heap (database * nat) * CachePool.t :=
  match CachePool.GetCacheConn s with Ok (_, s') => s' | Fault _ => s end.

(** Two connections borrowed from a pool of two: the next request waits. *)
Lemma cache_pool_exclusive_witness :
  ∃ s', CachePool.GetCacheConn (toy_borrow (toy_borrow (toy_cache_pool 2))) = Ok (CachePool.Wait, s').
Proof.
  destruct (cache_pool_exclusive toy_heap (toy_cache_pool 2).1 "Master1" "127.0.0.1" 7001 0 2
    (toy_cache_pool 2).2 (toy_borrow (toy_borrow (toy_cache_pool 2))) [1%nat; 0%nat])
    as (_ & _ & _ & _ & (g & s' & E & Hw) & _).
  - intros c [o Ho]. cbn in Ho. by rewrite lookup_empty in Ho.
  - done.
  - vm_compute. reflexivity.
  - eapply rtc_l.
    { refine (lend_get (toy_cache_pool 2) (toy_borrow (toy_cache_pool 2)) [] 0 _). vm_compute. reflexivity. }
    eapply rtc_l; [|apply rtc_refl].
    refine (lend_get (toy_borrow (toy_cache_pool 2)) (toy_borrow (toy_borrow (toy_cache_pool 2))) [0%nat] 1 _).
    vm_compute. reflexivity.
  - exists s'. rewrite E. do 2 f_equal. apply Hw. split; vm_compute; reflexivity.
Defined.

Lemma manager_covers_users_witness :
  ∃ m h', CacheManager.getInstance (Some dbproxyserver_conf) None toy_heap = Ok (Some m, h') ∧
    ∃ c s', CacheManager.GetCacheConn (redisname "alice") (h', m) = Ok (CachePool.Got c, s').
Proof.
  destruct (manager_covers_users toy_heap) as (m & h' & E & _ & Hall).
  - intros c [o Ho]. cbn in Ho. by rewrite lookup_empty in Ho.
  - intros [r Hr]. done.
  - exists m, h'. split; [exact E|apply Hall].
Defined.
