(* ===== verification/PoolThreads.v ===== *)
(** * CachePool.cc: the threads at a pool of redis connections

    CachePool.v has the operations of a pool, each under the pool's lock, with the wait
    on its condition variable as an outcome of [GetCacheConn].  Here are the threads
    around them: those that are inside [GetCacheConn], awake or waiting, and those that
    hold a connection.  A release signals one waiting thread ([CacheNotify], Mutex.h). *)
From stdpp Require Import relations.
From S2P Require Import Prelude Text State CacheConn CachePool.

Module PoolThreads.
Section PoolThreads.
Context {R : Type} {HR : Hiredis R}.

(** The pool, the callers of [GetCacheConn] before a pass through its loop, those that
    wait, and the connections that are lent. *)
Record t := mk {
  pool : heap R * CachePool.t;
  ready : nat;
  asleep : nat;
  held : list nat
}.

(** [m_lock.Signal()]: one of the waiting threads runs on, if any. *)
Definition signal (s : t) : t :=
  match asleep s with
  | O => s
  | S n => mk (pool s) (S (ready s)) n (held s)
  end.

(** The steps of callers and of the threads that return what they hold. *)
Inductive step (s : t) : t → Prop :=
  | get_returns n c p :
      ready s = S n → CachePool.GetCacheConn (pool s) = Ok (CachePool.Got c, p) →
      step s (mk p n (asleep s) (c :: held s))
  | get_fails n p :
      ready s = S n → CachePool.GetCacheConn (pool s) = Ok (CachePool.Null, p) →
      step s (mk p n (asleep s) (held s))
  | get_waits n p :
      ready s = S n → CachePool.GetCacheConn (pool s) = Ok (CachePool.Wait, p) →
      step s (mk p n (S (asleep s)) (held s))
  | releases held1 c held2 p :
      held s = held1 ++ c :: held2 → CachePool.RelCacheConn c (pool s) = Ok ((), p) →
      step s (signal (mk p (ready s) (asleep s) (held1 ++ held2))).

(** A thread calls [GetCacheConn], a waiting one wakes up without a signal, a command
    runs on a connection that is lent. *)
Inductive other (s : t) : t → Prop :=
  | called : other s (mk (pool s) (S (ready s)) (asleep s) (held s))
  | wakes_up n : asleep s = S n → other s (mk (pool s) (S (ready s)) n (held s))
  | uses {A} c (m : st (R * CacheConn.t) A) a h :
      c ∈ held s → on_conn c m (pool s).1 = Ok (a, h) →
      other s (mk (h, (pool s).2) (ready s) (asleep s) (held s)).

Definition any_step (s s' : t) : Prop := step s s' ∨ other s s'.

(** The callers that are inside [GetCacheConn]. *)
Definition callers (s : t) : nat := ready s + asleep s.

End PoolThreads.
#[global] Arguments t R : clear implicits.
End PoolThreads.

Section Served.
Import PoolThreads.
Context {R : Type} {HR : Hiredis R}.
Implicit Types s : PoolThreads.t R.

(** Nobody waits while a connection could be made, or while there are more free
    connections than threads on their way to them. *)
Record threads_inv s : Prop := {
  ti_pool : pool_inv (pool s) (held s);
  ti_full : (0 < asleep s)%nat → CachePool.m_cur_conn_cnt (pool s).2 = CachePool.m_max_conn_cnt (pool s).2;
  ti_awake : (0 < asleep s)%nat → zlen (CachePool.m_free_list (pool s).2) <= Z.of_nat (ready s)
}.

(** What [GetCacheConn] leaves behind. *)
Lemma get_outcome (p : heap R * CachePool.t) h g p' :
  pool_inv p h → CachePool.GetCacheConn p = Ok (g, p') →
  CachePool.m_max_conn_cnt p'.2 = CachePool.m_max_conn_cnt p.2 ∧
  match g with
  | CachePool.Got c => pool_inv p' (c :: h) ∧
      (CachePool.m_cur_conn_cnt p.2 = CachePool.m_max_conn_cnt p.2 →
         CachePool.m_cur_conn_cnt p'.2 = CachePool.m_cur_conn_cnt p.2 ∧
         zlen (CachePool.m_free_list p'.2) = zlen (CachePool.m_free_list p.2) - 1)
  | CachePool.Null => pool_inv p' h ∧ CachePool.m_cur_conn_cnt p.2 < CachePool.m_max_conn_cnt p.2
  | CachePool.Wait => p' = p ∧ CachePool.m_free_list p.2 = [] ∧ CachePool.m_cur_conn_cnt p.2 = CachePool.m_max_conn_cnt p.2
  end.
Proof.
  intros Hi E. destruct (GetCacheConn_run p h Hi) as [(Hf & Hc & E1)|[(p1 & E1 & Hm & Hi1)|(c & p1 & E1 & Hm & Hi1)]];
    rewrite E1 in E; simplify_eq; (split; [done|]); [by split_and!| |].
  - split; [done|]. unfold CachePool.GetCacheConn in E1. rewrite run_gets in E1.
    destruct (CachePool.m_free_list p.2) as [|x l] eqn:El; [|unfold CachePool.pop_front in E1; rewrite run_gets, El in E1; done].
    rewrite !run_gets in E1. destruct (_ <=? _) eqn:Ec; [done|lia].
  - split; [done|]. intros Hfull. unfold CachePool.GetCacheConn in E1. rewrite run_gets in E1.
    destruct (CachePool.m_free_list p.2) as [|x l] eqn:El.
    + rewrite !run_gets in E1. replace (_ <=? _) with true in E1 by lia. done.
    + unfold CachePool.pop_front in E1. rewrite run_gets, El in E1. injection E1 as <- <-. cbn. rewrite zlen_cons. split; [done|lia].
Qed.

(** A release: the connection is free again. *)
Lemma release_run (p : heap R * CachePool.t) h1 c h2 :
  pool_inv p (h1 ++ c :: h2) →
  ∃ p', CachePool.RelCacheConn c p = Ok ((), p') ∧ pool_inv p' (h1 ++ h2) ∧
    CachePool.m_cur_conn_cnt p'.2 = CachePool.m_cur_conn_cnt p.2 ∧ CachePool.m_max_conn_cnt p'.2 = CachePool.m_max_conn_cnt p.2 ∧
    zlen (CachePool.m_free_list p'.2) = zlen (CachePool.m_free_list p.2) + 1.
Proof.
  intros Hi. assert (c ∉ CachePool.m_free_list p.2) as Hc.
  { pose proof (pi_nodup _ _ Hi) as Hnd. apply NoDup_app in Hnd as (_ & Hd & _). intros Hin. apply (Hd c Hin).
    rewrite elem_of_app, elem_of_cons. auto. }
  unfold CachePool.RelCacheConn, CachePool.upd, modify. rewrite bool_decide_false by done.
  eexists. split; [reflexivity|]. split; [|cbn; rewrite zlen_app; by split_and!].
  eapply (lend_step_inv (p, h1 ++ c :: h2) (_, h1 ++ h2)); [|done]. apply lend_release.
  unfold CachePool.RelCacheConn, CachePool.upd, modify. by rewrite bool_decide_false.
Qed.

(** The threads that have something to do weigh more than those that wait. *)
Definition to_go s : nat := 4 * ready s + 3 * asleep s + 2 * length (held s).

Lemma threads_step s s' : threads_inv s → step s s' → threads_inv s' ∧ (to_go s' < to_go s)%nat ∧
  CachePool.m_max_conn_cnt (pool s').2 = CachePool.m_max_conn_cnt (pool s).2.
Proof.
  intros [Hp Hf Ha] Hs. destruct Hs as [n c p Hr E|n p Hr E|n p Hr E|h1 c h2 p Hh E].
  - destruct (get_outcome _ _ _ _ Hp E) as (Hm & Hi & Hfull). split_and!; [|unfold to_go; cbn; lia|done].
    split; cbn; [done|intros H; destruct (Hfull (Hf H)) as [-> _]; rewrite Hm; by apply Hf|].
    intros H. destruct (Hfull (Hf H)) as [_ ->]. specialize (Ha H). lia.
  - destruct (get_outcome _ _ _ _ Hp E) as (Hm & Hi & Hlt). split_and!; [|unfold to_go; cbn; lia|done].
    split; cbn; [done|intros H; specialize (Hf H); lia..].
  - destruct (get_outcome _ _ _ _ Hp E) as (Hm & -> & He & Hfull). split_and!; [|unfold to_go; cbn; lia|done].
    split; cbn; [done|done|]. intros _. rewrite He. change (zlen (@nil nat)) with 0. lia.
  - rewrite Hh in Hp. destruct (release_run _ _ _ _ Hp) as (p' & E' & Hi & Hcur & Hmax & Hlen). rewrite E in E'. injection E' as <-.
    unfold signal. cbn [asleep]. destruct (asleep s) as [|n] eqn:En; cbn.
    + split_and!; [split; cbn; done || lia| |done]. unfold to_go. rewrite Hh. cbn. rewrite !length_app. cbn. lia.
    + split_and!; [|unfold to_go; rewrite Hh; cbn; rewrite !length_app; cbn; lia|done].
      specialize (Hf ltac:(lia)). specialize (Ha ltac:(lia)). split; cbn; [done|intros _; lia..].
Qed.

Lemma threads_other s s' : threads_inv s → other s s' →
  threads_inv s' ∧ CachePool.m_max_conn_cnt (pool s').2 = CachePool.m_max_conn_cnt (pool s).2.
Proof.
  intros [Hp Hf Ha] Hs. destruct Hs as [|n Hn|A c m a h Hc E]; (split; [|done]).
  - split; cbn; [done|done|]. intros H. specialize (Ha H). lia.
  - split; cbn; [done|intros _; apply Hf; lia|]. intros _. specialize (Ha ltac:(lia)). lia.
  - split; cbn; [|done|done]. destruct s as [[h0 p] r sl he]. cbn in *.
    destruct (lend_step_inv ((h0, p), he) ((h, p), he)) as [Hi _]; [by eapply lend_use|done|done].
Qed.

Lemma threads_steps k s s' : threads_inv s → nsteps step k s s' → threads_inv s' ∧ (k + to_go s' <= to_go s)%nat ∧
  CachePool.m_max_conn_cnt (pool s').2 = CachePool.m_max_conn_cnt (pool s).2.
Proof.
  intros Hi Hs. induction Hs as [s|k s1 s2 s3 H _ IH]; [done|]. destruct (threads_step _ _ Hi H) as (Hi2 & Hm & Hmax).
  destruct (IH Hi2) as (? & ? & ?). split_and!; [done|lia|congruence].
Qed.

Lemma threads_reach s0 s : threads_inv s0 → rtc any_step s0 s →
  threads_inv s ∧ CachePool.m_max_conn_cnt (pool s).2 = CachePool.m_max_conn_cnt (pool s0).2.
Proof.
  intros Hi Hr. induction Hr as [|s1 s2 s3 [H|H] _ IH]; [done|..].
  - destruct (threads_step _ _ Hi H) as (Hi2 & _ & Hm). destruct (IH Hi2). split; [done|congruence].
  - destruct (threads_other _ _ Hi H) as (Hi2 & Hm). destruct (IH Hi2). split; [done|congruence].
Qed.

(** Threads that cannot move have nothing left to do. *)
Lemma threads_rest s :
  threads_inv s → 0 < CachePool.m_max_conn_cnt (pool s).2 → (∀ s', ¬ step s s') → ready s = 0%nat ∧ asleep s = 0%nat ∧ held s = [].
Proof.
  intros [Hp Hf Ha] Hmax Hst.
  assert (ready s = 0%nat) as Er.
  { destruct (ready s) as [|n] eqn:Er; [done|].
    destruct (GetCacheConn_run _ _ Hp) as [(_ & _ & E)|[(p & E & _)|(c & p & E & _)]]; exfalso.
    - by eapply Hst, get_waits. - by eapply Hst, get_fails. - by eapply Hst, get_returns. }
  assert (held s = []) as Eh.
  { destruct (held s) as [|c l] eqn:Eh; [done|]. destruct (release_run (pool s) [] c l Hp) as (p & E & _).
    exfalso. by eapply Hst, (releases s []). }
  split_and!; [done| |done]. destruct (asleep s) as [|n] eqn:Ea; [done|]. exfalso.
  specialize (Hf ltac:(lia)). specialize (Ha ltac:(lia)). destruct Hp as [_ _ _ Hc _]. rewrite Eh in Hc. change (zlen (@nil nat)) with 0 in Hc. lia.
Qed.

(** C32 (liveness). The callers at a pool that was initialised.  Whatever the
    interleaving of calls, releases, commands and spurious wakeups so far: as long as the
    threads that hold connections return them, every caller of [GetCacheConn] comes back
    after boundedly many steps, however they are scheduled, and no signal is lost: the
    threads do not come to rest while one of them waits. *)
Theorem pool_callers_served (h h0 : heap R) (name ip : string) (port db max : Z) (p0 : CachePool.t) s :
  heap_ok h → 2 <= max →
  CachePool.Init (h, CachePool.make name ip port db max) = Ok (0, (h0, p0)) →
  rtc any_step (mk (h0, p0) 0 0 []) s →
  (∀ k s', nsteps step k s s' → (k <= to_go s)%nat) ∧
  ∀ s', rtc step s s' → (∀ s'', ¬ step s' s'') → callers s' = 0%nat ∧ held s' = [].
Proof.
  intros Hh Hmax Hinit Hr. destruct (Init_inv _ _ _ _ _ _ _ _ Hh Hmax Hinit) as (Hinv0 & Hm0 & _).
  destruct (threads_reach (mk (h0, p0) 0 0 []) s) as [Hi Hm]; [by split; cbn; try lia|done|]. split.
  - intros k s' Hs. destruct (threads_steps _ _ _ Hi Hs) as (_ & ? & _). lia.
  - intros s' (k & Hs)%rtc_nsteps Hst. destruct (threads_steps _ _ _ Hi Hs) as (Hi' & _ & Hm').
    destruct (threads_rest s' Hi') as (Er & Ea & Eh); [cbn in Hm; lia|done|]. unfold callers. by rewrite Er, Ea.
Qed.
End Served.

Section Witness.
Import PoolThreads ToyRedis.

(** Both connections are lent, and a third caller waits. *)
Definition toy_crowd : PoolThreads.t (database * nat) :=
  mk (toy_borrow (toy_borrow (toy_borrow (toy_cache_pool 2)))) 0 1 [1%nat; 0%nat].

(** Only the outcome of an operation is computed. *)
Definition outcome {S} (m : res (CachePool.got * S)) : option CachePool.got :=
  match m with Ok (g, _) => Some g | Fault _ => None end.

Lemma borrow_run s g : outcome (CachePool.GetCacheConn s) = Some g → CachePool.GetCacheConn s = Ok (g, toy_borrow s).
Proof. unfold toy_borrow. destruct (CachePool.GetCacheConn s) as [[g' s']|]; [|done]. by intros [= ->]. Qed.

Lemma toy_crowd_reached : rtc any_step (mk (toy_cache_pool 2) 0 0 []) toy_crowd.
Proof.
  do 3 (eapply rtc_l; [right; apply called|]).
  eapply rtc_l; [left; apply (get_returns _ 2 0 (toy_borrow (toy_cache_pool 2))); [done|apply borrow_run; vm_compute; reflexivity]|].
  eapply rtc_l; [left; apply (get_returns _ 1 1 (toy_borrow (toy_borrow (toy_cache_pool 2)))); [done|apply borrow_run; vm_compute; reflexivity]|].
  eapply rtc_l; [left; apply (get_waits _ 0 (toy_borrow (toy_borrow (toy_borrow (toy_cache_pool 2))))); [done|apply borrow_run; vm_compute; reflexivity]|].
  apply rtc_refl.
Qed.

Lemma toy_init : CachePool.Init (toy_heap, CachePool.make "Master1" "127.0.0.1" 7001 0 2) = Ok (0, ((toy_cache_pool 2).1, (toy_cache_pool 2).2)).
Proof.
  unfold toy_cache_pool. set (m := CachePool.Init _). assert (match m with Ok (z, _) => z =? 0 | Fault _ => false end = true) as E by (vm_compute; reflexivity).
  destruct m as [[z [h p]]|]; [|done]. by apply Z.eqb_eq in E as ->.
Qed.

Lemma pool_callers_served_witness :
  to_go toy_crowd = 7%nat ∧ ∀ s', rtc step toy_crowd s' → (∀ s'', ¬ step s' s'') → callers s' = 0%nat ∧ held s' = [].
Proof.
  split; [done|]. destruct (pool_callers_served toy_heap (toy_cache_pool 2).1 "Master1" "127.0.0.1" 7001 0 2 (toy_cache_pool 2).2 toy_crowd)
    as (_ & H).
  - intros c [o Ho]. cbn in Ho. by rewrite lookup_empty in Ho.
  - done.
  - apply toy_init.
  - apply toy_crowd_reached.
  - exact H.
Defined.
End Witness.
