(* ===== verification/RedisLock.v ===== *)
(** * RedisLock.h: the lock that a red packet is opened under

    The lock on a key [k] is the redis key [k_Lock], taken with SETNX.  When that
    fails [lock] means to look at the expiry time kept in the lock, but it reads and
    overwrites the key [k] itself, which holds the red packet.  So whether the lock
    excludes depends on the first bytes of the packet: when they read as a time that is
    past, a second client is let in and the packet is lost. *)
From Stdlib Require Import Ascii.
From S2P Require Import Prelude Text State StdMap Comm ProtobufCodec CacheConn.

Module RedisLock.
Section RedisLock.
Context {R : Type} {HR : Hiredis R}.

(** The connection [m_cacheconn] is the state of the methods. *)
Record t := mk {
  key : string;
  expiretime : Z;
  redisname : string;
  locked : bool;
  lockTimestamp : Z
}.

Definition make (redisname key : string) (expiretime : Z) : t := mk key expiretime redisname false 0.

Definition set_locked (l : t) (v : bool) : t :=
  mk (key l) (expiretime l) (redisname l) v (lockTimestamp l).
Definition set_lockTimestamp (l : t) (v : Z) : t :=
  mk (key l) (expiretime l) (redisname l) (locked l) v.

Abbreviation M := (st (R * CacheConn.t)).

Definition GetLockKey (l : t) : string := (key l +:+ "_Lock")%string.

Definition tryLock (l : t) (time : Z) : M t :=
  if negb (locked l) then
    value ← CacheConn.setnx (bytes_of (GetLockKey l)) time;
    mret (if value =? 1 then set_locked l true else l)
  else mret l.

Definition getLockTimestamp (l : t) : Z := lockTimestamp l.

Definition clearLock (l : t) : M unit := CacheConn.del (bytes_of (GetLockKey l));; mret ().

(** [unlock()] returns 0: [del] throws nothing. *)
Definition unlock (l : t) : M (Z * t) :=
  if locked l then
    CacheConn.del (bytes_of (GetLockKey l));;
    mret (0, set_locked l false)
  else mret (0, l).

(** [lock()] at the time [now]; the [int] of [stoi] is compared as unsigned. *)
Definition lock (now : Z) (l : t) : M t :=
  let uiCurTime := u32 now in
  let time := i32 (uiCurTime + expiretime l + 1) in
  l ← tryLock l time;
  if locked l then mret (set_lockTimestamp l time)
  else
    value ← CacheConn.get (bytes_of (key l));
    t ← lift (stoi value);
    '(value, l) ←
      (if u32 t <? uiCurTime then
         value ← CacheConn.getset (bytes_of (key l)) (bytes_of (dec time));
         t ← lift (stoi value);
         mret (value, if u32 t <? uiCurTime then set_locked l true else l)
       else mret (value, l));
    t ← lift (stoi value);
    mret (set_lockTimestamp l t).
End RedisLock.
End RedisLock.

Section Properties.
Context {R : Type} {HR : Hiredis R} {HL : HiredisLaws R}.
Import RedisLock.

(** The redis key of a lock, as redis sees it. *)
Definition lock_key (l : t) : list byte := c_str (bytes_of (GetLockKey l)).
Definition data_key (l : t) : list byte := c_str (bytes_of (key l)).

(** [setnx] on a key that is free or taken. *)
Lemma setnx_run k time (s : R * CacheConn.t) :
  ∃ z s', CacheConn.setnx k time s = Ok (z, s') ∧ CacheConn.m_pCachePool s'.2 = CacheConn.m_pCachePool s.2 ∧
    ((z = 1 ∧ rdb s.1 !! c_str k = None ∧ rdb s'.1 = <[c_str k := VString (s_of time)]> (rdb s.1)) ∨
     (z ≠ 1 ∧ (rdb s'.1 = rdb s.1 ∨
               rdb s.1 !! c_str k = None ∧ rdb s'.1 = <[c_str k := VString (s_of time)]> (rdb s.1)))).
Proof.
  unfold CacheConn.setnx, CacheConn.arg. destruct (rdb s.1 !! c_str k) as [x|] eqn:Ek.
  - destruct (command_run [CacheConn.word "SETNX"; c_str k; s_of time] (mret (-1)) (-1)
      (λ r, i32 (reply_integer r)) s _ _ (cmd_setnx_old _ _ _ _ Ek)) as (s' & Hp & [[E Hdb]|[[E Hdb]|[E Hdb]]]);
      rewrite E; eexists _, s'; (split; [reflexivity|]); (split; [done|]); right; (split; [done|]); left;
      [done|by destruct Hdb|done].
  - destruct (command_run [CacheConn.word "SETNX"; c_str k; s_of time] (mret (-1)) (-1)
      (λ r, i32 (reply_integer r)) s _ _ (cmd_setnx_new _ (s_of time) _ Ek)) as (s' & Hp & [[E Hdb]|[[E Hdb]|[E Hdb]]]);
      rewrite E; eexists _, s'; (split; [reflexivity|]); (split; [done|]).
    + right. split; [done|]. by left.
    + right. split; [done|]. destruct Hdb; [by left|by right].
    + by left.
Qed.

(** [del]. *)
Lemma del_run k (s : R * CacheConn.t) :
  ∃ v s', CacheConn.del k s = Ok (v, s') ∧ CacheConn.m_pCachePool s'.2 = CacheConn.m_pCachePool s.2 ∧
    (rdb s'.1 = rdb s.1 ∨ rdb s'.1 = delete (c_str k) (rdb s.1)).
Proof.
  unfold CacheConn.del, CacheConn.arg. destruct (rdb s.1 !! c_str k) as [x|] eqn:Ek.
  - destruct (command_run [CacheConn.word "DEL"; c_str k] (mret []) [] reply_str s _ _ (cmd_del_old _ _ _ Ek))
      as (s' & Hp & [[E Hdb]|[[E Hdb]|[E Hdb]]]); rewrite E; eexists _, s'; (split; [reflexivity|]);
      (split; [done|]); auto.
  - destruct (command_run [CacheConn.word "DEL"; c_str k] (mret []) [] reply_str s _ _ (cmd_del_new _ _ Ek))
      as (s' & Hp & [[E Hdb]|[[E Hdb]|[E Hdb]]]); rewrite E; eexists _, s'; (split; [reflexivity|]);
      (split; [done|]); left; [done|by destruct Hdb|done].
Qed.

(** What [get] can return. *)
Lemma get_run k (s : R * CacheConn.t) :
  ∃ s', CacheConn.m_pCachePool s'.2 = CacheConn.m_pCachePool s.2 ∧ rdb s'.1 = rdb s.1 ∧
    (CacheConn.get k s = CacheConn.null_string s' ∨ CacheConn.get k s = Ok ([], s') ∨
     ∃ v, rdb s.1 !! c_str k = Some (VString v) ∧ CacheConn.get k s = Ok (v, s')).
Proof.
  unfold CacheConn.get, CacheConn.arg.
  destruct (command_run [CacheConn.word "GET"; c_str k] CacheConn.null_string []
    (λ r, match r with ReplyString s => s | _ => [] end) s _ _ (cmd_get (c_str k) (rdb s.1)))
    as (s' & Hp & [[E Hdb]|[[E Hdb]|[E Hdb]]]); exists s'; (split; [done|]).
  - split; [done|]. by left.
  - split; [by destruct Hdb|]. right. by left.
  - split; [done|]. right. destruct (rdb s.1 !! c_str k) as [[v|l]|] eqn:Ek; [right; by exists v|by left..].
Qed.

(** What [getset] can return for a string. *)
Lemma getset_run k x v (s : R * CacheConn.t) :
  rdb s.1 !! c_str k = Some (VString v) →
  ∃ s', CacheConn.m_pCachePool s'.2 = CacheConn.m_pCachePool s.2 ∧
    (CacheConn.getset k x s = Ok ([], s') ∨
     CacheConn.getset k x s = Ok (v, s') ∧ rdb s'.1 = <[c_str k := VString (c_str x)]> (rdb s.1)).
Proof.
  intros Hv. unfold CacheConn.getset, CacheConn.arg.
  destruct (command_run [CacheConn.word "GETSET"; c_str k; c_str x] (mret []) [] CacheConn.reply_str s _ _
    (cmd_getset _ (c_str x) _ _ Hv)) as (s' & Hp & [[E Hdb]|[[E Hdb]|[E Hdb]]]); exists s'; (split; [done|]); auto.
Qed.

(** [stoi] returns or throws. *)
Lemma stoi_cases v : (∃ t, stoi v = Ok t) ∨ ∃ what, stoi v = Fault (Throw what).
Proof.
  unfold stoi. destruct (sign_of _) as [neg l0]. destruct (lead_digits 0 0 l0) as [[a n] r].
  destruct n; [right; by eexists|]. destruct (_ && _); [left|right]; by eexists.
Qed.

(** The expiry time that [lock] writes. *)
Definition expiry (now : Z) (l : t) : Z := i32 (u32 now + expiretime l + 1).

Lemma app_ne_self (a b : string) : (a +:+ b)%string = a → b = ""%string.
Proof.
  intros H. assert (slen (a +:+ b) = slen a) as Hl by (by rewrite H).
  rewrite slen_app in Hl. destruct b; [done|]. unfold slen in Hl. cbn in Hl. lia.
Qed.

(** A lock key is not the key it locks, when that is a C string. *)
Lemma lock_key_ne (l : t) : x00 ∉ bytes_of (key l) → lock_key l ≠ data_key l.
Proof.
  intros H0. unfold lock_key, data_key, GetLockKey. rewrite (c_str_no_nul (bytes_of (key l))) by done.
  rewrite c_str_no_nul.
  - intros H. apply bytes_of_inj, app_ne_self in H. done.
  - rewrite bytes_of_app. apply not_elem_of_app. split; [done|]. by apply (bool_decide_unpack _).
Qed.

(** The ways [lock] ends. *)
Lemma lock_cases (now : Z) (l : t) (s : R * CacheConn.t) :
  locked l = false → x00 ∉ bytes_of (key l) →
  (∃ s1, lock now l s = Ok (set_lockTimestamp (set_locked l true) (expiry now l), s1) ∧
     rdb s.1 !! lock_key l = None ∧ rdb s1.1 = <[lock_key l := VString (s_of (expiry now l))]> (rdb s.1)) ∨
  (∃ v t s1, rdb s.1 !! data_key l = Some (VString v) ∧ stoi v = Ok t ∧
     lock now l s = Ok (set_lockTimestamp (set_locked l (u32 t <? u32 now)) t, s1) ∧
     rdb s1.1 !! data_key l = Some (VString (if u32 t <? u32 now then s_of (expiry now l) else v))) ∨
  (∃ what, lock now l s = Fault (Throw what)).
Proof.
  intros Hl H0. pose proof (lock_key_ne l H0) as Hne. unfold lock. cbv zeta. unfold tryLock. rewrite Hl. cbn [negb].
  fold (expiry now l). destruct (setnx_run (bytes_of (GetLockKey l)) (expiry now l) s) as (z & s1 & E & _ & Hcase).
  rewrite run_bind_assoc, (st_bind_run _ _ _ _ _ E), run_mret.
  destruct Hcase as [(-> & Hnone & Hdb)|(Hz & Hdb)].
  - left. rewrite Z.eqb_refl. cbn [locked set_locked]. eexists. split; [reflexivity|]. done.
  - right. replace (z =? 1) with false by lia. rewrite Hl.
    assert (rdb s1.1 !! data_key l = rdb s.1 !! data_key l) as Hd1.
    { destruct Hdb as [Hdb|[_ Hdb]]; rewrite Hdb; [done|by apply lookup_insert_ne]. }
    destruct (get_run (bytes_of (key l)) s1) as (s2 & _ & Hdb2 & [E2|[E2|(v & Hv & E2)]]).
    1: { right. unfold mbind, st_bind. rewrite E2. by eexists. }
    1: { right. rewrite (st_bind_run _ _ _ _ _ E2). by eexists. }
    rewrite (st_bind_run _ _ _ _ _ E2).
    destruct (stoi_cases v) as [[t Ht]|[what Ht]]; [|right; exists what; unfold mbind, st_bind, lift; by rewrite Ht].
    assert (∀ s : R * CacheConn.t, lift (stoi v) s = Ok (t, s)) as Hlift by (intros; unfold lift; by rewrite Ht).
    rewrite (st_bind_run _ _ _ _ _ (Hlift _)). destruct (u32 t <? u32 now) eqn:Et.
    + rewrite !run_bind_assoc. rewrite <-Hdb2 in Hv.
      destruct (getset_run _ (bytes_of (dec (expiry now l))) _ _ Hv) as (s3 & _ & [E3|[E3 Hdb3]]);
        rewrite (st_bind_run _ _ _ _ _ E3), run_bind_assoc; [right; by eexists|left].
      rewrite (st_bind_run _ _ _ _ _ (Hlift _)), Et, run_mret, (st_bind_run _ _ _ _ _ (Hlift _)).
      exists v, t, s3. split; [by rewrite <-Hd1, <-Hdb2|]. split; [done|]. rewrite Et. split; [done|].
      rewrite Hdb3, (c_str_no_nul (bytes_of (dec _))) by apply dec_no_nul. apply lookup_insert_eq.
    + left. rewrite run_mret, (st_bind_run _ _ _ _ _ (Hlift _)). exists v, t, s2. rewrite Et.
      split; [by rewrite <-Hd1|]. split; [done|]. split; [|by rewrite Hdb2]. unfold set_locked. destruct l. cbn in *. by subst.
Qed.

(** C21 (safety). What the lock excludes, whatever the library answers.  [lock] returns in
    two cases only.  Either the lock was free, and now its key holds the expiry time; or
    the locked key itself held a string that [stoi] reads as a number, and then the lock
    is reported as held exactly when that number is below the present time, the key then
    holding the new expiry time instead of its contents.  Otherwise it throws.  So while
    a client holds the lock of a key that holds no number, [lock] throws for every other
    client; a red packet whose sender's name starts like a number is not such a key. *)
Theorem lock_excludes (now : Z) (l : t) (s : R * CacheConn.t) :
  locked l = false → x00 ∉ bytes_of (key l) →
  (∀ l1 s1, lock now l s = Ok (l1, s1) →
     (l1 = set_lockTimestamp (set_locked l true) (expiry now l) ∧ rdb s.1 !! lock_key l = None ∧
      rdb s1.1 = <[lock_key l := VString (s_of (expiry now l))]> (rdb s.1)) ∨
     (∃ v t, rdb s.1 !! data_key l = Some (VString v) ∧ stoi v = Ok t ∧
        l1 = set_lockTimestamp (set_locked l (u32 t <? u32 now)) t ∧
        rdb s1.1 !! data_key l = Some (VString (if u32 t <? u32 now then s_of (expiry now l) else v)))) ∧
  (is_Some (rdb s.1 !! lock_key l) → (∀ v t, rdb s.1 !! data_key l = Some (VString v) → stoi v ≠ Ok t) →
   ∃ what, lock now l s = Fault (Throw what)).
Proof.
  intros Hl H0. destruct (lock_cases now l s Hl H0) as [(s1 & E & H1 & H2)|[(v & t & s1 & Hv & Ht & E & Hd)|[what E]]];
    rewrite E; (split; [intros l1 s2; try done; intros [= <- <-]|intros Hheld Hval]).
  - by left.
  - rewrite H1 in Hheld. by destruct Hheld.
  - right. by exists v, t.
  - destruct (Hval v t Hv Ht).
  - by exists what.
Qed.

Lemma unlock_run (l : t) (s : R * CacheConn.t) :
  locked l = true →
  ∃ s', unlock l s = Ok ((0, set_locked l false), s') ∧
    CacheConn.m_pCachePool s'.2 = CacheConn.m_pCachePool s.2 ∧
    (rdb s'.1 = rdb s.1 ∨ rdb s'.1 = delete (lock_key l) (rdb s.1)).
Proof.
  intros Hl. unfold unlock. rewrite Hl.
  destruct (del_run (bytes_of (GetLockKey l)) s) as (v & s' & E & Hp & Hdb).
  rewrite (st_bind_run _ _ _ _ _ E). exists s'. done.
Qed.

Context {HA : HiredisReliable R}.

(** With a library that answers, a free lock is taken and given back. *)
Lemma lock_does (now : Z) (l : t) db :
  locked l = false → db !! lock_key l = None →
  does (lock now l) db (set_lockTimestamp (set_locked l true) (expiry now l))
    (<[lock_key l := VString (s_of (expiry now l))]> db).
Proof.
  intros Hl Hfree. unfold lock. cbv zeta. fold (expiry now l). eapply does_bind.
  - unfold tryLock. rewrite Hl. cbn [negb]. eapply does_bind; [by apply setnx_does|]. cbn. apply does_ret.
  - cbn [locked set_locked]. apply does_ret.
Qed.

(** A lock that another client holds, on a key that holds a time that is past: [lock]
    takes it as well, and the contents of the key are lost. *)
Lemma lock_broken (now : Z) (l : t) db x v t :
  locked l = false → x00 ∉ bytes_of (key l) → db !! lock_key l = Some x →
  db !! data_key l = Some (VString v) → stoi v = Ok t → u32 t < u32 now →
  does (lock now l) db (set_lockTimestamp (set_locked l true) t) (<[data_key l := VString (s_of (expiry now l))]> db).
Proof.
  intros Hl H0 Hx Hv Ht Hlt. apply Z.ltb_lt in Hlt. unfold lock. cbv zeta. fold (expiry now l).
  assert (∀ db, does (lift (stoi v)) db t db) as Hlift.
  { intros db' s Hs. exists s. unfold lift. by rewrite Ht. }
  eapply does_bind; [unfold tryLock; rewrite Hl; cbn [negb]; eapply does_bind; [|apply does_ret]|].
  { unfold CacheConn.setnx, CacheConn.arg. eapply (command_does _ _ _ (λ r, i32 (CacheConn.reply_integer r))). by eapply cmd_setnx_old. }
  cbn [CacheConn.reply_integer]. change (i32 0 =? 1) with false. cbv iota. rewrite Hl. eapply does_bind.
  { unfold CacheConn.get, CacheConn.arg. eapply (command_does _ _ _ (λ r, match r with ReplyString s => s | _ => [] end)), cmd_get. }
  fold (data_key l). rewrite Hv. cbv beta iota. eapply does_bind; [apply Hlift|]. rewrite Hlt.
  eapply does_bind; [eapply does_bind; [|eapply does_bind; [apply Hlift|apply does_ret]]|].
  { unfold CacheConn.getset, CacheConn.arg. rewrite (c_str_no_nul (bytes_of (dec _))) by apply dec_no_nul.
    exact (command_does _ _ _ CacheConn.reply_str db (ReplyString v) _ (cmd_getset _ _ _ _ Hv)). }
  rewrite Hlt. eapply does_bind; [apply Hlift|]. apply does_ret.
Qed.

Lemma unlock_does (l : t) db x :
  locked l = true → db !! lock_key l = Some x →
  does (unlock l) db (0, set_locked l false) (delete (lock_key l) db).
Proof.
  intros Hl Hx. unfold unlock. rewrite Hl. eapply does_bind; [by eapply del_does|]. apply does_ret.
Qed.
End Properties.

Import ToyRedis.
Definition toy_packet : (database * nat) * CacheConn.t :=
  ((<[bytes_of "hb" := VString (bytes_of "packet")]> ∅, 0%nat),
   CacheConn.make (CacheConn.Info "Master1" "127.0.0.1" 7001 0)).
Definition toy_locked : (database * nat) * CacheConn.t :=
  match RedisLock.lock 1559000000 (RedisLock.make "Master1" "hb" 50000) toy_packet with
  | Ok (_, s) => s
  | Fault _ => toy_packet
  end.

(** The second of two users who lock a red packet: with these bytes he is kept out. *)
Lemma lock_excludes_witness :
  ∃ what, RedisLock.lock 1559000001 (RedisLock.make "Master1" "hb" 50000) toy_locked = Fault (Throw what).
Proof.
  destruct (lock_excludes 1559000001 (RedisLock.make "Master1" "hb" 50000) toy_locked) as [_ H].
  - reflexivity.
  - by apply (bool_decide_unpack _).
  - apply H; [vm_compute; by eexists|]. intros v t Hv. vm_compute in Hv. injection Hv as <-. by vm_compute.
Defined.

(** A packet starts with the tag and the length of its sender's name.  When the name has
    ten characters and is a number, [stoi] skips both as white space, and the second
    client overwrites the packet. *)
Definition packet_of_a_number : list byte := [Init.Byte.x0a; Init.Byte.x0a] ++ bytes_of "1234567890" ++ [Init.Byte.x11].
Example lock_broken_packet :
  match RedisLock.lock 1559000001 (RedisLock.make "Master1" "hb" 50000)
    ((<[bytes_of "hb" := VString packet_of_a_number]> (<[bytes_of "hb_Lock" := VString (bytes_of "1559050001")]> ∅), 0%nat),
     CacheConn.make (CacheConn.Info "Master1" "127.0.0.1" 7001 0)) with
  | Ok (l, s) => RedisLock.locked l = true ∧ s.1.1 !! bytes_of "hb" = Some (VString (bytes_of "1559050002"))
  | Fault _ => False
  end.
Proof. vm_compute. split; reflexivity. Qed.
