(* ===== verification/IM.v ===== *)
(** * The messages of IM.proto

    One module per message type, with the getters and setters that the generated
    classes have (an unset field reads as its default).  The code that protobuf
    generates from IM.proto is a parameter: [IMWire] is the encoding of messages,
    [IMWireLaws] says that parsing an encoded message gives it back.  The protobuf
    runtime of ProtobufCodec.v is an instance over these messages. *)
From Stdlib Require Import SpecFloat.
From S2P Require Import Prelude Text ProtobufCodec.

#[export] Instance double_eq_dec : EqDecision double.
Proof. solve_decision. Defined.

Module Login.
Record t := mk {
  username_ : option string;
  password_ : option string;
  timestamp_ : option Z
}.
Definition empty : t := mk None None None.
Definition username (m : t) : string := default ""%string (username_ m).
Definition password (m : t) : string := default ""%string (password_ m).
Definition timestamp (m : t) : Z := default 0 (timestamp_ m).
Definition set_username (m : t) (v : string) : t :=
  mk (Some v) (password_ m) (timestamp_ m).
Definition set_password (m : t) (v : string) : t :=
  mk (username_ m) (Some v) (timestamp_ m).
Definition set_timestamp (m : t) (v : Z) : t :=
  mk (username_ m) (password_ m) (Some v).
End Login.

Module Register.
Record t := mk {
  username_ : option string;
  password_ : option string;
  mobile_ : option string;
  nickname_ : option string;
  sex_ : option Z;
  age_ : option Z;
  timestamp_ : option Z;
  sign_info_ : option string;
  email_ : option string
}.
Definition empty : t := mk None None None None None None None None None.
Definition username (m : t) : string := default ""%string (username_ m).
Definition password (m : t) : string := default ""%string (password_ m).
Definition mobile (m : t) : string := default ""%string (mobile_ m).
Definition nickname (m : t) : string := default ""%string (nickname_ m).
Definition sex (m : t) : Z := default 0 (sex_ m).
Definition age (m : t) : Z := default 0 (age_ m).
Definition timestamp (m : t) : Z := default 0 (timestamp_ m).
Definition sign_info (m : t) : string := default ""%string (sign_info_ m).
Definition email (m : t) : string := default ""%string (email_ m).
Definition set_username (m : t) (v : string) : t :=
  mk (Some v) (password_ m) (mobile_ m) (nickname_ m) (sex_ m) (age_ m) (timestamp_ m) (sign_info_ m) (email_ m).
Definition set_password (m : t) (v : string) : t :=
  mk (username_ m) (Some v) (mobile_ m) (nickname_ m) (sex_ m) (age_ m) (timestamp_ m) (sign_info_ m) (email_ m).
Definition set_mobile (m : t) (v : string) : t :=
  mk (username_ m) (password_ m) (Some v) (nickname_ m) (sex_ m) (age_ m) (timestamp_ m) (sign_info_ m) (email_ m).
Definition set_nickname (m : t) (v : string) : t :=
  mk (username_ m) (password_ m) (mobile_ m) (Some v) (sex_ m) (age_ m) (timestamp_ m) (sign_info_ m) (email_ m).
Definition set_sex (m : t) (v : Z) : t :=
  mk (username_ m) (password_ m) (mobile_ m) (nickname_ m) (Some v) (age_ m) (timestamp_ m) (sign_info_ m) (email_ m).
Definition set_age (m : t) (v : Z) : t :=
  mk (username_ m) (password_ m) (mobile_ m) (nickname_ m) (sex_ m) (Some v) (timestamp_ m) (sign_info_ m) (email_ m).
Definition set_timestamp (m : t) (v : Z) : t :=
  mk (username_ m) (password_ m) (mobile_ m) (nickname_ m) (sex_ m) (age_ m) (Some v) (sign_info_ m) (email_ m).
Definition set_sign_info (m : t) (v : string) : t :=
  mk (username_ m) (password_ m) (mobile_ m) (nickname_ m) (sex_ m) (age_ m) (timestamp_ m) (Some v) (email_ m).
Definition set_email (m : t) (v : string) : t :=
  mk (username_ m) (password_ m) (mobile_ m) (nickname_ m) (sex_ m) (age_ m) (timestamp_ m) (sign_info_ m) (Some v).
End Register.

Module Hongbaoreq.
Record t := mk {
  sender_ : option string;
  money_ : option double;
  category_ : option Z;
  count_ : option Z;
  receiver_ : option string;
  timestamp_ : option Z
}.
Definition empty : t := mk None None None None None None.
Definition sender (m : t) : string := default ""%string (sender_ m).
Definition money (m : t) : double := default (d_of_Z 0) (money_ m).
Definition category (m : t) : Z := default 0 (category_ m).
Definition count (m : t) : Z := default 0 (count_ m).
Definition receiver (m : t) : string := default ""%string (receiver_ m).
Definition timestamp (m : t) : Z := default 0 (timestamp_ m).
Definition set_sender (m : t) (v : string) : t :=
  mk (Some v) (money_ m) (category_ m) (count_ m) (receiver_ m) (timestamp_ m).
Definition set_money (m : t) (v : double) : t :=
  mk (sender_ m) (Some v) (category_ m) (count_ m) (receiver_ m) (timestamp_ m).
Definition set_category (m : t) (v : Z) : t :=
  mk (sender_ m) (money_ m) (Some v) (count_ m) (receiver_ m) (timestamp_ m).
Definition set_count (m : t) (v : Z) : t :=
  mk (sender_ m) (money_ m) (category_ m) (Some v) (receiver_ m) (timestamp_ m).
Definition set_receiver (m : t) (v : string) : t :=
  mk (sender_ m) (money_ m) (category_ m) (count_ m) (Some v) (timestamp_ m).
Definition set_timestamp (m : t) (v : Z) : t :=
  mk (sender_ m) (money_ m) (category_ m) (count_ m) (receiver_ m) (Some v).
End Hongbaoreq.

Module HongbaoResp.
Record t := mk {
  hongbaokey_ : option string;
  sender_ : option string;
  isok_ : option bool;
  description_ : option string
}.
Definition empty : t := mk None None None None.
Definition hongbaokey (m : t) : string := default ""%string (hongbaokey_ m).
Definition sender (m : t) : string := default ""%string (sender_ m).
Definition isok (m : t) : bool := default false (isok_ m).
Definition description (m : t) : string := default ""%string (description_ m).
Definition set_hongbaokey (m : t) (v : string) : t :=
  mk (Some v) (sender_ m) (isok_ m) (description_ m).
Definition set_sender (m : t) (v : string) : t :=
  mk (hongbaokey_ m) (Some v) (isok_ m) (description_ m).
Definition set_isok (m : t) (v : bool) : t :=
  mk (hongbaokey_ m) (sender_ m) (Some v) (description_ m).
Definition set_description (m : t) (v : string) : t :=
  mk (hongbaokey_ m) (sender_ m) (isok_ m) (Some v).
End HongbaoResp.

Module ReqRobHongbao.
Record t := mk {
  hongbaokey_ : option string;
  sender_ : option string;
  selfname_ : option string
}.
Definition empty : t := mk None None None.
Definition hongbaokey (m : t) : string := default ""%string (hongbaokey_ m).
Definition sender (m : t) : string := default ""%string (sender_ m).
Definition selfname (m : t) : string := default ""%string (selfname_ m).
Definition set_hongbaokey (m : t) (v : string) : t :=
  mk (Some v) (sender_ m) (selfname_ m).
Definition set_sender (m : t) (v : string) : t :=
  mk (hongbaokey_ m) (Some v) (selfname_ m).
Definition set_selfname (m : t) (v : string) : t :=
  mk (hongbaokey_ m) (sender_ m) (Some v).
End ReqRobHongbao.

Module RespRobHongbao.
Record t := mk {
  hongbaokey_ : option string;
  sender_ : option string;
  robmoney_ : option double;
  totalcount_ : option Z;
  leftcount_ : option Z;
  isok_ : option bool;
  description_ : option string
}.
Definition empty : t := mk None None None None None None None.
Definition hongbaokey (m : t) : string := default ""%string (hongbaokey_ m).
Definition sender (m : t) : string := default ""%string (sender_ m).
Definition robmoney (m : t) : double := default (d_of_Z 0) (robmoney_ m).
Definition totalcount (m : t) : Z := default 0 (totalcount_ m).
Definition leftcount (m : t) : Z := default 0 (leftcount_ m).
Definition isok (m : t) : bool := default false (isok_ m).
Definition description (m : t) : string := default ""%string (description_ m).
Definition set_hongbaokey (m : t) (v : string) : t :=
  mk (Some v) (sender_ m) (robmoney_ m) (totalcount_ m) (leftcount_ m) (isok_ m) (description_ m).
Definition set_sender (m : t) (v : string) : t :=
  mk (hongbaokey_ m) (Some v) (robmoney_ m) (totalcount_ m) (leftcount_ m) (isok_ m) (description_ m).
Definition set_robmoney (m : t) (v : double) : t :=
  mk (hongbaokey_ m) (sender_ m) (Some v) (totalcount_ m) (leftcount_ m) (isok_ m) (description_ m).
Definition set_totalcount (m : t) (v : Z) : t :=
  mk (hongbaokey_ m) (sender_ m) (robmoney_ m) (Some v) (leftcount_ m) (isok_ m) (description_ m).
Definition set_leftcount (m : t) (v : Z) : t :=
  mk (hongbaokey_ m) (sender_ m) (robmoney_ m) (totalcount_ m) (Some v) (isok_ m) (description_ m).
Definition set_isok (m : t) (v : bool) : t :=
  mk (hongbaokey_ m) (sender_ m) (robmoney_ m) (totalcount_ m) (leftcount_ m) (Some v) (description_ m).
Definition set_description (m : t) (v : string) : t :=
  mk (hongbaokey_ m) (sender_ m) (robmoney_ m) (totalcount_ m) (leftcount_ m) (isok_ m) (Some v).
End RespRobHongbao.

Module SingleChat.
Record t := mk {
  receiver_ : option string;
  sender_ : option string;
  type_ : option Z;
  message_ : option string;
  hbreq_ : option Hongbaoreq.t;
  hbrsp_ : option HongbaoResp.t;
  robhbreq_ : option ReqRobHongbao.t;
  robhbrsp_ : option RespRobHongbao.t;
  timestamp_ : option Z
}.
Definition empty : t := mk None None None None None None None None None.
Definition receiver (m : t) : string := default ""%string (receiver_ m).
Definition sender (m : t) : string := default ""%string (sender_ m).
Definition type (m : t) : Z := default 0 (type_ m).
Definition message (m : t) : string := default ""%string (message_ m).
Definition hbreq (m : t) : Hongbaoreq.t := default Hongbaoreq.empty (hbreq_ m).
Definition hbrsp (m : t) : HongbaoResp.t := default HongbaoResp.empty (hbrsp_ m).
Definition robhbreq (m : t) : ReqRobHongbao.t := default ReqRobHongbao.empty (robhbreq_ m).
Definition robhbrsp (m : t) : RespRobHongbao.t := default RespRobHongbao.empty (robhbrsp_ m).
Definition timestamp (m : t) : Z := default 0 (timestamp_ m).
Definition set_receiver (m : t) (v : string) : t :=
  mk (Some v) (sender_ m) (type_ m) (message_ m) (hbreq_ m) (hbrsp_ m) (robhbreq_ m) (robhbrsp_ m) (timestamp_ m).
Definition set_sender (m : t) (v : string) : t :=
  mk (receiver_ m) (Some v) (type_ m) (message_ m) (hbreq_ m) (hbrsp_ m) (robhbreq_ m) (robhbrsp_ m) (timestamp_ m).
Definition set_type (m : t) (v : Z) : t :=
  mk (receiver_ m) (sender_ m) (Some v) (message_ m) (hbreq_ m) (hbrsp_ m) (robhbreq_ m) (robhbrsp_ m) (timestamp_ m).
Definition set_message (m : t) (v : string) : t :=
  mk (receiver_ m) (sender_ m) (type_ m) (Some v) (hbreq_ m) (hbrsp_ m) (robhbreq_ m) (robhbrsp_ m) (timestamp_ m).
Definition set_hbreq (m : t) (v : Hongbaoreq.t) : t :=
  mk (receiver_ m) (sender_ m) (type_ m) (message_ m) (Some v) (hbrsp_ m) (robhbreq_ m) (robhbrsp_ m) (timestamp_ m).
Definition set_hbrsp (m : t) (v : HongbaoResp.t) : t :=
  mk (receiver_ m) (sender_ m) (type_ m) (message_ m) (hbreq_ m) (Some v) (robhbreq_ m) (robhbrsp_ m) (timestamp_ m).
Definition set_robhbreq (m : t) (v : ReqRobHongbao.t) : t :=
  mk (receiver_ m) (sender_ m) (type_ m) (message_ m) (hbreq_ m) (hbrsp_ m) (Some v) (robhbrsp_ m) (timestamp_ m).
Definition set_robhbrsp (m : t) (v : RespRobHongbao.t) : t :=
  mk (receiver_ m) (sender_ m) (type_ m) (message_ m) (hbreq_ m) (hbrsp_ m) (robhbreq_ m) (Some v) (timestamp_ m).
Definition set_timestamp (m : t) (v : Z) : t :=
  mk (receiver_ m) (sender_ m) (type_ m) (message_ m) (hbreq_ m) (hbrsp_ m) (robhbreq_ m) (robhbrsp_ m) (Some v).
End SingleChat.

Module GroupChat.
Record t := mk {
  groupid_ : option string;
  sender_ : option string;
  message_ : option string;
  timestamp_ : option Z
}.
Definition empty : t := mk None None None None.
Definition groupid (m : t) : string := default ""%string (groupid_ m).
Definition sender (m : t) : string := default ""%string (sender_ m).
Definition message (m : t) : string := default ""%string (message_ m).
Definition timestamp (m : t) : Z := default 0 (timestamp_ m).
Definition set_groupid (m : t) (v : string) : t :=
  mk (Some v) (sender_ m) (message_ m) (timestamp_ m).
Definition set_sender (m : t) (v : string) : t :=
  mk (groupid_ m) (Some v) (message_ m) (timestamp_ m).
Definition set_message (m : t) (v : string) : t :=
  mk (groupid_ m) (sender_ m) (Some v) (timestamp_ m).
Definition set_timestamp (m : t) (v : Z) : t :=
  mk (groupid_ m) (sender_ m) (message_ m) (Some v).
End GroupChat.

Module AddFriend.
Record t := mk {
  receiver_ : option string;
  sender_ : option string;
  message_ : option string;
  timestamp_ : option Z
}.
Definition empty : t := mk None None None None.
Definition receiver (m : t) : string := default ""%string (receiver_ m).
Definition sender (m : t) : string := default ""%string (sender_ m).
Definition message (m : t) : string := default ""%string (message_ m).
Definition timestamp (m : t) : Z := default 0 (timestamp_ m).
Definition set_receiver (m : t) (v : string) : t :=
  mk (Some v) (sender_ m) (message_ m) (timestamp_ m).
Definition set_sender (m : t) (v : string) : t :=
  mk (receiver_ m) (Some v) (message_ m) (timestamp_ m).
Definition set_message (m : t) (v : string) : t :=
  mk (receiver_ m) (sender_ m) (Some v) (timestamp_ m).
Definition set_timestamp (m : t) (v : Z) : t :=
  mk (receiver_ m) (sender_ m) (message_ m) (Some v).
End AddFriend.

Module GetFriendInfo.
Record t := mk {
  sender_ : option string;
  friend_ : option string;
  timestamp_ : option Z
}.
Definition empty : t := mk None None None.
Definition sender (m : t) : string := default ""%string (sender_ m).
Definition friend (m : t) : string := default ""%string (friend_ m).
Definition timestamp (m : t) : Z := default 0 (timestamp_ m).
Definition set_sender (m : t) (v : string) : t :=
  mk (Some v) (friend_ m) (timestamp_ m).
Definition set_friend (m : t) (v : string) : t :=
  mk (sender_ m) (Some v) (timestamp_ m).
Definition set_timestamp (m : t) (v : Z) : t :=
  mk (sender_ m) (friend_ m) (Some v).
End GetFriendInfo.

Module FriendInfo.
Record t := mk {
  mobile_ : option string;
  nickname_ : option string;
  sex_ : option string;
  age_ : option Z;
  timestamp_ : option Z
}.
Definition empty : t := mk None None None None None.
Definition mobile (m : t) : string := default ""%string (mobile_ m).
Definition nickname (m : t) : string := default ""%string (nickname_ m).
Definition sex (m : t) : string := default ""%string (sex_ m).
Definition age (m : t) : Z := default 0 (age_ m).
Definition timestamp (m : t) : Z := default 0 (timestamp_ m).
Definition set_mobile (m : t) (v : string) : t :=
  mk (Some v) (nickname_ m) (sex_ m) (age_ m) (timestamp_ m).
Definition set_nickname (m : t) (v : string) : t :=
  mk (mobile_ m) (Some v) (sex_ m) (age_ m) (timestamp_ m).
Definition set_sex (m : t) (v : string) : t :=
  mk (mobile_ m) (nickname_ m) (Some v) (age_ m) (timestamp_ m).
Definition set_age (m : t) (v : Z) : t :=
  mk (mobile_ m) (nickname_ m) (sex_ m) (Some v) (timestamp_ m).
Definition set_timestamp (m : t) (v : Z) : t :=
  mk (mobile_ m) (nickname_ m) (sex_ m) (age_ m) (Some v).
End FriendInfo.

Module FriendList.
Record t := mk {
  friendlist_ : list FriendInfo.t;
  timestamp_ : option Z
}.
Definition empty : t := mk [] None.
Definition friendlist (m : t) : list FriendInfo.t := friendlist_ m.
Definition timestamp (m : t) : Z := default 0 (timestamp_ m).
Definition add_friendlist (m : t) (v : FriendInfo.t) : t :=
  mk (friendlist_ m ++ [v]) (timestamp_ m).
Definition set_timestamp (m : t) (v : Z) : t :=
  mk (friendlist_ m) (Some v).
End FriendList.

Module Response.
Record t := mk {
  result_ : option bool;
  description_ : option string
}.
Definition empty : t := mk None None.
Definition result (m : t) : bool := default false (result_ m).
Definition description (m : t) : string := default ""%string (description_ m).
Definition set_result (m : t) (v : bool) : t :=
  mk (Some v) (description_ m).
Definition set_description (m : t) (v : string) : t :=
  mk (result_ m) (Some v).
End Response.

Module UserInfo.
Record t := mk {
  id_ : option Z;
  sex_ : option Z;
  age_ : option Z;
  name_ : option string;
  nick_ : option string;
  phone_ : option string;
  email_ : option string;
  createtime_ : option Z;
  updatetime_ : option Z;
  sign_info_ : option string;
  money_ : option double
}.
Definition empty : t := mk None None None None None None None None None None None.
Definition id (m : t) : Z := default 0 (id_ m).
Definition sex (m : t) : Z := default 0 (sex_ m).
Definition age (m : t) : Z := default 0 (age_ m).
Definition name (m : t) : string := default ""%string (name_ m).
Definition nick (m : t) : string := default ""%string (nick_ m).
Definition phone (m : t) : string := default ""%string (phone_ m).
Definition email (m : t) : string := default ""%string (email_ m).
Definition createtime (m : t) : Z := default 0 (createtime_ m).
Definition updatetime (m : t) : Z := default 0 (updatetime_ m).
Definition sign_info (m : t) : string := default ""%string (sign_info_ m).
Definition money (m : t) : double := default (d_of_Z 0) (money_ m).
Definition set_id (m : t) (v : Z) : t :=
  mk (Some v) (sex_ m) (age_ m) (name_ m) (nick_ m) (phone_ m) (email_ m) (createtime_ m) (updatetime_ m) (sign_info_ m) (money_ m).
Definition set_sex (m : t) (v : Z) : t :=
  mk (id_ m) (Some v) (age_ m) (name_ m) (nick_ m) (phone_ m) (email_ m) (createtime_ m) (updatetime_ m) (sign_info_ m) (money_ m).
Definition set_age (m : t) (v : Z) : t :=
  mk (id_ m) (sex_ m) (Some v) (name_ m) (nick_ m) (phone_ m) (email_ m) (createtime_ m) (updatetime_ m) (sign_info_ m) (money_ m).
Definition set_name (m : t) (v : string) : t :=
  mk (id_ m) (sex_ m) (age_ m) (Some v) (nick_ m) (phone_ m) (email_ m) (createtime_ m) (updatetime_ m) (sign_info_ m) (money_ m).
Definition set_nick (m : t) (v : string) : t :=
  mk (id_ m) (sex_ m) (age_ m) (name_ m) (Some v) (phone_ m) (email_ m) (createtime_ m) (updatetime_ m) (sign_info_ m) (money_ m).
Definition set_phone (m : t) (v : string) : t :=
  mk (id_ m) (sex_ m) (age_ m) (name_ m) (nick_ m) (Some v) (email_ m) (createtime_ m) (updatetime_ m) (sign_info_ m) (money_ m).
Definition set_email (m : t) (v : string) : t :=
  mk (id_ m) (sex_ m) (age_ m) (name_ m) (nick_ m) (phone_ m) (Some v) (createtime_ m) (updatetime_ m) (sign_info_ m) (money_ m).
Definition set_createtime (m : t) (v : Z) : t :=
  mk (id_ m) (sex_ m) (age_ m) (name_ m) (nick_ m) (phone_ m) (email_ m) (Some v) (updatetime_ m) (sign_info_ m) (money_ m).
Definition set_updatetime (m : t) (v : Z) : t :=
  mk (id_ m) (sex_ m) (age_ m) (name_ m) (nick_ m) (phone_ m) (email_ m) (createtime_ m) (Some v) (sign_info_ m) (money_ m).
Definition set_sign_info (m : t) (v : string) : t :=
  mk (id_ m) (sex_ m) (age_ m) (name_ m) (nick_ m) (phone_ m) (email_ m) (createtime_ m) (updatetime_ m) (Some v) (money_ m).
Definition set_money (m : t) (v : double) : t :=
  mk (id_ m) (sex_ m) (age_ m) (name_ m) (nick_ m) (phone_ m) (email_ m) (createtime_ m) (updatetime_ m) (sign_info_ m) (Some v).
End UserInfo.

Module Session.
Record t := mk {
  islogin_ : option bool;
  hashkey_ : option Z;
  ip_ : option string;
  redisname_ : option string;
  userinfo_ : option UserInfo.t
}.
Definition empty : t := mk None None None None None.
Definition islogin (m : t) : bool := default false (islogin_ m).
Definition hashkey (m : t) : Z := default 0 (hashkey_ m).
Definition ip (m : t) : string := default ""%string (ip_ m).
Definition redisname (m : t) : string := default ""%string (redisname_ m).
Definition userinfo (m : t) : UserInfo.t := default UserInfo.empty (userinfo_ m).
Definition set_islogin (m : t) (v : bool) : t :=
  mk (Some v) (hashkey_ m) (ip_ m) (redisname_ m) (userinfo_ m).
Definition set_hashkey (m : t) (v : Z) : t :=
  mk (islogin_ m) (Some v) (ip_ m) (redisname_ m) (userinfo_ m).
Definition set_ip (m : t) (v : string) : t :=
  mk (islogin_ m) (hashkey_ m) (Some v) (redisname_ m) (userinfo_ m).
Definition set_redisname (m : t) (v : string) : t :=
  mk (islogin_ m) (hashkey_ m) (ip_ m) (Some v) (userinfo_ m).
Definition set_userinfo (m : t) (v : UserInfo.t) : t :=
  mk (islogin_ m) (hashkey_ m) (ip_ m) (redisname_ m) (Some v).
End Session.

Module RobLog.
Record t := mk {
  name_ : option string;
  money_ : option double;
  time_ : option Z
}.
Definition empty : t := mk None None None.
Definition name (m : t) : string := default ""%string (name_ m).
Definition money (m : t) : double := default (d_of_Z 0) (money_ m).
Definition time (m : t) : Z := default 0 (time_ m).
Definition set_name (m : t) (v : string) : t :=
  mk (Some v) (money_ m) (time_ m).
Definition set_money (m : t) (v : double) : t :=
  mk (name_ m) (Some v) (time_ m).
Definition set_time (m : t) (v : Z) : t :=
  mk (name_ m) (money_ m) (Some v).
End RobLog.

Module SendHongbao.
Record t := mk {
  sender_ : option string;
  money_ : option double;
  leftmoney_ : option double;
  category_ : option Z;
  count_ : option Z;
  leftcount_ : option Z;
  receiver_ : option string;
  robitem_ : list RobLog.t;
  timestamp_ : option Z
}.
Definition empty : t := mk None None None None None None None [] None.
Definition sender (m : t) : string := default ""%string (sender_ m).
Definition money (m : t) : double := default (d_of_Z 0) (money_ m).
Definition leftmoney (m : t) : double := default (d_of_Z 0) (leftmoney_ m).
Definition category (m : t) : Z := default 0 (category_ m).
Definition count (m : t) : Z := default 0 (count_ m).
Definition leftcount (m : t) : Z := default 0 (leftcount_ m).
Definition receiver (m : t) : string := default ""%string (receiver_ m).
Definition robitem (m : t) : list RobLog.t := robitem_ m.
Definition timestamp (m : t) : Z := default 0 (timestamp_ m).
Definition set_sender (m : t) (v : string) : t :=
  mk (Some v) (money_ m) (leftmoney_ m) (category_ m) (count_ m) (leftcount_ m) (receiver_ m) (robitem_ m) (timestamp_ m).
Definition set_money (m : t) (v : double) : t :=
  mk (sender_ m) (Some v) (leftmoney_ m) (category_ m) (count_ m) (leftcount_ m) (receiver_ m) (robitem_ m) (timestamp_ m).
Definition set_leftmoney (m : t) (v : double) : t :=
  mk (sender_ m) (money_ m) (Some v) (category_ m) (count_ m) (leftcount_ m) (receiver_ m) (robitem_ m) (timestamp_ m).
Definition set_category (m : t) (v : Z) : t :=
  mk (sender_ m) (money_ m) (leftmoney_ m) (Some v) (count_ m) (leftcount_ m) (receiver_ m) (robitem_ m) (timestamp_ m).
Definition set_count (m : t) (v : Z) : t :=
  mk (sender_ m) (money_ m) (leftmoney_ m) (category_ m) (Some v) (leftcount_ m) (receiver_ m) (robitem_ m) (timestamp_ m).
Definition set_leftcount (m : t) (v : Z) : t :=
  mk (sender_ m) (money_ m) (leftmoney_ m) (category_ m) (count_ m) (Some v) (receiver_ m) (robitem_ m) (timestamp_ m).
Definition set_receiver (m : t) (v : string) : t :=
  mk (sender_ m) (money_ m) (leftmoney_ m) (category_ m) (count_ m) (leftcount_ m) (Some v) (robitem_ m) (timestamp_ m).
Definition add_robitem (m : t) (v : RobLog.t) : t :=
  mk (sender_ m) (money_ m) (leftmoney_ m) (category_ m) (count_ m) (leftcount_ m) (receiver_ m) (robitem_ m ++ [v]) (timestamp_ m).
Definition set_timestamp (m : t) (v : Z) : t :=
  mk (sender_ m) (money_ m) (leftmoney_ m) (category_ m) (count_ m) (leftcount_ m) (receiver_ m) (robitem_ m) (Some v).
End SendHongbao.

(** ** Messages of any type *)

Inductive im_message :=
  | MLogin (m : Login.t)
  | MRegister (m : Register.t)
  | MHongbaoreq (m : Hongbaoreq.t)
  | MHongbaoResp (m : HongbaoResp.t)
  | MReqRobHongbao (m : ReqRobHongbao.t)
  | MRespRobHongbao (m : RespRobHongbao.t)
  | MSingleChat (m : SingleChat.t)
  | MGroupChat (m : GroupChat.t)
  | MAddFriend (m : AddFriend.t)
  | MGetFriendInfo (m : GetFriendInfo.t)
  | MFriendInfo (m : FriendInfo.t)
  | MFriendList (m : FriendList.t)
  | MResponse (m : Response.t)
  | MUserInfo (m : UserInfo.t)
  | MSession (m : Session.t)
  | MRobLog (m : RobLog.t)
  | MSendHongbao (m : SendHongbao.t).

Inductive im_type :=
  | TLogin
  | TRegister
  | THongbaoreq
  | THongbaoResp
  | TReqRobHongbao
  | TRespRobHongbao
  | TSingleChat
  | TGroupChat
  | TAddFriend
  | TGetFriendInfo
  | TFriendInfo
  | TFriendList
  | TResponse
  | TUserInfo
  | TSession
  | TRobLog
  | TSendHongbao.

#[export] Instance im_type_eq_dec : EqDecision im_type.
Proof. solve_decision. Defined.

Definition type_of (m : im_message) : im_type :=
  match m with
  | MLogin _ => TLogin
  | MRegister _ => TRegister
  | MHongbaoreq _ => THongbaoreq
  | MHongbaoResp _ => THongbaoResp
  | MReqRobHongbao _ => TReqRobHongbao
  | MRespRobHongbao _ => TRespRobHongbao
  | MSingleChat _ => TSingleChat
  | MGroupChat _ => TGroupChat
  | MAddFriend _ => TAddFriend
  | MGetFriendInfo _ => TGetFriendInfo
  | MFriendInfo _ => TFriendInfo
  | MFriendList _ => TFriendList
  | MResponse _ => TResponse
  | MUserInfo _ => TUserInfo
  | MSession _ => TSession
  | MRobLog _ => TRobLog
  | MSendHongbao _ => TSendHongbao
  end.

Definition empty_of (t : im_type) : im_message :=
  match t with
  | TLogin => MLogin Login.empty
  | TRegister => MRegister Register.empty
  | THongbaoreq => MHongbaoreq Hongbaoreq.empty
  | THongbaoResp => MHongbaoResp HongbaoResp.empty
  | TReqRobHongbao => MReqRobHongbao ReqRobHongbao.empty
  | TRespRobHongbao => MRespRobHongbao RespRobHongbao.empty
  | TSingleChat => MSingleChat SingleChat.empty
  | TGroupChat => MGroupChat GroupChat.empty
  | TAddFriend => MAddFriend AddFriend.empty
  | TGetFriendInfo => MGetFriendInfo GetFriendInfo.empty
  | TFriendInfo => MFriendInfo FriendInfo.empty
  | TFriendList => MFriendList FriendList.empty
  | TResponse => MResponse Response.empty
  | TUserInfo => MUserInfo UserInfo.empty
  | TSession => MSession Session.empty
  | TRobLog => MRobLog RobLog.empty
  | TSendHongbao => MSendHongbao SendHongbao.empty
  end.

Definition type_name (t : im_type) : string :=
  match t with
  | TLogin => "IM.Login"
  | TRegister => "IM.Register"
  | THongbaoreq => "IM.Hongbaoreq"
  | THongbaoResp => "IM.HongbaoResp"
  | TReqRobHongbao => "IM.ReqRobHongbao"
  | TRespRobHongbao => "IM.RespRobHongbao"
  | TSingleChat => "IM.SingleChat"
  | TGroupChat => "IM.GroupChat"
  | TAddFriend => "IM.AddFriend"
  | TGetFriendInfo => "IM.GetFriendInfo"
  | TFriendInfo => "IM.FriendInfo"
  | TFriendList => "IM.FriendList"
  | TResponse => "IM.Response"
  | TUserInfo => "IM.UserInfo"
  | TSession => "IM.Session"
  | TRobLog => "IM.RobLog"
  | TSendHongbao => "IM.SendHongbao"
  end.

Definition im_types : list im_type :=
  [TLogin; TRegister; THongbaoreq; THongbaoResp; TReqRobHongbao; TRespRobHongbao;
   TSingleChat; TGroupChat; TAddFriend; TGetFriendInfo; TFriendInfo; TFriendList; TResponse;
   TUserInfo; TSession; TRobLog; TSendHongbao].

(** The object behind a pointer of a known type. *)
Definition as_SingleChat (m : im_message) : SingleChat.t :=
  match m with MSingleChat x => x | _ => SingleChat.empty end.
Definition as_Session (m : im_message) : Session.t :=
  match m with MSession x => x | _ => Session.empty end.
Definition as_UserInfo (m : im_message) : UserInfo.t :=
  match m with MUserInfo x => x | _ => UserInfo.empty end.
Definition as_SendHongbao (m : im_message) : SendHongbao.t :=
  match m with MSendHongbao x => x | _ => SendHongbao.empty end.

(** The wire format of the generated classes. *)
Class IMWire := {
  wire : im_message → list byte;
  unwire : im_message → list byte → bool * im_message
}.

Class IMWireLaws (W : IMWire) : Prop := {
  unwire_wire m : unwire (empty_of (type_of m)) (wire m) = (true, m);
  unwire_type o d : type_of (unwire o d).2 = type_of o
}.

Fixpoint find_type (n : list byte) (l : list im_type) : option im_type :=
  match l with
  | [] => None
  | t :: l' => if decide (n = bytes_of (type_name t)) then Some t else find_type n l'
  end.

#[export] Instance IM_protobuf `{W : IMWire} : Protobuf := {
  Message := im_message;
  Descriptor := im_type;
  GetTypeName m := bytes_of (type_name (type_of m));
  GetDescriptor := type_of;
  FindMessageTypeByName n := find_type n im_types;
  GetPrototype t := Some (empty_of t);
  New m := empty_of (type_of m);
  ByteSize m := zlen (wire m);
  SerializeWithCachedSizesToArray := wire;
  ParseFromArray := unwire
}.

Lemma find_type_name t : find_type (bytes_of (type_name t)) im_types = Some t.
Proof. by destruct t. Qed.

Lemma type_of_empty t : type_of (empty_of t) = t.
Proof. by destruct t. Qed.

#[export] Instance IM_protobuf_laws `{W : IMWire, !IMWireLaws W} : ProtobufLaws IM_protobuf.
Proof.
  split.
  - done.
  - intros m. cbn. rewrite slen_bytes_of. by destruct m.
  - intros m. exists (empty_of (type_of m)). split; [apply find_type_name|]. split; [done|].
    cbn. rewrite type_of_empty. apply unwire_wire.
Qed.

(** ** A wire format for concrete runs

    Every value is written with the characters ['0'], ['1'], [','] and [';'] only, so
    that what is stored contains neither a NUL nor a tilde. *)
Module ToyWire.

Class Codec (A : Type) := {
  encode : A → list byte;
  decode : list byte → option (A * list byte)
}.

Definition b0 : byte := Init.Byte.x30.
Definition b1 : byte := Init.Byte.x31.
Definition bcomma : byte := Init.Byte.x2c.
Definition bsemi : byte := Init.Byte.x3b.

Definition plain (l : list byte) : Prop := Forall (λ b, b ∈ [b0; b1; bcomma; bsemi]) l.

Class CodecLaws (A : Type) (C : Codec A) : Prop := {
  decode_encode a rest : decode (encode a ++ rest) = Some (a, rest);
  encode_plain a : plain (encode a)
}.

Section Iso.
Context {A B : Type} {C : Codec B} {CL : CodecLaws B C}.
Definition codec_iso (f : A → B) (g : B → A) : Codec A := {|
  encode a := encode (f a);
  decode l := '(b, rest) ← decode l; Some (g b, rest)
|}.
Lemma codec_iso_laws (f : A → B) (g : B → A) : (∀ a, g (f a) = a) → CodecLaws A (codec_iso f g).
Proof.
  intros Hgf. split; cbn.
  - intros a rest. rewrite decode_encode. cbn. by rewrite Hgf.
  - intros a. apply encode_plain.
Qed.
End Iso.

(** Positive numbers in binary, the least significant digit first. *)
Fixpoint enc_pos (p : positive) : list byte :=
  match p with
  | xH => [bcomma]
  | xO p => b0 :: enc_pos p
  | xI p => b1 :: enc_pos p
  end.
Fixpoint dec_pos (l : list byte) : option (positive * list byte) :=
  match l with
  | [] => None
  | b :: l' =>
      if decide (b = bcomma) then Some (xH, l')
      else '(p, rest) ← dec_pos l'; Some (if decide (b = b0) then xO p else xI p, rest)
  end.

#[export] Instance pos_codec : Codec positive := { encode := enc_pos; decode := dec_pos }.
#[export] Instance pos_codec_laws : CodecLaws positive pos_codec.
Proof.
  split; intros p; cbn.
  - intros rest. induction p as [p IH|p IH|]; cbn; [by rewrite IH..|done].
  - induction p; cbn; constructor; try done; set_solver.
Qed.

#[export] Instance unit_codec : Codec unit := { encode _ := [bsemi]; decode l := Some (tt, tail l) }.
#[export] Instance unit_codec_laws : CodecLaws unit unit_codec.
Proof. split; [by intros []|]. intros []. constructor; [set_solver|constructor]. Qed.

Section Sums.
Context {A B : Type} {CA : Codec A} {CB : Codec B} {LA : CodecLaws A CA} {LB : CodecLaws B CB}.
#[export] Instance sum_codec : Codec (A + B) := {
  encode x := match x with inl a => b0 :: encode a | inr b => b1 :: encode b end;
  decode l := match l with
              | [] => None
              | b :: l' => if decide (b = b0) then '(a, rest) ← decode l'; Some (inl a, rest)
                           else '(x, rest) ← decode l'; Some (inr x, rest)
              end
}.
#[export] Instance sum_codec_laws : CodecLaws (A + B) sum_codec.
Proof.
  split.
  - intros [a|b] rest; cbn; by rewrite decode_encode.
  - intros [a|b]; cbn; constructor; try apply encode_plain; set_solver.
Qed.
#[export] Instance prod_codec : Codec (A * B) := {
  encode x := encode x.1 ++ encode x.2;
  decode l := '(a, l1) ← decode l; '(b, l2) ← decode l1; Some ((a, b), l2)
}.
#[export] Instance prod_codec_laws : CodecLaws (A * B) prod_codec.
Proof.
  split.
  - intros [a b] rest. cbn [encode decode prod_codec fst snd].
    rewrite <-app_assoc, decode_encode. cbn [mbind option_bind]. by rewrite decode_encode.
  - intros [a b]. apply Forall_app. split; apply encode_plain.
Qed.
End Sums.

#[export] Instance option_codec {A} `{Codec A} : Codec (option A) :=
  codec_iso (λ o, match o with Some a => inl a | None => inr tt end)
            (λ x, match x with inl a => Some a | inr _ => None end).
#[export] Instance option_codec_laws {A} {C : Codec A} {CL : CodecLaws A C} : CodecLaws (option A) option_codec.
Proof. apply codec_iso_laws. by intros []. Qed.

#[export] Instance Z_codec : Codec Z :=
  codec_iso (λ z, match z with Z0 => inl tt | Zpos p => inr (inl p) | Zneg p => inr (inr p) end)
            (λ x, match x with inl _ => 0 | inr (inl p) => Zpos p | inr (inr p) => Zneg p end).
#[export] Instance Z_codec_laws : CodecLaws Z Z_codec.
Proof. apply codec_iso_laws. by intros []. Qed.

#[export] Instance bool_codec : Codec bool :=
  codec_iso (λ b : bool, if b then inl tt else inr tt) (λ x, match x with inl _ => true | inr _ => false end).
#[export] Instance bool_codec_laws : CodecLaws bool bool_codec.
Proof. apply codec_iso_laws. by intros []. Qed.

Definition list_decode {A} `{Codec A} : nat → list byte → option (list A * list byte) :=
  fix go n l :=
    match n with
    | O => Some ([], l)
    | S n' => '(a, l1) ← decode l; '(r, l2) ← go n' l1; Some (a :: r, l2)
    end.

#[export] Instance list_codec {A} `{Codec A} : Codec (list A) := {
  encode l := encode (Z.of_nat (length l)) ++ concat (map encode l);
  decode l := '(n, l1) ← decode (A := Z) l; list_decode (Z.to_nat n) l1
}.
#[export] Instance list_codec_laws {A} {C : Codec A} {CL : CodecLaws A C} : CodecLaws (list A) list_codec.
Proof.
  split.
  - intros l rest. cbn [decode encode list_codec]. rewrite <-app_assoc, decode_encode. cbn [mbind option_bind].
    rewrite Nat2Z.id. induction l as [|a l IH]; cbn; [done|].
    rewrite <-app_assoc, decode_encode. cbn. by rewrite IH.
  - intros l. apply Forall_app. split; [apply encode_plain|].
    induction l as [|a l IH]; cbn; [constructor|]. apply Forall_app. split; [apply encode_plain|done].
Qed.

#[export] Instance string_codec : Codec string :=
  codec_iso (λ s, map Z_of_byte (bytes_of s)) (λ l, string_of (map byte_of_Z l)).
#[export] Instance string_codec_laws : CodecLaws string string_codec.
Proof.
  apply codec_iso_laws. intros s. rewrite map_map. rewrite (map_ext _ id) by apply byte_of_Z_of_byte.
  rewrite map_id. apply string_of_bytes_of.
Qed.

#[export] Instance double_codec : Codec double :=
  codec_iso (λ d, match d with
                  | S754_zero s => inl (inl s) | S754_infinity s => inl (inr s)
                  | S754_nan => inr (inl tt) | S754_finite s m e => inr (inr (s, m, e)) end)
            (λ x, match x with
                  | inl (inl s) => S754_zero s | inl (inr s) => S754_infinity s
                  | inr (inl _) => S754_nan | inr (inr (s, m, e)) => S754_finite s m e end).
#[export] Instance double_codec_laws : CodecLaws double double_codec.
Proof. apply codec_iso_laws. by intros []. Qed.

#[export] Instance Login_codec : Codec Login.t :=
  codec_iso (λ m, (Login.username_ m, Login.password_ m, Login.timestamp_ m))
    (λ '(username0, password0, timestamp0), Login.mk username0 password0 timestamp0).
#[export] Instance Login_codec_laws : CodecLaws Login.t Login_codec.
Proof. apply codec_iso_laws. by intros []. Qed.
#[export] Instance Register_codec : Codec Register.t :=
  codec_iso (λ m, (Register.username_ m, Register.password_ m, Register.mobile_ m, Register.nickname_ m, Register.sex_ m, Register.age_ m, Register.timestamp_ m, Register.sign_info_ m, Register.email_ m))
    (λ '(username0, password0, mobile0, nickname0, sex0, age0, timestamp0, sign_info0, email0), Register.mk username0 password0 mobile0 nickname0 sex0 age0 timestamp0 sign_info0 email0).
#[export] Instance Register_codec_laws : CodecLaws Register.t Register_codec.
Proof. apply codec_iso_laws. by intros []. Qed.
#[export] Instance Hongbaoreq_codec : Codec Hongbaoreq.t :=
  codec_iso (λ m, (Hongbaoreq.sender_ m, Hongbaoreq.money_ m, Hongbaoreq.category_ m, Hongbaoreq.count_ m, Hongbaoreq.receiver_ m, Hongbaoreq.timestamp_ m))
    (λ '(sender0, money0, category0, count0, receiver0, timestamp0), Hongbaoreq.mk sender0 money0 category0 count0 receiver0 timestamp0).
#[export] Instance Hongbaoreq_codec_laws : CodecLaws Hongbaoreq.t Hongbaoreq_codec.
Proof. apply codec_iso_laws. by intros []. Qed.
#[export] Instance HongbaoResp_codec : Codec HongbaoResp.t :=
  codec_iso (λ m, (HongbaoResp.hongbaokey_ m, HongbaoResp.sender_ m, HongbaoResp.isok_ m, HongbaoResp.description_ m))
    (λ '(hongbaokey0, sender0, isok0, description0), HongbaoResp.mk hongbaokey0 sender0 isok0 description0).
#[export] Instance HongbaoResp_codec_laws : CodecLaws HongbaoResp.t HongbaoResp_codec.
Proof. apply codec_iso_laws. by intros []. Qed.
#[export] Instance ReqRobHongbao_codec : Codec ReqRobHongbao.t :=
  codec_iso (λ m, (ReqRobHongbao.hongbaokey_ m, ReqRobHongbao.sender_ m, ReqRobHongbao.selfname_ m))
    (λ '(hongbaokey0, sender0, selfname0), ReqRobHongbao.mk hongbaokey0 sender0 selfname0).
#[export] Instance ReqRobHongbao_codec_laws : CodecLaws ReqRobHongbao.t ReqRobHongbao_codec.
Proof. apply codec_iso_laws. by intros []. Qed.
#[export] Instance RespRobHongbao_codec : Codec RespRobHongbao.t :=
  codec_iso (λ m, (RespRobHongbao.hongbaokey_ m, RespRobHongbao.sender_ m, RespRobHongbao.robmoney_ m, RespRobHongbao.totalcount_ m, RespRobHongbao.leftcount_ m, RespRobHongbao.isok_ m, RespRobHongbao.description_ m))
    (λ '(hongbaokey0, sender0, robmoney0, totalcount0, leftcount0, isok0, description0), RespRobHongbao.mk hongbaokey0 sender0 robmoney0 totalcount0 leftcount0 isok0 description0).
#[export] Instance RespRobHongbao_codec_laws : CodecLaws RespRobHongbao.t RespRobHongbao_codec.
Proof. apply codec_iso_laws. by intros []. Qed.
#[export] Instance SingleChat_codec : Codec SingleChat.t :=
  codec_iso (λ m, (SingleChat.receiver_ m, SingleChat.sender_ m, SingleChat.type_ m, SingleChat.message_ m, SingleChat.hbreq_ m, SingleChat.hbrsp_ m, SingleChat.robhbreq_ m, SingleChat.robhbrsp_ m, SingleChat.timestamp_ m))
    (λ '(receiver0, sender0, type0, message0, hbreq0, hbrsp0, robhbreq0, robhbrsp0, timestamp0), SingleChat.mk receiver0 sender0 type0 message0 hbreq0 hbrsp0 robhbreq0 robhbrsp0 timestamp0).
#[export] Instance SingleChat_codec_laws : CodecLaws SingleChat.t SingleChat_codec.
Proof. apply codec_iso_laws. by intros []. Qed.
#[export] Instance GroupChat_codec : Codec GroupChat.t :=
  codec_iso (λ m, (GroupChat.groupid_ m, GroupChat.sender_ m, GroupChat.message_ m, GroupChat.timestamp_ m))
    (λ '(groupid0, sender0, message0, timestamp0), GroupChat.mk groupid0 sender0 message0 timestamp0).
#[export] Instance GroupChat_codec_laws : CodecLaws GroupChat.t GroupChat_codec.
Proof. apply codec_iso_laws. by intros []. Qed.
#[export] Instance AddFriend_codec : Codec AddFriend.t :=
  codec_iso (λ m, (AddFriend.receiver_ m, AddFriend.sender_ m, AddFriend.message_ m, AddFriend.timestamp_ m))
    (λ '(receiver0, sender0, message0, timestamp0), AddFriend.mk receiver0 sender0 message0 timestamp0).
#[export] Instance AddFriend_codec_laws : CodecLaws AddFriend.t AddFriend_codec.
Proof. apply codec_iso_laws. by intros []. Qed.
#[export] Instance GetFriendInfo_codec : Codec GetFriendInfo.t :=
  codec_iso (λ m, (GetFriendInfo.sender_ m, GetFriendInfo.friend_ m, GetFriendInfo.timestamp_ m))
    (λ '(sender0, friend0, timestamp0), GetFriendInfo.mk sender0 friend0 timestamp0).
#[export] Instance GetFriendInfo_codec_laws : CodecLaws GetFriendInfo.t GetFriendInfo_codec.
Proof. apply codec_iso_laws. by intros []. Qed.
#[export] Instance FriendInfo_codec : Codec FriendInfo.t :=
  codec_iso (λ m, (FriendInfo.mobile_ m, FriendInfo.nickname_ m, FriendInfo.sex_ m, FriendInfo.age_ m, FriendInfo.timestamp_ m))
    (λ '(mobile0, nickname0, sex0, age0, timestamp0), FriendInfo.mk mobile0 nickname0 sex0 age0 timestamp0).
#[export] Instance FriendInfo_codec_laws : CodecLaws FriendInfo.t FriendInfo_codec.
Proof. apply codec_iso_laws. by intros []. Qed.
#[export] Instance FriendList_codec : Codec FriendList.t :=
  codec_iso (λ m, (FriendList.friendlist_ m, FriendList.timestamp_ m))
    (λ '(friendlist0, timestamp0), FriendList.mk friendlist0 timestamp0).
#[export] Instance FriendList_codec_laws : CodecLaws FriendList.t FriendList_codec.
Proof. apply codec_iso_laws. by intros []. Qed.
#[export] Instance Response_codec : Codec Response.t :=
  codec_iso (λ m, (Response.result_ m, Response.description_ m))
    (λ '(result0, description0), Response.mk result0 description0).
#[export] Instance Response_codec_laws : CodecLaws Response.t Response_codec.
Proof. apply codec_iso_laws. by intros []. Qed.
#[export] Instance UserInfo_codec : Codec UserInfo.t :=
  codec_iso (λ m, (UserInfo.id_ m, UserInfo.sex_ m, UserInfo.age_ m, UserInfo.name_ m, UserInfo.nick_ m, UserInfo.phone_ m, UserInfo.email_ m, UserInfo.createtime_ m, UserInfo.updatetime_ m, UserInfo.sign_info_ m, UserInfo.money_ m))
    (λ '(id0, sex0, age0, name0, nick0, phone0, email0, createtime0, updatetime0, sign_info0, money0), UserInfo.mk id0 sex0 age0 name0 nick0 phone0 email0 createtime0 updatetime0 sign_info0 money0).
#[export] Instance UserInfo_codec_laws : CodecLaws UserInfo.t UserInfo_codec.
Proof. apply codec_iso_laws. by intros []. Qed.
#[export] Instance Session_codec : Codec Session.t :=
  codec_iso (λ m, (Session.islogin_ m, Session.hashkey_ m, Session.ip_ m, Session.redisname_ m, Session.userinfo_ m))
    (λ '(islogin0, hashkey0, ip0, redisname0, userinfo0), Session.mk islogin0 hashkey0 ip0 redisname0 userinfo0).
#[export] Instance Session_codec_laws : CodecLaws Session.t Session_codec.
Proof. apply codec_iso_laws. by intros []. Qed.
#[export] Instance RobLog_codec : Codec RobLog.t :=
  codec_iso (λ m, (RobLog.name_ m, RobLog.money_ m, RobLog.time_ m))
    (λ '(name0, money0, time0), RobLog.mk name0 money0 time0).
#[export] Instance RobLog_codec_laws : CodecLaws RobLog.t RobLog_codec.
Proof. apply codec_iso_laws. by intros []. Qed.
#[export] Instance SendHongbao_codec : Codec SendHongbao.t :=
  codec_iso (λ m, (SendHongbao.sender_ m, SendHongbao.money_ m, SendHongbao.leftmoney_ m, SendHongbao.category_ m, SendHongbao.count_ m, SendHongbao.leftcount_ m, SendHongbao.receiver_ m, SendHongbao.robitem_ m, SendHongbao.timestamp_ m))
    (λ '(sender0, money0, leftmoney0, category0, count0, leftcount0, receiver0, robitem0, timestamp0), SendHongbao.mk sender0 money0 leftmoney0 category0 count0 leftcount0 receiver0 robitem0 timestamp0).
#[export] Instance SendHongbao_codec_laws : CodecLaws SendHongbao.t SendHongbao_codec.
Proof. apply codec_iso_laws. by intros []. Qed.

Definition toy_encode (m : im_message) : list byte :=
  match m with
  | MLogin m => encode m
  | MRegister m => encode m
  | MHongbaoreq m => encode m
  | MHongbaoResp m => encode m
  | MReqRobHongbao m => encode m
  | MRespRobHongbao m => encode m
  | MSingleChat m => encode m
  | MGroupChat m => encode m
  | MAddFriend m => encode m
  | MGetFriendInfo m => encode m
  | MFriendInfo m => encode m
  | MFriendList m => encode m
  | MResponse m => encode m
  | MUserInfo m => encode m
  | MSession m => encode m
  | MRobLog m => encode m
  | MSendHongbao m => encode m
  end.

Definition toy_decode (t : im_type) (d : list byte) : bool * im_message :=
  match t with
  | TLogin => match decode d with Some (m, []) => (true, MLogin m) | _ => (false, MLogin Login.empty) end
  | TRegister => match decode d with Some (m, []) => (true, MRegister m) | _ => (false, MRegister Register.empty) end
  | THongbaoreq => match decode d with Some (m, []) => (true, MHongbaoreq m) | _ => (false, MHongbaoreq Hongbaoreq.empty) end
  | THongbaoResp => match decode d with Some (m, []) => (true, MHongbaoResp m) | _ => (false, MHongbaoResp HongbaoResp.empty) end
  | TReqRobHongbao => match decode d with Some (m, []) => (true, MReqRobHongbao m) | _ => (false, MReqRobHongbao ReqRobHongbao.empty) end
  | TRespRobHongbao => match decode d with Some (m, []) => (true, MRespRobHongbao m) | _ => (false, MRespRobHongbao RespRobHongbao.empty) end
  | TSingleChat => match decode d with Some (m, []) => (true, MSingleChat m) | _ => (false, MSingleChat SingleChat.empty) end
  | TGroupChat => match decode d with Some (m, []) => (true, MGroupChat m) | _ => (false, MGroupChat GroupChat.empty) end
  | TAddFriend => match decode d with Some (m, []) => (true, MAddFriend m) | _ => (false, MAddFriend AddFriend.empty) end
  | TGetFriendInfo => match decode d with Some (m, []) => (true, MGetFriendInfo m) | _ => (false, MGetFriendInfo GetFriendInfo.empty) end
  | TFriendInfo => match decode d with Some (m, []) => (true, MFriendInfo m) | _ => (false, MFriendInfo FriendInfo.empty) end
  | TFriendList => match decode d with Some (m, []) => (true, MFriendList m) | _ => (false, MFriendList FriendList.empty) end
  | TResponse => match decode d with Some (m, []) => (true, MResponse m) | _ => (false, MResponse Response.empty) end
  | TUserInfo => match decode d with Some (m, []) => (true, MUserInfo m) | _ => (false, MUserInfo UserInfo.empty) end
  | TSession => match decode d with Some (m, []) => (true, MSession m) | _ => (false, MSession Session.empty) end
  | TRobLog => match decode d with Some (m, []) => (true, MRobLog m) | _ => (false, MRobLog RobLog.empty) end
  | TSendHongbao => match decode d with Some (m, []) => (true, MSendHongbao m) | _ => (false, MSendHongbao SendHongbao.empty) end
  end.

#[export] Instance toy_wire : IMWire := {
  wire := toy_encode;
  unwire o d := toy_decode (type_of o) d
}.

#[export] Instance toy_wire_laws : IMWireLaws toy_wire.
Proof.
  split.
  - intros m. cbn. rewrite type_of_empty.
    destruct m as [m|m|m|m|m|m|m|m|m|m|m|m|m|m|m|m|m]; unfold toy_decode, toy_encode; cbn [type_of];
      pose proof (decode_encode m []) as H; rewrite app_nil_r in H; by rewrite H.
  - intros o d. cbn. destruct o; cbn [type_of toy_decode]; by repeat case_match.
Qed.

Lemma toy_wire_plain m : plain (wire m).
Proof. destruct m; apply encode_plain. Qed.
End ToyWire.
