(* ===== verification/Business.v ===== *)
(** * BaseBusiness.h, BaseBusiness.cc: accounts, cached messages and red packets

    The functions run on a [world]: the redis connections and their manager, the
    MySQL pool, the clock, and the part of the server they call back into, which is
    the interface [ServerOps].  A pointer that may be null is an [option], and its
    use when it is null is undefined behaviour; a wait for a free redis connection
    is the fault [Blocked]. *)
From Stdlib Require Import Ascii SpecFloat.
From S2P Require Import Prelude Text State StdMap Comm ProtobufCodec Config Mysql MysqlLinkPool.
From S2P Require Import CacheConn CachePool RedisLock IM.

(** What the business code asks of [GServer]. *)
Class ServerOps (S : Type) := {
  gserver_send : string → im_message → S → res S;
  (* runAfter(delay, bind(StopRobHongbao, key, sender)) *)
  gserver_runAfter : double → string → string → S → res S
}.

(** [time(NULL)], by the number of the call, and [srand(seed); rand()]. *)
Class Libc := {
  clock : nat → Z;
  rand_seeded : Z → Z
}.
Class LibcLaws (L : Libc) : Prop := {
  rand_range seed : 0 <= rand_seeded seed < 2 ^ 31
}.

(** The text of a C string argument. *)
Definition cs (s : string) : string := string_of (c_str (bytes_of s)).

Module Business.
Section Business.
Context {R D S : Type} {HR : Hiredis R} {MC : MysqlClient D} {SO : ServerOps S}.
Context {LC : Libc} {IW : IMWire}.

Record world := World {
  w_heap : heap R;
  w_manager : option (gmap string CachePool.t);
  w_conf : option (list byte);
  w_sql : MysqlLinkPool.state D;
  w_ticks : nat;
  w_server : S
}.

Definition set_heap (w : world) (v : heap R) : world :=
  World v (w_manager w) (w_conf w) (w_sql w) (w_ticks w) (w_server w).
Definition set_cache (w : world) (v : heap R) (m : option (gmap string CachePool.t)) : world :=
  World v m (w_conf w) (w_sql w) (w_ticks w) (w_server w).
Definition set_sql (w : world) (v : MysqlLinkPool.state D) : world :=
  World (w_heap w) (w_manager w) (w_conf w) v (w_ticks w) (w_server w).
Definition set_ticks (w : world) (v : nat) : world :=
  World (w_heap w) (w_manager w) (w_conf w) (w_sql w) v (w_server w).
Definition set_server (w : world) (v : S) : world :=
  World (w_heap w) (w_manager w) (w_conf w) (w_sql w) (w_ticks w) v.

Abbreviation M := (st world).

(** ** Calls of the other components *)

Definition time : M Z :=
  n ← gets w_ticks;
  modify (λ w, set_ticks w (n + 1));;
  mret (clock n).

(** [CacheManager::getInstance()]: whether the pointer is not null. *)
Definition getInstance : M bool := λ w,
  '(m, h) ← CacheManager.getInstance (w_conf w) (w_manager w) (w_heap w);
  Ok (bool_decide (is_Some m), set_cache w h m).

(** A method of the manager. *)
Definition on_manager {A} (m : st (heap R * gmap string CachePool.t) A) : M A := λ w,
  match w_manager w with
  | None => Fault UB
  | Some p => '(a, hp) ← m (w_heap w, p); Ok (a, set_cache w hp.1 (Some hp.2))
  end.

Definition GetCacheConn (redisname : string) : M (option nat) :=
  g ← on_manager (CacheManager.GetCacheConn (cs redisname));
  match g with
  | CachePool.Got c => mret (Some c)
  | CachePool.Null => mret None
  | CachePool.Wait => fault Blocked
  end.

Definition RelCacheConn (c : option nat) : M unit := on_manager (CacheManager.RelCacheConn c).

(** [pCacheConn->m(...)]. *)
Definition cache {A} (pCacheConn : option nat) (m : st (R * CacheConn.t) A) : M A :=
  c ← deref pCacheConn;
  zoom w_heap (λ h w, set_heap w h) (on_conn c m).

Definition on_linkpool {A} (m : st (MysqlLinkPool.state D) A) : M A :=
  zoom w_sql (λ s w, set_sql w s) m.

Definition GetConnection : M (option nat) := on_linkpool MysqlLinkPool.GetConnection.
Definition ReleaseConnection (ml : option nat) : M unit :=
  on_linkpool (MysqlLinkPool.ReleaseConnection ml).

(** [ml->m(...)]. *)
Definition sql {A} (ml : option nat) (m : st (D * Mysql.MysqlProp D) A) : M A :=
  c ← deref ml;
  on_linkpool (MysqlLinkPool.on_mysql c m).

Definition on_server (f : S → res S) : M unit := λ w,
  s ← f (w_server w); Ok ((), set_server w s).

(** ["Master" + to_string(DJBHash(user) % 3 + 1)]. *)
Definition shard (user : string) : string := redisname user.

(** ** Red packets *)

Definition stop_sql (leftmoney : double) (leftcount : Z) (roblog : list byte) (key : string) : string :=
  snprintf 1024 ("update Hongbao set leftmoney=" +:+ lf leftmoney +:+ ", leftcount = " +:+
    dec (i32 leftcount) +:+ ",roblog= '" +:+ string_of (c_str roblog) +:+
    "'  where hbkey = '" +:+ cs key +:+ "'")%string.

Definition return_sql (leftmoney : double) (sender : string) : string :=
  snprintf 1024 ("update IMUser set money=money+" +:+ lf leftmoney +:+ " where name = '" +:+
    cs sender +:+ "' ")%string.

Definition StopRobHongbao (key sender : string) : M unit :=
  let name := shard sender in
  getInstance;;
  pCacheConn ← GetCacheConn name;
  '(_, m) ← cache pCacheConn (CacheConn.getpb (bytes_of key) (MSendHongbao SendHongbao.empty : Message));
  let hongbao := as_SendHongbao m in
  cache pCacheConn (CacheConn.del (bytes_of key));;
  let value := wire (MSendHongbao hongbao) in
  roblog ← lift (replaceFromZero value (zlen value));
  ml ← GetConnection;
  match ml with
  | None => mret ()
  | Some _ =>
      sql ml (Mysql.Execute (stop_sql (SendHongbao.leftmoney hongbao) (SendHongbao.leftcount hongbao) roblog key));;
      (if negb (SendHongbao.leftcount hongbao =? 0)
       then sql ml (Mysql.Execute (return_sql (SendHongbao.leftmoney hongbao) (SendHongbao.sender hongbao)));; mret ()
       else mret ());;
      RelCacheConn pCacheConn;;
      ReleaseConnection ml
  end.

(** ** Accounts *)

Definition check_sql (username : string) : string :=
  snprintf 1024 ("select * from IMUser where name = '" +:+ cs username +:+ "'")%string.

(** 0: the name is not taken. *)
Definition CheckDuplication (info : Register.t) : M Z :=
  ml ← GetConnection;
  ret ← match ml with
        | None => mret (-1)
        | Some _ =>
            q ← sql ml (Mysql.Query (check_sql (Register.username info)));
            if negb (q =? 0) then mret (-1)
            else
              n ← sql ml (gets (λ s, Mysql.GetRecordCount s.2));
              mret (if 0 <? n then -1 else 0)
        end;
  ReleaseConnection ml;;
  mret ret.

Definition register_sql (info : Register.t) (money : double) : string :=
  snprintf 1024 ("insert into IMUser(sex,age,name,nick,password,phone,email,created,sign_info,money) values(" +:+
    dec (i32 (Register.sex info)) +:+ ", " +:+ dec (i32 (Register.age info)) +:+ ",'" +:+
    cs (Register.username info) +:+ "','" +:+ cs (Register.nickname info) +:+ "','" +:+
    cs (Register.password info) +:+ "','" +:+ cs (Register.mobile info) +:+ "','" +:+
    cs (Register.email info) +:+ "'," +:+ dec (Register.timestamp info) +:+ ",'" +:+
    cs (Register.sign_info info) +:+ "'," +:+ lf money +:+ ")")%string.

(** [Register]: assigning a string literal to the [bool] result makes it true. *)
Definition Register (info : Register.t) (response : Response.t) : M (Z * Response.t) :=
  ml ← GetConnection;
  dup ← CheckDuplication info;
  '(registerResult, response) ←
    (if negb (dup =? 0) then mret (true, response)
     else
       let money := d_of_Z 10000 in
       e ← sql ml (Mysql.Execute (register_sql info money));
       if e =? 0 then mret (true, response)
       else mret (false, Response.set_description (Response.set_result response false) "server error!"));
  ReleaseConnection ml;;
  let response := Response.set_description (Response.set_result response registerResult) "" in
  mret (if registerResult : bool then 0 else -1, response).

Definition login_sql (username password : string) : string :=
  snprintf 1024 ("select * from IMUser where name = '" +:+ cs username +:+ "' and password = '" +:+
    cs password +:+ "'")%string.

(** A field of the first row as a C string. *)
Definition field (ml : option nat) (name : string) : M string :=
  v ← sql ml (Mysql.GetField 0 name); mret (cs v).
Definition int_field (ml : option nat) (name : string) : M Z :=
  v ← field ml name; mret (atoi (bytes_of v)).

(** The session that [Login] stores, read from the first row. *)
Definition login_session (ml : option nat) (hashkey : Z) (redisname : string) : M Session.t :=
  id ← int_field ml "id";
  sex ← int_field ml "sex";
  age ← int_field ml "age";
  name ← field ml "name";
  nick ← field ml "nick";
  phone ← field ml "passwd";
  email ← field ml "email";
  createtime ← int_field ml "createtime";
  updatetime ← int_field ml "updatetime";
  sign_info ← field ml "sign_info";
  money ← field ml "money";
  let user := UserInfo.mk (Some id) (Some sex) (Some age) (Some name) (Some nick) (Some phone)
                (Some email) (Some createtime) (Some updatetime) (Some sign_info)
                (Some (atof (bytes_of money))) in
  mret (Session.mk (Some true) (Some hashkey) None (Some redisname) (Some user)).

Definition Login (login : Login.t) (response : Response.t) : M (Z * Response.t) :=
  ml ← GetConnection;
  manager ← getInstance;
  '(loginResult, loginInfo, pCacheConn) ←
    (if bool_decide (ml = None) || negb manager then mret (false, "server error"%string, None)
     else
       q ← sql ml (Mysql.Query (login_sql (Login.username login) (Login.password login)));
       if negb (q =? 0) then mret (false, "server error"%string, None)
       else
         n ← sql ml (gets (λ s, Mysql.GetRecordCount s.2));
         if n =? 0
         then mret (false, "Login failed! username or password not matched!"%string, None)
         else
           let hashkey := DJBHash (bytes_of (Login.username login)) in
           let name := shard (Login.username login) in
           pCacheConn ← GetCacheConn name;
           match pCacheConn with
           | None => mret (true, "Login success!"%string, None)
           | Some _ =>
               let strKey := (Login.username login +:+ "_session")%string in
               session ← login_session ml hashkey name;
               cache pCacheConn (CacheConn.setpb (bytes_of strKey) (86400 * 2) (MSession session : Message));;
               mret (true, "Login success!"%string, pCacheConn)
           end);
  let response := Response.set_description (Response.set_result response loginResult) loginInfo in
  RelCacheConn pCacheConn;;
  ReleaseConnection ml;;
  mret (if loginResult : bool then 0 else -1, response).

(** The query of [GetFriendInfo] is not sent; a session is parsed as if it were a
    [UserInfo]. *)
Definition GetFriendInfo (reqinfo : GetFriendInfo.t) (respinfo : FriendInfo.t) : M (Z * FriendInfo.t) :=
  ml ← GetConnection;
  getInstance;;
  pCacheConn ← GetCacheConn (shard (GetFriendInfo.sender reqinfo));
  match pCacheConn with
  | None => mret (0, respinfo)
  | Some _ =>
      let strKey := (GetFriendInfo.sender reqinfo +:+ "_session")%string in
      cache pCacheConn (CacheConn.getpb (bytes_of strKey) (MUserInfo UserInfo.empty : Message));;
      RelCacheConn pCacheConn;;
      ReleaseConnection ml;;
      mret (0, respinfo)
  end.

(** ** Cached messages *)

(** The loop that sends the cached messages, stopping at one that does not parse. *)
Fixpoint send_loop (username : string) (msgs : list (list byte)) (ret : Z) : M Z :=
  match msgs with
  | [] => mret ret
  | c :: msgs' =>
      let '(ok, m) := unwire (MSingleChat SingleChat.empty) (replaceToZero c) in
      if ok : bool then
        on_server (gserver_send username (MSingleChat (as_SingleChat m)));;
        send_loop username msgs' ret
      else mret (-1)
  end.

Definition sendCacheMessage (username : string) : M Z :=
  getInstance;;
  pCacheConn ← GetCacheConn (shard username);
  ret ← match pCacheConn with
        | None => mret (-1)
        | Some _ =>
            let strKey := (username +:+ "_message")%string in
            '(ok, msgs) ← cache pCacheConn (CacheConn.lrange (bytes_of strKey) 0 (-1) []);
            send_loop username msgs (if ok : bool then 0 else -1)
        end;
  RelCacheConn pCacheConn;;
  mret ret.

Definition cacheMessage (username : string) (message : im_message) : M Z :=
  getInstance;;
  pCacheConn ← GetCacheConn (shard username);
  ret ← match pCacheConn with
        | None => mret (-1)
        | Some _ =>
            let strKey := (username +:+ "_message")%string in
            let value := wire message in
            value ← lift (replaceFromZero value (zlen value));
            cache pCacheConn (CacheConn.lpush (bytes_of strKey) value);;
            mret 0
        end;
  RelCacheConn pCacheConn;;
  mret ret.

(** ** Sending a red packet *)

(** The literal [0.000001]. *)
Definition micro : double := ddiv (d_of_Z 1) (d_of_Z 1000000).

Definition sub_sql (money : double) (name : string) : string :=
  snprintf 1024 ("update IMUser set money=money-" +:+ lf money +:+ " where name = '" +:+ cs name +:+ "'")%string.

Definition hongbao_sql (strKey : string) (h : SendHongbao.t) : string :=
  snprintf 1024 ("insert into Hongbao(hbkey,sender,money,category,count,receiver,time) values('" +:+
    cs strKey +:+ "','" +:+ cs (SendHongbao.sender h) +:+ "'," +:+ lf (SendHongbao.money h) +:+ "," +:+
    dec (i32 (SendHongbao.category h)) +:+ "," +:+ dec (i32 (SendHongbao.count h)) +:+ ",'" +:+
    cs (SendHongbao.receiver h) +:+ "'," +:+ dec (SendHongbao.timestamp h) +:+ ")")%string.

(** The record of a new red packet. *)
Definition new_hongbao (req : Hongbaoreq.t) : SendHongbao.t :=
  SendHongbao.mk (Some (Hongbaoreq.sender req)) (Some (Hongbaoreq.money req)) (Some (Hongbaoreq.money req))
    (Some (Hongbaoreq.category req)) (Some (Hongbaoreq.count req)) (Some (Hongbaoreq.count req))
    (Some (Hongbaoreq.receiver req)) [] (Some (Hongbaoreq.timestamp req)).

Definition SendHongbao (req : Hongbaoreq.t) (resp : HongbaoResp.t) : M (Z * HongbaoResp.t) :=
  let hongbao := new_hongbao req in
  getInstance;;
  pCacheConn ← GetCacheConn (shard (SendHongbao.sender hongbao));
  match pCacheConn with
  | None => mret (-1, resp)
  | Some _ =>
      let strKey := (SendHongbao.sender hongbao +:+ "_session")%string in
      '(_, m) ← cache pCacheConn (CacheConn.getpb (bytes_of strKey) (MSession Session.empty : Message));
      let session := as_Session m in
      ml ← GetConnection;
      match ml with
      | None => mret (-1, resp)
      | Some _ =>
          let money := UserInfo.money (Session.userinfo session) in
          if dltb (dsub money (SendHongbao.money hongbao)) micro then
            mret (-1, HongbaoResp.set_description (HongbaoResp.set_isok resp false) "money not enough")
          else
            sql ml (Mysql.Execute (sub_sql (SendHongbao.money hongbao) (UserInfo.name (Session.userinfo session))));;
            t ← time;
            let curTime := u32 t in
            let strKey := (SendHongbao.sender hongbao +:+ "_" +:+ dec curTime +:+ "_HBcount")%string in
            cache pCacheConn (CacheConn.setpb (bytes_of strKey) 90000 (MSendHongbao hongbao : Message));;
            sql ml (Mysql.Execute (hongbao_sql strKey hongbao));;
            on_server (gserver_runAfter (d_of_Z 6) strKey (SendHongbao.sender hongbao));;
            let resp := HongbaoResp.set_description (HongbaoResp.set_hongbaokey (HongbaoResp.set_sender
                          (HongbaoResp.set_isok resp true) (SendHongbao.sender hongbao)) strKey) "send ok" in
            RelCacheConn pCacheConn;;
            ReleaseConnection ml;;
            mret (0, resp)
      end
  end.

(** ** Opening a red packet *)

(** An [int] result: signed overflow is undefined. *)
Definition int_of (z : Z) : M Z :=
  if (- 2 ^ 31 <=? z) && (z <? 2 ^ 31) then mret z else fault UB.

(** [RAND(n, m)]. *)
Definition RAND (n m : Z) : M Z :=
  seed ← time;
  mret (crem (rand_seeded (u32 seed)) (m - n + 1) + n).

Definition getRandomMoney (remainMoney left_MoneyPacksize : Z) : M Z :=
  if left_MoneyPacksize =? 0 then mret 0
  else
    q ← int_of (cdiv remainMoney left_MoneyPacksize);
    if q =? 1 then mret q
    else if left_MoneyPacksize =? 1 then mret remainMoney
    else
      r ← RAND 1 199;
      p ← int_of (remainMoney * r);
      mret (cdiv (cdiv p 100) left_MoneyPacksize).

(** [getmoney / 100.00]. *)
Definition yuan (getmoney : Z) : double := ddiv (d_of_Z getmoney) (d_of_Z 100).

Definition add_sql (money : double) (name : string) : string :=
  snprintf 1024 ("update IMUser set money=money+" +:+ lf money +:+ " where name = '" +:+ cs name +:+ "' ")%string.

(** The record after [name] has taken [getmoney] cents. *)
Definition robbed (h : SendHongbao.t) (getmoney left_count : Z) (name : string) (Time : Z) : SendHongbao.t :=
  let h := SendHongbao.set_leftmoney h (dsub (SendHongbao.leftmoney h) (yuan getmoney)) in
  let h := SendHongbao.set_leftcount h left_count in
  SendHongbao.add_robitem h (RobLog.mk (Some name) (Some (yuan getmoney)) (Some Time)).

Definition refuse (resp : RespRobHongbao.t) (strKey sender description : string) : RespRobHongbao.t :=
  RespRobHongbao.set_description (RespRobHongbao.set_isok (RespRobHongbao.set_sender
    (RespRobHongbao.set_hongbaokey resp strKey) sender) false) description.

(** What happens under the lock; [None]: one of the early returns. *)
Definition rob_locked (req : ReqRobHongbao.t) (resp : RespRobHongbao.t) (ml pCacheConn : option nat)
    (redisLock : RedisLock.t) : M (bool * RespRobHongbao.t) :=
  let strKey := ReqRobHongbao.hongbaokey req in
  let refused description :=
    cache pCacheConn (RedisLock.unlock redisLock);;
    mret (true, refuse resp strKey (ReqRobHongbao.sender req) description) in
  '(retstr, m) ← cache pCacheConn (CacheConn.getpb (bytes_of strKey) (MSendHongbao SendHongbao.empty : Message));
  let hongbao := as_SendHongbao m in
  if bool_decide (retstr = []) then refused "sorry redpacket expired"%string
  else if existsb (λ temp, bool_decide (ReqRobHongbao.selfname req = RobLog.name temp)) (SendHongbao.robitem hongbao)
  then refused "you have robed"%string
  else if SendHongbao.leftcount hongbao =? 0 then refused "sorry The red packets are gone"%string
  else
    let leftmoney := SendHongbao.leftmoney hongbao in
    let leftcount := i32 (SendHongbao.leftcount hongbao) in
    cents ← lift (d_to_sN 32 (dmul leftmoney (d_of_Z 100)));
    getmoney ← getRandomMoney cents leftcount;
    left_count ← (if negb (leftcount =? 0) then int_of (leftcount - 1) else mret 0);
    Time ← time;
    let hongbao := robbed hongbao getmoney left_count (ReqRobHongbao.selfname req) Time in
    cache pCacheConn (CacheConn.setpb (bytes_of strKey) 86400 (MSendHongbao hongbao : Message));;
    sql ml (Mysql.Execute (add_sql (yuan getmoney) (ReqRobHongbao.selfname req)));;
    cache pCacheConn (RedisLock.unlock redisLock);;
    mret (false, RespRobHongbao.mk (Some strKey) (Some (ReqRobHongbao.sender req)) (Some (yuan getmoney))
      (Some (SendHongbao.count hongbao)) (Some left_count) (Some true) (Some "congratulation"%string)).

Definition RobHongbao (req : ReqRobHongbao.t) (resp : RespRobHongbao.t) : M (Z * RespRobHongbao.t) :=
  let strKey := ReqRobHongbao.hongbaokey req in
  if bool_decide (strKey = ""%string) then
    mret (-1, refuse resp strKey (ReqRobHongbao.sender req) "hongbao key is NULL")
  else
    let name := shard (ReqRobHongbao.sender req) in
    ml ← GetConnection;
    getInstance;;
    pCacheConn ← GetCacheConn name;
    now ← time;
    redisLock ← cache pCacheConn (RedisLock.lock now (RedisLock.make name strKey 50000));
    '(early, resp) ← (if RedisLock.locked redisLock then rob_locked req resp ml pCacheConn redisLock
                      else mret (false, resp));
    if early : bool then mret (0, resp)
    else
      RelCacheConn pCacheConn;;
      ReleaseConnection ml;;
      mret (0, resp).
End Business.
Arguments world _ _ _ {_}.
End Business.

(** ** Facts about the calls *)

Section Facts.
Context {R D S : Type} {HR : Hiredis R} {HL : HiredisLaws R} {HA : HiredisReliable R}.
Context {MC : MysqlClient D} {ML : MysqlClientLaws D} {SO : ServerOps S} {LC : Libc} {LL : LibcLaws LC}.
Context {IW : IMWire} {IL : IMWireLaws IW}.
Import Business.

Abbreviation W := (world R D S).

(** The redis database of a world. *)
Definition wdb (w : W) : database := rdb (redis (w_heap w)).

(** A live connection of the pool [name]. *)
Definition conn_of (name : string) (h : heap R) (c : nat) : Prop :=
  ∃ o, conns h !! c = Some o ∧ CacheConn.GetPoolName o = cs name.

(** The pool [name] has an idle connection; it has lent the connection [c]. *)
Definition idle (name : string) (w : W) : Prop :=
  ∃ pools p, w_manager w = Some pools ∧ pools !! cs name = Some p ∧
    CachePool.m_free_list p ≠ [] ∧ NoDup (CachePool.m_free_list p) ∧
    ∀ x, x ∈ CachePool.m_free_list p → conn_of name (w_heap w) x.
Definition lent (name : string) (c : nat) (w : W) : Prop :=
  ∃ pools p, w_manager w = Some pools ∧ pools !! cs name = Some p ∧
    NoDup (c :: CachePool.m_free_list p) ∧
    ∀ x, x ∈ c :: CachePool.m_free_list p → conn_of name (w_heap w) x.

(** A request is running: it holds the redis connection [c] of the pool [name] and,
    among the connections lent, the MySQL connection [ml]. *)
Record busy (name : string) (c ml : nat) (held : list nat) (w : W) : Prop := {
  b_conn : lent name c w;
  b_sql : ready (w_sql w) held;
  b_ml : ml ∈ held
}.

Lemma idle_manager name w : idle name w → is_Some (w_manager w).
Proof. intros (pools & p & -> & _). by eexists. Qed.

Lemma lent_cache {A} name c (w : W) (m : st (R * CacheConn.t) A) a db' :
  lent name c w → does m (wdb w) a db' →
  ∃ w', cache (Some c) m w = Ok (a, w') ∧ lent name c w' ∧ wdb w' = db' ∧
    w_sql w' = w_sql w ∧ w_server w' = w_server w.
Proof.
  intros (pools & p & Hm & Hp & Hnd & Hall) Hdoes. destruct (Hall c) as (o & Ho & Hname); [set_solver|].
  destruct (Hdoes (redis (w_heap w), o) eq_refl) as ([r' o'] & E & Hdb & Hinfo).
  unfold cache. rewrite run_some. eexists. split.
  { unfold zoom, on_conn. rewrite Ho. cbn [mbind res_bind]. rewrite E. reflexivity. }
  split; [|done]. exists pools, p. split_and!; try done. intros x Hx. unfold conn_of. cbn.
  destruct (decide (x = c)) as [->|].
  - exists o'. rewrite lookup_insert_eq. split; [done|]. unfold CacheConn.GetPoolName in *. cbn in Hinfo. congruence.
  - destruct (Hall x Hx) as (ox & Hox & Hnx). exists ox. by rewrite lookup_insert_ne.
Qed.

Lemma cache_run {A} name c ml held (w : W) (m : st (R * CacheConn.t) A) a db' :
  busy name c ml held w → does m (wdb w) a db' →
  ∃ w', cache (Some c) m w = Ok (a, w') ∧ busy name c ml held w' ∧ wdb w' = db' ∧ w_server w' = w_server w.
Proof.
  intros [Hl Hs Hml] Hdoes. destruct (lent_cache name c w m a db' Hl Hdoes) as (w' & E & Hl' & Hdb & Hsql & Hsv).
  exists w'. split; [done|]. split; [|done]. constructor; [done|by rewrite Hsql|done].
Qed.

Lemma sql_run {A} name c ml held (w : W) (m : st (D * Mysql.MysqlProp D) A) :
  busy name c ml held w → total m → safe m →
  ∃ a w', sql (Some ml) m w = Ok (a, w') ∧ busy name c ml held w' ∧ wdb w' = wdb w ∧ w_server w' = w_server w.
Proof.
  intros [Hl Hs Hml] Ht Hsf. destruct (on_mysql_ready _ _ _ m Hs Hml Ht Hsf) as (a & s' & E & Hs').
  exists a. eexists. unfold sql. rewrite run_some. split.
  { unfold on_linkpool, zoom. rewrite E. reflexivity. }
  split; [by constructor|done].
Qed.

Lemma time_run name c ml held (w : W) :
  busy name c ml held w →
  ∃ n w', time w = Ok (clock n, w') ∧ busy name c ml held w' ∧ wdb w' = wdb w ∧ w_server w' = w_server w.
Proof.
  intros [Hl Hs Hml]. eexists _, _. split; [reflexivity|]. split; [by constructor|done].
Qed.

Lemma getInstance_run (w : W) : is_Some (w_manager w) → getInstance w = Ok (true, w).
Proof.
  intros [m Hm]. unfold getInstance, CacheManager.getInstance. rewrite Hm.
  destruct w. cbn in *. by subst.
Qed.

Lemma GetCacheConn_world name (w : W) :
  idle name w →
  ∃ c w', GetCacheConn name w = Ok (Some c, w') ∧ lent name c w' ∧
    w_heap w' = w_heap w ∧ w_sql w' = w_sql w ∧ w_server w' = w_server w.
Proof.
  intros (pools & p & Hm & Hp & Hne & Hnd & Hall). destruct (CachePool.m_free_list p) as [|c l] eqn:Hl; [done|].
  unfold GetCacheConn, on_manager. unfold mbind at 1, st_bind at 1. rewrite Hm.
  unfold CacheManager.GetCacheConn. rewrite run_gets. cbn [snd]. rewrite Hp.
  unfold CacheManager.on_pool. cbn [fst snd]. rewrite Hp.
  unfold CachePool.GetCacheConn, CachePool.pop_front. rewrite run_gets. cbn [snd]. rewrite Hl, run_gets. cbn [snd].
  rewrite Hl. eexists c, _. split; [reflexivity|]. split; [|done].
  eexists _, (CachePool.set_free p l). cbn. split; [reflexivity|]. rewrite lookup_insert_eq. split_and!; done.
Qed.

(** The MySQL pool can lend one more connection. *)
Definition sql_available (held : list nat) (w : W) : Prop :=
  ready (w_sql w) held ∧
  (MysqlLinkPool.connList (MysqlLinkPool.pool (w_sql w)) ≠ [] ∨
   zlen held < MysqlLinkPool.maxSize (MysqlLinkPool.pool (w_sql w))).

Lemma GetConnection_world held (w : W) :
  sql_available held w →
  ∃ ml s', GetConnection w = Ok (Some ml, set_sql w s') ∧ ready s' (ml :: held).
Proof.
  intros [Hr Ha]. destruct (GetConnection_ready _ _ Hr Ha) as (ml & s' & E & Hr').
  exists ml, s'. split; [|done]. unfold GetConnection, on_linkpool, zoom. by rewrite E.
Qed.

Lemma RelCacheConn_world name c (w : W) :
  lent name c w →
  ∃ w', RelCacheConn (Some c) w = Ok ((), w') ∧ idle name w' ∧ w_sql w' = w_sql w ∧ wdb w' = wdb w ∧
    w_server w' = w_server w.
Proof.
  intros (pools & p & Hm & Hp & Hnd & Hall). destruct (Hall c) as (o & Ho & Hname); [set_solver|].
  unfold RelCacheConn, on_manager. rewrite Hm. unfold CacheManager.RelCacheConn.
  assert (zoom fst (λ h s, (h, s.2)) (on_conn c (gets (λ s, CacheConn.GetPoolName s.2))) (w_heap w, pools)
    = Ok (CacheConn.GetPoolName o, (Heap (redis (w_heap w)) (<[c := o]> (conns (w_heap w))) (cfresh (w_heap w)), pools))) as E.
  { unfold zoom, on_conn. cbn [fst]. by rewrite Ho. }
  rewrite (st_bind_run _ _ _ _ _ E), run_gets. cbn [snd]. rewrite Hname, Hp.
  unfold CacheManager.on_pool. cbn [fst snd]. rewrite Hp. eexists. split; [reflexivity|]. split; [|done].
  apply NoDup_cons in Hnd as [Hc Hnd]. rewrite bool_decide_false by done.
  eexists _, _. cbn. split; [reflexivity|]. rewrite lookup_insert_eq. split; [reflexivity|]. cbn. split_and!.
  - by destruct (CachePool.m_free_list p).
  - apply NoDup_app. split_and!; [done| |apply NoDup_singleton]. intros x Hx ->%list_elem_of_singleton. done.
  - intros x Hx. destruct (Hall x) as (ox & Hox & Hnx); [set_solver|]. unfold conn_of. cbn.
    destruct (decide (x = c)) as [->|]; [exists o; by rewrite lookup_insert_eq|].
    exists ox. by rewrite lookup_insert_ne.
Qed.

Lemma release_both name c ml held (w : W) A (a : A) :
  busy name c ml (ml :: held) w →
  ∃ w', (RelCacheConn (Some c);; ReleaseConnection (Some ml);; mret a) w = Ok (a, w') ∧
    idle name w' ∧ ready (w_sql w') held ∧ wdb w' = wdb w ∧ w_server w' = w_server w.
Proof.
  intros [Hl Hs _]. destruct (RelCacheConn_world _ _ _ Hl) as (w1 & E1 & Hi1 & Hs1 & Hdb1 & Hsv1).
  rewrite (st_bind_run _ _ _ _ _ E1). rewrite <-Hs1 in Hs.
  destruct (Release_ready _ _ _ Hs) as (s' & E2 & Hr & _).
  unfold ReleaseConnection, on_linkpool. erewrite (st_bind_run _ _ w1); [|by eapply zoom_Ok].
  eexists. split; [reflexivity|]. done.
Qed.

(** *** The amount *)

Lemma RAND_run (w : W) : ∃ r, RAND 1 199 w = Ok (r, set_ticks w (w_ticks w + 1)) ∧ 1 <= r <= 199.
Proof.
  unfold RAND, time. rewrite run_bind_assoc, run_gets, run_bind_assoc, run_modify, run_mret.
  eexists. split; [reflexivity|].
  pose proof (rand_range (u32 (clock (w_ticks w)))) as Hr.
  pose proof (Z.rem_bound_pos _ 199 (proj1 Hr) eq_refl).
  change (199 - 1 + 1) with 199. lia.
Qed.

Lemma int_of_run z (w : W) : - 2 ^ 31 <= z < 2 ^ 31 → int_of z w = Ok (z, w).
Proof. intros H. unfold int_of. replace (_ && _) with true by (symmetry; lia). done. Qed.

Lemma getRandomMoney_run cents n (w : W) :
  0 <= cents → 199 * cents < 2 ^ 31 → 1 <= n < 2 ^ 31 →
  ∃ m k, getRandomMoney cents n w = Ok (m, set_ticks w k) ∧ 0 <= m <= cents ∧ (n = 1 → m = cents).
Proof.
  intros Hc Hmax Hn. unfold getRandomMoney. replace (n =? 0) with false by lia.
  rewrite Z.quot_div_nonneg by lia. pose proof (div_bounds cents n ltac:(lia)) as Hq.
  assert (0 <= cents / n) by (apply Z.div_pos; lia).
  assert (cents / n <= cents) by (apply Z.div_le_upper_bound; nia).
  erewrite (st_bind_run _ _ w) by (apply int_of_run; lia).
  assert (w = set_ticks w (w_ticks w)) as Hw by (by destruct w).
  destruct (cents / n =? 1) eqn:E1.
  { exists (cents / n), (w_ticks w). rewrite <-Hw. split; [done|]. split; [nia|]. intros ->.
    by rewrite Z.div_1_r. }
  destruct (n =? 1) eqn:E2.
  { exists cents, (w_ticks w). rewrite <-Hw. split; [done|]. split; [lia|done]. }
  destruct (RAND_run w) as (r & E & Hr). rewrite (st_bind_run _ _ _ _ _ E).
  erewrite (st_bind_run _ _ _) by (apply int_of_run; nia).
  eexists _, _. split; [reflexivity|]. split; [|lia].
  assert (0 <= cents * r) by nia. rewrite (Z.quot_div_nonneg (cents * r)) by lia.
  assert (0 <= cents * r / 100) by (apply Z.div_pos; lia). rewrite Z.quot_div_nonneg by lia.
  rewrite Z.div_div by lia. split; [apply Z.div_pos; nia|].
  apply Z.div_le_upper_bound; nia.
Qed.

(** The redis key of a session. *)
Definition session_key (user : string) : list byte := c_str (bytes_of (user +:+ "_session")).

(** What can be stored and read back under a key. *)
Definition storable (m : im_message) : Prop := 0 < zlen (wire m) < 2048 ∧ (tilde ∉ wire m).
End Facts.

(** ** A small world for concrete runs

    One redis connection for the users of the shard of "bob", a MySQL pool of two, a
    server that records what it is asked to do. *)
Module ToyWorld.
Import ToyRedis ToyWire Business.

Record toy_server := ToyServer {
  sent : list (string * im_message);
  timers : list (string * string)
}.

#[export] Instance toy_server_ops : ServerOps toy_server := {
  gserver_send u m s := Ok (ToyServer (sent s ++ [(u, m)]) (timers s));
  gserver_runAfter _ key sender s := Ok (ToyServer (sent s) (timers s ++ [(key, sender)]))
}.

#[export] Instance toy_libc : Libc := {
  clock _ := 1559000000;
  rand_seeded s := (s * 1103515245 + 12345) mod 2 ^ 31
}.
#[export] Instance toy_libc_laws : LibcLaws toy_libc.
Proof. split. intros s. apply Z.mod_pos_bound. done. Qed.

Abbreviation toy := (world (database * nat) nat toy_server).

Definition toy_name : string := Eval vm_compute in shard "bob".
Definition toy_info : CacheConn.PoolInfo := CacheConn.Info toy_name "127.0.0.1" 7001 0.

Definition toy_world (db : database) : toy :=
  World (Heap (db, 0%nat) {[0%nat := CacheConn.make toy_info]} 1)
    (Some {[toy_name := CachePool.mk toy_info 1 16 [0%nat]]}) None (toy_pool 2) 0 (ToyServer [] []).

Lemma toy_idle db : idle (shard "bob") (toy_world db).
Proof.
  exists {[toy_name := CachePool.mk toy_info 1 16 [0%nat]]}, (CachePool.mk toy_info 1 16 [0%nat]).
  replace (cs (shard "bob")) with toy_name by (vm_compute; reflexivity).
  split_and!; [done|apply lookup_singleton_eq|done|apply NoDup_singleton|].
  intros x ->%list_elem_of_singleton. exists (CacheConn.make toy_info).
  split; [apply lookup_singleton_eq|]. vm_compute. reflexivity.
Qed.

Lemma toy_sql db : sql_available [] (toy_world db).
Proof.
  split; [|by left]. constructor.
  - destruct (make_inv 0%nat "h" "u" "p" "db" 1 2) as (s & E & Hinv & _); [done|].
    change (inv (toy_pool 2) []). unfold toy_pool. by rewrite E.
  - vm_compute. done.
  - intros c p Hp. change (({[0%nat := Mysql.make "h" "u" "p" "db" 1]} : gmap nat (Mysql.MysqlProp nat)) !! c = Some p) in Hp.
    apply lookup_singleton_Some in Hp as [_ <-]. by apply usable_make.
Qed.

(** What the toy wire format writes can be stored when it is short enough. *)
Lemma toy_storable m : bool_decide (0 < zlen (wire m) < 2048) = true → storable m.
Proof.
  intros H. apply bool_decide_eq_true in H. split; [done|]. intros Hin.
  pose proof (toy_wire_plain m) as Hp. unfold plain in Hp. rewrite Forall_forall in Hp. apply Hp in Hin.
  vm_compute in Hin. repeat (apply elem_of_cons in Hin as [Hin|Hin]; [done|]). by apply elem_of_nil in Hin.
Qed.
End ToyWorld.

