(* ===== verification/Hongbao.v ===== *)
(** * The red packets of BaseBusiness.cc: sending one and opening its shares *)
From Stdlib Require Import Ascii SpecFloat.
From S2P Require Import Prelude Text State StdMap Comm ProtobufCodec Config Mysql MysqlLinkPool.
From S2P Require Import CacheConn CachePool RedisLock IM Business.

Section Facts.
Context {R D S : Type} {HR : Hiredis R} {HL : HiredisLaws R} {HA : HiredisReliable R}.
Context {MC : MysqlClient D} {ML : MysqlClientLaws D} {SO : ServerOps S} {LC : Libc} {LL : LibcLaws LC}.
Context {IW : IMWire} {IL : IMWireLaws IW}.
Import Business.

Abbreviation W := (world R D S).

(** *** Opening a red packet *)

Definition names (h : SendHongbao.t) : list string := map RobLog.name (SendHongbao.robitem h).


(** The redis key of a red packet and the value that stands for its record. *)
Definition hb_key (req : ReqRobHongbao.t) : list byte := c_str (bytes_of (ReqRobHongbao.hongbaokey req)).
Definition packet (h : SendHongbao.t) : rvalue := VString (stored (MSendHongbao h : @Message IM_protobuf)).

(** The accounts of a red packet: who took a share is listed once, and the shares
    taken and left make up the count. *)
Definition packet_inv (h : SendHongbao.t) : Prop :=
  0 <= SendHongbao.leftcount h < 2 ^ 31 ∧
  zlen (SendHongbao.robitem h) + SendHongbao.leftcount h = SendHongbao.count h ∧
  NoDup (names h).

(** The three answers to a request for a packet [h] of [cents], with the database
    and whether the function returns without giving its connections back. *)
Inductive rob_outcome (req : ReqRobHongbao.t) (resp : RespRobHongbao.t) (h : SendHongbao.t) (cents : Z)
    (db : database) : RespRobHongbao.t → database → bool → Prop :=
  | rob_again :
      ReqRobHongbao.selfname req ∈ names h →
      rob_outcome req resp h cents db
        (refuse resp (ReqRobHongbao.hongbaokey req) (ReqRobHongbao.sender req) "you have robed") db true
  | rob_gone :
      ReqRobHongbao.selfname req ∉ names h → SendHongbao.leftcount h = 0 →
      rob_outcome req resp h cents db
        (refuse resp (ReqRobHongbao.hongbaokey req) (ReqRobHongbao.sender req) "sorry The red packets are gone") db true
  | rob_won m t :
      ReqRobHongbao.selfname req ∉ names h → 0 < SendHongbao.leftcount h →
      0 <= m <= cents → (SendHongbao.leftcount h = 1 → m = cents) →
      rob_outcome req resp h cents db
        (RespRobHongbao.mk (Some (ReqRobHongbao.hongbaokey req)) (Some (ReqRobHongbao.sender req))
           (Some (yuan m)) (Some (SendHongbao.count h)) (Some (SendHongbao.leftcount h - 1)) (Some true)
           (Some "congratulation"%string))
        (<[hb_key req := packet (robbed h m (SendHongbao.leftcount h - 1) (ReqRobHongbao.selfname req) t)]> db)
        false.

(** A share taken keeps the accounts of the packet. *)
Lemma robbed_inv h m name t :
  packet_inv h → 0 < SendHongbao.leftcount h → name ∉ names h →
  packet_inv (robbed h m (SendHongbao.leftcount h - 1) name t).
Proof.
  intros (Hl & Hc & Hn) Hpos Hname. unfold packet_inv, robbed, names in *.
  cbn [SendHongbao.leftcount SendHongbao.robitem SendHongbao.count SendHongbao.set_leftcount
       SendHongbao.set_leftmoney SendHongbao.add_robitem SendHongbao.leftcount_ SendHongbao.robitem_
       SendHongbao.count_ default from_option id].
  unfold SendHongbao.robitem, SendHongbao.count, SendHongbao.leftcount in *.
  split; [cbn; lia|]. split.
  - cbn. rewrite zlen_app. change (zlen [_]) with 1. lia.
  - cbn. rewrite map_app. apply NoDup_app. split; [done|]. split; [|apply NoDup_singleton].
    intros x Hx ->%list_elem_of_singleton. done.
Qed.

(** What [rob_locked] needs besides the record. *)
Lemma existsb_names name h :
  existsb (λ temp, bool_decide (name = RobLog.name temp)) (SendHongbao.robitem h) = bool_decide (name ∈ names h).
Proof.
  unfold names. induction (SendHongbao.robitem h) as [|r l IH]; [done|]. cbn [existsb map]. rewrite IH.
  rewrite <-bool_decide_or. apply bool_decide_ext. by rewrite elem_of_cons.
Qed.

Section Robbing.
Context (req : ReqRobHongbao.t) (resp : RespRobHongbao.t) (h : SendHongbao.t) (cents : Z).
Context (nm : string) (c ml : nat) (held : list nat) (l : RedisLock.t) (x : rvalue) (db : database).
Hypothesis Hlocked : RedisLock.locked l = true.
Hypothesis Hfree : db !! lock_key l = None.
Hypothesis Hkey : lock_key l ≠ hb_key req.
Hypothesis Hrec : db !! hb_key req = Some (packet h).
Hypothesis Hstore : storable (MSendHongbao h).

(** Under the lock the database is [db] with the lock entered. *)
Abbreviation ldb := (<[lock_key l := x]> db).

Lemma unlock_back (w : W) :
  busy nm c ml held w → wdb w = ldb →
  ∃ a w', cache (Some c) (RedisLock.unlock l) w = Ok (a, w') ∧ busy nm c ml held w' ∧ wdb w' = db ∧
    w_server w' = w_server w.
Proof.
  intros Hb Hdb. edestruct (cache_run nm c ml held w (RedisLock.unlock l)) as (w' & E & Hb' & Hdb' & Hs).
  - done.
  - eapply unlock_does; [done|]. rewrite Hdb. apply lookup_insert_eq.
  - eexists _, w'. split; [exact E|]. split; [done|]. split; [|done].
    by rewrite Hdb', Hdb, delete_insert_id.
Qed.

Lemma rob_locked_run (w : W) :
  busy nm c ml held w → wdb w = ldb → packet_inv h →
  d_to_sN 32 (dmul (SendHongbao.leftmoney h) (d_of_Z 100)) = Ok cents →
  0 <= cents → 199 * cents < 2 ^ 31 →
  (∀ m n, 0 <= m <= cents →
     storable (MSendHongbao (robbed h m (SendHongbao.leftcount h - 1) (ReqRobHongbao.selfname req) (clock n)))) →
  ∃ early resp' w', rob_locked req resp (Some ml) (Some c) l w = Ok ((early, resp'), w') ∧
    busy nm c ml held w' ∧ rob_outcome req resp h cents db resp' (wdb w') early ∧ w_server w' = w_server w.
Proof.
  intros Hb Hdb (Hleft & _) Hcents Hc0 Hcmax Hst. unfold rob_locked. cbv zeta.
  edestruct (cache_run nm c ml held w (CacheConn.getpb (bytes_of (ReqRobHongbao.hongbaokey req))
    (MSendHongbao SendHongbao.empty : @Message IM_protobuf)) (wire (MSendHongbao h), MSendHongbao h : @Message IM_protobuf) ldb)
    as (w1 & E1 & Hb1 & Hdb1 & Hs1); [done| |].
  { rewrite Hdb. apply (getpb_does _ _ (MSendHongbao h : @Message IM_protobuf)).
    - fold (hb_key req). by rewrite lookup_insert_ne.
    - apply Hstore.
    - apply Hstore.
    - apply (unwire_wire (MSendHongbao h)). }
  rewrite (st_bind_run _ _ _ _ _ E1). cbv beta iota. cbn [as_SendHongbao].
  rewrite bool_decide_false by (destruct Hstore as [[Hlen _] _]; intros E0; rewrite E0 in Hlen; done).
  rewrite existsb_names. case_bool_decide as Hname.
  { destruct (unlock_back w1 Hb1 Hdb1) as (a & w2 & E2 & Hb2 & Hdb2 & Hs2).
    rewrite (st_bind_run _ _ _ _ _ E2). eexists _, _, w2. split; [reflexivity|].
    split; [done|]. rewrite Hdb2. split; [by apply rob_again|congruence]. }
  destruct (SendHongbao.leftcount h =? 0) eqn:El.
  { destruct (unlock_back w1 Hb1 Hdb1) as (a & w2 & E2 & Hb2 & Hdb2 & Hs2).
    rewrite (st_bind_run _ _ _ _ _ E2). eexists _, _, w2. split; [reflexivity|].
    split; [done|]. rewrite Hdb2. split; [apply rob_gone; [done|lia]|congruence]. }
  rewrite sN_small by (unfold in_sN; lia). rewrite Hcents. unfold lift.
  erewrite (st_bind_run _ _ w1 cents w1) by reflexivity.
  destruct (getRandomMoney_run cents (SendHongbao.leftcount h) w1) as (m & k & E2 & Hm & Hlast); [lia..|].
  rewrite (st_bind_run _ _ _ _ _ E2). rewrite El. cbn [negb].
  rewrite (st_bind_run _ _ _ _ _ (int_of_run (SendHongbao.leftcount h - 1) (set_ticks w1 k) ltac:(lia))).
  assert (busy nm c ml held (set_ticks w1 k)) as Hb2 by (by destruct Hb1 as [(pools & p & Hx) ? ?]; constructor; [exists pools, p|..]).
  destruct (time_run nm c ml held (set_ticks w1 k) Hb2) as (t & w3 & E3 & Hb3 & Hdb3 & Hs3).
  change (w_server (set_ticks w1 k)) with (w_server w1) in Hs3. rewrite (st_bind_run _ _ _ _ _ E3).
  set (h' := robbed h m (SendHongbao.leftcount h - 1) (ReqRobHongbao.selfname req) (clock t)).
  assert (wdb w3 = ldb) as Hdb3' by (by rewrite Hdb3).
  destruct (Hst m t Hm) as [Hlen' Htilde'].
  edestruct (cache_run nm c ml held w3 (CacheConn.setpb (bytes_of (ReqRobHongbao.hongbaokey req)) 86400
    (MSendHongbao h' : @Message IM_protobuf))) as (w4 & E4 & Hb4 & Hdb4 & Hs4); [done| |].
  { rewrite Hdb3'. apply setpb_does; [|done]. apply Hlen'. }
  rewrite (st_bind_run _ _ _ _ _ E4). fold (hb_key req) in Hdb4.
  destruct (sql_run nm c ml held w4 (Mysql.Execute (add_sql (yuan m) (ReqRobHongbao.selfname req))) Hb4 (total_Execute _) (Execute_safe _))
    as (a5 & w5 & E5 & Hb5 & Hdb5 & Hs5).
  rewrite (st_bind_run _ _ _ _ _ E5).
  edestruct (cache_run nm c ml held w5 (RedisLock.unlock l)) as (w6 & E6 & Hb6 & Hdb6 & Hs6); [done| |].
  { eapply unlock_does; [done|]. rewrite Hdb5, Hdb4, lookup_insert_ne by done. apply lookup_insert_eq. }
  rewrite (st_bind_run _ _ _ _ _ E6). eexists _, _, w6. split; [reflexivity|]. split; [done|]. split; [|congruence].
  rewrite Hdb6, Hdb5, Hdb4.
  rewrite insert_insert_ne by done. rewrite delete_insert_id by (by rewrite lookup_insert_ne).
  apply (rob_won req resp h cents db m (clock t)); [done|lia|done|].
  intros H1. apply Hlast. done.
Qed.
End Robbing.

(** C19 (functional). Opening a red packet whose record is in redis and whose lock is
    free, with a cache that answers, an idle redis connection and a MySQL connection to
    be had: the request returns, one of three answers is given (already taken, all
    gone, or a share of at most what is left, which is all of it when one share is
    left), the lock is free again, and the packet still lists every taker once and
    accounts for all its shares.  A request that is refused keeps the MySQL connection;
    one that is served gives both connections back. *)
Theorem rob_hongbao (req : ReqRobHongbao.t) (resp : RespRobHongbao.t) (h : SendHongbao.t) (cents : Z)
    (held : list nat) (w : W) :
  idle (shard (ReqRobHongbao.sender req)) w → sql_available held w →
  ReqRobHongbao.hongbaokey req ≠ ""%string → x00 ∉ bytes_of (ReqRobHongbao.hongbaokey req) →
  wdb w !! hb_key req = Some (packet h) → storable (MSendHongbao h) → packet_inv h →
  wdb w !! c_str (bytes_of (ReqRobHongbao.hongbaokey req +:+ "_Lock")) = None →
  d_to_sN 32 (dmul (SendHongbao.leftmoney h) (d_of_Z 100)) = Ok cents → 0 <= cents → 199 * cents < 2 ^ 31 →
  (∀ m n, 0 <= m <= cents →
     storable (MSendHongbao (robbed h m (SendHongbao.leftcount h - 1) (ReqRobHongbao.selfname req) (clock n)))) →
  ∃ resp' w' refused h', RobHongbao req resp w = Ok ((0, resp'), w') ∧
    rob_outcome req resp h cents (wdb w) resp' (wdb w') refused ∧
    wdb w' !! hb_key req = Some (packet h') ∧ packet_inv h' ∧
    wdb w' !! c_str (bytes_of (ReqRobHongbao.hongbaokey req +:+ "_Lock")) = None ∧
    ∃ held', ready (w_sql w') held' ∧ zlen held' = zlen held + (if refused then 1 else 0) ∧
      (refused = false → idle (shard (ReqRobHongbao.sender req)) w').
Proof.
  intros Hidle Hsql Hkey H0 Hrec Hstore Hinv Hfree Hcents Hc0 Hcmax Hst.
  set (nm := shard (ReqRobHongbao.sender req)) in *. set (l := RedisLock.make nm (ReqRobHongbao.hongbaokey req) 50000).
  assert (lock_key l ≠ hb_key req) as Hne by (by apply (lock_key_ne l)).
  unfold RobHongbao. rewrite bool_decide_false by done. fold nm. fold l.
  destruct (GetConnection_world held w Hsql) as (ml & s' & E1 & Hready).
  rewrite (st_bind_run _ _ _ _ _ E1).
  assert (idle nm (set_sql w s')) as Hidle1 by (destruct Hidle as (pools & p & Hx); by exists pools, p).
  rewrite (st_bind_run _ _ _ _ _ (getInstance_run _ (idle_manager _ _ Hidle1))).
  destruct (GetCacheConn_world _ _ Hidle1) as (c & w2 & E2 & Hlent & Hheap & Hs2 & _).
  rewrite (st_bind_run _ _ _ _ _ E2).
  assert (busy nm c ml (ml :: held) w2) as Hb2 by (constructor; [done|by rewrite Hs2|set_solver]).
  assert (wdb w2 = wdb w) as Hdb2 by (unfold wdb; by rewrite Hheap).
  destruct (time_run _ _ _ _ _ Hb2) as (now & w3 & E3 & Hb3 & Hdb3 & _). rewrite (st_bind_run _ _ _ _ _ E3).
  edestruct (cache_run nm c ml (ml :: held) w3 (RedisLock.lock (clock now) l)) as (w4 & E4 & Hb4 & Hdb4 & _); [done| |].
  { apply lock_does; [done|]. by rewrite Hdb3, Hdb2. }
  rewrite (st_bind_run _ _ _ _ _ E4). cbn [RedisLock.locked RedisLock.set_locked RedisLock.set_lockTimestamp].
  edestruct (rob_locked_run req resp h cents nm c ml (ml :: held)
    (RedisLock.set_lockTimestamp (RedisLock.set_locked l true) (expiry (clock now) l))
    (VString (s_of (expiry (clock now) l))) (wdb w) eq_refl Hfree Hne Hrec Hstore w4)
    as (early & resp' & w5 & E5 & Hb5 & Hout & _); [done| |done..|].
  { rewrite Hdb4, Hdb3, Hdb2. done. }
  rewrite (st_bind_run _ _ _ _ _ E5).
  assert (∃ h', wdb w5 !! hb_key req = Some (packet h') ∧ packet_inv h' ∧ wdb w5 !! lock_key l = None) as (h' & Hh' & Hinv' & Hl').
  { destruct Hout as [|? ?|m t Hname Hpos Hm _].
    - by exists h.
    - by exists h.
    - eexists. rewrite lookup_insert_eq, lookup_insert_ne by done. split; [reflexivity|]. split; [|done].
      by apply robbed_inv. }
  destruct early.
  - exists resp', w5, true, h'. split; [reflexivity|]. split_and!; try done.
    exists (ml :: held). split; [by apply Hb5|]. split; [zl|done].
  - destruct (release_both nm c ml held w5 _ (0, resp') Hb5) as (w6 & E6 & Hi6 & Hr6 & Hdb6 & _).
    exists resp', w6, false, h'. rewrite Hdb6. split; [exact E6|]. split_and!; try done.
    exists held. split; [done|]. split; [lia|done].
Qed.

(** The amount drawn for one share: between nothing and everything that is
    left, and everything for the last share, whatever the clock and the random number
    generator give; within the limit below nothing overflows. *)
Theorem getRandomMoney_bounds (cents n : Z) (w : W) :
  0 <= cents → 199 * cents < 2 ^ 31 → 1 <= n < 2 ^ 31 →
  ∃ m w', getRandomMoney cents n w = Ok (m, w') ∧ 0 <= m <= cents ∧ (n = 1 → m = cents).
Proof.
  intros H1 H2 H3. destruct (getRandomMoney_run cents n w H1 H2 H3) as (m & k & E & Hm). by eexists _, _.
Qed.

(** *** Sending a red packet *)

Definition packet_name (sender : string) (t : Z) : string := (sender +:+ "_" +:+ dec t +:+ "_HBcount")%string.

Lemma last_bytes_app s t b : last (bytes_of t) = Some b → last (bytes_of (s +:+ t)) = Some b.
Proof. intros H. by rewrite bytes_of_app, last_app, H. Qed.

(** The key of a packet is never that of a session (they end differently). *)
Lemma packet_not_session user t :
  x00 ∉ bytes_of user → c_str (bytes_of (packet_name user t)) ≠ session_key user.
Proof.
  intros Hu H. unfold session_key, packet_name in H.
  rewrite !c_str_no_nul in H.
  - assert (last (bytes_of (user +:+ "_session")) = last (bytes_of (user +:+ "_" +:+ dec t +:+ "_HBcount"))) as Hl
      by (by rewrite H).
    rewrite !bytes_of_app, !last_app in Hl. done.
  - rewrite bytes_of_app. apply not_elem_of_app. split; [done|]. by apply (bool_decide_unpack _).
  - rewrite !bytes_of_app, !not_elem_of_app. split_and!; try done; [|apply dec_no_nul|]; by apply (bool_decide_unpack _).
Qed.

(** C20 (functional). Sending a red packet, with the sender's session in the cache, a
    cache that answers and both pools able to lend: when the balance of the session
    does not exceed the amount, the answer is "money not enough", the database is as
    before and neither connection is given back.  Otherwise the answer is positive, the
    packet is entered under its key with all its money and shares, and both connections
    are given back; the session keeps the old balance, so the same balance is accepted
    again for the next packet. *)
Theorem send_hongbao (req : Hongbaoreq.t) (resp : HongbaoResp.t) (sess : Session.t) (held : list nat) (w : W) :
  let sender := Hongbaoreq.sender req in
  let enough := negb (dltb (dsub (UserInfo.money (Session.userinfo sess)) (Hongbaoreq.money req)) micro) in
  idle (shard sender) w → sql_available held w → x00 ∉ bytes_of sender →
  wdb w !! session_key sender = Some (VString (stored (MSession sess : @Message IM_protobuf))) →
  storable (MSession sess) → storable (MSendHongbao (new_hongbao req)) →
  (∀ key s, returns (gserver_runAfter (d_of_Z 6) key sender s)) →
  if enough then
    ∃ t w', let key := packet_name sender t in
      SendHongbao req resp w =
        Ok ((0, HongbaoResp.mk (Some key) (Some sender) (Some true) (Some "send ok"%string)), w') ∧
      wdb w' = <[c_str (bytes_of key) := packet (new_hongbao req)]> (wdb w) ∧
      wdb w' !! session_key sender = wdb w !! session_key sender ∧
      idle (shard sender) w' ∧ ready (w_sql w') held
  else
    ∃ w' ml, SendHongbao req resp w =
        Ok ((-1, HongbaoResp.set_description (HongbaoResp.set_isok resp false) "money not enough"), w') ∧
      wdb w' = wdb w ∧ ready (w_sql w') (ml :: held).
Proof.
  intros sender enough Hidle Hsql H0 Hsess Hst1 Hst2 Htimer. unfold SendHongbao. cbv zeta.
  change (SendHongbao.sender (new_hongbao req)) with sender.
  change (SendHongbao.money (new_hongbao req)) with (Hongbaoreq.money req).
  rewrite (st_bind_run _ _ _ _ _ (getInstance_run _ (idle_manager _ _ Hidle))).
  destruct (GetCacheConn_world _ _ Hidle) as (c & w1 & E1 & Hlent & Hheap & Hs1 & _).
  assert (wdb w1 = wdb w) as Hdb1 by (unfold wdb; by rewrite Hheap).
  rewrite (st_bind_run _ _ _ _ _ E1).
  edestruct (lent_cache (shard sender) c w1 (CacheConn.getpb (bytes_of (sender +:+ "_session"))
    (MSession Session.empty : @Message IM_protobuf)) (wire (MSession sess), MSession sess : @Message IM_protobuf) (wdb w))
    as (w2 & E2 & Hlent2 & Hdb2 & Hs2 & _); [done| |].
  { rewrite Hdb1. apply (getpb_does _ _ (MSession sess : @Message IM_protobuf)); [done|apply Hst1..|].
    apply (unwire_wire (MSession sess)). }
  rewrite (st_bind_run _ _ _ _ _ E2). cbn [as_Session].
  assert (sql_available held w2) as Hsql2 by (unfold sql_available in *; by rewrite Hs2, Hs1).
  destruct (GetConnection_world held w2 Hsql2) as (ml & s' & E3 & Hready). rewrite (st_bind_run _ _ _ _ _ E3).
  assert (busy (shard sender) c ml (ml :: held) (set_sql w2 s')) as Hb3.
  { constructor; [|done|set_solver]. destruct Hlent2 as (pools & p & Hx). by exists pools, p. }
  unfold enough. destruct (dltb _ micro); cbn [negb].
  { exists (set_sql w2 s'), ml. split; [reflexivity|]. split; [exact Hdb2|done]. }
  destruct (sql_run _ _ _ _ _ (Mysql.Execute (sub_sql (Hongbaoreq.money req) (UserInfo.name (Session.userinfo sess)))) Hb3
    (total_Execute _) (Execute_safe _)) as (a4 & w4 & E4 & Hb4 & Hdb4 & _). rewrite (st_bind_run _ _ _ _ _ E4).
  destruct (time_run _ _ _ _ _ Hb4) as (t & w5 & E5 & Hb5 & Hdb5 & _). rewrite (st_bind_run _ _ _ _ _ E5).
  exists (u32 (clock t)).
  edestruct (cache_run (shard sender) c ml (ml :: held) w5 (CacheConn.setpb (bytes_of (packet_name sender (u32 (clock t)))) 90000
    (MSendHongbao (new_hongbao req) : @Message IM_protobuf))) as (w6 & E6 & Hb6 & Hdb6 & _); [done| |].
  { apply setpb_does; [apply Hst2|done]. }
  unfold packet_name in E6. rewrite (st_bind_run _ _ _ _ _ E6).
  fold (packet_name sender (u32 (clock t))).
  destruct (sql_run _ _ _ _ _ (Mysql.Execute (hongbao_sql (packet_name sender (u32 (clock t))) (new_hongbao req))) Hb6
    (total_Execute _) (Execute_safe _)) as (a7 & w7 & E7 & Hb7 & Hdb7 & _). rewrite (st_bind_run _ _ _ _ _ E7).
  destruct (Htimer (packet_name sender (u32 (clock t))) (w_server w7)) as [sv Esv].
  unfold on_server at 1. erewrite (st_bind_run _ _ w7 () (set_server w7 sv)); [|cbv beta; rewrite Esv; reflexivity].
  assert (busy (shard sender) c ml (ml :: held) (set_server w7 sv)) as Hb8.
  { destruct Hb7 as [(pools & p & Hx) ? ?]. constructor; [by exists pools, p|done..]. }
  match goal with |- context [mret ?x] =>
    destruct (release_both _ _ _ _ _ _ x Hb8) as (w9 & E9 & Hi9 & Hr9 & Hdb9 & _) end.
  rewrite E9. exists w9.
  assert (wdb w9 = <[c_str (bytes_of (packet_name sender (u32 (clock t)))) := packet (new_hongbao req)]> (wdb w)) as Hdb.
  { rewrite Hdb9. change (wdb (set_server w7 sv)) with (wdb w7). rewrite Hdb7, Hdb6, Hdb5, Hdb4.
    change (wdb (set_sql w2 s')) with (wdb w2). by rewrite Hdb2. }
  split; [reflexivity|]. split; [done|]. split; [|done].
  rewrite Hdb. apply lookup_insert_ne. by apply packet_not_session.
Qed.
End Facts.

Section Witnesses.
Import ToyRedis ToyWire ToyWorld Business.

(** Two shares of five cents. *)
Definition toy_hb : SendHongbao.t :=
  SendHongbao.mk (Some "bob"%string) (Some (yuan 5)) (Some (yuan 5)) (Some 0) (Some 2) (Some 2) (Some "al"%string) [] (Some 0).
Definition toy_req : ReqRobHongbao.t :=
  ReqRobHongbao.mk (Some "hb"%string) (Some "bob"%string) (Some "al"%string).
Definition toy_db : database := {[bytes_of "hb" := packet toy_hb]}.

Lemma rob_hongbao_witness :
  ∃ resp' w' refused h', RobHongbao toy_req RespRobHongbao.empty (toy_world toy_db) = Ok ((0, resp'), w') ∧
    rob_outcome toy_req RespRobHongbao.empty toy_hb 5 (wdb (toy_world toy_db)) resp' (wdb w') refused ∧
    packet_inv h'.
Proof.
  destruct (rob_hongbao toy_req RespRobHongbao.empty toy_hb 5 [] (toy_world toy_db)) as (r & w' & b & h' & E & Ho & _ & Hi & _).
  - apply toy_idle.
  - apply toy_sql.
  - done.
  - by apply (bool_decide_unpack _).
  - apply lookup_singleton_eq.
  - apply toy_storable. vm_compute. reflexivity.
  - unfold packet_inv. vm_compute. split; [done|]. split; [done|constructor].
  - vm_compute. reflexivity.
  - vm_compute. reflexivity.
  - done.
  - done.
  - intros m n Hm. assert (m = 0 ∨ m = 1 ∨ m = 2 ∨ m = 3 ∨ m = 4 ∨ m = 5) as Hm6 by lia.
    destruct Hm6 as [->|[->|[->|[->|[->| ->]]]]]; apply toy_storable; vm_compute; reflexivity.
  - exists r, w', b, h'. split; [exact E|]. split; [exact Ho|exact Hi].
Defined.

Lemma getRandomMoney_bounds_witness :
  ∃ m w', getRandomMoney 1000 3 (toy_world ∅) = Ok (m, w') ∧ 0 <= m <= 1000 ∧ (3 = 1 → m = 1000).
Proof. apply (getRandomMoney_bounds 1000 3 (toy_world ∅)); lia. Defined.

Definition toy_session : Session.t :=
  Session.set_userinfo Session.empty (UserInfo.set_money (UserInfo.set_name UserInfo.empty "bob") (d_of_Z 100)).
Definition toy_hbreq : Hongbaoreq.t :=
  Hongbaoreq.set_count (Hongbaoreq.set_money (Hongbaoreq.set_sender Hongbaoreq.empty "bob") (d_of_Z 60)) 3.
Definition toy_sdb : database := {[session_key "bob" := VString (stored (MSession toy_session : @Message IM_protobuf))]}.

Lemma send_hongbao_witness :
  ∃ t w', SendHongbao toy_hbreq HongbaoResp.empty (toy_world toy_sdb) =
    Ok ((0, HongbaoResp.mk (Some (packet_name "bob" t)) (Some "bob"%string) (Some true) (Some "send ok"%string)), w').
Proof.
  destruct (send_hongbao toy_hbreq HongbaoResp.empty toy_session [] (toy_world toy_sdb)) as (t & w' & E & _).
  - apply toy_idle.
  - apply toy_sql.
  - by apply (bool_decide_unpack _).
  - apply lookup_singleton_eq.
  - apply toy_storable. vm_compute. reflexivity.
  - apply toy_storable. vm_compute. reflexivity.
  - intros key s. by eexists.
  - exists t, w'. exact E.
Defined.
End Witnesses.
