(* ===== verification/Accounts.v ===== *)
(** * The accounts of BaseBusiness.cc: registering, logging in, and the messages
    that wait for a user *)
From Stdlib Require Import Ascii SpecFloat.
From S2P Require Import Prelude Text State StdMap Comm ProtobufCodec Config Mysql MysqlLinkPool.
From S2P Require Import SqlAnswers CacheConn CachePool RedisLock IM Business.

Section Facts.
Context {R D S : Type} {HR : Hiredis R} {HL : HiredisLaws R} {HA : HiredisReliable R}.
Context {MC : MysqlClient D} {ML : MysqlClientLaws D} {SO : ServerOps S} {LC : Libc} {LL : LibcLaws LC}.
Context {IW : IMWire} {IL : IMWireLaws IW}.
Import Business.

Abbreviation W := (world R D S).

(** *** Logging in *)

(** The session made of the first row of a table. *)
Definition session_of (user : string) (get : string → string) : Session.t :=
  let text name := cs (get name) in
  let number name := atoi (bytes_of (text name)) in
  Session.mk (Some true) (Some (DJBHash (bytes_of user))) None (Some (shard user))
    (Some (UserInfo.mk (Some (number "id")) (Some (number "sex")) (Some (number "age"))
      (Some (text "name")) (Some (text "nick")) (Some (text "passwd")) (Some (text "email"))
      (Some (number "createtime")) (Some (number "updatetime")) (Some (text "sign_info"))
      (Some (atof (bytes_of (text "money"))))))%string.

(** A request that reads the result [fields], [rows] of its MySQL connection. *)
Record reading (ml : nat) (held : list nat) (fields : list string) (rows : list (list (option string))) (w : W) : Prop := {
  rd_sql : ready (w_sql w) held;
  rd_ml : ml ∈ held;
  rd_rep : ∃ p t, MysqlLinkPool.objs (w_sql w) !! ml = Some p ∧ rep p (Some t) ∧
                  t_fields t = fields ∧ t_rows t = rows
}.

Lemma field_run ml held fields rows name (w : W) :
  reading ml held fields rows w →
  ∃ s', field (Some ml) name w = Ok (cs (first_row fields rows name), set_sql w s') ∧
    reading ml held fields rows (set_sql w s').
Proof.
  intros [Hr Hml (p & t & Hp & Hrep & <- & <-)].
  destruct (GetField_first (MysqlLinkPool.lib (w_sql w), p) t name) as (p' & t' & E & Hu & Hrep' & Hf & Hrw);
    [by eapply ready_objs|done|].
  destruct (on_mysql_exact _ _ _ (Mysql.GetField 0 name) _ _ _ _ Hr Hml Hp E Hu) as (s' & Es & Hr' & Hp').
  exists s'. split.
  - unfold field, sql. rewrite run_bind_assoc, run_some. unfold on_linkpool.
    by erewrite (st_bind_run _ _ w); [|by eapply zoom_Ok].
  - split; [done..|]. exists p', t'. by split_and!.
Qed.

Lemma int_field_run ml held fields rows name (w : W) :
  reading ml held fields rows w →
  ∃ s', int_field (Some ml) name w = Ok (atoi (bytes_of (cs (first_row fields rows name))), set_sql w s') ∧
    reading ml held fields rows (set_sql w s').
Proof.
  intros H. destruct (field_run ml held fields rows name w H) as (s' & E & H'). exists s'. split; [|done].
  unfold int_field. by rewrite (st_bind_run _ _ _ _ _ E).
Qed.

Lemma login_session_run ml held fields rows user (w : W) :
  reading ml held fields rows w →
  ∃ s', login_session (Some ml) (DJBHash (bytes_of user)) (shard user) w
      = Ok (session_of user (first_row fields rows), set_sql w s') ∧
    reading ml held fields rows (set_sql w s').
Proof.
  intros H. unfold login_session.
  destruct (int_field_run _ _ _ _ "id" _ H) as (s1 & E1 & H1). rewrite (st_bind_run _ _ _ _ _ E1).
  destruct (int_field_run _ _ _ _ "sex" _ H1) as (s2 & E2 & H2). rewrite (st_bind_run _ _ _ _ _ E2).
  destruct (int_field_run _ _ _ _ "age" _ H2) as (s3 & E3 & H3). rewrite (st_bind_run _ _ _ _ _ E3).
  destruct (field_run _ _ _ _ "name" _ H3) as (s4 & E4 & H4). rewrite (st_bind_run _ _ _ _ _ E4).
  destruct (field_run _ _ _ _ "nick" _ H4) as (s5 & E5 & H5). rewrite (st_bind_run _ _ _ _ _ E5).
  destruct (field_run _ _ _ _ "passwd" _ H5) as (s6 & E6 & H6). rewrite (st_bind_run _ _ _ _ _ E6).
  destruct (field_run _ _ _ _ "email" _ H6) as (s7 & E7 & H7). rewrite (st_bind_run _ _ _ _ _ E7).
  destruct (int_field_run _ _ _ _ "createtime" _ H7) as (s8 & E8 & H8). rewrite (st_bind_run _ _ _ _ _ E8).
  destruct (int_field_run _ _ _ _ "updatetime" _ H8) as (s9 & E9 & H9). rewrite (st_bind_run _ _ _ _ _ E9).
  destruct (field_run _ _ _ _ "sign_info" _ H9) as (s10 & E10 & H10). rewrite (st_bind_run _ _ _ _ _ E10).
  destruct (field_run _ _ _ _ "money" _ H10) as (s11 & E11 & H11). rewrite (st_bind_run _ _ _ _ _ E11).
  exists s11. split; [reflexivity|]. exact H11.
Qed.

(** The query [q], sent on the connection that the pool [s] hands out: its result [z]. *)
Definition asked (q : string) (s : MysqlLinkPool.state D) (ml : nat) (z : Z) (s' : MysqlLinkPool.state D) : Prop :=
  ∃ s1, MysqlLinkPool.GetConnection s = Ok (Some ml, s1) ∧ MysqlLinkPool.on_mysql ml (Mysql.Query q) s1 = Ok (z, s').

(** The result that a connection holds. *)
Definition holds (s : MysqlLinkPool.state D) (ml : nat) (fields : list string) (rows : list (list (option string))) : Prop :=
  ∃ p t, MysqlLinkPool.objs s !! ml = Some p ∧ rep p (Some t) ∧ t_fields t = fields ∧ t_rows t = rows.

Lemma asked_det q s ml z s' ml' z' s'' :
  asked q s ml z s' → asked q s ml' z' s'' → ml = ml' ∧ z = z' ∧ s' = s''.
Proof. intros (s1 & E1 & E2) (s2 & F1 & F2). rewrite E1 in F1. injection F1 as -> ->. rewrite E2 in F2. by injection F2 as -> ->. Qed.

Lemma holds_det s ml fields rows fields' rows' :
  holds s ml fields rows → holds s ml fields' rows' → fields = fields' ∧ rows = rows'.
Proof.
  intros (p & t & Hp & Hrep & <- & <-) (p' & t' & Hp' & Hrep' & <- & <-). rewrite Hp in Hp'. injection Hp' as <-.
  unfold rep in *. destruct (Mysql.result p); [|done]. destruct Hrep as (-> & -> & _), Hrep' as (-> & -> & _). done.
Qed.

(** The three ways [Login] ends, by the result of its query in this very run: the query
    fails, or the connection holds an empty result, or it holds rows.  [s] is the pool of
    MySQL connections and [db] the database of redis, before. *)
Inductive login_outcome (login : Login.t) (s : MysqlLinkPool.state D) (db : database) : Z → string → database → Prop :=
  | login_error ml z s' :
      asked (login_sql (Login.username login) (Login.password login)) s ml z s' → z ≠ 0 →
      login_outcome login s db (-1) "server error" db
  | login_unmatched ml s' fields :
      asked (login_sql (Login.username login) (Login.password login)) s ml 0 s' → holds s' ml fields [] →
      answered (login_sql (Login.username login) (Login.password login)) fields [] →
      login_outcome login s db (-1) "Login failed! username or password not matched!" db
  | login_matched ml s' fields rows :
      asked (login_sql (Login.username login) (Login.password login)) s ml 0 s' → holds s' ml fields rows → rows ≠ [] →
      answered (login_sql (Login.username login) (Login.password login)) fields rows →
      login_outcome login s db 0 "Login success!"
        (<[session_key (Login.username login) := VString (stored
             (MSession (session_of (Login.username login) (first_row fields rows)) : @Message IM_protobuf))]> db).

(** The answer is positive exactly when the query succeeded with at least one row. *)
Lemma login_outcome_positive login s db z info db' :
  login_outcome login s db z info db' →
  (z = 0 ↔ ∃ ml s' fields rows, asked (login_sql (Login.username login) (Login.password login)) s ml 0 s' ∧
             holds s' ml fields rows ∧ rows ≠ []).
Proof.
  intros [ml q s' Ha Hq|ml s' fields Ha Hh _|ml s' fields rows Ha Hh Hne _]; split; try done.
  - intros (ml' & s'' & fields & rows & Ha' & _). by destruct (asked_det _ _ _ _ _ _ _ _ Ha Ha') as (_ & ? & _).
  - intros (ml' & s'' & fields' & rows & Ha' & Hh' & Hne).
    destruct (asked_det _ _ _ _ _ _ _ _ Ha Ha') as (<- & _ & <-). by destruct (holds_det _ _ _ _ _ _ Hh Hh') as [_ <-].
  - intros _. by exists ml, s', fields, rows.
Qed.

(** What follows a query that MySQL answered. *)
Lemma query_run ml held (w : W) q :
  ready (w_sql w) held → ml ∈ held →
  ∃ z s', sql (Some ml) (Mysql.Query q) w = Ok (z, set_sql w s') ∧
    MysqlLinkPool.on_mysql ml (Mysql.Query q) (w_sql w) = Ok (z, s') ∧ ready s' held ∧
    (z = 0 → ∃ fields rows, answered q fields rows ∧ reading ml held fields rows (set_sql w s')).
Proof.
  intros Hr Hml. destruct (inv_alive _ _ (ready_inv _ _ Hr) ml) as [p Hp]; [set_solver|].
  destruct (ready_objs _ _ Hr _ _ Hp) as [Hsh [t Ht]].
  destruct (total_Query q (MysqlLinkPool.lib (w_sql w), p) Hsh) as (z & [d' p'] & E & Hsh').
  destruct (Query_safe q _ _ _ E) as [t' Ht']; [by exists t|].
  destruct (on_mysql_exact _ _ _ _ _ _ _ _ Hr Hml Hp E) as (s' & Es & Hr' & Hp'); [by split; [|exists t']|].
  exists z, s'. split; [|split; [done|split; [done|]]].
  - unfold sql. rewrite run_some. unfold on_linkpool. by apply (zoom_Ok _ (λ s w, set_sql w s)).
  - intros ->. destruct (Query_answered q (MysqlLinkPool.lib (w_sql w), p) t _ Ht E) as (fields & rows & Ha & Hrep).
    exists fields, rows. split; [done|]. split; [done..|]. by eexists p', _.
Qed.

Lemma record_count_run ml held fields rows (w : W) :
  reading ml held fields rows w →
  sql (Some ml) (gets (λ s, Mysql.GetRecordCount s.2)) w = Ok (zlen rows, w).
Proof.
  intros [Hr Hml (p & t & Hp & (r & Hres & _ & Hrows & _ & Hn & _)%rep_Some & _ & <-)].
  unfold sql. rewrite run_some. unfold on_linkpool, zoom. rewrite (on_mysql_run ml _ _ p (Mysql.GetRecordCount p) (MysqlLinkPool.lib (w_sql w)) p Hp eq_refl).
  cbn. unfold Mysql.GetRecordCount. rewrite Hn, Hrows. do 2 f_equal.
  destruct w as [? ? ? [] ? ?]. cbn in *. by rewrite insert_id.
Qed.

Lemma lent_sql name c (w : W) s : lent name c w → lent name c (set_sql w s).
Proof. intros (pools & p & H). by exists pools, p. Qed.
Lemma idle_sql name (w : W) s : idle name w → idle name (set_sql w s).
Proof. intros (pools & p & H). by exists pools, p. Qed.

Lemma release_sql ml held (w : W) A (a : A) :
  ready (w_sql w) (ml :: held) →
  ∃ s', (ReleaseConnection (Some ml);; mret a) w = Ok (a, set_sql w s') ∧ ready s' held.
Proof.
  intros Hr. destruct (Release_ready _ _ _ Hr) as (s' & E & Hr' & _). exists s'. split; [|done].
  unfold ReleaseConnection, on_linkpool. by erewrite (st_bind_run _ _ w); [|by eapply zoom_Ok].
Qed.

Lemma GetConnection_pool (w : W) o s :
  GetConnection w = Ok (o, set_sql w s) → MysqlLinkPool.GetConnection (w_sql w) = Ok (o, s).
Proof.
  unfold GetConnection, on_linkpool, zoom. destruct (MysqlLinkPool.GetConnection (w_sql w)) as [[o' s']|]; [|done].
  cbn. intros [= -> ->]. done.
Qed.

Lemma reading_holds ml held fields rows (w : W) : reading ml held fields rows w → holds (w_sql w) ml fields rows.
Proof. by intros []. Qed.

(** The store of the session and the return of both connections. *)
Lemma login_success user ml held fields rows (w : W) A (k : option nat → A) :
  idle (shard user) w → reading ml (ml :: held) fields rows w →
  storable (MSession (session_of user (first_row fields rows))) →
  ∃ c w', ((pCacheConn ← GetCacheConn (D := D) (S := S) (shard user);
      match pCacheConn with
      | None => mret (k None)
      | Some _ =>
          session ← login_session (D := D) (S := S) (Some ml) (DJBHash (bytes_of user)) (shard user);
          cache (D := D) (S := S) pCacheConn (CacheConn.setpb (bytes_of (user +:+ "_session")) (86400 * 2) (MSession session : Message));;
          mret (k pCacheConn)
      end) : st W A) w = Ok (k (Some c), w') ∧
    busy (shard user) c ml (ml :: held) w' ∧ w_server w' = w_server w ∧
    wdb w' = <[session_key user := VString (stored
      (MSession (session_of user (first_row fields rows)) : @Message IM_protobuf))]> (wdb w).
Proof.
  intros Hidle Hrd Hst. destruct (GetCacheConn_world _ _ Hidle) as (c & w1 & E1 & Hl1 & Hh1 & Hs1 & Hsv1).
  rewrite (st_bind_run _ _ _ _ _ E1).
  assert (reading ml (ml :: held) fields rows w1) as Hrd1 by (destruct Hrd; split; rewrite ?Hs1; done).
  destruct (login_session_run _ _ _ _ user _ Hrd1) as (s2 & E2 & Hrd2). rewrite (st_bind_run _ _ _ _ _ E2).
  assert (busy (shard user) c ml (ml :: held) (set_sql w1 s2)) as Hb2.
  { split; [by apply lent_sql|apply Hrd2|set_solver]. }
  edestruct (cache_run (shard user) c ml (ml :: held) (set_sql w1 s2) (CacheConn.setpb (bytes_of (user +:+ "_session"))
    (86400 * 2) (MSession (session_of user (first_row fields rows)) : @Message IM_protobuf))) as (w3 & E3 & Hb3 & Hdb3 & Hsv3);
    [done|apply setpb_does; [apply Hst|done]|].
  rewrite (st_bind_run _ _ _ _ _ E3). exists c, w3. split; [reflexivity|]. split; [done|].
  split; [rewrite Hsv3; exact Hsv1|]. rewrite Hdb3. unfold wdb. cbn. by rewrite Hh1.
Qed.

(** [Login], with a MySQL connection and a redis connection to be had and a cache that answers. *)
Lemma login_ends (login : Login.t) (resp : Response.t) (held : list nat) (w : W) :
  idle (shard (Login.username login)) w → sql_available held w →
  (∀ fields rows, answered (login_sql (Login.username login) (Login.password login)) fields rows → rows ≠ [] →
     storable (MSession (session_of (Login.username login) (first_row fields rows)))) →
  ∃ z info w', Login login resp w =
      Ok ((z, Response.set_description (Response.set_result resp (z =? 0)) info), w') ∧
    login_outcome login (w_sql w) (wdb w) z info (wdb w') ∧
    idle (shard (Login.username login)) w' ∧ ready (w_sql w') held ∧ w_server w' = w_server w.
Proof.
  set (user := Login.username login). intros Hidle Hsql Hst. unfold Login.
  destruct (GetConnection_world held w Hsql) as (ml & s1 & E1 & Hr1). rewrite (st_bind_run _ _ _ _ _ E1).
  set (w1 := set_sql w s1). assert (idle (shard user) w1) as Hi1 by by apply idle_sql.
  rewrite (st_bind_run _ _ _ _ _ (getInstance_run w1 (idle_manager _ _ Hi1))).
  rewrite bool_decide_false by done. cbn [orb negb].
  destruct (query_run ml (ml :: held) w1 (login_sql user (Login.password login)) Hr1) as (z & s2 & E2 & F2 & Hr2 & Hz);
    [set_solver|]. fold user. rewrite !run_bind_assoc, (st_bind_run _ _ _ _ _ E2).
  assert (asked (login_sql user (Login.password login)) (w_sql w) ml z s2) as Hask.
  { exists s1. split; [by apply GetConnection_pool|exact F2]. }
  assert (∀ info, ∃ w', (RelCacheConn None;; ReleaseConnection (Some ml);;
      mret (-1, Response.set_description (Response.set_result resp false) info)) (set_sql w1 s2)
      = Ok ((-1, Response.set_description (Response.set_result resp false) info), w') ∧
      wdb w' = wdb w ∧ idle (shard user) w' ∧ ready (w_sql w') held ∧ w_server w' = w_server w) as Hfail.
  { intros info. destruct Hidle as (pools & p & Hm & Hp). unfold RelCacheConn, on_manager.
    erewrite (st_bind_run _ _ _ () (set_sql w1 s2)); [|cbn; rewrite Hm; destruct w; cbn in *; by subst].
    destruct (release_sql ml held (set_sql w1 s2) _ (-1, Response.set_description (Response.set_result resp false) info) Hr2)
      as (s3 & E3 & Hr3). rewrite E3. eexists. split; [reflexivity|]. split; [done|]. split; [by exists pools, p|done]. }
  destruct (z =? 0) eqn:Ez; cbn [negb].
  2:{ rewrite run_mret. destruct (Hfail "server error"%string) as (w' & E & Hdb & Hrest).
      exists (-1), "server error"%string, w'. split; [exact E|]. rewrite Hdb. split; [eapply login_error; [exact Hask|by apply Z.eqb_neq]|done]. }
  apply Z.eqb_eq in Ez as ->. destruct (Hz eq_refl) as (fields & rows & Ha & Hrd).
  rewrite run_bind_assoc, (st_bind_run _ _ _ _ _ (record_count_run _ _ _ _ _ Hrd)).
  destruct (zlen rows =? 0) eqn:En.
  { apply Z.eqb_eq, zlen_0 in En as ->. rewrite run_mret.
    destruct (Hfail "Login failed! username or password not matched!"%string) as (w' & E & Hdb & Hrest).
    eexists _, _, w'. split; [exact E|]. rewrite Hdb. split; [eapply login_unmatched; [exact Hask|exact (reading_holds _ _ _ _ _ Hrd)|done]|done]. }
  assert (rows ≠ []) as Hne by (intros ->; done).
  destruct (login_success user ml held fields rows (set_sql w1 s2) _ (λ c, (true, "Login success!"%string, c)))
    as (c & w3 & E3 & Hb3 & Hsv3 & Hdb3); [by apply idle_sql|done|by apply Hst|].
  rewrite (st_bind_run _ _ _ _ _ E3).
  destruct (release_both _ _ _ _ _ _ (0, Response.set_description (Response.set_result resp true) "Login success!") Hb3)
    as (w4 & E4 & Hi4 & Hr4 & Hdb4 & Hsv4).
  eexists _, _, w4. split; [exact E4|]. rewrite Hdb4, Hdb3. split; [eapply login_matched; [exact Hask|exact (reading_holds _ _ _ _ _ Hrd)|done|done]|]. by rewrite Hsv4, Hsv3.
Qed.

(** C17 (functional). Logging in, with a MySQL connection and a redis connection to be
    had and a cache that answers: the request returns and gives both connections back.
    The answer is positive exactly when, in this very run, the query for the name and the
    password succeeds on the connection taken from the pool and leaves it holding at least
    one row; then the session stored under the user's key is that of the first row.  When
    the query fails the text is "server error", when it has no row the text says that they
    do not match, and nothing is stored. *)
Theorem login_authenticates (login : Login.t) (resp : Response.t) (held : list nat) (w : W) :
  idle (shard (Login.username login)) w → sql_available held w →
  (∀ fields rows, answered (login_sql (Login.username login) (Login.password login)) fields rows → rows ≠ [] →
     storable (MSession (session_of (Login.username login) (first_row fields rows)))) →
  ∃ z info w', Login login resp w =
      Ok ((z, Response.set_description (Response.set_result resp (z =? 0)) info), w') ∧
    login_outcome login (w_sql w) (wdb w) z info (wdb w') ∧
    (z = 0 ↔ ∃ ml s' fields rows,
       asked (login_sql (Login.username login) (Login.password login)) (w_sql w) ml 0 s' ∧
       holds s' ml fields rows ∧ rows ≠ []) ∧
    idle (shard (Login.username login)) w' ∧ ready (w_sql w') held ∧ w_server w' = w_server w.
Proof.
  intros Hidle Hsql Hst. destruct (login_ends login resp held w Hidle Hsql Hst) as (z & info & w' & E & Ho & Hrest).
  exists z, info, w'. split; [done|]. split; [done|]. split; [|done]. by eapply login_outcome_positive.
Qed.

(** *** Registering a name that is taken *)

(** The name check, which takes a connection of its own and gives it back: [free] says
    whether its query succeeded with no row. *)
Definition checked (info : Register.t) (s : MysqlLinkPool.state D) (free : bool) (s' : MysqlLinkPool.state D) : Prop :=
  ∃ ml q s1, asked (check_sql (Register.username info)) s ml q s1 ∧
    (free = true ↔ q = 0 ∧ ∃ fields, holds s1 ml fields [] ∧ answered (check_sql (Register.username info)) fields []) ∧
    MysqlLinkPool.ReleaseConnection (Some ml) s1 = Ok ((), s').

Lemma CheckDuplication_run info held (w : W) :
  sql_available held w →
  ∃ dup s', CheckDuplication info w = Ok (dup, set_sql w s') ∧ ready s' held ∧ checked info (w_sql w) (dup =? 0) s'.
Proof.
  intros Hsql. unfold CheckDuplication.
  destruct (GetConnection_world held w Hsql) as (ml & s1 & E1 & Hr1). rewrite (st_bind_run _ _ _ _ _ E1).
  destruct (query_run ml (ml :: held) (set_sql w s1) (check_sql (Register.username info)) Hr1)
    as (z & s2 & E2 & F2 & Hr2 & Hz); [set_solver|].
  assert (asked (check_sql (Register.username info)) (w_sql w) ml z s2) as Hask.
  { exists s1. split; [by apply GetConnection_pool|exact F2]. }
  rewrite run_bind_assoc, (st_bind_run _ _ _ _ _ E2).
  destruct (Release_ready _ _ _ Hr2) as (s3 & E3 & Hr3 & _).
  assert (∀ dup : Z, (ReleaseConnection (Some ml);; mret dup) (set_sql (set_sql w s1) s2) = Ok (dup, set_sql w s3)) as Hend.
  { intros dup. unfold ReleaseConnection, on_linkpool. by erewrite (st_bind_run _ _ (set_sql (set_sql w s1) s2)); [|by eapply zoom_Ok]. }
  destruct (z =? 0) eqn:Ez; cbn [negb].
  - apply Z.eqb_eq in Ez as ->. destruct (Hz eq_refl) as (fields & rows & Ha & Hrd).
    rewrite run_bind_assoc, (st_bind_run _ _ _ _ _ (record_count_run _ _ _ _ _ Hrd)), run_mret, Hend.
    eexists _, s3. split; [done|]. split; [done|]. exists ml, 0, s2. split; [done|]. split; [|done].
    pose proof (reading_holds _ _ _ _ _ Hrd) as Hh. zpos. destruct (0 <? zlen rows) eqn:En; (split; [intros ?|intros (_ & f & Hf & _)]); try done.
    + destruct (holds_det _ _ _ _ _ _ Hh Hf) as [_ ->]. done.
    + split; [done|]. exists fields. rewrite (zlen_0 rows) in Ha, Hh by lia. done.
  - rewrite run_mret, Hend. exists (-1), s3. split; [done|]. split; [done|]. exists ml, z, s2. split; [done|]. split; [|done].
    apply Z.eqb_neq in Ez. split; [done|]. by intros [? _].
Qed.

(** The three ways [Register] ends, on the pool [s] of MySQL connections. *)
Inductive register_outcome (info : Register.t) (s : MysqlLinkPool.state D) : Z → MysqlLinkPool.state D → Prop :=
  | register_repeated ml s1 s2 s' :
      MysqlLinkPool.GetConnection s = Ok (Some ml, s1) → checked info s1 false s2 →
      MysqlLinkPool.ReleaseConnection (Some ml) s2 = Ok ((), s') →
      register_outcome info s 0 s'
  | register_inserted ml s1 s2 s3 s' :
      MysqlLinkPool.GetConnection s = Ok (Some ml, s1) → checked info s1 true s2 →
      MysqlLinkPool.on_mysql ml (Mysql.Execute (register_sql info (d_of_Z 10000))) s2 = Ok (0, s3) →
      MysqlLinkPool.ReleaseConnection (Some ml) s3 = Ok ((), s') →
      register_outcome info s 0 s'
  | register_failed ml s1 s2 e s3 s' :
      MysqlLinkPool.GetConnection s = Ok (Some ml, s1) → checked info s1 true s2 →
      MysqlLinkPool.on_mysql ml (Mysql.Execute (register_sql info (d_of_Z 10000))) s2 = Ok (e, s3) → e ≠ 0 →
      MysqlLinkPool.ReleaseConnection (Some ml) s3 = Ok ((), s') →
      register_outcome info s (-1) s'.

(** C35 (error). A taken name is not refused.  With two MySQL connections to be had, a
    registration returns, gives both back, and its description is always empty, because
    the texts meant for it are assigned to the [bool] result.  The answer is negative
    exactly when the name check of this run succeeded with no row and the insert that
    followed it failed.  After a name check that finds the name, or that fails, nothing
    is executed and the answer is that of a success. *)
Theorem register_answers (info : Register.t) (resp : Response.t) (held : list nat) (w : W) :
  sql_available held w → zlen held + 1 < MysqlLinkPool.maxSize (MysqlLinkPool.pool (w_sql w)) →
  ∃ z s', Business.Register info resp w =
      Ok ((z, Response.set_description (Response.set_result resp (z =? 0)) ""), set_sql w s') ∧
    ready s' held ∧ register_outcome info (w_sql w) z s'.
Proof.
  intros Hsql Hmax. unfold Register.
  destruct (GetConnection_world held w Hsql) as (ml & s1 & E1 & Hr1). rewrite (st_bind_run _ _ _ _ _ E1).
  apply GetConnection_pool in E1.
  assert (MysqlLinkPool.maxSize (MysqlLinkPool.pool s1) = MysqlLinkPool.maxSize (MysqlLinkPool.pool (w_sql w))) as Hms.
  { eapply (step_maxSize (w_sql w, held) (s1, ml :: held)). by eapply (step_get _ _ _ (Some ml)). }
  destruct (CheckDuplication_run info (ml :: held) (set_sql w s1)) as (dup & s2 & E2 & Hr2 & Hdup).
  { split; [done|]. right. cbn [w_sql set_sql]. rewrite Hms. zl. }
  rewrite (st_bind_run _ _ _ _ _ E2). destruct (dup =? 0) eqn:Ed; cbn [negb].
  - rewrite run_bind_assoc.
    destruct (on_mysql_ready s2 (ml :: held) ml (Mysql.Execute (register_sql info (d_of_Z 10000))) Hr2)
      as (e & s3 & E3 & Hr3); [set_solver|apply total_Execute|apply Execute_safe|].
    assert (sql (Some ml) (Mysql.Execute (register_sql info (d_of_Z 10000))) (set_sql (set_sql w s1) s2)
      = Ok (e, set_sql w s3)) as E3'.
    { unfold sql. rewrite run_some. unfold on_linkpool, zoom. change (w_sql _) with s2. by rewrite E3. }
    rewrite (st_bind_run _ _ _ _ _ E3').
    destruct (Release_ready _ _ _ Hr3) as (s4 & E4 & Hr4 & _).
    destruct (e =? 0) eqn:Ee; rewrite run_mret; unfold ReleaseConnection, on_linkpool;
      (erewrite (st_bind_run _ _ (set_sql w s3)); [|by eapply zoom_Ok]);
      [exists 0, s4|exists (-1), s4]; (split; [reflexivity|]); (split; [done|]).
    + apply Z.eqb_eq in Ee as ->. by eapply register_inserted.
    + apply Z.eqb_neq in Ee. by eapply register_failed.
  - rewrite run_mret. destruct (Release_ready _ _ _ Hr2) as (s4 & E4 & Hr4 & _).
    unfold ReleaseConnection, on_linkpool. erewrite (st_bind_run _ _ (set_sql w s2)); [|by eapply zoom_Ok].
    exists 0, s4. split; [reflexivity|]. split; [done|]. by eapply register_repeated.
Qed.

(** *** Messages for users who are away *)

Definition message_key (user : string) : list byte := c_str (bytes_of (user +:+ "_message")).

Lemma cacheMessage_run user (m : im_message) l (w : W) :
  idle (shard user) w → list_at (message_key user) (wdb w) l →
  ∃ w', cacheMessage user m w = Ok (0, w') ∧ idle (shard user) w' ∧ w_server w' = w_server w ∧
    wdb w' = <[message_key user := VList (map escape (wire m) :: l)]> (wdb w).
Proof.
  intros Hidle Hl. unfold cacheMessage.
  rewrite (st_bind_run _ _ _ _ _ (getInstance_run _ (idle_manager _ _ Hidle))).
  destruct (GetCacheConn_world _ _ Hidle) as (c & w1 & E1 & Hlent & Hheap & _ & Hsv).
  rewrite (st_bind_run _ _ _ _ _ E1). cbv zeta. rewrite run_bind_assoc.
  unfold lift. rewrite replaceFromZero_all.
  erewrite (st_bind_run _ _ w1 (map escape (wire m)) w1) by reflexivity. rewrite run_bind_assoc.
  edestruct (lent_cache (shard user) c w1 (CacheConn.lpush (bytes_of (user +:+ "_message")) (map escape (wire m))))
    as (w2 & E2 & Hlent2 & Hdb2 & _ & Hsv2); [done| |].
  { apply lpush_does. unfold wdb. rewrite Hheap. exact Hl. }
  rewrite (st_bind_run _ _ _ _ _ E2), run_mret.
  destruct (RelCacheConn_world _ _ _ Hlent2) as (w3 & E3 & Hi3 & _ & Hdb3 & Hsv3).
  rewrite (st_bind_run _ _ _ _ _ E3). exists w3. split; [reflexivity|]. split; [done|]. split; [congruence|].
  rewrite Hdb3, Hdb2. unfold wdb. rewrite Hheap, (c_str_no_nul (map escape (wire m))) by apply map_escape_no_nul. done.
Qed.

(** Several messages cached one after the other. *)
Fixpoint cache_all (user : string) (msgs : list SingleChat.t) : st W (list Z) :=
  match msgs with
  | [] => mret []
  | m :: msgs' => r ← cacheMessage user (MSingleChat m); rs ← cache_all user msgs'; mret (r :: rs)
  end.

Lemma cache_all_run user msgs l (w : W) :
  idle (shard user) w → list_at (message_key user) (wdb w) l →
  ∃ w', cache_all user msgs w = Ok (map (λ _, 0) msgs, w') ∧ idle (shard user) w' ∧ w_server w' = w_server w ∧
    list_at (message_key user) (wdb w') (map (λ m, map escape (wire (MSingleChat m))) (reverse msgs) ++ l).
Proof.
  revert l w. induction msgs as [|m msgs IH]; intros l w Hidle Hl; cbn [cache_all]; [by exists w|].
  destruct (cacheMessage_run user (MSingleChat m) l w Hidle Hl) as (w1 & E1 & Hi1 & Hs1 & Hdb1).
  rewrite (st_bind_run _ _ _ _ _ E1).
  destruct (IH (map escape (wire (MSingleChat m)) :: l) w1 Hi1) as (w2 & E2 & Hi2 & Hs2 & Hl2).
  { unfold list_at. by rewrite Hdb1, lookup_insert_eq. }
  rewrite (st_bind_run _ _ _ _ _ E2). exists w2. split; [reflexivity|]. split; [done|]. split; [congruence|].
  rewrite reverse_cons, map_app, <-app_assoc. exact Hl2.
Qed.

(** The server sending messages one after the other. *)
Fixpoint send_all (user : string) (msgs : list SingleChat.t) (s : S) : res S :=
  match msgs with
  | [] => Ok s
  | m :: msgs' => s' ← gserver_send user (MSingleChat m) s; send_all user msgs' s'
  end.

Lemma send_loop_run user msgs ret (w : W) s' :
  Forall (λ m, tilde ∉ wire (MSingleChat m)) msgs → send_all user msgs (w_server w) = Ok s' →
  send_loop user (map (λ m, map escape (wire (MSingleChat m))) msgs) ret w = Ok (ret, set_server w s').
Proof.
  revert w. induction msgs as [|m msgs IH]; intros w Hall Hs; cbn [map send_loop send_all] in *.
  - injection Hs as <-. by destruct w.
  - apply Forall_cons in Hall as [Hm Hall]. rewrite (proj2 (replaceToZero_map_escape _) Hm).
    pose proof (unwire_wire (MSingleChat m)) as Hu. cbn [type_of empty_of] in Hu. rewrite Hu.
    apply bind_Ok in Hs as (s1 & E & Hs). unfold on_server.
    erewrite (st_bind_run _ _ w () (set_server w s1)); [|cbn; by rewrite E].
    rewrite IH by done. by destruct w.
Qed.

(** The list of the cached messages [msgs], the newest first. *)
Abbreviation cached msgs := (map (λ m, map escape (wire (MSingleChat m))) msgs).

Lemma sendCacheMessage_run user msgs (w : W) s' :
  idle (shard user) w → list_at (message_key user) (wdb w) (cached msgs) →
  Forall (λ m, tilde ∉ wire (MSingleChat m)) msgs → send_all user msgs (w_server w) = Ok s' →
  ∃ w', sendCacheMessage user w = Ok (0, w') ∧ w_server w' = s' ∧ wdb w' = wdb w ∧
    w_sql w' = w_sql w ∧ idle (shard user) w'.
Proof.
  intros Hidle Hl Hall Hsend. unfold sendCacheMessage.
  destruct (GetCacheConn_world _ _ Hidle) as (c & w2 & E2 & Hlent & Hheap & Hs2 & Hsv).
  assert (wdb w2 = wdb w) as Hdb2 by (unfold wdb; by rewrite Hheap).
  edestruct (lent_cache (shard user) c w2 (CacheConn.lrange (bytes_of (user +:+ "_message")) 0 (-1) []))
    as (w3 & E3 & Hlent3 & Hdb3 & Hs3 & Hsv3); [done| |].
  { apply lrange_all_does. rewrite Hdb2. exact Hl. }
  assert (send_loop user (cached msgs) 0 w3 = Ok (0, set_server w3 s')) as E4.
  { apply send_loop_run; [done|]. congruence. }
  assert (lent (shard user) c (set_server w3 s')) as Hlent4 by (destruct Hlent3 as (pools & p & Hx); by exists pools, p).
  destruct (RelCacheConn_world _ _ _ Hlent4) as (w5 & E5 & Hi5 & Hs5 & Hdb5 & Hsv5).
  exists w5. split.
  - rewrite (st_bind_run _ _ _ _ _ (getInstance_run _ (idle_manager _ _ Hidle))).
    rewrite (st_bind_run _ _ _ _ _ E2). cbv zeta. rewrite run_bind_assoc, (st_bind_run _ _ _ _ _ E3). cbv beta iota.
    rewrite (st_bind_run _ _ _ _ _ E4), (st_bind_run _ _ _ _ _ E5). reflexivity.
  - split; [by rewrite Hsv5|]. split; [rewrite Hdb5; unfold wdb in *; cbn; congruence|].
    split; [rewrite Hs5; cbn; congruence|done].
Qed.

(** Messages cached for a user who is away, with a cache that
    answers: every one of them is stored, and at login [sendCacheMessage] hands the
    server all of them, the newest first; the list stays in redis, so that each later
    login sends them again.  (Messages must hold no ['~'].) *)
Theorem offline_messages (user : string) (msgs : list SingleChat.t) (w : W) (s' : S) :
  idle (shard user) w → list_at (message_key user) (wdb w) [] →
  Forall (λ m, tilde ∉ wire (MSingleChat m)) msgs →
  send_all user (reverse msgs) (w_server w) = Ok s' →
  ∃ w1 w2, cache_all user msgs w = Ok (map (λ _, 0) msgs, w1) ∧
    sendCacheMessage user w1 = Ok (0, w2) ∧ w_server w2 = s' ∧ wdb w2 = wdb w1 ∧
    list_at (message_key user) (wdb w2) (map (λ m, map escape (wire (MSingleChat m))) (reverse msgs)).
Proof.
  intros Hidle Hl Hall Hsend.
  destruct (cache_all_run user msgs [] w Hidle Hl) as (w1 & E1 & Hi1 & Hs1 & Hl1). rewrite app_nil_r in Hl1.
  destruct (sendCacheMessage_run user (reverse msgs) w1 s' Hi1 Hl1) as (w2 & E2 & Hs2 & Hdb2 & _);
    [by apply Forall_reverse|congruence|].
  exists w1, w2. rewrite Hdb2. by split_and!.
Qed.
End Facts.

Section Witnesses.
Import ToyRedis ToyWire ToyWorld Business.

(** Every name is taken, for the toy server answers with three rows. *)
Definition toy_taken : Register.t := Register.set_username Register.empty "alice".

Lemma toy_never_free s s' : ¬ checked (D := nat) toy_taken s true s'.
Proof.
  intros (ml & q & s1 & _ & [Hf _] & _). destruct (Hf eq_refl) as (_ & fields & _ & Ha).
  destruct Ha as (d & h & d1 & h1 & d2 & h2 & r & _ & Hs & _ & Hrows).
  injection Hs as <- _ _. vm_compute in Hrows. discriminate.
Qed.

Lemma register_answers_witness :
  ∃ s' s1 s2, Business.Register toy_taken Response.empty (toy_world ∅)
    = Ok ((0, Response.set_description (Response.set_result Response.empty true) ""), set_sql (toy_world ∅) s') ∧
    checked toy_taken s1 false s2.
Proof.
  destruct (register_answers toy_taken Response.empty [] (toy_world ∅) (toy_sql ∅)) as (z & s' & E & _ & Ho).
  - vm_compute. reflexivity.
  - destruct Ho as [ml s1 s2 s' _ Hc _|ml s1 s2 s3 s' _ Hc _ _|ml s1 s2 e s3 s' _ Hc _ _ _].
    + exists s', s1, s2. split; [exact E|exact Hc].
    + destruct (toy_never_free _ _ Hc).
    + destruct (toy_never_free _ _ Hc).
Defined.

Definition toy_login : Login.t := Login.set_username Login.empty "bob".

Lemma login_authenticates_witness :
  ∃ z info w', Business.Login toy_login Response.empty (toy_world ∅) =
      Ok ((z, Response.set_description (Response.set_result Response.empty (z =? 0)) info), w') ∧
    login_outcome toy_login (w_sql (toy_world ∅)) (wdb (toy_world ∅)) z info (wdb w').
Proof.
  destruct (login_authenticates toy_login Response.empty [] (toy_world ∅)) as (z & info & w' & E & Ho & _).
  - apply toy_idle.
  - apply toy_sql.
  - intros fields rows (d & h & d1 & h1 & d2 & h2 & r & _ & Hs & <- & <-) _. injection Hs as <- _ _.
    apply toy_storable. vm_compute. reflexivity.
  - exists z, info, w'. split; [exact E|exact Ho].
Defined.

Definition toy_chat (s : string) : SingleChat.t := SingleChat.set_message SingleChat.empty s.

Lemma offline_messages_witness :
  ∃ w1 w2, cache_all "bob" [toy_chat "a"; toy_chat "b"] (toy_world ∅) = Ok ([0; 0], w1) ∧
    sendCacheMessage "bob" w1 = Ok (0, w2) ∧
    sent (w_server w2) = [("bob", MSingleChat (toy_chat "b")); ("bob", MSingleChat (toy_chat "a"))]%string.
Proof.
  destruct (offline_messages "bob" [toy_chat "a"; toy_chat "b"] (toy_world ∅)
    (ToyServer [("bob", MSingleChat (toy_chat "b")); ("bob", MSingleChat (toy_chat "a"))]%string []))
    as (w1 & w2 & E1 & E2 & Hs & _).
  - apply toy_idle.
  - vm_compute. reflexivity.
  - repeat constructor; apply toy_storable; vm_compute; reflexivity.
  - reflexivity.
  - exists w1, w2. split; [exact E1|]. split; [exact E2|]. by rewrite Hs.
Defined.

End Witnesses.
