(* ===== verification/Connection.v ===== *)
(** * What the server and the client ask of a connection

    The handlers of Server.cc and Client.cc reach a connection through three calls:
    [send] of a buffer, [connected] and [shutdown].  [Connection] is that interface,
    [ConnectionLaws] what it promises; [tcp_connection] discharges it with
    TcpConnection.v. *)
From S2P Require Import Prelude Text Buffer Channel EPollPoller TimerQueue EventLoop Reactor.
From S2P Require Import TcpConnection.

Class Connection (C : Type) := {
  conn_connected : C → bool;
  conn_send : C → Buffer.t → res C;
  conn_shutdown : C → res C
}.

(** [conn_stream] is what the peer receives, [conn_room] the memory left for buffered
    output, [conn_refuses c d] says that the kernel refuses [d] (broken pipe, reset). *)
Class ConnectionLaws (C : Type) (CO : Connection C) := {
  conn_inv : C → Prop;
  conn_stream : C → list byte;
  conn_room : C → Z;
  conn_refuses : C → list byte → bool;
  send_law c b :
    conn_inv c → Buffer.wf b → zlen (Buffer.content b) < conn_room c →
    ∃ c', conn_send c b = Ok c' ∧ conn_inv c' ∧ conn_connected c' = conn_connected c ∧
      conn_stream c' = conn_stream c ++
        (if conn_connected c && negb (conn_refuses c (Buffer.content b)) then Buffer.content b else []) ∧
      conn_room c - zlen (Buffer.content b) <= conn_room c';
  close_law c :
    conn_inv c →
    ∃ c', conn_shutdown c = Ok c' ∧ conn_inv c' ∧ conn_connected c' = false ∧
      conn_stream c' = conn_stream c ∧ conn_room c <= conn_room c'
}.

(** A connection whose peer stays: it is connected and refuses nothing. *)
Class ConnectionReliable (C : Type) (CO : Connection C) (CL : ConnectionLaws C CO) := {
  healthy : C → Prop;
  healthy_accepts c d : healthy c → conn_connected c = true ∧ conn_refuses c d = false;
  healthy_send c b c' : healthy c → conn_send c b = Ok c' → healthy c'
}.

Section Tcp.
Import TcpConnection.
Context {L S U : Type} `{CL : ChannelLoop L, CLL : !ChannelLoopLaws L CL,
  FL : FunctorLoop L functor, FLL : !FunctorLoopLaws L functor CL CLL FL,
  SO : Socket S, SL : !SocketLaws S SO}.
Variables (connectionCallback_ writeComplete : t L S U → res (t L S U)).
Variable highWaterMark : Z → t L S U → res (t L S U).

Definition tcp_connection : Connection (t L S U) := {|
  conn_connected := connected;
  conn_send c b := fst <$> send_buffer connectionCallback_ writeComplete highWaterMark b c;
  conn_shutdown := shutdown connectionCallback_ writeComplete highWaterMark
|}.

Lemma tcp_send_law (c : t L S U) b :
  inv c → state_ c ≠ kConnecting → Buffer.wf b → size c + zlen (Buffer.content b) < 2 ^ 62 →
  ∃ c', fst <$> send_buffer connectionCallback_ writeComplete highWaterMark b c = Ok c' ∧
    inv c' ∧ state_ c' = state_ c ∧ size c' <= size c + zlen (Buffer.content b) ∧
    stream c' = stream c ++
      (if connected c && negb (refused c (Buffer.content b)) then Buffer.content b else []).
Proof.
  intros Hinv Hnc Hwf Hsz. unfold send_buffer, connected. case_bool_decide as Hc; cbn [andb].
  - rewrite (base_thread _ (inv_base _ Hinv)), readable_content by done. zpos.
    rewrite peek_read_spec by (done || lia). cbn [mbind res_bind]. rewrite ztake_ge by lia.
    destruct (sendInLoop_spec (Buffer.content b) c Hinv Hnc Hsz) as (c' & -> & Hi & _ & Hs & Hst & Hsz').
    exists c'. split_and!; [done..|]. rewrite Hst. by destruct (refused c _).
  - exists c. zpos. split_and!; [done..|lia|by rewrite app_nil_r].
Qed.

Lemma tcp_shutdown_law (c : t L S U) :
  inv c → state_ c ≠ kConnecting →
  ∃ c', shutdown connectionCallback_ writeComplete highWaterMark c = Ok c' ∧ inv c' ∧
    state_ c' ≠ kConnecting ∧ connected c' = false ∧ stream c' = stream c ∧ size c' = size c.
Proof.
  intros Hinv Hnc. unfold shutdown, runInLoop, connected. case_bool_decide as Hc.
  - assert (is_open c = true) as Ho by (unfold is_open; by rewrite Hc).
    pose proof (disconnecting_spec c Hinv Ho) as [Hi _ _ _ _].
    rewrite (base_thread _ (inv_base _ Hi)). cbn [run]. rewrite shutdownInLoop_spec by done.
    eexists. split; [reflexivity|]. destruct (writing _); [by split_and!|].
    split_and!; [|done..|unfold stream; cbn; by rewrite shutdown_law|done].
    by apply inv_set_socket.
  - exists c. split_and!; [done..|by apply bool_decide_false|done|done].
Qed.

#[export] Instance tcp_connection_laws : ConnectionLaws (t L S U) tcp_connection.
Proof.
  refine {| conn_inv c := inv c ∧ state_ c ≠ kConnecting; conn_stream := stream;
            conn_room c := 2 ^ 62 - size c; conn_refuses := refused |}; cbn.
  - intros c b [Hi Hnc] Hwf Hroom.
    destruct (tcp_send_law c b Hi Hnc Hwf) as (c' & E & Hi' & Hs & Hsz & Hst); [lia|].
    exists c'. split_and!; [done|done|congruence|unfold connected; by rewrite Hs|done|lia].
  - intros c [Hi Hnc]. destruct (tcp_shutdown_law c Hi Hnc) as (c' & E & Hi' & Hs & Hc & Hst & Hsz).
    exists c'. split_and!; [done..|lia].
Defined.
End Tcp.

(** ** A connection for concrete runs: the bytes sent, and whether it is up *)
Module ToyConnection.

Record conn := mkconn { up : bool; out : list byte }.

#[export] Instance toy_connection : Connection conn := {|
  conn_connected := up;
  conn_send c b := Ok (if up c then mkconn true (out c ++ Buffer.content b) else c);
  conn_shutdown c := Ok (mkconn false (out c))
|}.

#[export] Instance toy_connection_laws : ConnectionLaws conn toy_connection.
Proof.
  refine {| conn_inv _ := True; conn_stream := out; conn_room _ := 2 ^ 62; conn_refuses _ _ := false |}; cbn.
  - intros c b _ _ _. pose proof (zlen_nonneg (Buffer.content b)).
    destruct c as [[] o]; cbn; (eexists; split; [reflexivity|]); cbn; rewrite ?app_nil_r; split_and!; done || lia.
  - intros c _. eexists. split; [reflexivity|]. cbn. split_and!; done || lia.
Defined.

#[export] Instance toy_connection_reliable : ConnectionReliable conn toy_connection toy_connection_laws.
Proof.
  refine {| healthy c := up c = true |}; cbn.
  - done.
  - intros c b c' Hup [= <-]. by rewrite Hup.
Defined.
End ToyConnection.
