(* ===== verification/CrossThread.v ===== *)
(** * TcpConnection.cc: calls from other threads

    Other threads call [send] and [forceClose], and [shutdown], of which TcpConnection.h
    says that it is not thread safe.  In the thread of the connection's loop they act at
    once (TcpConnection.v).  In another thread each is cut into its accesses to what the
    threads share: the test of [state_], the assignment to it, and the functor put into the
    queue of the loop, which is locked; the threads are interleaved.  An event or a functor
    of the loop is one step: it does not look at the queue, and it writes [state_] where it
    decides. *)
From S2P Require Import Prelude Text State Buffer Channel EPollPoller TimerQueue EventLoop Reactor TcpConnection Connection.

Module CrossThread.
Import TcpConnection.
Section CrossThread.
Context {L S U : Type} `{CL : ChannelLoop L, FL : FunctorLoop L functor, SO : Socket S}.
Variables (connectionCallback_ writeComplete : TcpConnection.t L S U → res (TcpConnection.t L S U))
  (messageCallback_ highWaterMark : Z → TcpConnection.t L S U → res (TcpConnection.t L S U)).

Inductive call := Send (message : list byte) | Shutdown | ForceClose.

(** Where a thread is in its call: behind the test, or behind the assignment as well. *)
Inductive place := Tested (k : call) | Assigned (k : call).

(** The connection, the functors that other threads have put into its loop and that have
    not run, and the threads that are in a call. *)
Record t := mk {
  conn : TcpConnection.t L S U;
  queue_ : list functor;
  callers : gmap nat place
}.

Definition set_conn (v : TcpConnection.t L S U) (s : t) : t := mk v (queue_ s) (callers s).

(** The test at the head of each of the three. *)
Definition passes (k : call) (c : TcpConnection.t L S U) : bool :=
  match k with
  | Send _ | Shutdown => bool_decide (state_ c = kConnected)
  | ForceClose => bool_decide (state_ c = kConnected) || bool_decide (state_ c = kDisconnecting)
  end.

(** [setState(kDisconnecting)], which [send] does not do. *)
Definition assigns (k : call) (c : TcpConnection.t L S U) : TcpConnection.t L S U :=
  match k with Send _ => c | Shutdown | ForceClose => set_state c kDisconnecting end.

Definition task (k : call) : functor :=
  match k with
  | Send message => SendInLoop message
  | Shutdown => ShutdownInLoop
  | ForceClose => ForceCloseInLoop
  end.

(** A thread calls, assigns, queues; the loop runs the next functor of other threads; the
    loop does anything else. *)
Inductive event :=
  | Calls (θ : nat) (k : call)
  | Assigns (θ : nat)
  | Queues (θ : nat)
  | RunsFunctor
  | Loop (e : conn_event).

Definition step (e : event) (s : t) : res t :=
  match e with
  | Calls θ k => mret (if passes k (conn s) then mk (conn s) (queue_ s) (<[θ := Tested k]> (callers s)) else s)
  | Assigns θ =>
      match callers s !! θ with
      | Some (Tested k) => mret (mk (assigns k (conn s)) (queue_ s) (<[θ := Assigned k]> (callers s)))
      | _ => mret s
      end
  | Queues θ =>
      match callers s !! θ with
      | Some (Assigned k) => mret (mk (conn s) (queue_ s ++ [task k]) (delete θ (callers s)))
      | _ => mret s
      end
  | RunsFunctor =>
      match queue_ s with
      | [] => mret s
      | f :: q => c ← run connectionCallback_ writeComplete highWaterMark f (conn s); mret (mk c q (callers s))
      end
  | Loop e =>
      c ← run_event connectionCallback_ writeComplete messageCallback_ highWaterMark e (conn s);
      mret (set_conn c s)
  end.

Fixpoint steps (es : list event) (s : t) : res t :=
  match es with
  | [] => mret s
  | e :: es' => s ← step e s; steps es' s
  end.

End CrossThread.
#[global] Arguments t L S U : clear implicits.
End CrossThread.

Section Facts.
Import TcpConnection CrossThread.
Context {L S U : Type} `{CL : ChannelLoop L, CLL : !ChannelLoopLaws L CL,
  FL : FunctorLoop L functor, FLL : !FunctorLoopLaws L functor CL CLL FL,
  SO : Socket S, SL : !SocketLaws S SO}.
Variables (connectionCallback_ writeComplete : TcpConnection.t L S U → res (TcpConnection.t L S U))
  (messageCallback_ highWaterMark : Z → TcpConnection.t L S U → res (TcpConnection.t L S U)) (k : Z).
Hypotheses (Hk : 0 <= k)
  (connection_behaves : behaves k connectionCallback_)
  (message_behaves : ∀ time, behaves k (messageCallback_ time))
  (writeComplete_behaves : behaves k writeComplete)
  (highWaterMark_behaves : ∀ n, behaves k (highWaterMark n)).
Implicit Types (s : CrossThread.t L S U) (c : TcpConnection.t L S U).

Abbreviation step := (CrossThread.step connectionCallback_ writeComplete messageCallback_ highWaterMark).
Abbreviation steps := (CrossThread.steps connectionCallback_ writeComplete messageCallback_ highWaterMark).

(** What the three functions of TcpConnection.v do in another thread: the steps above, one
    after the other. *)
Lemma calls_uninterrupted c kc :
  isInLoopThread (loop_ c) = false →
  match kc with
  | Send message => send connectionCallback_ writeComplete highWaterMark message c
  | Shutdown => shutdown connectionCallback_ writeComplete highWaterMark c
  | ForceClose => forceClose c
  end = Ok (if passes kc c then queue (assigns kc c) (task kc) else c).
Proof.
  intros Hin. destruct kc as [m| |]; unfold send, shutdown, forceClose, runInLoop, passes, assigns, task.
  - case_bool_decide; [|done]. by rewrite Hin.
  - case_bool_decide; [|done]. cbn [loop_ set_state]. by rewrite Hin.
  - done.
Qed.

(** ** Threads that only send *)

Definition sends (p : place) : Prop := match p with Tested (Send _) | Assigned (Send _) => True | _ => False end.

(** What can happen when other threads only send, with room in the buffers. *)
Definition event_legal (e : event) s : Prop :=
  match e with
  | Calls θ kc => callers s !! θ = None ∧ match kc with Send _ => True | _ => False end
  | Assigns _ | Queues _ => True
  | RunsFunctor =>
      match queue_ s with SendInLoop m :: _ => size (conn s) + zlen m < 2 ^ 62 | _ => True end
  | Loop e => TcpConnection.event_legal e (conn s) ∧ size (conn s) + event_cost k e < 2 ^ 62
  end.

Fixpoint legal (es : list event) s : Prop :=
  match es with
  | [] => True
  | e :: es' => event_legal e s ∧ ∀ s', step e s = Ok s' → legal es' s'
  end.

(** The messages that a step puts into the queue. *)
Definition queued_by (e : event) s : list (list byte) :=
  match e with
  | Queues θ => match callers s !! θ with Some (Assigned (Send m)) => [m] | _ => [] end
  | _ => []
  end.
Fixpoint queued (es : list event) s : list (list byte) :=
  match es with
  | [] => []
  | e :: es' => queued_by e s ++ match step e s with Ok s' => queued es' s' | Fault _ => [] end
  end.

(** [d] has the messages [ms] in it, each whole, in this order, and what the thread of the
    loop sent itself around them. *)
Inductive within : list (list byte) → list byte → Prop :=
  | within_nil : within [] []
  | within_own ms d x : within ms d → within ms (d ++ x)
  | within_message ms d m : within ms d → within (ms ++ [m]) (d ++ m).

Lemma within_app ms d ms' d' : within ms d → within ms' d' → within (ms ++ ms') (d ++ d').
Proof.
  intros H. induction 1 as [|ms' d' x _ IH|ms' d' m _ IH]; rewrite ?app_nil_r, ?app_assoc; [done|by constructor..].
Qed.

(** Neither a broken pipe nor a reset is reported by a write. *)
Definition peer_stays : Prop :=
  ∀ (x : S) d, match (sock_write x d).1 with WriteError e => e ≠ EPIPE ∧ e ≠ ECONNRESET | Wrote _ => True end.

Lemma not_refused c d : peer_stays → is_open c = true → refused c d = false.
Proof.
  intros Hp Ho. unfold refused. rewrite bool_decide_false by (intros E; unfold is_open in Ho; by rewrite E in Ho). cbn [orb].
  specialize (Hp (socket_ c) d). destruct (sock_write _ _).1 as [|e]; [by rewrite andb_false_r|].
  destruct Hp as [H1 H2]. apply Z.eqb_neq in H1 as ->. apply Z.eqb_neq in H2 as ->. by rewrite andb_false_r.
Qed.

(** The state between two steps. *)
Record sending s : Prop := {
  sg_inv : inv (conn s);
  sg_state : state_ (conn s) ≠ kConnecting;
  sg_callers θ p : callers s !! θ = Some p → sends p;
  sg_queue : Forall (λ f, match f with SendInLoop _ => True | _ => False end) (queue_ s)
}.

Definition messages (q : list functor) : list (list byte) :=
  omap (λ f, match f with SendInLoop m => Some m | _ => None end) q.

(** One step: what it adds to the stream, and which messages it takes from the queue. *)
Record moves e s s' : Prop := {
  mv_sending : sending s';
  mv_rank : rank (state_ (conn s)) <= rank (state_ (conn s'));
  mv_messages : ∃ done d, messages (queue_ s) ++ queued_by e s = done ++ messages (queue_ s') ∧
    stream (conn s') = stream (conn s) ++ d ∧
    (peer_stays → is_open (conn s) = true → within done d)
}.

Lemma moves_still e s s' : sending s' → conn s' = conn s → messages (queue_ s) ++ queued_by e s = messages (queue_ s') → moves e s s'.
Proof.
  intros Hs Hc Hq. split; [done|by rewrite Hc|]. exists [], []. rewrite Hc, app_nil_r. split_and!; [done..|]. constructor.
Qed.

Lemma step_moves e s : sending s → event_legal e s → ∃ s', step e s = Ok s' ∧ moves e s s'.
Proof.
  intros [Hi Hst Hca Hq] Hl. destruct e as [θ kc|θ|θ| |e]; cbn [CrossThread.step queued_by event_legal] in *.
  - destruct Hl as [Hno Hsend]. eexists. split; [done|]. destruct (passes kc (conn s)).
    + apply moves_still; cbn; [split; cbn; try done|done|by rewrite app_nil_r].
      intros θ' p. rewrite lookup_insert_Some. intros [[<- <-]|[_ Hp]]; [by destruct kc|by eapply Hca].
    + apply moves_still; [by split|done|by rewrite app_nil_r].
  - destruct (callers s !! θ) as [[kc|kc]|] eqn:Ec.
    2,3: eexists; split; [done|]; apply moves_still; [by split|done|by rewrite app_nil_r].
    pose proof (Hca _ _ Ec) as Hsend. eexists. split; [done|]. destruct kc; try done.
    apply moves_still; cbn; [split; cbn; try done|done|by rewrite app_nil_r].
    intros θ' p. rewrite lookup_insert_Some. intros [[<- <-]|[_ Hp]]; [done|by eapply Hca].
  - destruct (callers s !! θ) as [[kc|kc]|] eqn:Ec.
    1,3: eexists; split; [done|]; apply moves_still; cbn; rewrite ?Ec; [by split|done|by rewrite app_nil_r].
    pose proof (Hca _ _ Ec) as Hsend. eexists. split; [done|]. destruct kc as [m| |]; try done.
    apply moves_still; cbn; rewrite ?Ec; [split; cbn; try done|done|by unfold messages; rewrite omap_app].
    + intros θ' p. rewrite lookup_delete_Some. intros [_ Hp]. by eapply Hca.
    + apply Forall_app. by split; [|repeat constructor].
  - destruct (queue_ s) as [|f q] eqn:Eq.
    { eexists. split; [done|]. apply moves_still; [split; [done..|by rewrite Eq]|done|by rewrite Eq]. }
    apply Forall_cons in Hq as [Hf Hq]. destruct f as [m| | | | | | | | |]; try done. cbn [run].
    destruct (sendInLoop_spec m (conn s) Hi Hst Hl) as (c' & -> & Hi' & _ & Hs' & Hstr & _). cbn [mbind res_bind mret res_ret].
    eexists. split; [done|]. split; cbn; [split; cbn; [done|congruence|done|done]|by rewrite Hs'|].
    eexists [m], _. rewrite Eq. cbn. rewrite app_nil_r. split; [done|]. split; [exact Hstr|].
    intros Hp Ho. rewrite not_refused by done. apply (within_message [] [] m). constructor.
  - destruct Hl as [Hl Hz]. destruct (run_event_spec connectionCallback_ writeComplete messageCallback_ highWaterMark k Hk
      connection_behaves message_behaves writeComplete_behaves highWaterMark_behaves e (conn s) Hi Hst Hl Hz) as (c' & -> & Hi' & [d Hd] & Hr & _).
    cbn [mbind res_bind mret res_ret]. eexists. split; [done|]. split; cbn; [split; cbn; try done|done|].
    + intros E. rewrite E in Hr. by destruct (state_ (conn s)).
    + exists [], d. rewrite app_nil_r. split_and!; [done|exact Hd|]. intros _ _. apply (within_own [] [] d). constructor.
Qed.

Lemma rank_open c c' : rank (state_ c) <= rank (state_ c') → state_ c ≠ kConnecting → is_open c' = true → is_open c = true.
Proof. unfold is_open. by destruct (state_ c), (state_ c'). Qed.

Lemma steps_move es s :
  sending s → legal es s →
  ∃ s' done d, steps es s = Ok s' ∧ sending s' ∧ rank (state_ (conn s)) <= rank (state_ (conn s')) ∧
    messages (queue_ s) ++ queued es s = done ++ messages (queue_ s') ∧ stream (conn s') = stream (conn s) ++ d ∧
    (peer_stays → is_open (conn s') = true → within done d).
Proof.
  revert s. induction es as [|e es IH]; intros s Hs Hl.
  - exists s, [], []. rewrite !app_nil_r. split_and!; [done..|]. constructor.
  - destruct Hl as [Hle Hl]. destruct (step_moves e s Hs Hle) as (s1 & E & [Hs1 Hr1 (done1 & d1 & Hm1 & Hd1 & Hw1)]).
    destruct (IH s1 Hs1 (Hl _ E)) as (s' & done2 & d2 & E' & Hs' & Hr' & Hm2 & Hd2 & Hw2).
    exists s', (done1 ++ done2), (d1 ++ d2). cbn [CrossThread.steps queued]. rewrite E. split_and!; [done|done|lia| | |].
    + rewrite app_assoc, Hm1, <-!app_assoc. f_equal. exact Hm2.
    + by rewrite Hd2, Hd1, app_assoc.
    + intros Hp Ho. apply within_app; [|by apply Hw2]. apply Hw1; [done|].
      eapply rank_open; [|by destruct Hs|exact Ho]. lia.
Qed.

(** C12 (functional). Threads other than the loop's send on a connection, in any interleaving
    with each other and with the loop, which may serve the connection, send on it and close
    it.  Nothing fails, and the invariant of the connection holds.  Their messages run in
    the order in which they were queued.  As long as the connection stays open and the
    kernel reports no lost peer, what the peer receives has every message that has run,
    whole and in this order, with only what the loop's thread sent between them; what has
    not run is still in the queue. *)
Theorem cross_sends es s :
  sending s → legal es s → queue_ s = [] →
  ∃ s' ran d, steps es s = Ok s' ∧ inv (conn s') ∧ queued es s = ran ++ messages (queue_ s') ∧
    stream (conn s') = stream (conn s) ++ d ∧
    (peer_stays → is_open (conn s') = true → within ran d).
Proof.
  intros Hs Hl Hq. destruct (steps_move es s Hs Hl) as (s' & ran & d & E & [Hi _ _ _] & _ & Hm & Hd & Hw).
  rewrite Hq in Hm. by exists s', ran, d.
Qed.

(** ** Threads that close *)

(** A closed connection whose state is set again: nothing notices, and it can be destroyed,
    but the destructor finds it in the wrong state. *)
Lemma revived_destroyed c x :
  inv c → state_ c = kDisconnected → ¬ unregistered (channel_ c) → may_remove (loop_ c) (channel_ c) →
  let c' := set_socket (set_state c kDisconnecting) x in
  ∃ c'', connectDestroyed connectionCallback_ c' = Ok c'' ∧ destroy c'' = Fault AssertFail.
Proof.
  intros [[_ _ (h & d0 & Hh & Hd0 & Hsame & _) Ht] [r [Hr Hro]] _] Hst Hu Hm. cbv zeta.
  assert (is_open c = false) as Ho by (unfold is_open; by rewrite Hst).
  rewrite (Hro Ho) in Hr. unfold writing in Hr. rewrite Ho in Hr. cbn [andb] in Hr.
  unfold connectDestroyed, assertInLoopThread, on_channel, ChannelOps.remove. cbn [loop_ state_ channel_ set_socket set_state].
  rewrite Ht. cbn [mbind res_bind mret res_ret]. rewrite bool_decide_false by done. cbn [mbind res_bind mret res_ret loop_ channel_ set_socket set_state].
  assert (Channel.isNoneEvent (channel_ c) = true) as Hnone by (by apply interest_isNone in Hr). rewrite Hnone. cbn [cassert mbind res_bind].
  destruct (remove_spec (loop_ c) h d0 (Channel.set_addedToLoop (channel_ c) false)) as (l & -> & _ & _); [done|done|done|done|done|done|by apply (may_remove_addr _ (channel_ c))|].
  eexists. split; [reflexivity|]. done.
Qed.

(** [state_] is tested and assigned without a lock.  A thread tests it before the
    connection closes and assigns it after: a closed connection is disconnecting again.
    After a shutdown it stays so, and when it is destroyed the assertion of the destructor
    fails; after a forced close the loop closes it a second time, and the connection
    callback is called once more. *)
Theorem close_races θ e c c1 :
  inv c → state_ c = kConnected →
  TcpConnection.event_legal e c → size c + event_cost k e < 2 ^ 62 →
  run_event connectionCallback_ writeComplete messageCallback_ highWaterMark e c = Ok c1 → state_ c1 = kDisconnected →
  ¬ unregistered (channel_ c1) → may_remove (loop_ c1) (channel_ c1) →
  (∃ s', steps [Calls θ Shutdown; Loop e; Assigns θ; Queues θ; RunsFunctor] (mk c [] ∅) = Ok s' ∧
     state_ (conn s') = kDisconnecting ∧ queue_ s' = [] ∧ callers s' = ∅ ∧
     ∃ c'', connectDestroyed connectionCallback_ (conn s') = Ok c'' ∧ destroy c'' = Fault AssertFail) ∧
  steps [Calls θ ForceClose; Loop e; Assigns θ; Queues θ; RunsFunctor] (mk c [] ∅) =
    (c2 ← handleClose connectionCallback_ (set_state c1 kDisconnecting); mret (mk c2 [] ∅)).
Proof.
  intros Hi Hst Hl Hz E Hst1 Hu Hm.
  destruct (run_event_spec connectionCallback_ writeComplete messageCallback_ highWaterMark k Hk
    connection_behaves message_behaves writeComplete_behaves highWaterMark_behaves e c Hi) as (c1' & E' & Hi1 & _);
    [congruence|done|done|]. rewrite E in E'. injection E' as <-.
  assert (∀ kc, kc = Shutdown ∨ kc = ForceClose →
    steps [Calls θ kc; Loop e; Assigns θ; Queues θ; RunsFunctor] (mk c [] ∅) =
    (c2 ← run connectionCallback_ writeComplete highWaterMark (task kc) (set_state c1 kDisconnecting); mret (mk c2 [] ∅))) as Hrun.
  { intros kc Hkc. cbn [CrossThread.steps CrossThread.step conn queue_ callers].
    replace (passes kc c) with true by (destruct Hkc as [-> | ->]; unfold passes; by rewrite Hst).
    cbn [mbind res_bind mret res_ret conn queue_ callers]. rewrite E. cbn [mbind res_bind mret res_ret set_conn conn queue_ callers].
    rewrite lookup_insert_eq. cbn [mbind res_bind mret res_ret conn queue_ callers]. rewrite lookup_insert_eq.
    cbn [mbind res_bind mret res_ret conn queue_ callers app].
    replace (assigns kc c1) with (set_state c1 kDisconnecting) by (by destruct Hkc as [-> | ->]).
    destruct (run _ _ _ _ _) as [c2|]; [|done]. cbn [mbind res_bind mret res_ret].
    rewrite insert_insert_eq, delete_insert_eq, delete_empty. done. }
  split; rewrite Hrun by eauto.
  - cbn [task run]. unfold shutdownInLoop, assertInLoopThread. cbn [loop_ set_state channel_ socket_].
    rewrite (base_thread _ (inv_base _ Hi1)). cbn [mbind res_bind mret res_ret].
    change (Channel.isWriting (channel_ (set_state c1 kDisconnecting))) with (Channel.isWriting (channel_ c1)).
    rewrite inv_writing by done. replace (writing c1) with false by (unfold writing, is_open; by rewrite Hst1).
    cbn [negb mbind res_bind mret res_ret]. eexists. split; [reflexivity|]. split_and!; [done..|].
    by apply revived_destroyed.
  - cbn [task run]. unfold forceCloseInLoop, assertInLoopThread. cbn [loop_ set_state].
    rewrite (base_thread _ (inv_base _ Hi1)). done.
Qed.

End Facts.

(** ** A connection of another loop

    The interface [Connection] for a handler that runs outside the loop of the connection:
    what it sends is queued there, behind what is queued already. *)
Section Remote.
Import TcpConnection CrossThread.
Context {L S U : Type} `{CL : ChannelLoop L, CLL : !ChannelLoopLaws L CL,
  FL : FunctorLoop L functor, FLL : !FunctorLoopLaws L functor CL CLL FL,
  SO : Socket S, SL : !SocketLaws S SO}.
Implicit Types s : CrossThread.t L S U.

(** A call from beginning to end, and [send] of a buffer, which it empties. *)
Definition whole (kc : call) s : CrossThread.t L S U :=
  if passes kc (conn s) then mk (assigns kc (conn s)) (queue_ s ++ [task kc]) (callers s) else s.

Definition remote_send (b : Buffer.t) s : res (CrossThread.t L S U) :=
  if passes (Send []) (conn s) then
    '(d, _) ← Buffer.retrieveAllAsString b;
    mret (whole (Send d) s)
  else mret s.

Definition remote_connection : Connection (CrossThread.t L S U) := {|
  conn_connected s := connected (conn s);
  conn_send s b := remote_send b s;
  conn_shutdown s := mret (whole Shutdown s)
|}.

(** What the peer receives if the connection stays open: the stream, then what is queued. *)
Definition remote_stream s : list byte := stream (conn s) ++ (messages (queue_ s) ≫= id).

Lemma retrieve_all b : Buffer.wf b → Buffer.retrieveAllAsString b = Ok (Buffer.content b, Buffer.retrieveAll b).
Proof.
  intros Hwf. unfold Buffer.retrieveAllAsString, Buffer.retrieveAsString, Buffer.retrieve. rewrite readable_content by done.
  rewrite peek_read_spec by (done || zpos; lia). rewrite Z.leb_refl, Z.ltb_irrefl. cbn [cassert mbind res_bind].
  by rewrite ztake_ge by lia.
Qed.

#[export] Instance remote_connection_laws : ConnectionLaws (CrossThread.t L S U) remote_connection.
Proof.
  refine {| conn_inv s := inv (conn s) ∧ state_ (conn s) ≠ kConnecting; conn_stream := remote_stream;
            conn_room s := 2 ^ 62; conn_refuses _ _ := false |}; cbn.
  - intros s b [Hi Hnc] Hwf Hroom. unfold remote_send, connected, passes. case_bool_decide as Hc; cbn [andb].
    + rewrite retrieve_all by done. cbn [mbind res_bind mret res_ret].
      unfold whole, passes. rewrite bool_decide_true by done. eexists. split; [reflexivity|]. cbn. pose proof (zlen_nonneg (Buffer.content b)).
      split_and!; [done|done|by rewrite bool_decide_true|unfold remote_stream, messages; cbn; by rewrite omap_app, bind_app, app_assoc; cbn; rewrite app_nil_r|lia].
    + exists s. pose proof (zlen_nonneg (Buffer.content b)). rewrite app_nil_r. split_and!; [done|done|done|by rewrite bool_decide_false|done|lia].
  - intros s [Hi Hnc]. unfold whole, connected, passes. case_bool_decide as Hc.
    + assert (is_open (conn s) = true) as Ho by (unfold is_open; by rewrite Hc).
      eexists. split; [reflexivity|]. cbn. split_and!; [by apply disconnecting_spec|done|done| |lia].
      unfold remote_stream, messages. cbn. by rewrite omap_app, app_nil_r.
    + exists s. split_and!; [done|done|done|by apply bool_decide_false|done|lia].
Defined.

(** A functor that sends. *)
Definition sends_message (f : functor) : Prop := match f with SendInLoop _ => True | _ => False end.

Lemma remote_send_ok b s s' :
  state_ (conn s) = kConnected → remote_send b s = Ok s' →
  conn s' = conn s ∧ ∃ m, queue_ s' = queue_ s ++ [SendInLoop m].
Proof.
  intros Hc. unfold remote_send, whole, passes. rewrite !bool_decide_true by done.
  destruct (Buffer.retrieveAllAsString b) as [[d b']|]; [|done]. intros [= <-]. by eauto.
Qed.

(** While nobody else closes it, a connection is healthy for its senders. *)
#[export] Instance remote_reliable : ConnectionReliable (CrossThread.t L S U) remote_connection remote_connection_laws.
Proof.
  refine {| healthy s := state_ (conn s) = kConnected ∧ Forall sends_message (queue_ s) |}; cbn.
  - intros s _ [Hc _]. unfold connected. by rewrite bool_decide_true.
  - intros s b s' [Hc Hq] E. destruct (remote_send_ok b s s' Hc E) as [-> [m ->]]. split; [done|].
    apply Forall_app. by split; [|repeat constructor].
Defined.

(** The loop keeps the promise: it runs what is queued, and the peer receives the stream. *)
Lemma remote_delivered cc wc mc hw s :
  inv (conn s) → is_open (conn s) = true → Forall sends_message (queue_ s) →
  peer_stays (S := S) → size (conn s) + zlen (messages (queue_ s) ≫= id) < 2 ^ 62 →
  ∃ s', CrossThread.steps cc wc mc hw (repeat RunsFunctor (length (queue_ s))) s = Ok s' ∧
    stream (conn s') = remote_stream s ∧ queue_ s' = [] ∧ inv (conn s') ∧ state_ (conn s') = state_ (conn s).
Proof.
  destruct s as [c q ca]. unfold remote_stream. cbn [conn queue_]. intros Hi Ho Hq Hp. revert c Hi Ho.
  induction Hq as [|f q Hf _ IH]; intros c Hi Ho Hz.
  { exists (mk c [] ca). cbn. by rewrite app_nil_r. }
  destruct f as [m| | | | | | | | |]; try done. cbn [messages omap list_omap mbind list_bind id] in Hz |- *. fold (messages q) in Hz |- *.
  rewrite zlen_app in Hz. pose proof (zlen_nonneg (messages q ≫= id)) as Hnn. change (list_bind _ _ id (messages q)) with (messages q ≫= id) in Hz.
  destruct (sendInLoop_spec m c Hi) as (c' & E & Hi' & _ & Hs' & Hstr & Hz'); [intros E; unfold is_open in Ho; by rewrite E in Ho|lia|].
  rewrite not_refused in Hstr by done. cbn [length repeat CrossThread.steps CrossThread.step queue_ conn callers run].
  rewrite E. cbn [mbind res_bind mret res_ret]. destruct (IH c' Hi') as (s' & E' & Hst' & Hq' & Hi2 & Hs2).
  - unfold is_open in *. by rewrite Hs'.
  - lia.
  - exists s'. split; [exact E'|]. split_and!; [|done|done|congruence]. rewrite Hst', Hstr. by rewrite <-app_assoc.
Qed.
End Remote.

(** ** A kernel that takes three bytes at a time *)
Module SlowSocket.

#[export] Instance slow_socket : Socket (list byte) := {|
  sock_write s d := (Wrote (Z.min 3 (zlen d)), s ++ ztake (Z.min 3 (zlen d)) d);
  sock_readv s room := (Buffer.ReadError EWOULDBLOCK, s);
  sock_shutdownWrite s := s
|}.

#[export] Instance slow_socket_laws : SocketLaws (list byte) slow_socket.
Proof.
  refine {| taken := id |}; cbn.
  - intros s d r s' [= <- <-]. pose proof (zlen_nonneg d). split; [lia|done].
  - by intros s room r s' [= <- <-].
  - done.
Defined.
End SlowSocket.

Section Witness.
Import TcpConnection CrossThread SlowSocket ToyEpoll ToyEventfd.

Abbreviation slow_conn := (TcpConnection.t (Reactor.t interest_list N functor) (list byte) unit).
Definition slow : slow_conn := toy_established toy_buffer toy_channel toy_reactor [].

Lemma slow_behaves : behaves 0 (λ c : slow_conn, Ok c).
Proof. intros c Hc _ _. exists c. split; [done|]. by apply evolves_refl. Qed.

Abbreviation slow_steps := (CrossThread.steps (λ c : slow_conn, Ok c) (λ c, Ok c) (λ _ c, Ok c) (λ _ c, Ok c)).
Abbreviation slow_queued := (queued (λ c : slow_conn, Ok c) (λ c, Ok c) (λ _ c, Ok c) (λ _ c, Ok c)).

(** Two threads send while the loop sends as well; the message of thread 2 is queued first. *)
Definition slow_events : list event :=
  [Calls 1 (Send (bytes_of "first")); Calls 2 (Send (bytes_of "second")); Assigns 2; Queues 2;
   Loop (Sent (bytes_of "own ")); Assigns 1; RunsFunctor; Queues 1; Loop (Polled EPOLLOUT 0); RunsFunctor].

Lemma cross_sends_witness :
  ∃ s' d, slow_steps slow_events (mk slow [] ∅) = Ok s' ∧ stream (conn s') = bytes_of "own secondfirst" ∧
    slow_queued slow_events (mk slow [] ∅) = [bytes_of "second"; bytes_of "first"] ∧
    within [bytes_of "second"; bytes_of "first"] d ∧ stream (conn s') = d.
Proof.
  destruct (cross_sends (λ c : slow_conn, Ok c) (λ c, Ok c) (λ _ c, Ok c) (λ _ c, Ok c) 0 ltac:(lia)
    slow_behaves (λ _, slow_behaves) slow_behaves (λ _, slow_behaves) slow_events (mk slow [] ∅)) as (s' & ran & d & E & _ & Hq & Hd & Hw).
  - split; cbn; [apply established_inv|done|by intros θ p; rewrite lookup_empty|constructor].
  - cbn [legal slow_events]. repeat (split; [first [by vm_compute|by repeat split; vm_compute]|]; intros ? E; vm_compute in E; injection E as <-). done.
  - done.
  - exists s', d. split; [exact E|]. vm_compute in E. injection E as <-. split; [by vm_compute|]. split; [by vm_compute|].
    split; [|exact Hd]. assert (ran = [bytes_of "second"; bytes_of "first"]) as <-.
    { cbn [queue_] in Hq. rewrite app_nil_r in Hq. rewrite <-Hq. by vm_compute. }
    apply Hw; [|by vm_compute]. intros x d'. by vm_compute.
Defined.
End Witness.
