(* ===== verification/Dispatcher.v ===== *)
(** * dispatcher.h: messages to the handler of their type

    A handler is registered for a C++ message class; a message that arrives is cast to
    the class of the handler found under its descriptor.  The cast is a
    [static_pointer_cast], so a message of another class would be undefined behaviour;
    the type theorem below says that this never happens. *)
From S2P Require Import Prelude State ProtobufCodec.

(** A message class [T]: its descriptor, and a message object seen as a [T]. *)
Class MessageClass `{P : Protobuf} (T : Type) := {
  descriptor : Descriptor;
  as_class : Message → option T
}.

(** An object whose descriptor is that of a generated class is of that class. *)
Class MessageClassLaw `{P : Protobuf} (T : Type) (MC : MessageClass T) : Prop :=
  descriptor_class (m : Message) : GetDescriptor m = descriptor → is_Some (as_class m).

Module Dispatcher.
Section Dispatcher.
Context `{P : Protobuf} `{HE : EqDecision Descriptor} `{HC : !Countable Descriptor}.
(** [Conn] is a [TcpConnectionPtr], [W] what the handlers act on. *)
Context {Conn W : Type}.

(** [Callback::onMessage]; the last argument is the receive time. *)
Definition Callback : Type := Conn → Message → Z → st W unit.

(** [CallbackT<T>]. *)
Definition CallbackT {T} `{MC : !MessageClass T} (callback_ : Conn → T → Z → st W unit) : Callback :=
  λ conn message receiveTime,
    concrete ← deref (as_class message);
    callback_ conn concrete receiveTime.

Record t := mk {
  callbacks_ : gmap Descriptor Callback;
  defaultCallback_ : Callback
}.

Definition make (defaultCb : Callback) : t := mk ∅ defaultCb.

Definition registerMessageCallback {T} `{MC : !MessageClass T} (callback : Conn → T → Z → st W unit) (d : t) : t :=
  mk (<[descriptor := CallbackT callback]> (callbacks_ d)) (defaultCallback_ d).

Definition onProtobufMessage (d : t) (conn : Conn) (message : Message) (receiveTime : Z) : st W unit :=
  match callbacks_ d !! GetDescriptor message with
  | Some cb => cb conn message receiveTime
  | None => defaultCallback_ d conn message receiveTime
  end.
End Dispatcher.
#[global] Arguments t {P HE HC} Conn W.
#[global] Arguments Callback {P} Conn W.
End Dispatcher.

Section Types.
Import Dispatcher.
Context `{P : Protobuf} `{HE : EqDecision Descriptor} `{HC : !Countable Descriptor}.
Context {Conn W : Type}.

(** A call of [registerMessageCallback<T>]. *)
Record registration := Reg {
  reg_T : Type;
  reg_class : MessageClass reg_T;
  reg_callback : Conn → reg_T → Z → st W unit
}.

(** The class registered for is one whose objects are known by their descriptor. *)
Definition lawful (r : registration) : Prop := MessageClassLaw (reg_T r) (reg_class r).

(** The dispatcher after the given calls, the last one first. *)
Fixpoint registered (defaultCb : Callback Conn W) (rs : list registration) : t Conn W :=
  match rs with
  | [] => make defaultCb
  | r :: rs' => registerMessageCallback (MC := reg_class r) (reg_callback r) (registered defaultCb rs')
  end.

(** The latest handler registered for the class of a message. *)
Fixpoint handler_for (d : Descriptor) (rs : list registration) : option registration :=
  match rs with
  | [] => None
  | r :: rs' => if decide (@descriptor _ _ (reg_class r) = d) then Some r else handler_for d rs'
  end.

(** C34 (type). Every cast of the dispatcher is to the class of the object.  After any
    sequence of registrations for generated classes, a message goes to the handler that
    was registered last under its own descriptor, whose class is that of the message, so
    that the unchecked cast in front of the handler is defined and hands over the same
    object; a message whose descriptor nobody registered goes to the default handler, and
    no other handler is called. *)
Theorem dispatch_typed (defaultCb : Callback Conn W) (rs : list registration) (conn : Conn)
    (m : Message) (time : Z) :
  Forall lawful rs →
  match handler_for (GetDescriptor m) rs with
  | Some r => ∃ x : reg_T r, @as_class _ _ (reg_class r) m = Some x ∧
      onProtobufMessage (registered defaultCb rs) conn m time = reg_callback r conn x time
  | None => onProtobufMessage (registered defaultCb rs) conn m time = defaultCb conn m time
  end.
Proof.
  intros Hlaw. unfold onProtobufMessage.
  assert (defaultCallback_ (registered defaultCb rs) = defaultCb) as -> by (clear Hlaw; by induction rs).
  induction Hlaw as [|r rs Hr _ IH]; [done|]. cbn [handler_for registered registerMessageCallback callbacks_].
  destruct (decide _) as [Hd|Hd].
  - rewrite Hd, lookup_insert_eq. destruct (Hr m (eq_sym Hd)) as [x Hx].
    exists x. split; [done|]. unfold CallbackT. by rewrite Hx.
  - by rewrite lookup_insert_ne.
Qed.
End Types.
