(* ===== verification/Server.v ===== *)
(** * Server.h, Server.cc: the handlers of the chat server

    The server keeps which connection a user last logged in on ([connMap_]) and answers
    the messages of the connections.  Its handlers run on the world of Business.v, whose
    server part is the state below; a connection is named by a number, and its object
    is any implementation of [Connection].  One handler runs at a time here: [connMap_]
    has no lock in the source. *)
From S2P Require Import Prelude Text State StdMap Comm Buffer ProtobufCodec Config Mysql MysqlLinkPool.
From S2P Require Import SqlAnswers CacheConn CachePool RedisLock IM Business Accounts Dispatcher.
From S2P Require Import TimerQueue EventLoop Connection.

#[export] Instance im_type_countable : Countable im_type.
Proof.
  refine (inj_countable type_name (λ s, find_type (bytes_of s) im_types) _).
  intros t. apply find_type_name.
Defined.

(** The message classes the server handles. *)
Section Classes.
Context {IW : IMWire}.
#[export] Instance Login_class : @MessageClass IM_protobuf Login.t :=
  {| descriptor := (TLogin : @Descriptor IM_protobuf); as_class (m : @Message IM_protobuf) := match m with MLogin x => Some x | _ => None end |}.
#[export] Instance Register_class : @MessageClass IM_protobuf Register.t :=
  {| descriptor := (TRegister : @Descriptor IM_protobuf); as_class (m : @Message IM_protobuf) := match m with MRegister x => Some x | _ => None end |}.
#[export] Instance SingleChat_class : @MessageClass IM_protobuf SingleChat.t :=
  {| descriptor := (TSingleChat : @Descriptor IM_protobuf); as_class (m : @Message IM_protobuf) := match m with MSingleChat x => Some x | _ => None end |}.
#[export] Instance GroupChat_class : @MessageClass IM_protobuf GroupChat.t :=
  {| descriptor := (TGroupChat : @Descriptor IM_protobuf); as_class (m : @Message IM_protobuf) := match m with MGroupChat x => Some x | _ => None end |}.
#[export] Instance Hongbaoreq_class : @MessageClass IM_protobuf Hongbaoreq.t :=
  {| descriptor := (THongbaoreq : @Descriptor IM_protobuf); as_class (m : @Message IM_protobuf) := match m with MHongbaoreq x => Some x | _ => None end |}.
#[export] Instance ReqRobHongbao_class : @MessageClass IM_protobuf ReqRobHongbao.t :=
  {| descriptor := (TReqRobHongbao : @Descriptor IM_protobuf); as_class (m : @Message IM_protobuf) := match m with MReqRobHongbao x => Some x | _ => None end |}.

Ltac by_class := let m := fresh in intros m; destruct m; (discriminate || by eexists).
#[export] Instance Login_law : MessageClassLaw Login.t Login_class. Proof. by_class. Qed.
#[export] Instance Register_law : MessageClassLaw Register.t Register_class. Proof. by_class. Qed.
#[export] Instance SingleChat_law : MessageClassLaw SingleChat.t SingleChat_class. Proof. by_class. Qed.
#[export] Instance GroupChat_law : MessageClassLaw GroupChat.t GroupChat_class. Proof. by_class. Qed.
#[export] Instance Hongbaoreq_law : MessageClassLaw Hongbaoreq.t Hongbaoreq_class. Proof. by_class. Qed.
#[export] Instance ReqRobHongbao_law : MessageClassLaw ReqRobHongbao.t ReqRobHongbao_class. Proof. by_class. Qed.
End Classes.

Module Server.

(** What the server gives its loop: [bind(StopRobHongbao, key, sender)]. *)
Inductive task := StopRobHongbao (key sender : string).

(** ** The configuration

    What the constructor and [start] take from the configuration: the log, the
    address, the name and the two numbers of threads.  A missing entry is an empty
    string, for which [stoi] throws. *)
Record settings := Settings {
  logRollSize : Z;
  logFlushInterval : Z;
  host : list byte;
  port : Z;
  serverName : list byte;
  ioThreadNumber : Z
}.

Definition config (configMap_ : list (list byte * list byte)) (name : string) : list byte :=
  default [] (map_find (bytes_of name) configMap_).

Definition configure (configMap_ : list (list byte * list byte)) : res settings :=
  rollSize ← ReadConfig.toByte (config configMap_ "logRollSie");
  flush ← stoi (config configMap_ "logFlushInterval");
  port ← stoi (config configMap_ "port");
  io ← stoi (config configMap_ "ioThreadNumber");
  _ ← cassert (0 <=? io);
  mret (Settings rollSize flush (config configMap_ "host") (u16 port) (config configMap_ "serverName") io).

(** [start()]: the size of the thread pool. *)
Definition start (configMap_ : list (list byte * list byte)) : res Z := stoi (config configMap_ "tpNum").

Section State.
Context {C L : Type} {CO : Connection C} {FL : FunctorLoop L task} {IW : IMWire} {ZL : Zlib}.

(** [connMap_]: a user's entry may hold a null pointer. *)
Record t := mk {
  loop_ : L;
  connMap_ : gmap string (option nat);
  conns : gmap nat C
}.

Definition set_loop (s : t) (v : L) : t := mk v (connMap_ s) (conns s).
Definition set_connMap (s : t) (v : gmap string (option nat)) : t := mk (loop_ s) v (conns s).
Definition set_conns (s : t) (v : gmap nat C) : t := mk (loop_ s) (connMap_ s) v.

(** [connMap_[username]], which enters a null pointer for an unknown name. *)
Definition getConnByUsername (username : string) : st t (option nat) :=
  m ← gets connMap_;
  match m !! username with
  | Some conn => mret conn
  | None => modify (λ s, set_connMap s (<[username := None]> (connMap_ s)));; mret None
  end.

Definition saveUsernameConn (username : string) (conn : nat) : st t unit :=
  modify (λ s, set_connMap s (<[username := Some conn]> (connMap_ s))).

(** The loop erases the entry its iterator stands on and then advances it. *)
Definition delUsernameConn (conn : nat) : st t unit :=
  m ← gets connMap_;
  if decide (map_Exists (λ _ c, c = Some conn) m) then fault UB else mret ().

(** [codec_.send(conn, message)]. *)
Definition codec_send (conn : nat) (message : im_message) : st t unit :=
  on_object conns (λ v s, set_conns s v) conn
    (λ c, c' ← ProtobufCodec.send (P := IM_protobuf) conn_send c message; Ok ((), c')).

Definition send (username : string) (message : im_message) : st t unit :=
  conn ← getConnByUsername username;
  match conn with
  | Some c => codec_send c message
  | None => mret ()
  end.

Definition runAfter (delay : double) (cb : task) : st t unit := λ s,
  l ← runFunctorAfter (loop_ s) delay cb; Ok ((), set_loop s l).

#[export] Instance server_ops : ServerOps t := {|
  gserver_send username message s := snd <$> send username message s;
  gserver_runAfter delay key sender s := snd <$> runAfter delay (StopRobHongbao key sender) s
|}.
End State.
#[global] Arguments t C L : clear implicits.

Section Handlers.
Context {R D C L : Type} {HR : Hiredis R} {MC : MysqlClient D} {LC : Libc} {IW : IMWire} {ZL : Zlib}.
Context {CO : Connection C} {FL : FunctorLoop L task}.

Abbreviation world := (Business.world R D (t C L)).
Abbreviation M := (st world).

(** A call of a method of the server itself. *)
Definition self {A} (m : st (t C L) A) : M A :=
  zoom Business.w_server (λ s w, Business.set_server w s) m.

Definition onConnection (conn : nat) : M unit := mret ().
Definition onUnknownMessage (conn : nat) (message : im_message) (timestamp : Z) : M unit := mret ().

Definition Login (conn : nat) (message : Login.t) (timestamp : Z) : M unit :=
  let username := Login.username message in
  self (saveUsernameConn username conn);;
  '(isOK, answer) ← Business.Login message Response.empty;
  self (codec_send conn (MResponse answer));;
  if isOK =? 0 then Business.sendCacheMessage username;; mret () else mret ().

Definition Register (conn : nat) (message : Register.t) (timestamp : Z) : M unit :=
  '(_, answer) ← Business.Register message Response.empty;
  self (codec_send conn (MResponse answer)).

Definition SingleChat (conn : nat) (message : SingleChat.t) (timestamp : Z) : M unit :=
  connPtr ← self (getConnByUsername (SingleChat.receiver message));
  match connPtr with
  | Some connPtr =>
      let type := SingleChat.type message in
      if type =? 0 then self (codec_send connPtr (MSingleChat message))
      else if type =? 1 then
        '(_, hbrsp) ← Business.SendHongbao (SingleChat.hbreq message) HongbaoResp.empty;
        self (codec_send connPtr (MSingleChat (SingleChat.set_type (SingleChat.set_hbrsp SingleChat.empty hbrsp) 2)))
      else if type =? 3 then
        '(_, robhbrsp) ← Business.RobHongbao (SingleChat.robhbreq message) RespRobHongbao.empty;
        self (codec_send connPtr (MSingleChat (SingleChat.set_type (SingleChat.set_robhbrsp SingleChat.empty robhbrsp) 4)))
      else mret ()
  | None => Business.cacheMessage (SingleChat.receiver message) (MSingleChat message);; mret ()
  end.

Definition GroupChat (conn : nat) (message : GroupChat.t) (timestamp : Z) : M unit := mret ().

Definition SendHongbao (conn : nat) (message : Hongbaoreq.t) (timestamp : Z) : M unit :=
  '(_, answer) ← Business.SendHongbao message HongbaoResp.empty;
  self (codec_send conn (MHongbaoResp answer)).

Definition RobHongbao (conn : nat) (message : ReqRobHongbao.t) (timestamp : Z) : M unit :=
  '(_, answer) ← Business.RobHongbao message RespRobHongbao.empty;
  self (codec_send conn (MRespRobHongbao answer)).

(** The registrations of the constructor. *)
Definition dispatcher_ : @Dispatcher.t IM_protobuf im_type_eq_dec im_type_countable nat world :=
  let d := Dispatcher.make onUnknownMessage in
  let d := Dispatcher.registerMessageCallback Login d in
  let d := Dispatcher.registerMessageCallback Register d in
  let d := Dispatcher.registerMessageCallback SingleChat d in
  let d := Dispatcher.registerMessageCallback RobHongbao d in
  let d := Dispatcher.registerMessageCallback GroupChat d in
  Dispatcher.registerMessageCallback SendHongbao d.

(** [codec_]'s message callback. *)
Definition messageCallback (conn : nat) (receiveTime : Z) (w : world) (m : im_message) : res world :=
  snd <$> Dispatcher.onProtobufMessage dispatcher_ conn m receiveTime w.

(** [ProtobufCodec::defaultErrorCallback]. *)
Definition defaultErrorCallback (conn : nat) (w : world) (buf : Buffer.t)
    (errorCode : ProtobufCodec.ErrorCode) : res (world * Buffer.t) :=
  '(_, w) ← self (on_object conns (λ v s, set_conns s v) conn
                (λ c, c ← (if conn_connected c then conn_shutdown c else mret c); Ok ((), c))) w;
  Ok (w, buf).

(** The message callback of a connection: bytes have arrived in its input buffer. *)
Definition onMessage (conn : nat) (receiveTime : Z) (w : world) (buf : Buffer.t) : res (world * Buffer.t) :=
  ProtobufCodec.onMessage (P := IM_protobuf) (messageCallback conn receiveTime) (defaultErrorCallback conn) w buf.

(** What the loop does with a task. *)
Definition run_task (k : task) : M unit :=
  match k with StopRobHongbao key sender => Business.StopRobHongbao key sender end.
End Handlers.
End Server.

(** ** What the handlers do *)

Section Facts.
Import Server.
Context {R D C L : Type} {HR : Hiredis R} {HL : HiredisLaws R} {HA : HiredisReliable R}.
Context {MC : MysqlClient D} {ML : MysqlClientLaws D} {LC : Libc} {LL : LibcLaws LC} {IW : IMWire} {IL : IMWireLaws IW} {ZL : Zlib}.
Context {CO : Connection C} {CL : ConnectionLaws C CO} {FL : FunctorLoop L task}.
Implicit Types (s : t C L).

Abbreviation W := (Business.world R D (t C L)).
Abbreviation srv w := (Business.w_server (w : W)).
Abbreviation frame_of m := (frame (P := IM_protobuf) (m : @Message IM_protobuf)).
Abbreviation fits_of m := (fits (P := IM_protobuf) (m : @Message IM_protobuf)).

(** What the frame of a message adds to a connection. *)
Definition accepted (c : C) (d : list byte) : list byte :=
  if conn_connected c && negb (conn_refuses c d) then d else [].

Lemma codec_send_run s id c m :
  conns s !! id = Some c → conn_inv c → fits_of m → zlen (frame_of m) < conn_room c →
  ∃ c', codec_send id m s = Ok ((), set_conns s (<[id := c']> (conns s))) ∧
    conn_inv c' ∧ conn_connected c' = conn_connected c ∧
    conn_stream c' = conn_stream c ++ accepted c (frame_of m) ∧
    conn_room c - zlen (frame_of m) <= conn_room c' ∧
    ∃ b, conn_send c b = Ok c'.
Proof.
  intros Hc Hinv Hfit Hroom. unfold codec_send.
  destruct (send_frame (P := IM_protobuf) conn_send c m Hfit) as (b & Eb & Hwf & Hb).
  destruct (send_law c b Hinv Hwf) as (c' & Ec & Hi & Hcon & Hst & Hr); [by rewrite Hb|].
  exists c'. rewrite Hb in *. split; [|eauto 10].
  apply (on_object_Ok conns (λ v s, set_conns s v) id _ s c () c' Hc). by rewrite Eb, Ec.
Qed.

Lemma self_run {A} (m : st (t C L) A) (w : W) a s :
  m (srv w) = Ok (a, s) → self m w = Ok (a, Business.set_server w s).
Proof. intros E. unfold self, zoom. by rewrite E. Qed.

Lemma lookup_conn s u :
  getConnByUsername u s =
    Ok (mjoin (connMap_ s !! u),
        match connMap_ s !! u with Some _ => s | None => set_connMap s (<[u := None]> (connMap_ s)) end).
Proof. unfold getConnByUsername. rewrite run_gets. by destruct (connMap_ s !! u). Qed.

Lemma idle_set_server name (w : W) s : idle name w → idle name (Business.set_server w s).
Proof. intros (pools & p & H). by exists pools, p. Qed.

(** A chat message to a user who has a connection. *)
Lemma chat_online conn (m : SingleChat.t) time (w : W) id c :
  SingleChat.type m = 0 → connMap_ (srv w) !! SingleChat.receiver m = Some (Some id) →
  conns (srv w) !! id = Some c → conn_inv c → fits_of (MSingleChat m) →
  zlen (frame_of (MSingleChat m)) < conn_room c →
  ∃ c', SingleChat conn m time w =
          Ok ((), Business.set_server w (set_conns (srv w) (<[id := c']> (conns (srv w))))) ∧
    conn_inv c' ∧ conn_connected c' = conn_connected c ∧
    conn_stream c' = conn_stream c ++ accepted c (frame_of (MSingleChat m)) ∧
    conn_room c - zlen (frame_of (MSingleChat m)) <= conn_room c' ∧
    ∃ b, conn_send c b = Ok c'.
Proof.
  intros Htype Hu Hc Hinv Hfit Hroom. unfold SingleChat.
  assert (self (getConnByUsername (SingleChat.receiver m)) w = Ok (Some id, w)) as E.
  { erewrite (self_run _ w (Some id) (srv w)); [by destruct w|]. by rewrite lookup_conn, Hu. }
  rewrite (st_bind_run _ _ _ _ _ E). cbv zeta. rewrite Htype.
  destruct (codec_send_run (srv w) id c (MSingleChat m) Hc Hinv Hfit Hroom) as (c' & Ec & H).
  exists c'. split; [|exact H]. exact (self_run _ _ _ _ Ec).
Qed.

(** C18 (functional). A chat message is relayed or kept.  When its receiver has a
    connection, the frame of the message is appended to that connection and nothing
    else changes; a connection that has gone down swallows it, for the entry of the user
    is never removed and the message is then not cached either.  When its receiver has
    none, the message is put in front of the receiver's list in redis and no connection
    changes. *)
Theorem chat_routed (conn : nat) (m : SingleChat.t) (time : Z) (w : W) :
  let u := SingleChat.receiver m in
  SingleChat.type m = 0 → fits_of (MSingleChat m) →
  match mjoin (connMap_ (srv w) !! u) with
  | Some id => ∀ c, conns (srv w) !! id = Some c → conn_inv c →
      zlen (frame_of (MSingleChat m)) < conn_room c →
      ∃ c', SingleChat conn m time w =
          Ok ((), Business.set_server w (set_conns (srv w) (<[id := c']> (conns (srv w))))) ∧
        conn_inv c' ∧ conn_stream c' = conn_stream c ++ accepted c (frame_of (MSingleChat m))
  | None => ∀ l, idle (Business.shard u) w → list_at (message_key u) (wdb w) l →
      ∃ w', SingleChat conn m time w = Ok ((), w') ∧
        conns (srv w') = conns (srv w) ∧ mjoin (connMap_ (srv w') !! u) = None ∧
        wdb w' = <[message_key u := VList (map escape (wire (MSingleChat m)) :: l)]> (wdb w) ∧
        idle (Business.shard u) w'
  end.
Proof.
  intros u Htype Hfit. destruct (mjoin (connMap_ (srv w) !! u)) as [id|] eqn:Hu.
  - intros c Hc Hinv Hroom. assert (connMap_ (srv w) !! u = Some (Some id)) as Hm.
    { destruct (connMap_ (srv w) !! u) as [o|] eqn:E; cbn in Hu; [by subst|done]. }
    destruct (chat_online conn m time w id c Htype Hm Hc Hinv Hfit Hroom) as (c' & E & Hi & _ & Hst & _).
    by exists c'.
  - intros l Hidle Hl. unfold SingleChat. fold u.
    assert (∃ s1, self (getConnByUsername u) w = Ok (None, Business.set_server w s1) ∧ conns s1 = conns (srv w) ∧
      mjoin (connMap_ s1 !! u) = None) as (s1 & E & Hc1 & Hn1).
    { eexists. split; [apply self_run; rewrite lookup_conn, Hu; reflexivity|].
      destruct (connMap_ (srv w) !! u) eqn:E; [by rewrite E|]. cbn. by rewrite lookup_insert_eq. }
    rewrite (st_bind_run _ _ _ _ _ E).
    destruct (cacheMessage_run u (MSingleChat m) l (Business.set_server w s1)) as (w' & E' & Hi & Hsv & Hdb);
      [by apply idle_set_server|done|].
    rewrite (st_bind_run _ _ _ _ _ E'). exists w'. split; [reflexivity|]. rewrite Hsv. by split_and!.
Qed.

(** *** A stream of chat messages *)

Context {CR : ConnectionReliable C CO CL}.

(** The message goes to the connection [id]. *)
Definition addressed s (id : nat) (m : SingleChat.t) : bool :=
  bool_decide (connMap_ s !! SingleChat.receiver m = Some (Some id)).

Definition chat_frames (ms : list SingleChat.t) : list byte :=
  concat ((λ m, frame_of (MSingleChat m)) <$> ms).

Definition frames_to s (id : nat) (ms : list SingleChat.t) : list byte :=
  chat_frames (filter (λ m, addressed s id m = true) ms).

(** Every receiver has a connection; every connection is up and has room. *)
Definition online s (m : SingleChat.t) : Prop :=
  ∃ id, connMap_ s !! SingleChat.receiver m = Some (Some id) ∧ is_Some (conns s !! id).
Definition live (n : Z) s : Prop :=
  map_Forall (λ _ c, conn_inv c ∧ healthy c ∧ n < conn_room c) (conns s).

(** [c'] is [c] after messages were sent on it. *)
Definition sent_on : C → C → Prop := rtc (λ c c', ∃ b, conn_send c b = Ok c').

Lemma messageCallback_chat conn time (w : W) m :
  messageCallback conn time w (MSingleChat m) = snd <$> SingleChat conn m time w.
Proof. done. Qed.

Lemma frames_to_cons s id m ms :
  frames_to s id (m :: ms) = (if addressed s id m then frame_of (MSingleChat m) else []) ++ frames_to s id ms.
Proof. unfold frames_to. rewrite filter_cons. by destruct (addressed s id m). Qed.

Lemma relay_run conn time ms (w : W) :
  Forall (λ m, SingleChat.type m = 0) ms → Forall (λ m, fits_of (MSingleChat m)) ms →
  Forall (online (srv w)) ms → live (zlen (chat_frames ms)) (srv w) →
  ∃ cs, dispatch_all (P := IM_protobuf) (messageCallback conn time) w (MSingleChat <$> ms) =
      Ok (Business.set_server w (set_conns (srv w) cs)) ∧
    ∀ id c, conns (srv w) !! id = Some c →
      ∃ c', cs !! id = Some c' ∧ sent_on c c' ∧ conn_stream c' = conn_stream c ++ frames_to (srv w) id ms.
Proof.
  revert w. induction ms as [|m ms IH]; intros w Ht Hf Ho Hl.
  { exists (conns (srv w)). split; [by destruct w as [? ? ? ? ? []]|]. intros id c Hc. exists c. rewrite app_nil_r. split_and!; [done|apply rtc_refl|done]. }
  apply Forall_cons in Ht as [Ht Hts], Hf as [Hf Hfs], Ho as [(id & Hid & [c Hc]) Hos].
  unfold chat_frames in Hl. rewrite fmap_cons, concat_cons, zlen_app in Hl. fold (chat_frames ms) in Hl.
  pose proof (Hl id c Hc) as (Hinv & Hh & Hroom). zpos.
  destruct (chat_online conn m time w id c Ht Hid Hc Hinv Hf) as (c' & E & Hi' & _ & Hst & Hr' & b & Eb); [lia|].
  cbn [fmap list_fmap dispatch_all]. rewrite messageCallback_chat, E. cbn [fmap res_fmap mbind res_bind snd].
  set (w1 := Business.set_server w _).
  destruct (IH w1 Hts Hfs) as (cs & E' & Hcs).
  - eapply Forall_impl; [exact Hos|]. intros x (j & Hj & Hx). exists j. split; [done|]. cbn.
    destruct (decide (j = id)) as [->|]; [by rewrite lookup_insert_eq|by rewrite lookup_insert_ne].
  - intros j cj. cbn. rewrite lookup_insert_Some. intros [[<- <-]|[Hne Hj]].
    + split; [done|]. split; [by eapply healthy_send|lia].
    + destruct (Hl j cj Hj) as (? & ? & ?). split_and!; [done..|lia].
  - exists cs. split; [exact E'|]. intros j cj Hj. rewrite frames_to_cons.
    assert (addressed (srv w) j m = bool_decide (j = id)) as ->.
    { unfold addressed. rewrite Hid. apply bool_decide_ext. split; congruence. }
    destruct (decide (j = id)) as [->|Hne].
    + rewrite Hc in Hj. simplify_eq. destruct (Hcs id c') as (c2 & Hc2 & Hr2 & Hs2); [cbn; by rewrite lookup_insert_eq|].
      exists c2. split; [done|]. split; [eapply rtc_l; [by exists b|done]|]. rewrite bool_decide_true by done. rewrite Hs2, Hst, <-app_assoc.
      unfold accepted. destruct (healthy_accepts cj (frame_of (MSingleChat m)) Hh) as [-> ->]. done.
    + destruct (Hcs j cj) as (c2 & Hc2 & Hr2 & Hs2); [cbn; by rewrite lookup_insert_ne|].
      exists c2. split; [done|]. split; [done|]. by rewrite bool_decide_false.
Qed.

(** Chat messages travel through the server byte for byte.  When the
    frames of chat messages arrive on a connection, cut into chunks in any way, every
    other connection receives exactly the frames of the messages addressed to the user
    it belongs to, unchanged, once, and in the order in which they came; the input is
    consumed completely and no error is reported. *)
Theorem chat_stream (conn : nat) (time : Z) (ms : list SingleChat.t) (chunks : list (list byte))
    (w : W) (buf : Buffer.t) :
  Forall (λ m, SingleChat.type m = 0) ms → Forall (λ m, fits_of (MSingleChat m)) ms →
  Forall (online (srv w)) ms → live (zlen (chat_frames ms)) (srv w) →
  Buffer.wf buf → Buffer.content buf = [] →
  concat chunks = chat_frames ms → Forall (λ d, zlen d <= 65536) chunks →
  zlen (Buffer.buffer_ buf) + zlen (chat_frames ms) < 2 ^ 62 →
  ∃ w' buf', feed (P := IM_protobuf) (messageCallback conn time) (defaultErrorCallback conn) w buf chunks
      = Ok (w', buf') ∧ Buffer.content buf' = [] ∧
    ∀ id c, conns (srv w) !! id = Some c →
      ∃ c', conns (srv w') !! id = Some c' ∧ sent_on c c' ∧ conn_stream c' = conn_stream c ++ frames_to (srv w) id ms.
Proof.
  intros Ht Hf Ho Hl Hwf Hc Hch Hlen Hsz.
  destruct (relay_run conn time ms w Ht Hf Ho Hl) as (cs & E & Hcs).
  assert (chat_frames ms = concat (frame (P := IM_protobuf) <$> (MSingleChat <$> ms))) as Heq.
  { unfold chat_frames. by rewrite <-list_fmap_compose. }
  destruct (feed_frames (P := IM_protobuf) (messageCallback conn time) (defaultErrorCallback conn) w
    (Business.set_server w (set_conns (srv w) cs)) buf (MSingleChat <$> ms) chunks) as (buf' & E' & _ & Hc').
  - done.
  - done.
  - by apply Forall_fmap.
  - done.
  - by rewrite <-Heq.
  - by rewrite Hch.
  - exact E.
  - eexists _, buf'. split; [exact E'|]. done.
Qed.

(** *** Logging in *)

Lemma sql_available_set_server held (w : W) s : sql_available held w → sql_available held (Business.set_server w s).
Proof. done. Qed.

(** The keys of a user's session and of the user's messages end differently. *)
Lemma message_not_session user : x00 ∉ bytes_of user → message_key user ≠ session_key user.
Proof.
  intros Hu H. unfold session_key, message_key in H. rewrite !c_str_no_nul in H.
  - apply (f_equal last) in H. rewrite !bytes_of_app, !last_app in H. done.
  - rewrite bytes_of_app. apply not_elem_of_app. split; [done|]. by apply (bool_decide_unpack _).
  - rewrite bytes_of_app. apply not_elem_of_app. split; [done|]. by apply (bool_decide_unpack _).
Qed.

(** The server sending messages to a user whose connection is up. *)
Lemma send_all_run user ms s id c :
  connMap_ s !! user = Some (Some id) → conns s !! id = Some c → conn_inv c → healthy c →
  Forall (λ m, fits_of (MSingleChat m)) ms → zlen (chat_frames ms) < conn_room c →
  ∃ c', Accounts.send_all user ms s = Ok (set_conns s (<[id := c']> (conns s))) ∧ conn_stream c' = conn_stream c ++ chat_frames ms.
Proof.
  intros Hu Hc Hinv Hh Hfs Hroom. revert s c Hu Hc Hinv Hh Hroom.
  induction Hfs as [|m ms Hf Hfs IH]; intros s c Hu Hc Hinv Hh Hroom; cbn [Accounts.send_all].
  { exists c. rewrite app_nil_r. split; [|done]. destruct s. cbn in *. by rewrite insert_id. }
  unfold chat_frames in *. rewrite fmap_cons, concat_cons, zlen_app in *. zpos.
  destruct (codec_send_run s id c (MSingleChat m) Hc Hinv Hf) as (c1 & E1 & Hi1 & _ & Hst1 & Hr1 & b & Eb); [lia|].
  assert (gserver_send user (MSingleChat m) s = Ok (set_conns s (<[id := c1]> (conns s)))) as E.
  { cbn. unfold send. erewrite (st_bind_run _ _ s (Some id) s); [by rewrite E1|]. by rewrite lookup_conn, Hu. }
  rewrite E. cbn [mbind res_bind].
  destruct (IH (set_conns s (<[id := c1]> (conns s))) c1) as (c2 & E2 & Hst2);
    [done|cbn; by rewrite lookup_insert_eq|done|by eapply healthy_send|lia|].
  exists c2. split.
  - rewrite E2. cbn. by rewrite insert_insert_eq.
  - rewrite Hst2, Hst1, <-app_assoc. unfold accepted.
    destruct (healthy_accepts c (frame_of (MSingleChat m)) Hh) as [-> ->]. done.
Qed.

(** The answer to a login. *)
Definition login_answer (z : Z) (info : string) : im_message :=
  MResponse (Response.set_description (Response.set_result Response.empty (z =? 0)) info).

(** C16 (functional). A login on a healthy connection, with a cache that answers and the
    connections to MySQL and redis to be had.  The client gets the answer and then, when
    MySQL answered the query for the name and the password with a row, all the messages
    that were cached for the user, the newest first.  In every case, so also when the
    password is wrong, the name is afterwards bound to this connection: the next chat
    messages for the user are sent to it. *)
Theorem login_served (conn : nat) (login : Login.t) (time : Z) (held : list nat) (msgs : list SingleChat.t)
    (c : C) (w : W) :
  let user := Login.username login in
  idle (Business.shard user) w → sql_available held w → x00 ∉ bytes_of user →
  (∀ fields rows, answered (Business.login_sql user (Login.password login)) fields rows → rows ≠ [] →
     storable (MSession (session_of user (first_row fields rows)))) →
  list_at (message_key user) (wdb w) (map (λ m, map escape (wire (MSingleChat m))) msgs) →
  Forall (λ m, (tilde ∉ wire (MSingleChat m)) ∧ fits_of (MSingleChat m)) msgs →
  conns (srv w) !! conn = Some c → conn_inv c → healthy c →
  (∀ z info db, login_outcome login (Business.w_sql w) (wdb w) z info db → fits_of (login_answer z info) ∧
     zlen (frame_of (login_answer z info)) + zlen (chat_frames msgs) < conn_room c) →
  ∃ z info w' c', Server.Login conn login time w = Ok ((), w') ∧
    login_outcome login (Business.w_sql w) (wdb w) z info (wdb w') ∧
    connMap_ (srv w') !! user = Some (Some conn) ∧ conns (srv w') !! conn = Some c' ∧
    conn_stream c' = conn_stream c ++ frame_of (login_answer z info) ++
      (if z =? 0 then chat_frames msgs else []) ∧
    ready (Business.w_sql w') held.
Proof.
  intros user Hidle Hsql H0 Hst Hl Hmsgs Hc Hinv Hh Hfit. unfold Server.Login. cbv zeta. fold user.
  set (s1 := set_connMap (srv w) (<[user := Some conn]> (connMap_ (srv w)))).
  assert (self (saveUsernameConn user conn) w = Ok ((), Business.set_server w s1)) as E1 by by apply self_run.
  rewrite (st_bind_run _ _ _ _ _ E1).
  destruct (login_ends login Response.empty held (Business.set_server w s1)) as (z & info & w2 & E2 & Ho & Hi2 & Hr2 & Hsv2);
    [by apply idle_set_server|done|done|].
  rewrite (st_bind_run _ _ _ _ _ E2).
  destruct (Hfit z info (wdb w2) Ho) as [Hf Hroom]. zpos.
  destruct (codec_send_run (srv w2) conn c (login_answer z info)) as (c3 & E3 & Hi3 & _ & Hst3 & Hr3 & b & Eb);
    [by rewrite Hsv2|done|done|lia|].
  rewrite (st_bind_run _ _ _ _ _ (self_run _ w2 _ _ E3)).
  unfold accepted in Hst3. destruct (healthy_accepts c (frame_of (login_answer z info)) Hh) as [Hup Hrf].
  rewrite Hup, Hrf in Hst3. cbn [andb negb] in Hst3.
  set (s3 := set_conns (srv w2) (<[conn := c3]> (conns (srv w2)))) in *.
  assert (connMap_ s3 !! user = Some (Some conn)) as Hu3 by (unfold s3; rewrite Hsv2; apply lookup_insert_eq).
  assert (conns s3 !! conn = Some c3) as Hc3 by apply lookup_insert_eq.
  destruct (z =? 0) eqn:Ez.
  - destruct (send_all_run user msgs s3 conn c3 Hu3 Hc3 Hi3) as (c4 & E4 & Hst4).
    { by eapply healthy_send. } { eapply Forall_impl; [exact Hmsgs|]. by intros m []. } { lia. }
    destruct (sendCacheMessage_run user msgs (Business.set_server w2 s3) (set_conns s3 (<[conn := c4]> (conns s3))))
      as (w5 & E5 & Hs5 & Hdb5 & Hsql5 & _); [by apply idle_set_server| | |exact E4|].
    { change (wdb (Business.set_server w2 s3)) with (wdb w2).
      inversion Ho as [| |ml' s' fields rows Ha Hh' Hne]; subst; [done..|]. unfold list_at in *.
      rewrite lookup_insert_ne by (by apply not_eq_sym, message_not_session). exact Hl. }
    { eapply Forall_impl; [exact Hmsgs|]. by intros m []. }
    rewrite (st_bind_run _ _ _ _ _ E5). exists z, info, w5, c4. split; [reflexivity|]. rewrite Hs5, Hdb5, Ez.
    split_and!; [done|done|apply lookup_insert_eq| |by rewrite Hsql5].
    by rewrite Hst4, Hst3, <-app_assoc.
  - exists z, info, (Business.set_server w2 s3), c3. rewrite Ez, app_nil_r. split; [reflexivity|]. by split_and!.
Qed.
End Facts.

(** ** A server for concrete runs: the users "al" and "bob" on the connections 1 and 2 *)

Module ToyServer.
Import Server ToyRedis ToyWire ToyWorld ToyConnection ToyProtobuf.

#[export] Instance toy_tasks : FunctorLoop (list task) task := {|
  queueFunctor l f := l ++ [f];
  runFunctorAfter l _ f := Ok (l ++ [f])
|}.

Abbreviation toy_srv := (Server.t conn (list task)).

Definition toy_state (m : gmap string (option nat)) : toy_srv :=
  Server.mk [] m {[1%nat := mkconn true []; 2%nat := mkconn true []]}.
Definition both_online : toy_srv :=
  toy_state (<["al" := Some 1%nat]> (<["bob" := Some 2%nat]> ∅))%string.

Definition toy_served (s : toy_srv) : Business.world (database * nat) nat toy_srv :=
  let w := toy_world ∅ in
  Business.World (Business.w_heap w) (Business.w_manager w) (Business.w_conf w) (Business.w_sql w)
    (Business.w_ticks w) s.

Definition toy_msg (receiver text : string) : SingleChat.t :=
  SingleChat.set_message (SingleChat.set_receiver SingleChat.empty receiver) text.

Lemma toy_live n m : n < 2 ^ 62 → live n (toy_state m).
Proof.
  intros Hn i c. cbn. rewrite lookup_insert_Some, lookup_singleton_Some.
  intros [[_ <-]|[_ [_ <-]]]; (split; [done|]); (split; [done|exact Hn]).
Qed.
End ToyServer.

(** The entries of the configuration file that comes with the server. *)
Definition shipped : list string :=
  ["host    0.0.0.0"; ""; "port    9998"; ""; "ioThreadNumber  5"; ""; "serverName  IM"; "";
   "maxConn     99999"; ""; "tpNum     5"; ""; "daemon      no"; ""; "logRollSie     1GB"; "";
   "logFlushInterval    1"]%string.

(** It configures the server, and a file without the port does not. *)
Example shipped_configuration :
  let file l := concat ((λ s, bytes_of s ++ [Init.Byte.x0d; c_nl]) <$> l) in
  (m ← ReadConfig.readConfig (Some (file shipped)); s ← Server.configure m; n ← Server.start m; Ok (s, n))
    = Ok (Server.Settings (2 ^ 30) 1 (bytes_of "0.0.0.0") 9998 (bytes_of "IM") 5, 5) ∧
  (m ← ReadConfig.readConfig (Some (file (filter (λ s, s ≠ "port    9998"%string) shipped))); Server.configure m)
    = Fault (Throw "std::invalid_argument: stoi").
Proof. vm_compute. split; reflexivity. Qed.

Section Witnesses.
Import Server ToyRedis ToyWire ToyWorld ToyConnection ToyProtobuf ToyServer.

(** The registrations of the constructor of the server, the last one first. *)
Abbreviation toy_handlers_world := (Business.world (database * nat) nat toy_srv).
Definition toy_registrations : list (registration (P := IM_protobuf) (Conn := nat) (W := toy_handlers_world)) :=
  [Reg Hongbaoreq.t _ SendHongbao; Reg GroupChat.t _ GroupChat; Reg ReqRobHongbao.t _ RobHongbao;
   Reg SingleChat.t _ SingleChat; Reg Register.t _ Register; Reg Login.t _ Login].
Definition toy_unknown : Dispatcher.Callback (P := IM_protobuf) nat toy_handlers_world := onUnknownMessage.

Lemma dispatch_typed_witness :
  dispatcher_ = registered toy_unknown toy_registrations ∧
  (∀ x : Login.t, Dispatcher.onProtobufMessage (registered toy_unknown toy_registrations) 1%nat (MLogin x) 0 = Login 1 x 0) ∧
  (∀ x : Response.t,
     Dispatcher.onProtobufMessage (registered toy_unknown toy_registrations) 1%nat (MResponse x) 0 = toy_unknown 1%nat (MResponse x) 0).
Proof.
  assert (Forall lawful toy_registrations) as Hlaw.
  { unfold toy_registrations. repeat (apply Forall_cons_2; [unfold lawful; cbn; exact _|]). apply Forall_nil_2. }
  split; [reflexivity|]. split; intros x.
  - destruct (dispatch_typed toy_unknown toy_registrations 1%nat (MLogin x : @Message IM_protobuf) 0 Hlaw) as (y & Hy & E).
    injection Hy as <-. exact E.
  - exact (dispatch_typed toy_unknown toy_registrations 1%nat (MResponse x : @Message IM_protobuf) 0 Hlaw).
Defined.

Lemma toy_fits : fits (P := IM_protobuf) (MSingleChat (toy_msg "bob" "hi") : @Message IM_protobuf).
Proof. vm_compute. done. Qed.
Lemma toy_away :
  mjoin (connMap_ (Business.w_server (toy_served (toy_state ∅))) !! "bob"%string) = None.
Proof. reflexivity. Qed.
Lemma toy_none : list_at (message_key "bob") (wdb (toy_served (toy_state ∅))) [].
Proof. vm_compute. reflexivity. Qed.

Lemma chat_routed_witness :
  ∃ w', SingleChat 1 (toy_msg "bob" "hi") 0 (toy_served (toy_state ∅)) = Ok ((), w') ∧
    conns (Business.w_server w') = conns (toy_state ∅).
Proof.
  pose proof (chat_routed 1 (toy_msg "bob" "hi") 0 (toy_served (toy_state ∅)) eq_refl toy_fits) as H.
  cbv zeta in H. change (SingleChat.receiver (toy_msg "bob" "hi")) with "bob"%string in H.
  rewrite toy_away in H. destruct (H [] (toy_idle ∅) toy_none) as (w' & E & Hc & _).
  exists w'. split; [exact E|exact Hc].
Defined.

Definition toy_chats : list SingleChat.t := [toy_msg "bob" "hi"; toy_msg "al" "ho"; toy_msg "bob" "hm"].

Lemma chat_stream_witness :
  ∃ w' buf' c', feed (P := IM_protobuf) (messageCallback 1 0) (defaultErrorCallback 1) (toy_served both_online) empty_buffer
      [ztake 50 (chat_frames toy_chats); zdrop 50 (chat_frames toy_chats)] = Ok (w', buf') ∧
    conns (Business.w_server w') !! 2%nat = Some c' ∧
    out c' = chat_frames [toy_msg "bob" "hi"; toy_msg "bob" "hm"].
Proof.
  destruct (chat_stream 1 0 toy_chats [ztake 50 (chat_frames toy_chats); zdrop 50 (chat_frames toy_chats)]
    (toy_served both_online) empty_buffer) as (w' & buf' & E & _ & Hout).
  - repeat constructor.
  - repeat constructor; vm_compute; done.
  - repeat constructor; [exists 2%nat|exists 1%nat|exists 2%nat]; (split; [vm_compute; reflexivity|by eexists]).
  - apply toy_live. vm_compute. reflexivity.
  - apply empty_buffer_wf.
  - reflexivity.
  - cbn [concat]. rewrite app_nil_r. apply ztake_drop.
  - repeat constructor; vm_compute; done.
  - vm_compute. reflexivity.
  - destruct (Hout 2%nat (mkconn true [])) as (c' & Hc' & _ & Hs); [reflexivity|].
    exists w', buf', c'. split; [exact E|]. split; [exact Hc'|]. change (out c') with (conn_stream c'). rewrite Hs. vm_compute. reflexivity.
Defined.

Lemma login_served_witness :
  ∃ z info w', Server.Login 1 toy_login 0 (toy_served (toy_state ∅)) = Ok ((), w') ∧
    login_outcome toy_login (Business.w_sql (toy_served (toy_state ∅))) ∅ z info (wdb w') ∧
    connMap_ (Business.w_server w') !! "bob"%string = Some (Some 1%nat).
Proof.
  destruct (login_served 1 toy_login 0 [] [] (mkconn true []) (toy_served (toy_state ∅)))
    as (z & info & w' & c' & E & Ho & Hm & _).
  - exact (toy_idle ∅).
  - exact (toy_sql ∅).
  - by apply (bool_decide_unpack _).
  - intros fields rows (d & h & d1 & h1 & d2 & h2 & r & _ & Hs & <- & <-) _. injection Hs as <- _ _.
    apply toy_storable. vm_compute. reflexivity.
  - vm_compute. reflexivity.
  - constructor.
  - reflexivity.
  - done.
  - done.
  - intros z info db Ho. destruct Ho; split; vm_compute; done.
  - exists z, info, w'. split; [exact E|]. split; [exact Ho|exact Hm].
Defined.
End Witnesses.
