(* ===== verification/CrossChat.v ===== *)
(** * Chat messages between connections of different loops

    The handler of a chat message runs in the loop of the sender's connection; the
    receiver's connection is in general served by another loop.  Server.v with the
    connections of CrossThread.v: the handlers queue, and the loops of the receivers send. *)
From S2P Require Import Prelude Text State Buffer ProtobufCodec Channel EPollPoller TimerQueue EventLoop Reactor TcpConnection Connection CrossThread.
From S2P Require Import Mysql MysqlLinkPool CacheConn CachePool IM Business Dispatcher Server.

Section Chat.
Import Server.
Context {R D M : Type} {HR : Hiredis R} {HL : HiredisLaws R} {HA : HiredisReliable R}.
Context {MC : MysqlClient D} {ML : MysqlClientLaws D} {LC : Libc} {LL : LibcLaws LC} {IW : IMWire} {IL : IMWireLaws IW} {ZL : Zlib}.
Context {FM : FunctorLoop M task}.
Context {L S U : Type} `{CL : ChannelLoop L, CLL : !ChannelLoopLaws L CL,
  FL : FunctorLoop L TcpConnection.functor, FLL : !FunctorLoopLaws L TcpConnection.functor CL CLL FL,
  SO : Socket S, SL : !SocketLaws S SO}.
Variables (connectionCallback_ writeComplete : TcpConnection.t L S U → res (TcpConnection.t L S U))
  (messageCallback_ highWaterMark : Z → TcpConnection.t L S U → res (TcpConnection.t L S U)).

Abbreviation remote := (CrossThread.t L S U).
#[local] Existing Instances remote_connection remote_connection_laws remote_reliable.
Abbreviation W := (Business.world R D (Server.t remote M)).
Abbreviation srv w := (Business.w_server (w : W)).
Abbreviation steps := (CrossThread.steps connectionCallback_ writeComplete messageCallback_ highWaterMark).
Abbreviation waiting s := (messages (CrossThread.queue_ s) ≫= Datatypes.id).

(** Sending from other threads leaves the connection itself alone. *)
Lemma sent_on_queues (s s' : remote) :
  sent_on s s' → healthy s → CrossThread.conn s' = CrossThread.conn s ∧ healthy s'.
Proof.
  induction 1 as [|s s1 s' [b Eb] _ IH]; [done|]. intros Hh. pose proof (healthy_send _ _ _ Hh Eb) as Hh1.
  destruct (remote_send_ok b s s1) as [E _]; [apply Hh|exact Eb|]. destruct (IH Hh1) as [-> ?]. done.
Qed.

(** C2 (functional). Chat messages arrive on a connection, cut into chunks in any way, and
    every other connection belongs to another loop.  The handlers only queue; when the
    loop of a receiver has run the functors that wait for it, its peer has been sent what
    was sent before, what was waiting, and then exactly the frames of the messages
    addressed to it, unchanged, once, in order. *)
Theorem chat_crosses_loops (conn : nat) (time : Z) (ms : list SingleChat.t) (chunks : list (list byte))
    (w : W) (buf : Buffer.t) :
  Forall (λ m, SingleChat.type m = 0) ms → Forall (λ m, fits (P := IM_protobuf) (MSingleChat m : @Message IM_protobuf)) ms →
  Forall (online (srv w)) ms → live (zlen (chat_frames ms)) (srv w) →
  Buffer.wf buf → Buffer.content buf = [] →
  concat chunks = chat_frames ms → Forall (λ d, zlen d <= 65536) chunks →
  zlen (Buffer.buffer_ buf) + zlen (chat_frames ms) < 2 ^ 62 → peer_stays (S := S) →
  ∃ w' buf', feed (P := IM_protobuf) (messageCallback conn time) (defaultErrorCallback conn) w buf chunks
      = Ok (w', buf') ∧ Buffer.content buf' = [] ∧
    ∀ id s, conns (srv w) !! id = Some s →
      TcpConnection.size (CrossThread.conn s) + zlen (waiting s) + zlen (frames_to (srv w) id ms) < 2 ^ 62 →
      ∃ s' s'', conns (srv w') !! id = Some s' ∧
        steps (repeat CrossThread.RunsFunctor (length (CrossThread.queue_ s'))) s' = Ok s'' ∧
        TcpConnection.stream (CrossThread.conn s'') =
          TcpConnection.stream (CrossThread.conn s) ++ waiting s ++ frames_to (srv w) id ms ∧
        CrossThread.queue_ s'' = [] ∧ TcpConnection.inv (CrossThread.conn s'').
Proof.
  intros Ht Hf Ho Hl Hwf Hc Hch Hlen Hsz Hp.
  destruct (chat_stream conn time ms chunks w buf Ht Hf Ho Hl Hwf Hc Hch Hlen Hsz) as (w' & buf' & E & Hc' & Hout).
  exists w', buf'. split_and!; [done..|]. intros id s Hs Hroom. destruct (Hl id s Hs) as ([Hi Hnc] & Hh & _).
  destruct (Hout id s Hs) as (s' & Hs' & Hr & Hst). destruct (sent_on_queues s s' Hr Hh) as [Ec [Hcon Hq]].
  cbn in Hst. unfold remote_stream in Hst. rewrite Ec, <-app_assoc in Hst. apply app_inv_head in Hst.
  destruct (remote_delivered connectionCallback_ writeComplete messageCallback_ highWaterMark s') as (s'' & E2 & Hst2 & Hq2 & Hi2 & _).
  - by rewrite Ec.
  - unfold TcpConnection.is_open. by rewrite Hcon.
  - done.
  - done.
  - rewrite Ec. rewrite Hst, zlen_app. lia.
  - exists s', s''. split_and!; [done|done| |done|done]. rewrite Hst2. unfold remote_stream. by rewrite Ec, Hst.
Qed.
End Chat.

Section Witness.
Import Server ToyRedis ToyWire ToyWorld ToyProtobuf ToyServer SlowSocket ToyEpoll ToyEventfd.
#[local] Existing Instances remote_connection remote_connection_laws remote_reliable.

(** Bob's connection, in a loop of its own, has a message waiting; Al's has none. *)
Definition in_loops : Server.t (CrossThread.t (Reactor.t interest_list N TcpConnection.functor) (list byte) unit) (list task) :=
  Server.mk [] (<["al" := Some 1%nat]> (<["bob" := Some 2%nat]> ∅))%string
    {[1%nat := CrossThread.mk slow [] ∅; 2%nat := CrossThread.mk slow [TcpConnection.SendInLoop (bytes_of "before ")] ∅]}.

Definition served_loops : Business.world (database * nat) nat _ :=
  let w := toy_world ∅ in
  Business.World (Business.w_heap w) (Business.w_manager w) (Business.w_conf w) (Business.w_sql w)
    (Business.w_ticks w) in_loops.

Lemma chat_crosses_loops_witness :
  ∃ w' buf' s' s'', feed (P := IM_protobuf) (messageCallback 1 0) (defaultErrorCallback 1) served_loops empty_buffer
      [ztake 50 (chat_frames toy_chats); zdrop 50 (chat_frames toy_chats)] = Ok (w', buf') ∧
    conns (Business.w_server w') !! 2%nat = Some s' ∧
    CrossThread.steps (λ c, Ok c) (λ c, Ok c) (λ _ c, Ok c) (λ _ c, Ok c) 
      (repeat CrossThread.RunsFunctor (length (CrossThread.queue_ s'))) s' = Ok s'' ∧
    TcpConnection.stream (CrossThread.conn s'') = bytes_of "before " ++ chat_frames [toy_msg "bob" "hi"; toy_msg "bob" "hm"].
Proof.
  destruct (chat_crosses_loops (λ c, Ok c) (λ c, Ok c) (λ _ c, Ok c) (λ _ c, Ok c) 1 0 toy_chats
    [ztake 50 (chat_frames toy_chats); zdrop 50 (chat_frames toy_chats)] served_loops empty_buffer) as (w' & buf' & E & _ & Hout).
  - repeat constructor.
  - repeat constructor; vm_compute; done.
  - repeat constructor; [exists 2%nat|exists 1%nat|exists 2%nat]; (split; [vm_compute; reflexivity|by eexists]).
  - intros i c. cbn [conns Business.w_server served_loops in_loops]. rewrite lookup_insert_Some, lookup_singleton_Some.
    intros [[_ <-]|[_ [_ <-]]]; (split; [split; [apply established_inv|done]|]); (split; [split; [done|by repeat constructor]|vm_compute; reflexivity]).
  - apply empty_buffer_wf.
  - reflexivity.
  - cbn [concat]. rewrite app_nil_r. apply ztake_drop.
  - repeat constructor; vm_compute; done.
  - vm_compute. reflexivity.
  - intros x d. by vm_compute.
  - destruct (Hout 2%nat (CrossThread.mk slow [TcpConnection.SendInLoop (bytes_of "before ")] ∅)) as (s' & s'' & Hs' & Er & Hst & _).
    { reflexivity. } { vm_compute. reflexivity. }
    exists w', buf', s', s''. split; [exact E|]. split; [exact Hs'|]. split; [exact Er|].
    rewrite Hst. vm_compute. reflexivity.
Defined.
End Witness.
