(* ===== verification/Client.v ===== *)
(** * client/src/Client.cc: the handlers of the client, and a chat from end to end

    A client keeps its connection and answers what the server sends.  [shown] is what it
    writes on the terminal and into the log, in order; the fixed words around the values
    are left out.  [redPackets] is the global table of the keys of red packets.  As in
    Server.v, a connection is named by a number, and its object is any implementation of
    [Connection]. *)
From S2P Require Import Prelude Text State Buffer ProtobufCodec Comm Mysql SqlAnswers CacheConn CachePool.
From S2P Require Import IM Business Accounts Dispatcher EventLoop Threads Connection Server.

(** The other message classes the client handles. *)
Section Classes.
Context {IW : IMWire}.
#[export] Instance Response_class : @MessageClass IM_protobuf Response.t :=
  {| descriptor := (TResponse : @Descriptor IM_protobuf); as_class (m : @Message IM_protobuf) := match m with MResponse x => Some x | _ => None end |}.
#[export] Instance HongbaoResp_class : @MessageClass IM_protobuf HongbaoResp.t :=
  {| descriptor := (THongbaoResp : @Descriptor IM_protobuf); as_class (m : @Message IM_protobuf) := match m with MHongbaoResp x => Some x | _ => None end |}.
#[export] Instance RespRobHongbao_class : @MessageClass IM_protobuf RespRobHongbao.t :=
  {| descriptor := (TRespRobHongbao : @Descriptor IM_protobuf); as_class (m : @Message IM_protobuf) := match m with MRespRobHongbao x => Some x | _ => None end |}.
End Classes.

(** What the user gets to see. *)
Inductive notice :=
  | Connected
  | Disconnected
  | SendFailed
  | Unknown (type : im_type)
  | Answer (m : Response.t)
  | Dump (m : SingleChat.t)
  | FriendMessage (sender message : string) (time : Z)
  | GroupMessage (groupid sender message : string) (time : Z)
  | Hongbao (user sender key : string)
  | Robbed (user sender : string) (money : double)
  | NotRobbed (user sender description : string).

Module Client.
Section Client.
Context {C : Type} {CO : Connection C} {IW : IMWire} {ZL : Zlib}.

Record t := mk {
  username_ : string;
  conn_ : option nat;
  latch2_ : CountDownLatch.t;
  redPackets : gmap string string;
  conns : gmap nat C;
  shown : list notice
}.

Definition saveUserName (username : string) (s : t) : t :=
  mk username (conn_ s) (latch2_ s) (redPackets s) (conns s) (shown s).
Definition set_conn (v : option nat) (s : t) : t :=
  mk (username_ s) v (latch2_ s) (redPackets s) (conns s) (shown s).
Definition set_latch2 (v : CountDownLatch.t) (s : t) : t :=
  mk (username_ s) (conn_ s) v (redPackets s) (conns s) (shown s).
Definition set_redPackets (v : gmap string string) (s : t) : t :=
  mk (username_ s) (conn_ s) (latch2_ s) v (conns s) (shown s).
Definition set_conns (v : gmap nat C) (s : t) : t :=
  mk (username_ s) (conn_ s) (latch2_ s) (redPackets s) v (shown s).
Definition show (n : notice) : st t unit :=
  modify (λ s, mk (username_ s) (conn_ s) (latch2_ s) (redPackets s) (conns s) (shown s ++ [n])).

Definition make : t := mk "" None (CountDownLatch.make 1) ∅ ∅ [].

(** [codec_->send(conn, message)]. *)
Definition codec_send (conn : nat) (message : im_message) : st t unit :=
  on_object conns set_conns conn
    (λ c, c' ← ProtobufCodec.send (P := IM_protobuf) conn_send c message; Ok ((), c')).

Definition send (mesg : im_message) : st t unit :=
  conn ← gets conn_;
  match conn with
  | Some conn =>
      c ← gets (λ s, conns s !! conn);
      c ← deref c;
      if conn_connected c then codec_send conn mesg else mret ()
  | None => show SendFailed
  end.

(** A lost connection is logged through [conn_], which must not be null. *)
Definition onConnection (conn : nat) : st t unit :=
  c ← gets (λ s, conns s !! conn);
  c ← deref c;
  if conn_connected c then
    _ ← modify (set_conn (Some conn));
    latch ← gets latch2_;
    '(latch, _) ← lift (CountDownLatch.countDown latch);
    _ ← modify (set_latch2 latch);
    show Connected
  else
    conn ← gets conn_;
    _ ← deref conn;
    _ ← show Disconnected;
    modify (set_conn None).

Definition onUnknownMessage (conn : nat) (message : im_message) (timestamp : Z) : st t unit :=
  show (Unknown (type_of message)).

Definition onResponse (conn : nat) (message : Response.t) (timestamp : Z) : st t unit :=
  show (Answer message).

Definition HongbaoResponse (conn : nat) (message : HongbaoResp.t) (timestamp : Z) : st t unit :=
  username ← gets username_;
  let req := ReqRobHongbao.set_hongbaokey ReqRobHongbao.empty (HongbaoResp.hongbaokey message) in
  let req := ReqRobHongbao.set_sender req (HongbaoResp.sender message) in
  let req := ReqRobHongbao.set_selfname req username in
  codec_send conn (MReqRobHongbao req).

(** The notice of a robbed red packet, or of a failure. *)
Definition robbed (username : string) (message : RespRobHongbao.t) : notice :=
  if RespRobHongbao.isok message
  then Robbed username (RespRobHongbao.sender message) (RespRobHongbao.robmoney message)
  else NotRobbed username (RespRobHongbao.sender message) (RespRobHongbao.description message).

Definition RobHongbaoResponse (conn : nat) (message : RespRobHongbao.t) (timestamp : Z) : st t unit :=
  username ← gets username_;
  show (robbed username message).

Definition SingleChat (conn : nat) (message : SingleChat.t) (timestamp : Z) : st t unit :=
  let type := SingleChat.type message in
  _ ← show (Dump message);
  let name := HongbaoResp.sender (SingleChat.hbrsp message) in
  let hbkey := HongbaoResp.hongbaokey (SingleChat.hbrsp message) in
  let receiver := SingleChat.receiver message in
  username ← gets username_;
  if type =? 0 then
    show (FriendMessage (SingleChat.sender message) (SingleChat.message message) (SingleChat.timestamp message))
  else if type =? 2 then
    if HongbaoResp.isok (SingleChat.hbrsp message) then
      _ ← show (Hongbao username name hbkey);
      _ ← modify (λ s, set_redPackets (<[name := hbkey]> (redPackets s)) s);
      let cc := SingleChat.set_type SingleChat.empty 3 in
      let cc := SingleChat.set_sender cc username in
      let cc := SingleChat.set_receiver cc receiver in
      let req := ReqRobHongbao.set_hongbaokey ReqRobHongbao.empty hbkey in
      let req := ReqRobHongbao.set_sender req name in
      let req := ReqRobHongbao.set_selfname req username in
      codec_send conn (MSingleChat (SingleChat.set_robhbreq cc req))
    else mret ()
  else if type =? 4 then show (robbed username (SingleChat.robhbrsp message))
  else mret ().

Definition GroupChat (conn : nat) (message : GroupChat.t) (timestamp : Z) : st t unit :=
  show (GroupMessage (GroupChat.groupid message) (GroupChat.sender message) (GroupChat.message message)
          (GroupChat.timestamp message)).

(** The registrations of [runLoop]. *)
Definition dispatcher_ : @Dispatcher.t IM_protobuf im_type_eq_dec im_type_countable nat t :=
  let d := Dispatcher.make onUnknownMessage in
  let d := Dispatcher.registerMessageCallback onResponse d in
  let d := Dispatcher.registerMessageCallback HongbaoResponse d in
  let d := Dispatcher.registerMessageCallback RobHongbaoResponse d in
  let d := Dispatcher.registerMessageCallback SingleChat d in
  Dispatcher.registerMessageCallback GroupChat d.

(** [codec_]'s message callback. *)
Definition messageCallback (conn : nat) (receiveTime : Z) (s : t) (m : im_message) : res t :=
  snd <$> Dispatcher.onProtobufMessage dispatcher_ conn m receiveTime s.

(** [ProtobufCodec::defaultErrorCallback]. *)
Definition defaultErrorCallback (conn : nat) (s : t) (buf : Buffer.t)
    (errorCode : ProtobufCodec.ErrorCode) : res (t * Buffer.t) :=
  '(_, s) ← on_object conns set_conns conn
              (λ c, c ← (if conn_connected c then conn_shutdown c else mret c); Ok ((), c)) s;
  Ok (s, buf).

(** The message callback of the connection. *)
Definition onMessage (conn : nat) (receiveTime : Z) (s : t) (buf : Buffer.t) : res (t * Buffer.t) :=
  ProtobufCodec.onMessage (P := IM_protobuf) (messageCallback conn receiveTime) (defaultErrorCallback conn) s buf.

End Client.
#[global] Arguments t C : clear implicits.
End Client.

(** ** What a client does with what it receives *)
Section Facts.
Import Client.
Context {C : Type} {CO : Connection C} {CL : ConnectionLaws C CO} {CR : ConnectionReliable C CO CL}.
Context {IW : IMWire} {IL : IMWireLaws IW} {ZL : Zlib}.
Implicit Types (s : Client.t C) (m : im_message).

Abbreviation cframe m := (frame (P := IM_protobuf) (m : @Message IM_protobuf)).
Abbreviation cfits m := (fits (P := IM_protobuf) (m : @Message IM_protobuf)).

(** The request for a share of the red packet that a message announces. *)
Definition rob_request (user : string) (r : HongbaoResp.t) : ReqRobHongbao.t :=
  ReqRobHongbao.mk (Some (HongbaoResp.hongbaokey r)) (Some (HongbaoResp.sender r)) (Some user).

Definition announces (m : SingleChat.t) : bool :=
  (SingleChat.type m =? 2) && HongbaoResp.isok (SingleChat.hbrsp m).

Definition replies_to (user : string) (m : im_message) : list im_message :=
  match m with
  | MHongbaoResp r => [MReqRobHongbao (rob_request user r)]
  | MSingleChat c =>
      if announces c
      then [MSingleChat (SingleChat.mk (Some (SingleChat.receiver c)) (Some user) (Some 3) None None None
              (Some (rob_request user (SingleChat.hbrsp c))) None None)]
      else []
  | _ => []
  end.

Definition notices_of (user : string) (m : im_message) : list notice :=
  match m with
  | MResponse r => [Answer r]
  | MHongbaoResp _ => []
  | MRespRobHongbao r => [robbed user r]
  | MSingleChat c =>
      Dump c ::
      (if SingleChat.type c =? 0
       then [FriendMessage (SingleChat.sender c) (SingleChat.message c) (SingleChat.timestamp c)]
       else if announces c
       then [Hongbao user (HongbaoResp.sender (SingleChat.hbrsp c)) (HongbaoResp.hongbaokey (SingleChat.hbrsp c))]
       else if SingleChat.type c =? 4 then [robbed user (SingleChat.robhbrsp c)]
       else [])
  | MGroupChat c => [GroupMessage (GroupChat.groupid c) (GroupChat.sender c) (GroupChat.message c) (GroupChat.timestamp c)]
  | _ => [Unknown (type_of m)]
  end.

Definition packet_of (m : im_message) (keys : gmap string string) : gmap string string :=
  match m with
  | MSingleChat c =>
      if announces c
      then <[HongbaoResp.sender (SingleChat.hbrsp c) := HongbaoResp.hongbaokey (SingleChat.hbrsp c)]> keys
      else keys
  | _ => keys
  end.

Definition frames (ms : list im_message) : list byte := concat ((λ m, cframe m) <$> ms).

(** A connection that takes [n] more bytes. *)
Definition takes (n : Z) (c : C) : Prop := conn_inv c ∧ healthy c ∧ n < conn_room c.

Lemma client_send_run s id c m n :
  conns s !! id = Some c → cfits m → 0 <= n → takes (zlen (cframe m) + n) c →
  ∃ c', codec_send id m s = Ok ((), set_conns (<[id := c']> (conns s)) s) ∧ takes n c' ∧
    conn_stream c' = conn_stream c ++ cframe m.
Proof.
  intros Hc Hfit Hn (Hinv & Hh & Hroom). unfold codec_send.
  destruct (send_frame (P := IM_protobuf) conn_send c m Hfit) as (b & Eb & Hwf & Hb).
  destruct (send_law c b Hinv Hwf) as (c' & Ec & Hi & Hcon & Hst & Hr); [rewrite Hb; lia|].
  exists c'. rewrite Hb in *. destruct (healthy_accepts c (cframe m) Hh) as [Hup Href]. rewrite Hup, Href in Hst.
  split_and!; [|split_and!; [done|by eapply healthy_send|lia]|done].
  apply (on_object_Ok conns set_conns id _ s c () c' Hc). by rewrite Eb, Ec.
Qed.

(** The client after a message. *)
Definition told (m : im_message) (id : nat) (c' : C) s : Client.t C :=
  Client.mk (username_ s) (conn_ s) (latch2_ s) (packet_of m (redPackets s)) (<[id := c']> (conns s))
    (shown s ++ notices_of (username_ s) m).

Lemma told_same m id c s :
  conns s !! id = Some c → packet_of m (redPackets s) = redPackets s →
  told m id c s = Client.mk (username_ s) (conn_ s) (latch2_ s) (redPackets s) (conns s) (shown s ++ notices_of (username_ s) m).
Proof. intros Hc Hp. unfold told. by rewrite Hp, insert_id. Qed.

Lemma message_run id time s c m n :
  conns s !! id = Some c → Forall (λ m, cfits m) (replies_to (username_ s) m) → 0 <= n →
  takes (zlen (frames (replies_to (username_ s) m)) + n) c →
  ∃ c', messageCallback id time s m = Ok (told m id c' s) ∧ takes n c' ∧
    conn_stream c' = conn_stream c ++ frames (replies_to (username_ s) m).
Proof.
  intros Hc Hf Hn Ht. unfold frames in *.
  assert (replies_to (username_ s) m = [] → packet_of m (redPackets s) = redPackets s →
    messageCallback id time s m = Ok (Client.mk (username_ s) (conn_ s) (latch2_ s) (redPackets s) (conns s)
      (shown s ++ notices_of (username_ s) m)) →
    ∃ c', messageCallback id time s m = Ok (told m id c' s) ∧ takes n c' ∧
      conn_stream c' = conn_stream c ++ concat ((λ m, cframe m) <$> replies_to (username_ s) m)) as Hquiet.
  { intros Er Hp E. rewrite Er in *. exists c. rewrite E, (told_same m id c s Hc Hp), app_nil_r. done. }
  destruct m as [| | |r| | |m| | | | | | | | | |]; try (apply Hquiet; done).
  - clear Hquiet. cbn [replies_to fmap list_fmap concat] in *. rewrite app_nil_r in *. apply Forall_cons in Hf as [Hf _].
    destruct (client_send_run s id c _ n Hc Hf Hn Ht) as (c' & E & Ht' & Hst). exists c'. split_and!; [|done..].
    change (messageCallback id time s (MHongbaoResp r)) with (snd <$> codec_send id (MReqRobHongbao (rob_request (username_ s) r)) s).
    rewrite E. unfold told. cbn. by rewrite app_nil_r.
  - change (messageCallback id time s (MSingleChat m)) with (snd <$> SingleChat id m time s) in *.
    cbn [replies_to notices_of packet_of] in *. unfold announces in *. destruct (_ && _) eqn:Ea.
    + clear Hquiet. apply andb_true_iff in Ea as [Et Eok]. assert (SingleChat.type m = 2) as E2 by lia.
      cbn [fmap list_fmap concat] in *. rewrite app_nil_r in *. apply Forall_cons in Hf as [Hf _].
      set (user := username_ s) in *. set (hb := SingleChat.hbrsp m) in *.
      set (s1 := Client.mk user (conn_ s) (latch2_ s) (<[HongbaoResp.sender hb := HongbaoResp.hongbaokey hb]> (redPackets s)) (conns s)
        ((shown s ++ [Dump m]) ++ [Hongbao user (HongbaoResp.sender hb) (HongbaoResp.hongbaokey hb)])).
      destruct (client_send_run s1 id c _ n Hc Hf Hn Ht) as (c' & E & Ht' & Hst). exists c'. split_and!; [|done..].
      assert (SingleChat id m time s = Ok ((), set_conns (<[id := c']> (conns s1)) s1)) as ->.
      { rewrite <-E. unfold SingleChat. cbv zeta. fold hb. rewrite E2, Eok. reflexivity. }
      unfold told. cbn [fmap res_fmap snd packet_of notices_of]. unfold announces. rewrite E2. fold hb. rewrite Eok. cbn.
      unfold s1, set_conns. cbn. by rewrite <-app_assoc.
    + apply Hquiet; [done|done|]. unfold SingleChat, show. cbv zeta. rewrite run_modify, run_gets. cbn [username_].
      destruct (SingleChat.type m =? 0); [unfold modify; cbn; by rewrite <-app_assoc|].
      destruct (SingleChat.type m =? 2) eqn:E2; [cbn in Ea; rewrite Ea; assert (SingleChat.type m = 2) as -> by lia; done|].
      destruct (SingleChat.type m =? 4); [unfold modify; cbn; by rewrite <-app_assoc|done].
Qed.

Definition all_replies (user : string) (ms : list im_message) : list im_message := ms ≫= replies_to user.
Definition all_notices (user : string) (ms : list im_message) : list notice := ms ≫= notices_of user.

Lemma frames_app ms1 ms2 : frames (ms1 ++ ms2) = frames ms1 ++ frames ms2.
Proof. unfold frames. by rewrite fmap_app, concat_app. Qed.

Lemma messages_run id time ms s c :
  conns s !! id = Some c → Forall (λ m, cfits m) (all_replies (username_ s) ms) →
  takes (zlen (frames (all_replies (username_ s) ms))) c →
  ∃ c', dispatch_all (P := IM_protobuf) (messageCallback id time) s ms =
      Ok (Client.mk (username_ s) (conn_ s) (latch2_ s) (foldl (λ k m, packet_of m k) (redPackets s) ms)
            (<[id := c']> (conns s)) (shown s ++ all_notices (username_ s) ms)) ∧
    conn_stream c' = conn_stream c ++ frames (all_replies (username_ s) ms).
Proof.
  revert s c. induction ms as [|m ms IH]; intros s c Hc Hf Ht.
  { exists c. unfold all_notices, frames. cbn. rewrite !app_nil_r, insert_id by done. split; [by destruct s|done]. }
  unfold all_replies in Hf, Ht. cbn [mbind list_bind] in Hf, Ht. apply Forall_app in Hf as [Hf Hfs]. rewrite frames_app, zlen_app in Ht.
  destruct (message_run id time s c m (zlen (frames (all_replies (username_ s) ms))) Hc Hf ltac:(apply zlen_nonneg) Ht)
    as (c1 & E & Ht1 & Hs1).
  cbn [dispatch_all]. rewrite E. cbn [mbind res_bind].
  destruct (IH (told m id c1 s) c1) as (c2 & E2 & Hs2); [apply lookup_insert_eq|done|done|].
  exists c2. split.
  - etrans; [exact E2|]. unfold told. cbn [username_ conn_ latch2_ redPackets conns shown]. rewrite insert_insert_eq.
    unfold all_notices. cbn [mbind list_bind foldl]. by rewrite <-app_assoc.
  - rewrite Hs2, Hs1, <-app_assoc. unfold all_replies. cbn [mbind list_bind username_ told]. by rewrite frames_app.
Qed.

(** What arrives, in whatever chunks. *)
Lemma client_stream id time ms s c buf chunks :
  conns s !! id = Some c → Forall (λ m, cfits m) (all_replies (username_ s) ms) →
  takes (zlen (frames (all_replies (username_ s) ms))) c →
  Forall (λ m, cfits m) ms → Buffer.wf buf → Buffer.content buf = [] →
  concat chunks = frames ms → Forall (λ d, zlen d <= 65536) chunks →
  zlen (Buffer.buffer_ buf) + zlen (frames ms) < 2 ^ 62 →
  ∃ s' buf' c', feed (P := IM_protobuf) (messageCallback id time) (defaultErrorCallback id) s buf chunks = Ok (s', buf') ∧
    Buffer.content buf' = [] ∧ shown s' = shown s ++ all_notices (username_ s) ms ∧
    conns s' = <[id := c']> (conns s) ∧ conn_stream c' = conn_stream c ++ frames (all_replies (username_ s) ms) ∧
    redPackets s' = foldl (λ k m, packet_of m k) (redPackets s) ms.
Proof.
  intros Hc Hf Ht Hms Hwf Hb Hch Hlen Hsz. destruct (messages_run id time ms s c Hc Hf Ht) as (c' & E & Hst).
  eassert (Hfeed : _). { eapply (feed_frames (P := IM_protobuf) (messageCallback id time) (defaultErrorCallback id) s _ buf ms chunks); [done..| | |exact E]; [done|by rewrite Hch]. }
  destruct Hfeed as (buf' & E' & _ & Hb'). eexists _, buf', c'. split; [exact E'|]. by split_and!.
Qed.

(** Sending through the current connection. *)
Fixpoint client_sends (ms : list im_message) : st (Client.t C) unit :=
  match ms with
  | [] => mret ()
  | m :: ms' => _ ← send m; client_sends ms'
  end.

Lemma client_sends_run ms s id c :
  conn_ s = Some id → conns s !! id = Some c → Forall (λ m, cfits m) ms → takes (zlen (frames ms)) c →
  ∃ c', client_sends ms s = Ok ((), set_conns (<[id := c']> (conns s)) s) ∧ conn_stream c' = conn_stream c ++ frames ms.
Proof.
  revert s c. induction ms as [|m ms IH]; intros s c Hid Hc Hf Ht.
  { exists c. cbn. rewrite insert_id by done. unfold frames. cbn. rewrite app_nil_r. split; [by destruct s|done]. }
  apply Forall_cons in Hf as [Hf Hfs]. unfold frames in Ht. rewrite fmap_cons, concat_cons, zlen_app in Ht. fold (frames ms) in Ht.
  destruct (client_send_run s id c m (zlen (frames ms)) Hc Hf ltac:(apply zlen_nonneg) Ht) as (c1 & E & Ht1 & Hs1).
  assert (send m s = Ok ((), set_conns (<[id := c1]> (conns s)) s)) as Es.
  { unfold send. rewrite run_gets, Hid, run_gets, Hc, run_some. destruct Ht as (_ & Hh & _).
    by rewrite (proj1 (healthy_accepts c [] Hh)). }
  cbn [client_sends]. rewrite (st_bind_run _ _ _ _ _ Es).
  destruct (IH (set_conns (<[id := c1]> (conns s)) s) c1) as (c2 & E2 & Hs2); [done|apply lookup_insert_eq|done|done|].
  exists c2. split; [rewrite E2; unfold set_conns; cbn; by rewrite insert_insert_eq|].
  rewrite Hs2, Hs1, <-app_assoc. unfold frames. by rewrite fmap_cons, concat_cons.
Qed.
End Facts.

(** ** From one user to another *)
Section EndToEnd.
Context {R D C L : Type} {HR : Hiredis R} {HL : HiredisLaws R} {HA : HiredisReliable R}.
Context {MC : MysqlClient D} {ML : MysqlClientLaws D} {LC : Libc} {LL : LibcLaws LC} {IW : IMWire} {IL : IMWireLaws IW} {ZL : Zlib}.
Context {CO : Connection C} {CL : ConnectionLaws C CO} {CR : ConnectionReliable C CO CL} {FL : FunctorLoop L Server.task}.
(** The connections of the clients. *)
Context {K : Type} {KO : Connection K} {KL : ConnectionLaws K KO} {KR : ConnectionReliable K KO KL}.

Abbreviation W := (Business.world R D (Server.t C L)).
Abbreviation srv w := (Business.w_server (w : W)).

(** The bytes [d] reach the input buffer [buf] in the given chunks. *)
Record carries (chunks : list (list byte)) (d : list byte) (buf : Buffer.t) : Prop := {
  car_buf : Buffer.wf buf;
  car_empty : Buffer.content buf = [];
  car_bytes : concat chunks = d;
  car_reads : Forall (λ x, zlen x <= 65536) chunks;
  car_room : zlen (Buffer.buffer_ buf) + zlen d < 2 ^ 62
}.

(** What a chat message looks like to its receiver. *)
Definition seen (m : SingleChat.t) : list notice :=
  [Dump m; FriendMessage (SingleChat.sender m) (SingleChat.message m) (SingleChat.timestamp m)].

Lemma chat_frames_frames ms : frames (MSingleChat <$> ms) = chat_frames ms.
Proof. unfold frames, chat_frames. by rewrite <-list_fmap_compose. Qed.

Lemma chat_no_reply user ms : Forall (λ m, SingleChat.type m = 0) ms → all_replies user (MSingleChat <$> ms) = [].
Proof.
  induction 1 as [|m ms Hm _ IH]; [done|]. unfold all_replies in *. cbn [fmap list_fmap mbind list_bind]. rewrite IH, app_nil_r.
  cbn. unfold announces. by rewrite Hm.
Qed.

Lemma chat_notices user ms :
  Forall (λ m, SingleChat.type m = 0) ms → all_notices user (MSingleChat <$> ms) = ms ≫= seen.
Proof.
  induction 1 as [|m ms Hm _ IH]; [done|]. unfold all_notices in *. cbn [fmap list_fmap mbind list_bind]. rewrite IH.
  cbn. by rewrite Hm.
Qed.

Lemma Forall_kept {A} (P Q : A → Prop) `{∀ x, Decision (Q x)} (l : list A) : Forall P l → Forall P (filter Q l).
Proof. rewrite !Forall_forall. intros HP x [_ Hx]%list_elem_of_filter. by apply HP. Qed.

(** C1 (functional). A chat from end to end.  Alice's client sends chat messages over her
    connection; whatever way the network cuts the bytes, the server passes them on, and
    whatever way the bytes for Bob are cut, Bob's client shows exactly the messages that
    were addressed to the user of his connection, unchanged, each once, in the order in
    which Alice sent them, and sends nothing back. *)
Theorem chat_delivered (ms : list SingleChat.t) (alice bob : Client.t K) (a b : nat) (ca cb : K)
    (w : W) (conn id : nat) (c : C) (time : Z) :
  Client.conn_ alice = Some a → Client.conns alice !! a = Some ca → takes (zlen (chat_frames ms)) ca →
  Forall (λ m, SingleChat.type m = 0) ms →
  Forall (λ m, fits (P := IM_protobuf) (MSingleChat m : @Message IM_protobuf)) ms →
  Forall (online (srv w)) ms → live (zlen (chat_frames ms)) (srv w) → Server.conns (srv w) !! id = Some c →
  Client.conns bob !! b = Some cb → takes 0 cb →
  ∃ alice' ca', client_sends (MSingleChat <$> ms) alice = Ok ((), alice') ∧
    Client.conns alice' !! a = Some ca' ∧ conn_stream ca' = conn_stream ca ++ chat_frames ms ∧
    ∀ chunks buf, carries chunks (chat_frames ms) buf →
      ∃ w' buf' c', feed (P := IM_protobuf) (Server.messageCallback conn time) (Server.defaultErrorCallback conn) w buf chunks
          = Ok (w', buf') ∧
        Server.conns (srv w') !! id = Some c' ∧ conn_stream c' = conn_stream c ++ frames_to (srv w) id ms ∧
        ∀ chunks' bufb, carries chunks' (frames_to (srv w) id ms) bufb →
          ∃ bob' bufb' cb', feed (P := IM_protobuf) (Client.messageCallback b time) (Client.defaultErrorCallback b) bob bufb chunks'
              = Ok (bob', bufb') ∧
            Client.shown bob' = Client.shown bob ++ (filter (λ m, addressed (srv w) id m = true) ms ≫= seen) ∧
            Client.conns bob' !! b = Some cb' ∧ conn_stream cb' = conn_stream cb.
Proof.
  intros Ha Hca Hta Ht Hf Ho Hl Hid Hb Htb.
  destruct (client_sends_run (MSingleChat <$> ms) alice a ca Ha Hca) as (ca' & Ea & Hsa).
  { by apply Forall_fmap. } { by rewrite chat_frames_frames. }
  rewrite chat_frames_frames in Hsa. eexists _, ca'. split; [exact Ea|]. split; [apply lookup_insert_eq|]. split; [done|].
  intros chunks buf [B1 B2 B3 B4 B5].
  destruct (chat_stream conn time ms chunks w buf Ht Hf Ho Hl B1 B2 B3 B4 B5) as (w' & buf' & Es & _ & Hout).
  destruct (Hout id c Hid) as (c' & Hc' & _ & Hs'). exists w', buf', c'. split_and!; [done..|].
  intros chunks' bufb [D1 D2 D3 D4 D5]. unfold frames_to in D3, D5. set (mine := filter _ ms) in *.
  assert (Forall (λ m, SingleChat.type m = 0) mine) as Htm by (by apply Forall_kept).
  destruct (client_stream b time (MSingleChat <$> mine) bob cb bufb chunks' Hb) as (bob' & bufb' & cb' & Eb & _ & Hsh & Hcs & Hst & _).
  { by rewrite chat_no_reply. } { by rewrite chat_no_reply. } { apply Forall_fmap. by apply Forall_kept. }
  { done. } { done. } { by rewrite chat_frames_frames. } { done. } { by rewrite chat_frames_frames. }
  rewrite chat_no_reply in Hst by done. rewrite chat_notices in Hsh by done. exists bob', bufb', cb'. split_and!; [done|done| |].
  - rewrite Hcs. apply lookup_insert_eq.
  - unfold frames in Hst. cbn in Hst. by rewrite app_nil_r in Hst.
Qed.
End EndToEnd.

(** ** Red packets over a chat

    The server announces a red packet with a message that names neither sender nor
    receiver; the client takes the receiver of its request from there. *)

Lemma rob_request_unaddressed (user : string) (hb : HongbaoResp.t) :
  HongbaoResp.isok hb = true →
  ∃ m, replies_to user (MSingleChat (SingleChat.set_type (SingleChat.set_hbrsp SingleChat.empty hb) 2)) = [MSingleChat m] ∧
    SingleChat.type m = 3 ∧ SingleChat.receiver m = ""%string.
Proof. intros Hok. cbn. unfold announces. cbn. rewrite Hok. by eexists. Qed.

Section Witness.
Import Server ToyRedis ToyWire ToyWorld ToyConnection ToyProtobuf ToyServer.

(** Al's client is connected, and so is Bob's. *)
Definition toy_user (name : string) : Client.t conn :=
  Client.mk name (Some 1%nat) (CountDownLatch.make 0) ∅ {[1%nat := mkconn true []]} [].

Lemma chat_delivered_witness :
  ∃ alice' w' buf' bob' bufb',
    client_sends (MSingleChat <$> toy_chats) (toy_user "al") = Ok ((), alice') ∧
    feed (P := IM_protobuf) (messageCallback 1 0) (defaultErrorCallback 1) (toy_served both_online) empty_buffer
      [chat_frames toy_chats] = Ok (w', buf') ∧
    feed (P := IM_protobuf) (Client.messageCallback 1 0) (Client.defaultErrorCallback 1) (toy_user "bob") empty_buffer
      [chat_frames [toy_msg "bob" "hi"; toy_msg "bob" "hm"]] = Ok (bob', bufb') ∧
    Client.shown bob' = seen (toy_msg "bob" "hi") ++ seen (toy_msg "bob" "hm").
Proof.
  destruct (chat_delivered toy_chats (toy_user "al") (toy_user "bob") 1 1 (mkconn true []) (mkconn true [])
    (toy_served both_online) 1 2 (mkconn true []) 0) as (alice' & ca' & Ea & _ & _ & Hs).
  - reflexivity.
  - reflexivity.
  - split_and!; [done|done|vm_compute; reflexivity].
  - repeat constructor.
  - repeat constructor; vm_compute; done.
  - repeat constructor; [exists 2%nat|exists 1%nat|exists 2%nat]; (split; [vm_compute; reflexivity|by eexists]).
  - apply toy_live. vm_compute. reflexivity.
  - reflexivity.
  - reflexivity.
  - split_and!; [done|done|vm_compute; reflexivity].
  - destruct (Hs [chat_frames toy_chats] empty_buffer) as (w' & buf' & c' & Ew & _ & _ & Hb).
    { split; [apply empty_buffer_wf|reflexivity|apply app_nil_r|repeat constructor; vm_compute; done|vm_compute; reflexivity]. }
    destruct (Hb [chat_frames [toy_msg "bob" "hi"; toy_msg "bob" "hm"]] empty_buffer) as (bob' & bufb' & cb' & Eb & Hsh & _).
    { split; [apply empty_buffer_wf|reflexivity|vm_compute; reflexivity|repeat constructor; vm_compute; done|vm_compute; reflexivity]. }
    exists alice', w', buf', bob', bufb'. split; [exact Ea|]. split; [exact Ew|]. split; [exact Eb|].
    rewrite Hsh. vm_compute. reflexivity.
Defined.
End Witness.
