(* ===== verification/LoadTest.v ===== *)
(** * client/src/main.cc, client/src/test.cc: the program of the client

    [main] reads an address from the command line and runs [test]: twenty clients register,
    log in, and each sends a chat message and a red packet to the next one.  A client is a
    [Client] of Client.v, as [Client::start] (ClientStart.v) leaves it.  What is printed is
    left out, as is [testRobHongbao], which nothing calls. *)
From S2P Require Import Prelude Text State StdMap Buffer ProtobufCodec Inet EventLoop Threads IM Dispatcher Connection Server Client.

(** [srand] and [rand] of the C library. *)
Class Rand (R : Type) := {
  c_srand : Z → R → R;
  c_rand : R → Z * R
}.

Class RandLaws (R : Type) (RA : Rand R) : Prop := {
  rand_range r : 0 <= (c_rand r).1 < 2 ^ 31
}.

Module LoadTest.

(** What [main] does with the command line: it shows the usage and returns -1, or runs the
    test against an address.  [atoi] is called with a null pointer when there is no second
    argument. *)
Inductive started := Usage (status : Z) | Tests (serverAddr : sockaddr_in).

Definition main (argv : list (list byte)) : res started :=
  if zlen argv <? 2 then mret (Usage (-1))
  else match argv !! 1%nat, argv !! 2%nat with
       | Some ip, Some port => mret (Tests (InetAddress.make_ip ip (u16 (atoi port))))
       | _, _ => Fault UB
       end.

Section LoadTest.
Context {C : Type} {CO : Connection C} {IW : IMWire} {ZL : Zlib} {R : Type} {RA : Rand R}.
(** What the clocks read one after the other, the number of the thread, and the clients
    that [new Client] and [start] give one after the other. *)
Variables (clock seconds : nat → Z) (tid : Z) (new_client : nat → Client.t C).

(** [clients], the objects it points to, the state of [rand], and how often the clocks
    were read. *)
Record t := mk {
  clients : list (list byte * option nat);
  objects : gmap nat (Client.t C);
  random : R;
  ticks : nat
}.

Definition set_clients (v : list (list byte * option nat)) (s : t) : t := mk v (objects s) (random s) (ticks s).
Definition set_objects (v : gmap nat (Client.t C)) (s : t) : t := mk (clients s) v (random s) (ticks s).
Definition set_random (v : R) (s : t) : t := mk (clients s) (objects s) v (ticks s).

(** [Timestamp::now().microSecondsSinceEpoch()]. *)
Definition now : st t Z := λ s, Ok (clock (ticks s), mk (clients s) (objects s) (random s) (S (ticks s))).

Definition rand : st t Z := λ s, let '(v, r) := c_rand (random s) in Ok (v, set_random r s).

(** A random number from [n] to [m]. *)
Definition RAND (n m : Z) : st t Z :=
  k ← gets ticks;
  r ← rand;
  _ ← modify (λ s, set_random (c_srand (u32 (seconds k + r + tid)) (random s)) s);
  r ← rand;
  mret (crem r (m - n + 1) + n).

(** [clients[username]], which enters a null pointer for an unknown name. *)
Definition at_ (username : string) : st t (option nat) :=
  m ← gets clients;
  match map_find (bytes_of username) m with
  | Some p => mret p
  | None => _ ← modify (set_clients (map_assign (bytes_of username) None m)); mret None
  end.

(** A call on the client of a user. *)
Definition on_client (username : string) (m : st (Client.t C) unit) : st t unit :=
  p ← at_ username;
  p ← deref p;
  on_object objects set_objects p m.

Definition testRegister (username : string) : st t unit :=
  _ ← now;
  let reg := Register.set_username Register.empty username in
  let reg := Register.set_password reg "pwd12345" in
  let reg := Register.set_mobile reg "110" in
  let reg := Register.set_nickname reg "Nick" in
  let reg := Register.set_sex reg 0 in
  let reg := Register.set_age reg 20 in
  time ← now;
  let reg := Register.set_timestamp reg time in
  let reg := Register.set_sign_info reg "sign_info" in
  let email := (username +:+ "@gmail.com")%string in
  let reg := Register.set_email reg email in
  on_client username (Client.send (MRegister reg)).

Definition testLogin (username : string) : st t unit :=
  let login := Login.set_username Login.empty username in
  let login := Login.set_password login "pwd12345" in
  time ← now;
  let login := Login.set_timestamp login time in
  _ ← on_client username (Client.send (MLogin login));
  on_client username (modify (Client.saveUserName username)).

Definition testSingleChat (sender receiver : string) : st t unit :=
  let message := ("hello," +:+ receiver +:+ ",i am " +:+ sender +:+ "!")%string in
  let chat := SingleChat.set_type SingleChat.empty 0 in
  let chat := SingleChat.set_sender chat sender in
  let chat := SingleChat.set_receiver chat receiver in
  let chat := SingleChat.set_message chat message in
  time ← now;
  let chat := SingleChat.set_timestamp chat time in
  on_client sender (Client.send (MSingleChat chat)).

Definition testGroupChat : st t unit :=
  let chat := GroupChat.set_sender GroupChat.empty "IMUser_7" in
  let chat := GroupChat.set_message chat "hi,I am group member" in
  let chat := GroupChat.set_groupid chat "G2253188" in
  time ← now;
  let chat := GroupChat.set_timestamp chat time in
  on_client "IMUser_7" (Client.send (MGroupChat chat)).

Definition testSendHongbao (sender receiver : string) : st t unit :=
  money ← RAND 1 10000;
  let money := ddiv (d_of_Z money) (d_of_Z 100) in
  count ← RAND 1 100;
  let chat := SingleChat.set_sender SingleChat.empty sender in
  let chat := SingleChat.set_receiver chat receiver in
  let chat := SingleChat.set_type chat 1 in
  time ← now;
  let chat := SingleChat.set_timestamp chat time in
  let hongbao := Hongbaoreq.set_sender (SingleChat.hbreq chat) sender in
  let hongbao := Hongbaoreq.set_receiver hongbao receiver in
  let hongbao := Hongbaoreq.set_money hongbao money in
  let hongbao := Hongbaoreq.set_category hongbao 1 in
  let hongbao := Hongbaoreq.set_count hongbao 1 in
  time ← now;
  let hongbao := Hongbaoreq.set_timestamp hongbao time in
  on_client sender (Client.send (MSingleChat (SingleChat.set_hbreq chat hongbao))).

(** The loop of [createClients]. *)
Definition username (i : nat) : string := ("IMUser_" +:+ dec (Z.of_nat i))%string.
Fixpoint createClients (count i : nat) : st t unit :=
  match count with
  | O => mret ()
  | S count' =>
      _ ← modify (λ s, set_objects (<[i := new_client i]> (objects s)) s);
      _ ← modify (λ s, set_clients (map_assign (bytes_of (username i)) (Some i) (clients s)) s);
      createClients count' (S i)
  end.

Fixpoint register_all (users : list string) : st t unit :=
  match users with
  | [] => mret ()
  | user :: users' => _ ← testRegister user; _ ← testLogin user; register_all users'
  end.

(** The second loop: it stops at the last entry. *)
Fixpoint chat_all (users : list string) : st t unit :=
  match users with
  | sender :: (receiver :: _) as users' =>
      _ ← testSingleChat sender receiver;
      _ ← testSendHongbao sender receiver;
      chat_all users'
  | _ => mret ()
  end.

(** The names in [clients], in its order. *)
Definition users (s : t) : list string := string_of ∘ fst <$> clients s.

Definition test : st t unit :=
  _ ← createClients 20 0;
  names ← gets users;
  _ ← register_all names;
  names ← gets users;
  _ ← chat_all names;
  testGroupChat.

End LoadTest.
#[global] Arguments t C R : clear implicits.
End LoadTest.

(** ** What the clients send *)
Section Facts.
Import LoadTest.
Context {C : Type} {CO : Connection C} {CL : ConnectionLaws C CO} {CR : ConnectionReliable C CO CL}.
Context {IW : IMWire} {IL : IMWireLaws IW} {ZL : Zlib} {R : Type} {RA : Rand R} {RL : RandLaws R RA}.
Variables (clock seconds : nat → Z) (tid : Z) (new_client : nat → Client.t C).
Implicit Types s : LoadTest.t C R.

(** The messages of the user [u]; [v] is the next one. *)
Definition register_of (u : string) (time : Z) : im_message :=
  MRegister (Register.mk (Some u) (Some "pwd12345") (Some "110") (Some "Nick") (Some 0) (Some 20) (Some time)
    (Some "sign_info") (Some (u +:+ "@gmail.com")))%string.
Definition login_of (u : string) (time : Z) : im_message := MLogin (Login.mk (Some u) (Some "pwd12345"%string) (Some time)).
Definition chat_of (u v : string) (time : Z) : im_message :=
  MSingleChat (SingleChat.mk (Some v) (Some u) (Some 0) (Some ("hello," +:+ v +:+ ",i am " +:+ u +:+ "!")%string)
    None None None None (Some time)).
Definition money_of (r : Z) : double := ddiv (d_of_Z r) (d_of_Z 100).
Definition hongbao_of (u v : string) (r time time' : Z) : im_message :=
  MSingleChat (SingleChat.mk (Some v) (Some u) (Some 1) None
    (Some (Hongbaoreq.mk (Some u) (Some (money_of r)) (Some 1) (Some 1) (Some v) (Some time'))) None None None (Some time)).
Definition group_of (time : Z) : im_message :=
  MGroupChat (GroupChat.mk (Some "G2253188") (Some "IMUser_7") (Some "hi,I am group member") (Some time))%string.

(** All messages that can occur, at the times of the clock. *)
Inductive ours : im_message → Prop :=
  | our_register i k : (i < 20)%nat → ours (register_of (username i) (clock k))
  | our_login i k : (i < 20)%nat → ours (login_of (username i) (clock k))
  | our_chat i j k : (i < 20)%nat → (j < 20)%nat → ours (chat_of (username i) (username j) (clock k))
  | our_hongbao i j r k l : (i < 20)%nat → (j < 20)%nat → 1 <= r <= 10000 →
      ours (hongbao_of (username i) (username j) r (clock k) (clock l))
  | our_group k : ours (group_of (clock k)).

(** Every one of them may be sent, in at most [B] bytes. *)
Variable B : Z.
Hypothesis Hours : ∀ m, ours m → fits (P := IM_protobuf) (m : @Message IM_protobuf) ∧ zlen (frame (P := IM_protobuf) (m : @Message IM_protobuf)) <= B.

(** The table of the clients, and the order of its names. *)
Definition table : list (list byte * option nat) :=
  foldl (λ m i, map_assign (bytes_of (username i)) (Some i) m) [] (seq 0 20).
Definition order : list nat := [0; 1; 10; 11; 12; 13; 14; 15; 16; 17; 18; 19; 2; 3; 4; 5; 6; 7; 8; 9]%nat.

Lemma table_find i : (i < 20)%nat → map_find (bytes_of (username i)) table = Some (Some i).
Proof.
  intros Hi. assert (forallb (λ i, bool_decide (map_find (bytes_of (username i)) table = Some (Some i))) (seq 0 20) = true) as H by by vm_compute.
  rewrite forallb_forall in H. eapply bool_decide_eq_true, H, in_seq. lia.
Qed.

Lemma table_order : string_of ∘ fst <$> table = username <$> order.
Proof. by vm_compute. Qed.

(** The clients have sent [out], have room for [n] more bytes, and know their names. *)
Definition linked s (n : Z) (out : nat → list im_message) (who : nat → string) : Prop :=
  clients s = table ∧ ∀ i, (i < 20)%nat →
    ∃ cl id c c0, objects s !! i = Some cl ∧ Client.username_ cl = who i ∧ Client.conn_ cl = Some id ∧
      Client.conns cl !! id = Some c ∧ takes n c ∧
      Client.conns (new_client i) !! id = Some c0 ∧ conn_stream c = conn_stream c0 ++ frames (out i).

Definition add (i : nat) (m : im_message) (out : nat → list im_message) (j : nat) : list im_message :=
  if decide (j = i) then out j ++ [m] else out j.

Lemma linked_objects s s' n out who : clients s' = clients s → objects s' = objects s → linked s n out who → linked s' n out who.
Proof. unfold linked. by intros -> ->. Qed.

Lemma takes_less n n' (c : C) : n' <= n → takes n c → takes n' c.
Proof. intros Hn (H1 & H2 & H3). split_and!; [done|done|lia]. Qed.

Lemma at_run s n out who i : linked s n out who → (i < 20)%nat → at_ (username i) s = Ok (Some i, s).
Proof. intros [Hc _] Hi. unfold at_. rewrite run_gets, Hc, table_find by done. done. Qed.

(** Sending one message. *)
Lemma send_run s n out who i m :
  linked s (B + n) out who → (i < 20)%nat → ours m → 0 <= n →
  ∃ s', on_client (username i) (Client.send m) s = Ok ((), s') ∧ linked s' n (add i m out) who.
Proof.
  intros Hl Hi Hm Hn. destruct (Hours m Hm) as [Hfit Hlen]. unfold on_client.
  rewrite (st_bind_run _ _ _ _ _ (at_run s _ out who i Hl Hi)). unfold deref. rewrite run_mret.
  destruct Hl as [Hc Hl]. destruct (Hl i Hi) as (cl & id & c & c0 & Ho & Hw & Hcn & Hcc & Ht & Hc0 & Hst).
  destruct (client_send_run cl id c m n Hcc Hfit Hn) as (c' & E & Ht' & Hst').
  { eapply takes_less; [|exact Ht]. lia. }
  eexists. split.
  - apply (on_object_Ok objects set_objects i _ s cl () (Client.set_conns (<[id := c']> (Client.conns cl)) cl) Ho).
    unfold Client.send. rewrite run_gets, Hcn, run_gets, Hcc. unfold deref. rewrite run_mret.
    destruct (healthy_accepts c [] (proj1 (proj2 Ht))) as [-> _]. exact E.
  - split; [done|]. intros j Hj. unfold add. destruct (decide (j = i)) as [->|Hne].
    + exists (Client.set_conns (<[id := c']> (Client.conns cl)) cl), id, c', c0. cbn. rewrite !lookup_insert_eq. split_and!; try done.
      rewrite Hst', Hst. unfold frames. by rewrite fmap_app, concat_app, <-app_assoc; cbn; rewrite app_nil_r.
    + destruct (Hl j Hj) as (cl1 & id1 & c1 & c2 & H1 & H2 & H3 & H4 & H5 & H6). exists cl1, id1, c1, c2. cbn.
      rewrite lookup_insert_ne by done. split_and!; try done; [|by apply H6..]. eapply takes_less; [|exact H5].
      pose proof (zlen_nonneg (frame (P := IM_protobuf) (m : @Message IM_protobuf))). lia.
Qed.

Lemma now_linked s n out who : linked s n out who →
  ∃ s', now clock s = Ok (clock (ticks s), s') ∧ linked s' n out who ∧ ticks s' = S (ticks s).
Proof. intros Hl. eexists. split; [reflexivity|]. split; [by eapply linked_objects|done]. Qed.

Lemma rand_run s : rand s = Ok ((c_rand (random s)).1, set_random (c_rand (random s)).2 s).
Proof. unfold rand. by destruct (c_rand (random s)). Qed.

Lemma roll_run s n out who a b : linked s n out who → 0 <= a <= b → b < 2 ^ 31 →
  ∃ s' v, RAND seconds tid a b s = Ok (v, s') ∧ linked s' n out who ∧ a <= v <= b.
Proof.
  intros Hl Ha Hb. unfold RAND. rewrite run_gets, (st_bind_run _ _ _ _ _ (rand_run s)), run_modify.
  rewrite (st_bind_run _ _ _ _ _ (rand_run _)). cbn [random set_random]. set (r2 := c_srand _ _).
  eexists _, _. split; [reflexivity|]. split; [by eapply linked_objects|].
  pose proof (rand_range r2) as Hr. rewrite Z.rem_mod_nonneg by lia. pose proof (Z.mod_pos_bound (c_rand r2).1 (b - a + 1)). lia.
Qed.

(** The tests of one user. *)
Lemma register_run s n out who i :
  linked s (B + n) out who → (i < 20)%nat → 0 <= n →
  ∃ s' k, testRegister clock (username i) s = Ok ((), s') ∧ linked s' n (add i (register_of (username i) (clock k)) out) who.
Proof.
  intros Hl Hi Hn. unfold testRegister. destruct (now_linked s _ _ _ Hl) as (s1 & E1 & Hl1 & _). rewrite (st_bind_run _ _ _ _ _ E1).
  destruct (now_linked s1 _ _ _ Hl1) as (s2 & E2 & Hl2 & _). rewrite (st_bind_run _ _ _ _ _ E2).
  destruct (send_run s2 n out who i (register_of (username i) (clock (ticks s1))) Hl2 Hi) as (s3 & E3 & Hl3); [by constructor|done|].
  by exists s3, (ticks s1).
Qed.

Lemma login_run s n out who i :
  linked s (B + n) out who → (i < 20)%nat → 0 <= n →
  ∃ s' k, testLogin clock (username i) s = Ok ((), s') ∧
    linked s' n (add i (login_of (username i) (clock k)) out) (λ j, if decide (j = i) then username i else who j).
Proof.
  intros Hl Hi Hn. unfold testLogin. destruct (now_linked s _ _ _ Hl) as (s1 & E1 & Hl1 & _). rewrite (st_bind_run _ _ _ _ _ E1).
  destruct (send_run s1 n out who i (login_of (username i) (clock (ticks s))) Hl1 Hi) as (s2 & E2 & Hl2); [by constructor|done|].
  rewrite (st_bind_run _ _ _ _ _ E2). unfold on_client. rewrite (st_bind_run _ _ _ _ _ (at_run s2 _ _ who i Hl2 Hi)). unfold deref. rewrite run_mret.
  destruct Hl2 as [Hc Hl2]. destruct (Hl2 i Hi) as (cl & id & c & c0 & Ho & Hw & Hrest).
  eexists _, (ticks s). split; [by apply (on_object_Ok objects set_objects i _ s2 cl () (Client.saveUserName (username i) cl) Ho)|].
  split; [done|]. intros j Hj. destruct (decide (j = i)) as [->|Hne].
  - exists (Client.saveUserName (username i) cl), id, c, c0. cbn. rewrite lookup_insert_eq. by destruct Hrest as (?&?&?&?&?).
  - destruct (Hl2 j Hj) as (cl1 & id1 & c1 & c2 & Hj1). exists cl1, id1, c1, c2. cbn. by rewrite lookup_insert_ne.
Qed.

Lemma chat_run s n out who i j :
  linked s (B + n) out who → (i < 20)%nat → (j < 20)%nat → 0 <= n →
  ∃ s' k, testSingleChat clock (username i) (username j) s = Ok ((), s') ∧
    linked s' n (add i (chat_of (username i) (username j) (clock k)) out) who.
Proof.
  intros Hl Hi Hj Hn. unfold testSingleChat. destruct (now_linked s _ _ _ Hl) as (s1 & E1 & Hl1 & _). rewrite (st_bind_run _ _ _ _ _ E1).
  destruct (send_run s1 n out who i (chat_of (username i) (username j) (clock (ticks s))) Hl1 Hi) as (s2 & E2 & Hl2); [by constructor|done|].
  by exists s2, (ticks s).
Qed.

Lemma hongbao_run s n out who i j :
  linked s (B + n) out who → (i < 20)%nat → (j < 20)%nat → 0 <= n →
  ∃ s' r k l, testSendHongbao clock seconds tid (username i) (username j) s = Ok ((), s') ∧ 1 <= r <= 10000 ∧
    linked s' n (add i (hongbao_of (username i) (username j) r (clock k) (clock l)) out) who.
Proof.
  intros Hl Hi Hj Hn. unfold testSendHongbao.
  destruct (roll_run s _ _ _ 1 10000 Hl) as (s1 & r & E1 & Hl1 & Hr); [lia..|]. rewrite (st_bind_run _ _ _ _ _ E1).
  destruct (roll_run s1 _ _ _ 1 100 Hl1) as (s2 & r2 & E2 & Hl2 & _); [lia..|]. cbv zeta. rewrite (st_bind_run _ _ _ _ _ E2).
  destruct (now_linked s2 _ _ _ Hl2) as (s3 & E3 & Hl3 & _). rewrite (st_bind_run _ _ _ _ _ E3).
  destruct (now_linked s3 _ _ _ Hl3) as (s4 & E4 & Hl4 & _). rewrite (st_bind_run _ _ _ _ _ E4).
  destruct (send_run s4 n out who i (hongbao_of (username i) (username j) r (clock (ticks s2)) (clock (ticks s3))) Hl4 Hi) as (s5 & E5 & Hl5);
    [by constructor|done|]. by exists s5, r, (ticks s2), (ticks s3).
Qed.

(** What a user has sent in the two loops. *)
Definition registered_as (i : nat) (l : list im_message) : Prop :=
  ∃ k1 k2, l = [register_of (username i) (clock k1); login_of (username i) (clock k2)].
Definition chatted_as (i : nat) (next : option nat) (l : list im_message) : Prop :=
  match next with
  | Some j => ∃ k1 k2 k3 r, 1 <= r <= 10000 ∧
      l = [chat_of (username i) (username j) (clock k1); hongbao_of (username i) (username j) r (clock k2) (clock k3)]
  | None => l = []
  end.

Lemma register_all_run ids s n out who :
  NoDup ids → Forall (λ i, i < 20)%nat ids → linked s (2 * zlen ids * B + n) out who → 0 <= n → 0 <= B →
  ∃ s' out' who', register_all clock (username <$> ids) s = Ok ((), s') ∧ linked s' n out' who' ∧
    (∀ i, i ∈ ids → (∃ l, out' i = out i ++ l ∧ registered_as i l) ∧ who' i = username i) ∧
    (∀ i, i ∉ ids → out' i = out i ∧ who' i = who i).
Proof.
  revert s out who. induction ids as [|i ids IH]; intros s out who Hnd Hf Hl Hn HB.
  { exists s, out, who. change (zlen (@nil nat)) with 0 in Hl. split_and!; [done| |set_solver|done]. by replace (2 * 0 * B + n) with n in Hl by lia. }
  apply NoDup_cons in Hnd as [Hni Hnd]. apply Forall_cons in Hf as [Hi Hf]. rewrite zlen_cons in Hl. pose proof (zlen_nonneg ids).
  replace (2 * (1 + zlen ids) * B + n) with (B + (B + (2 * zlen ids * B + n))) in Hl by lia. cbn [fmap list_fmap register_all].
  destruct (register_run s _ out who i Hl Hi) as (s1 & k1 & E1 & Hl1); [nia|]. rewrite (st_bind_run _ _ _ _ _ E1).
  destruct (login_run s1 _ _ who i Hl1 Hi) as (s2 & k2 & E2 & Hl2); [nia|]. rewrite (st_bind_run _ _ _ _ _ E2).
  destruct (IH s2 _ _ Hnd Hf Hl2 Hn HB) as (s' & out' & who' & E & Hl' & Hin & Hout). exists s', out', who'. split; [done|]. split; [done|].
  split.
  - intros j Hj. destruct (decide (j = i)) as [->|Hne]; [|destruct (Hin j) as [(l & -> & Hr) Hw]; [set_solver|]].
    + destruct (Hout i Hni) as [-> ->]. unfold add. rewrite !decide_True by done. split; [|done].
      eexists. split; [by rewrite <-app_assoc|]. by exists k1, k2.
    + split; [|done]. exists l. split; [|done]. unfold add. by rewrite !decide_False.
  - intros j Hj. destruct (Hout j) as [-> ->]; [set_solver|]. unfold add. rewrite !decide_False by set_solver. done.
Qed.

Lemma chat_all_run ids s n out who :
  NoDup ids → Forall (λ i, i < 20)%nat ids → linked s (2 * zlen ids * B + n) out who → 0 <= n → 0 <= B →
  ∃ s' out', chat_all clock seconds tid (username <$> ids) s = Ok ((), s') ∧ linked s' n out' who ∧
    (∀ p i, ids !! p = Some i → ∃ l, out' i = out i ++ l ∧ chatted_as i (ids !! S p) l) ∧
    (∀ i, i ∉ ids → out' i = out i).
Proof.
  revert s out. induction ids as [|i ids IH]; intros s out Hnd Hf Hl Hn HB.
  { exists s, out. change (zlen (@nil nat)) with 0 in Hl. split_and!; [done| |done|done]. by replace (2 * 0 * B + n) with n in Hl by lia. }
  apply NoDup_cons in Hnd as [Hni Hnd]. apply Forall_cons in Hf as [Hi Hf]. rewrite zlen_cons in Hl. pose proof (zlen_nonneg ids).
  replace (2 * (1 + zlen ids) * B + n) with (B + (B + (2 * zlen ids * B + n))) in Hl by lia.
  destruct ids as [|j ids].
  { exists s, out. split; [done|]. split; [|split; [|done]].
    - destruct Hl as [Hc Hl]. split; [done|]. intros j Hj. destruct (Hl j Hj) as (cl & id & c & c0 & ?&?&?&?& Ht &?&?).
      exists cl, id, c, c0. split_and!; try done. eapply takes_less; [|exact Ht]. change (zlen (@nil nat)) with 0. lia.
    - intros [|p] x Hx; cbn in Hx; [injection Hx as <-; exists []; by rewrite app_nil_r|done]. }
  assert (j < 20)%nat as Hj by (by apply Forall_cons in Hf as [? _]).
  change (chat_all clock seconds tid (username <$> i :: j :: ids)) with
    (_ ← testSingleChat clock (username i) (username j); _ ← testSendHongbao clock seconds tid (username i) (username j);
     chat_all clock seconds tid (username <$> j :: ids)).
  destruct (chat_run s _ out who i j Hl Hi Hj) as (s1 & k1 & E1 & Hl1); [nia|]. rewrite (st_bind_run _ _ _ _ _ E1).
  destruct (hongbao_run s1 _ _ who i j Hl1 Hi Hj) as (s2 & r & k2 & k3 & E2 & Hr & Hl2); [nia|]. rewrite (st_bind_run _ _ _ _ _ E2).
  destruct (IH s2 _ Hnd Hf Hl2 Hn HB) as (s' & out' & E & Hl' & Hin & Hout). exists s', out'. split; [done|]. split; [done|]. split.
  - intros [|p] x Hx; cbn in Hx; [injection Hx as <-|].
    + rewrite (Hout i Hni). unfold add. rewrite !decide_True by done. eexists. split; [by rewrite <-app_assoc|].
      cbn. by exists k1, k2, k3, r.
    + destruct (Hin p x Hx) as (l & -> & Hch). exists l. split; [|exact Hch]. unfold add.
      assert (x ≠ i) by (intros ->; apply Hni; by eapply list_elem_of_lookup_2). by rewrite !decide_False.
  - intros x Hx. rewrite (Hout x) by set_solver. unfold add. by rewrite !decide_False by set_solver.
Qed.

(** The clients that [start] leaves: each is connected, with room for the test. *)
Definition connected : Prop :=
  ∀ i, (i < 20)%nat → ∃ id c, Client.conn_ (new_client i) = Some id ∧ Client.conns (new_client i) !! id = Some c ∧ takes (81 * B) c.

Lemma create_run : connected → 0 <= B → ∀ s, clients s = [] →
  ∃ s', createClients new_client 20 0 s = Ok ((), s') ∧ linked s' (81 * B) (λ _, []) (λ i, Client.username_ (new_client i)).
Proof.
  intros Hcon HB s Hs.
  assert (∀ k i s, ∃ s', createClients new_client k i s = Ok ((), s') ∧
    clients s' = foldl (λ m i, map_assign (bytes_of (username i)) (Some i) m) (clients s) (seq i k) ∧
    ∀ j, objects s' !! j = if decide (i <= j < i + k)%nat then Some (new_client j) else objects s !! j) as Hgen.
  { clear s Hs. intros k. induction k as [|k IH]; intros i s.
    - exists s. split_and!; [done|done|]. intros j. rewrite decide_False; [done|lia].
    - cbn [createClients seq foldl]. rewrite !run_modify. match goal with |- context [createClients new_client k (S i) ?s1] => destruct (IH (S i) s1) as (s' & E & Hc & Ho) end.
      exists s'. split; [exact E|]. split; [exact Hc|]. intros j. rewrite Ho. cbn [objects set_objects set_clients].
      destruct (decide (S i <= j < S i + k)%nat); [rewrite decide_True; [done|lia]|].
      destruct (decide (j = i)) as [->|]; [rewrite lookup_insert_eq, decide_True; [done|lia]|].
      rewrite lookup_insert_ne by done. rewrite decide_False; [done|lia]. }
  destruct (Hgen 20%nat 0%nat s) as (s' & E & Hc & Ho). exists s'. split; [done|]. split; [by rewrite Hc, Hs|].
  intros i Hi. destruct (Hcon i Hi) as (id & c & H1 & H2 & H3). exists (new_client i), id, c, c. rewrite Ho, decide_True by lia.
  split_and!; try done. unfold frames. cbn. by rewrite app_nil_r.
Qed.

(** The load test.  When its twenty clients are connected, with room for
    what they send, [test] runs to its end, and what the connection of each client has
    carried then is: the registration of its user, the login, a chat message to and a red
    packet of 0.01 to 100 for the user whose name comes next (IMUser_10 comes after
    IMUser_1), if there is one, and from IMUser_7 a message to the group, each a whole frame
    and in this order; the client has the name of its user. *)
Theorem load_test s :
  connected → 0 <= B → clients s = [] →
  ∃ s', test clock seconds tid new_client s = Ok ((), s') ∧
  ∀ p i, order !! p = Some i →
    ∃ cl id c c0 l1 l2 l3, map_find (bytes_of (username i)) (clients s') = Some (Some i) ∧ objects s' !! i = Some cl ∧
      Client.username_ cl = username i ∧ Client.conn_ cl = Some id ∧ Client.conns cl !! id = Some c ∧
      Client.conns (new_client i) !! id = Some c0 ∧ conn_stream c = conn_stream c0 ++ frames (l1 ++ l2 ++ l3) ∧
      registered_as i l1 ∧ chatted_as i (order !! S p) l2 ∧
      (if decide (i = 7)%nat then ∃ k, l3 = [group_of (clock k)] else l3 = []).
Proof.
  intros Hcon HB Hs. unfold test. destruct (create_run Hcon HB s Hs) as (s1 & E1 & Hl1). rewrite (st_bind_run _ _ _ _ _ E1), run_gets.
  assert (NoDup order) as Hnd by (apply (bool_decide_unpack _); by vm_compute).
  assert (Forall (λ i, i < 20)%nat order) as Hf by (apply (bool_decide_unpack _); by vm_compute).
  assert (∀ s n out who, linked s n out who → users s = username <$> order) as Hu.
  { intros s0 n out who [Hc _]. unfold users. rewrite Hc. apply table_order. }
  rewrite (Hu _ _ _ _ Hl1). replace (81 * B) with (2 * zlen order * B + (2 * zlen order * B + B)) in Hl1 by (change (zlen order) with 20; lia).
  destruct (register_all_run order s1 _ _ _ Hnd Hf Hl1) as (s2 & out2 & who2 & E2 & Hl2 & Hin2 & _); [change (zlen order) with 20; lia|done|].
  rewrite (st_bind_run _ _ _ _ _ E2), run_gets, (Hu _ _ _ _ Hl2).
  destruct (chat_all_run order s2 B out2 who2 Hnd Hf Hl2) as (s3 & out3 & E3 & Hl3 & Hin3 & _); [done..|].
  rewrite (st_bind_run _ _ _ _ _ E3). unfold testGroupChat. replace B with (B + 0) in Hl3 by lia.
  destruct (now_linked s3 _ _ _ Hl3) as (s4 & E4 & Hl4 & _). rewrite (st_bind_run _ _ _ _ _ E4).
  destruct (send_run s4 0 out3 who2 7 (group_of (clock (ticks s3))) Hl4) as (s5 & E5 & [Hc5 Hl5]); [lia|constructor|done|].
  exists s5. split; [exact E5|]. intros p i Hp.
  assert (i < 20)%nat as Hi by (by eapply Forall_lookup_1 in Hf). destruct (Hl5 i Hi) as (cl & id & c & c0 & H1 & H2 & H3 & H4 & _ & H6 & H7).
  destruct (Hin2 i) as [(l1 & Ho2 & Hr) Hw]; [by eapply list_elem_of_lookup_2|]. destruct (Hin3 p i Hp) as (l2 & Ho3 & Hch).
  unfold add in H7. rewrite Ho3, Ho2 in H7. exists cl, id, c, c0, l1, l2, (if decide (i = 7)%nat then [group_of (clock (ticks s3))] else []).
  rewrite Hc5, table_find by done. rewrite H2, Hw. split_and!; try done.
  - rewrite H7. destruct (decide (i = 7)%nat); cbn [app]; [by rewrite <-app_assoc|by rewrite app_nil_r].
  - destruct (decide (i = 7)%nat); [by eexists|done].
Qed.

End Facts.

(** The command line.  Without a host the usage is shown; with a host and no port, the check
    of [main] passes and [atoi] gets a null pointer; otherwise the test runs against an IPv4
    address, with the port modulo 2^16. *)
Theorem client_main argv :
  (zlen argv < 2 → LoadTest.main argv = Ok (LoadTest.Usage (-1))) ∧
  (zlen argv = 2 → LoadTest.main argv = Fault UB) ∧
  (2 < zlen argv → ∃ ip port a, argv !! 1%nat = Some ip ∧ argv !! 2%nat = Some port ∧
     LoadTest.main argv = Ok (LoadTest.Tests a) ∧ a = InetAddress.make_ip ip (u16 (atoi port)) ∧ sin_family a = AF_INET).
Proof.
  unfold LoadTest.main. destruct argv as [|x [|ip [|port argv]]]; rewrite ?zlen_cons, ?zlen_nil; split_and!; try (intros; lia); try done.
  all: pose proof (zlen_nonneg argv); try (intros; lia).
  intros _. exists ip, port, (InetAddress.make_ip ip (u16 (atoi port))). replace (1 + (1 + (1 + zlen argv)) <? 2) with false by lia.
  split_and!; try done. unfold InetAddress.make_ip, sockets.fromIpPort. by destruct (inet_pton ip).
Qed.
