(* ===== verification/ServerStart.v ===== *)
(** * Server.cc, main.cc: from the configuration file to the running server

    The constructor of [Server], [Server::start] and [main], composed from the parts the
    other files model: the configuration (Config.v), the daemon (Process.v), the
    asynchronous log (AsyncLogging.v), the thread pool (ThreadPoolStop.v) and the TCP
    server (TcpServer.v).  What the handlers do afterwards is in Server.v. *)
From S2P Require Import Prelude Text State StdMap Config Inet Sockets Channel Timestamp LogStream Logging LogFile.
From S2P Require Import AsyncLogging ThreadPool Threads ThreadPoolStop Acceptor TcpServer Server Process.

Module ServerStart.
Section ServerStart.
Context {L K C F T : Type} `{CL : ChannelLoop L, SY : Sys K, SC : Served C, IO : Stdio F}.

(** The logging: the size of its buffers, the clock of the log files, the host and the
    process in their names; formats and texts of the C library; the level; the time and
    the thread of a log statement. *)
Variable SIZE : Z.
Variable clock : nat → Z.
Variables (hostname : option string) (pid : Z).
Variables (g12 : double → string) (strerror : Z → list byte) (g_logLevel : Logger.LogLevel) (now tid : Z).
(** What the system provides: the two forks, new threads, and a loop at [loop_addr] with
    the address for the channel of the acceptor. *)
Variables (child1 child2 : option Z) (newTid : nat → Z) (newLoop : L) (kernel : K) (loop_addr channel_addr : positive).

(** The process: what its objects are, where a log line goes ([toLog]: through
    [logOutput]), whether the handlers are registered, and whether [GServer] is set. *)
Record t := mk {
  configMap_ : list (list byte * list byte);
  log_ : option (AsyncLogging.t F);
  toLog : bool;
  threadPool_ : option (PoolLife.t T);
  loop_ : option positive;
  addr_ : sockaddr_in;
  server_ : option (TcpServer.t L K C);
  callbacks : bool;
  GServer : bool;
  numCreated : Z;
  proc : process
}.

Definition set_configMap (v : list (list byte * list byte)) (s : t) : t :=
  mk v (log_ s) (toLog s) (threadPool_ s) (loop_ s) (addr_ s)
     (server_ s) (callbacks s) (GServer s) (numCreated s) (proc s).
Definition set_log (v : option (AsyncLogging.t F)) (s : t) : t :=
  mk (configMap_ s) v (toLog s) (threadPool_ s) (loop_ s) (addr_ s)
     (server_ s) (callbacks s) (GServer s) (numCreated s) (proc s).
Definition set_toLog (v : bool) (s : t) : t :=
  mk (configMap_ s) (log_ s) v (threadPool_ s) (loop_ s) (addr_ s)
     (server_ s) (callbacks s) (GServer s) (numCreated s) (proc s).
Definition set_threadPool (v : option (PoolLife.t T)) (s : t) : t :=
  mk (configMap_ s) (log_ s) (toLog s) v (loop_ s) (addr_ s)
     (server_ s) (callbacks s) (GServer s) (numCreated s) (proc s).
Definition set_loop (v : option positive) (s : t) : t :=
  mk (configMap_ s) (log_ s) (toLog s) (threadPool_ s) v (addr_ s)
     (server_ s) (callbacks s) (GServer s) (numCreated s) (proc s).
Definition set_addr (v : sockaddr_in) (s : t) : t :=
  mk (configMap_ s) (log_ s) (toLog s) (threadPool_ s) (loop_ s) v
     (server_ s) (callbacks s) (GServer s) (numCreated s) (proc s).
Definition set_server (v : option (TcpServer.t L K C)) (s : t) : t :=
  mk (configMap_ s) (log_ s) (toLog s) (threadPool_ s) (loop_ s) (addr_ s)
     v (callbacks s) (GServer s) (numCreated s) (proc s).
Definition set_callbacks (v : bool) (s : t) : t :=
  mk (configMap_ s) (log_ s) (toLog s) (threadPool_ s) (loop_ s) (addr_ s)
     (server_ s) v (GServer s) (numCreated s) (proc s).
Definition set_GServer (v : bool) (s : t) : t :=
  mk (configMap_ s) (log_ s) (toLog s) (threadPool_ s) (loop_ s) (addr_ s)
     (server_ s) (callbacks s) v (numCreated s) (proc s).
Definition set_numCreated (v : Z) (s : t) : t :=
  mk (configMap_ s) (log_ s) (toLog s) (threadPool_ s) (loop_ s) (addr_ s)
     (server_ s) (callbacks s) (GServer s) v (proc s).
Definition set_proc (v : process) (s : t) : t :=
  mk (configMap_ s) (log_ s) (toLog s) (threadPool_ s) (loop_ s) (addr_ s)
     (server_ s) (callbacks s) (GServer s) (numCreated s) v.

(** ** The log *)

Definition logOutput (msg : list byte) (s : t) : res t :=
  match log_ s with
  | None => Fault UB
  | Some log => log ← AsyncLogging.append SIZE msg log; mret (set_log (Some log) s)
  end.

(** [g_output]: a line goes to the terminal, if there is one, or into the log. *)
Definition g_output (msg : list byte) (s : t) : res t :=
  if toLog s then logOutput msg s else mret (set_proc (System.write 1 (string_of msg) (proc s)) s).
Definition g_flush (s : t) : res t := mret s.

Definition LOG_INFO (file : string) (line : Z) (text : string) : st t unit := λ s,
  s ← Logger.LOG_INFO g12 strerror g_output g_flush g_logLevel (bytes_of file) line now tid [LogStream.Cstr (Some (bytes_of text))] s;
  mret ((), s).
Definition LOG_ERROR (file : string) (line : Z) (text : string) : st t unit := λ s,
  s ← Logger.LOG_ERROR g12 strerror g_output g_flush (bytes_of file) line now tid [LogStream.Cstr (Some (bytes_of text))] s;
  mret ((), s).

(** ** The constructor *)

Definition entry (name : string) : st t (list byte) := gets (λ s, Server.config (configMap_ s) name).
Definition number (name : string) : st t Z := v ← entry name; lift (stoi v).

Definition new_log : st t unit :=
  rollSize ← entry "logRollSie";
  rollSize ← lift (ReadConfig.toByte rollSize);
  _ ← number "logFlushInterval";
  log ← lift (AsyncLogging.start clock hostname pid "im" rollSize);
  modify (set_log (Some log)).

Definition new_pool : st t unit :=
  let p := PoolLife.make "ThreadPool" in
  modify (set_threadPool (Some (PoolLife.mk (ThreadPool.setMaxQueueSize 1024 (PoolLife.base p))
    (PoolLife.name_ p) (PoolLife.threads_ p) (PoolLife.threadInitCallback_ p)))).

Definition new_loop : st t unit := modify (set_loop (Some loop_addr)).

Definition new_address : st t unit :=
  host ← entry "host";
  port ← number "port";
  modify (set_addr (InetAddress.setIpPort host (u16 port))).

Definition new_server : st t unit :=
  loop ← gets loop_;
  loop ← deref loop;
  addr ← gets addr_;
  name ← entry "serverName";
  w ← lift (TcpServer.make loop addr (string_of name) false channel_addr newLoop kernel);
  modify (set_server (Some w)).

(** A call of a method of [server_]. *)
Definition on_server (m : st (TcpServer.t L K C) unit) : st t unit :=
  w ← gets server_;
  w ← deref w;
  '(_, w) ← lift (m w);
  modify (set_server (Some w)).

Definition set_output : st t unit := modify (set_toLog true).

Definition set_threads : st t unit :=
  io ← number "ioThreadNumber";
  on_server (TcpServer.setThreadNum io).

(** The dispatcher gets the handlers of [Server.dispatcher_], the server the connection and
    the message callback. *)
Definition set_callbacks_ : st t unit :=
  w ← gets server_;
  _ ← deref w;
  modify (set_callbacks true).

(** The statements of the constructor; each throws, if at all, before it changes
    anything. *)
Definition construct : list (st t unit) :=
  [new_log; new_pool; new_loop; new_address; new_server; set_output; set_threads; set_callbacks_].

(** ** [start] *)

Definition start_pool : st t unit :=
  n ← number "tpNum";
  p ← gets threadPool_;
  p ← deref p;
  created ← gets numCreated;
  '(p, created, _) ← lift (PoolLife.start true n newTid created p);
  _ ← modify (set_threadPool (Some p));
  modify (set_numCreated created).

(** The statements of [start] up to [loop_->loop()]. *)
Definition start : list (st t unit) :=
  [start_pool; LOG_INFO "Server.cc" 75 "thread pool start running";
   on_server (TcpServer.start None); LOG_INFO "Server.cc" 77 "server start running"].

(** ** [main] *)

(** Statements one after the other, up to the first one that fails. *)
Fixpoint run (l : list (st t unit)) (s : t) : t * option Prelude.fault :=
  match l with
  | [] => (s, None)
  | m :: l' => match m s with Ok (_, s') => run l' s' | Fault f => (s, Some f) end
  end.

Definition set_GServer_ : st t unit := modify (set_GServer true).

(** How a process goes on: in [loop_->loop()], it returns from [main] or calls [_exit], or it
    is ended by a signal or has no defined behaviour. *)
Inductive ending :=
  | Loops (s : t)
  | Returns (status : Z) (s : t)
  | Exits (status : Z) (p : process)
  | Dies (f : Prelude.fault).

(** [e.what()]: a thrown value is written CLASS: WHAT. *)
Definition what (thrown : string) : string :=
  match String.index 0 ": " thrown with
  | Some i => String.substring (i + 2) (String.length thrown - (i + 2)) thrown
  | None => thrown
  end.

(** The [try] block behind [setDaemon], and its handler. *)
Definition serve (s : t) : ending :=
  match run (construct ++ set_GServer_ :: start) s with
  | (s, None) => Loops s
  | (s, Some (Throw thrown)) =>
      match LOG_ERROR "main.cc" 34 (what thrown) s with
      | Ok (_, s) => Returns 0 s
      | Fault f => Dies f
      end
  | (_, Some f) => Dies f
  end.

(** A process [p] runs [main]; the result is what becomes of it and its children. *)
Definition main (file : option (list byte)) (p : process) : list ending :=
  match ReadConfig.readConfig file with
  | Fault f => [Dies f]
  | Ok m =>
      let s p := mk m None false None None addr_zero None false false 0 p in
      if bool_decide (string_of (Server.config m "daemon") = "yes"%string) then
        (λ f, match f with Runs p => serve (s p) | Exited status p => Exits status p end) <$> Daemon.setDaemon child1 child2 p
      else [serve (s p)]
  end.

End ServerStart.
#[global] Arguments t L K C F T : clear implicits.
#[global] Arguments ending L K C F T : clear implicits.
End ServerStart.

(** ** What happens at the start *)
Section Facts.
Import ServerStart.
Context {L K C F T : Type} `{CL : ChannelLoop L, SY : Sys K, SYL : !SysLaws K SY, SC : Served C, SCL : !ServedLaws C SC}.
Context `{IO : Stdio F, IOL : !StdioLaws F IO, IOR : !StdioReliable F IO}.
Variable SIZE : Z.
Variable clock : nat → Z.
Variables (hostname : option string) (pid : Z).
Variables (g12 : double → string) (strerror : Z → list byte) (g_logLevel : Logger.LogLevel) (now tid : Z).
Variables (child1 child2 : option Z) (newTid : nat → Z) (newLoop : L) (kernel : K) (loop_addr channel_addr : positive).
(** The buffers of the log hold a line, the clocks are in range, the system numbers its
    threads and processes by positive numbers. *)
Hypothesis SIZE_range : 4096 <= SIZE < 2 ^ 31.
Hypothesis clock_0 : 0 < clock 0.
Hypothesis g12_width : ∀ v, slen (g12 v) <= 31.
Hypotheses (Hnow : 0 <= now < 253402300800 * 1000000) (Htid : 0 < tid < 2 ^ 31) (HnewTid : ∀ i, 0 < newTid i).
Variable newTcpConnection : positive → string → Z → sockaddr_in → sockaddr_in → C.
Hypothesis Hnew : ∀ l name fd local peer, srv_new (newTcpConnection l name fd local peer).
Implicit Types s : ServerStart.t L K C F T.

Abbreviation run := (ServerStart.run (L := L) (K := K) (C := C) (F := F) (T := T)).
Abbreviation log_info := (ServerStart.LOG_INFO SIZE g12 strerror g_logLevel now tid).
Abbreviation log_error := (ServerStart.LOG_ERROR SIZE g12 strerror now tid).
Abbreviation construct := (ServerStart.construct clock hostname pid newLoop kernel loop_addr channel_addr).
Abbreviation start := (ServerStart.start SIZE g12 strerror g_logLevel now tid newTid).
Abbreviation serve := (ServerStart.serve SIZE clock hostname pid g12 strerror g_logLevel now tid newTid newLoop kernel loop_addr channel_addr).
Abbreviation main := (ServerStart.main SIZE clock hostname pid g12 strerror g_logLevel now tid child1 child2 newTid newLoop kernel loop_addr channel_addr).

Lemma run_ok m l s s' : m s = Ok ((), s') → run (m :: l) s = run l s'.
Proof. cbn [ServerStart.run]. by intros ->. Qed.

Lemma run_stops m l s f : m s = Fault f → run (m :: l) s = (s, Some f).
Proof. cbn [ServerStart.run]. by intros ->. Qed.

Lemma number_run name s v : stoi (Server.config (configMap_ s) name) = Ok v → number name s = Ok (v, s).
Proof. unfold number, entry. rewrite run_gets. unfold lift. by intros ->. Qed.

Lemma number_bad {A} name s f (k : Z → st (ServerStart.t L K C F T) A) :
  stoi (Server.config (configMap_ s) name) = Fault f → (number name ≫= k) s = Fault f.
Proof. intros E. unfold mbind, st_bind, number, entry, gets, lift, mbind, st_bind. by rewrite E. Qed.

(** The line of an error that [main] catches. *)
Definition error_line (thrown : string) : list byte :=
  fold_left (put_spec g12) (head_ops strerror Logger.ERROR 0 now tid ++
    [LogStream.Cstr (Some (bytes_of (what thrown)))] ++ tail_ops (bytes_of "main.cc") 34) [].

Lemma error_run thrown s :
  log_error "main.cc" 34 (what thrown) s = (s ← g_output SIZE (error_line thrown) s; mret ((), s)).
Proof.
  unfold ServerStart.LOG_ERROR, Logger.LOG_ERROR. rewrite (log_run g12 g12_width) by (done || by repeat constructor).
  change (func_ops None) with (@nil LogStream.operation). cbn [app]. fold (error_line thrown).
  rewrite (bool_decide_false (Logger.ERROR = Logger.FATAL)) by done. by destruct (g_output SIZE _ s).
Qed.

(** The process at the beginning, and the parts made so far. *)
Definition fresh m p : ServerStart.t L K C F T := mk m None false None None addr_zero None false false 0 p.

Definition pool0 : PoolLife.t T := PoolLife.mk (ThreadPool.setMaxQueueSize 1024 ThreadPool.make) "ThreadPool" [] false.

(** A log that has only taken [text], in memory. *)
Definition only_holds (text : list byte) (lg : AsyncLogging.t F) : Prop :=
  AsyncLogging.inv SIZE lg ∧ AsyncLogging.currentBuffer_ lg = Some text ∧ AsyncLogging.buffers_ lg = [] ∧
  AsyncLogging.buffersToWrite lg = [] ∧ log_bytes (AsyncLogging.output lg) = [].

Lemma log_started r : ∃ lg, AsyncLogging.start clock hostname pid "im" r = Ok lg ∧ only_holds [] lg.
Proof.
  unfold AsyncLogging.start. destruct (log_make_spec clock hostname pid "im" r 3 1024 clock_0) as (o & -> & Hb & Ho).
  eexists. split; [done|]. split; [|by split_and!]. split; cbn; [exists []; change (zlen (@nil byte)) with 0; split; [done|lia]|done..].
Qed.

Lemma log_takes line lg :
  zlen line < 4000 → only_holds [] lg → ∃ lg', AsyncLogging.append SIZE line lg = Ok lg' ∧ only_holds line lg'.
Proof.
  intros Hl (Hi & Hc & Hb & Hw & Ho). assert (0 < SIZE < 2 ^ 31) as HS by lia.
  destruct (AsyncLogging.append_inv SIZE HS line lg Hi) as (lg' & E & Hi' & _).
  exists lg'. split; [done|]. split; [done|]. unfold AsyncLogging.append in E. rewrite Hc in E. cbn in E.
  destruct (buffer_append SIZE HS [] line) as [Ea _]; [change (zlen (@nil byte)) with 0; lia|].
  unfold FixedBuffer.avail in *. change (zlen (@nil byte)) with 0 in *. replace (zlen line <? SIZE - 0) with true in * by lia.
  rewrite Ea in E. injection E as <-. by split_and!.
Qed.

Lemma error_line_short thrown : zlen (error_line thrown) < 4000.
Proof.
  unfold error_line. eapply (put_all_spec g12 g12_width); [|by vm_compute].
  rewrite !Forall_app. split_and!; [by apply head_ok|by repeat constructor|by apply tail_ok].
Qed.

(** The constructor, up to the pool. *)
Lemma after_log m p r fl rest :
  ReadConfig.toByte (Server.config m "logRollSie") = Ok r → stoi (Server.config m "logFlushInterval") = Ok fl →
  ∃ lg, only_holds [] lg ∧
    run (construct ++ rest) (fresh m p) =
      run (drop 3 construct ++ rest) (mk m (Some lg) false (Some pool0) (Some loop_addr) addr_zero None false false 0 p).
Proof.
  intros Er Ef. destruct (log_started r) as (lg & El & Hl). exists lg. split; [done|]. unfold ServerStart.construct. cbn [app drop].
  rewrite (run_ok _ _ _ (set_log (Some lg) (fresh m p))); [done|].
  unfold new_log, entry. rewrite run_gets. cbn [configMap_ fresh]. unfold lift at 1. rewrite Er. cbn [mbind res_bind].
  erewrite st_bind_run by reflexivity. erewrite st_bind_run by (apply number_run; exact Ef).
  erewrite st_bind_run; [reflexivity|]. unfold lift. by rewrite El.
Qed.

(** Up to the output of the log. *)
Lemma after_server m p lg port w0 rest :
  stoi (Server.config m "port") = Ok port →
  let addr := InetAddress.setIpPort (Server.config m "host") (u16 port) in
  TcpServer.make loop_addr addr (string_of (Server.config m "serverName")) false channel_addr newLoop kernel = Ok w0 →
  run (drop 3 construct ++ rest) (mk m (Some lg) false (Some pool0) (Some loop_addr) addr_zero None false false 0 p) =
    run (drop 6 construct ++ rest) (mk m (Some lg) true (Some pool0) (Some loop_addr) addr (Some w0) false false 0 p).
Proof.
  intros Ep addr Ew. unfold ServerStart.construct. cbn [app drop].
  set (s1 := mk (L := L) (K := K) (C := C) m (Some lg) false (Some pool0) (Some loop_addr) addr None false false 0 p).
  rewrite (run_ok _ _ _ s1); [rewrite (run_ok _ _ _ (set_server (Some w0) s1)); [done|]|].
  - unfold new_server, s1. rewrite run_gets. cbn [loop_ set_addr]. unfold deref, entry. rewrite run_mret, !run_gets. cbn [configMap_ addr_ set_addr].
    erewrite st_bind_run; [reflexivity|]. unfold lift. fold addr. by rewrite Ew.
  - unfold new_address, entry, s1. rewrite run_gets. by erewrite st_bind_run by (apply number_run; exact Ep).
Qed.

(** The whole constructor. *)
Lemma after_construct m p lg addr io w0 w1 :
  stoi (Server.config m "ioThreadNumber") = Ok io → TcpServer.setThreadNum io w0 = Ok ((), w1) →
  run (drop 6 construct ++ set_GServer_ :: start) (mk m (Some lg) true (Some pool0) (Some loop_addr) addr (Some w0) false false 0 p) =
    run start (mk m (Some lg) true (Some pool0) (Some loop_addr) addr (Some w1) true true 0 p).
Proof.
  intros Ei Ew. unfold ServerStart.construct. cbn [app drop].
  set (s1 := mk (L := L) (K := K) (C := C) m (Some lg) true (Some pool0) (Some loop_addr) addr (Some w1) false false 0 p).
  rewrite (run_ok _ _ _ s1); [done|].
  unfold set_threads, on_server, number, entry, gets, lift, deref, mbind, st_bind, mret, st_ret. cbn [configMap_ server_].
  rewrite Ei. cbn [mbind res_bind mret res_ret]. cbn [configMap_ server_]. by rewrite Ew.
Qed.

Lemma info_run file line text s lg :
  in_sN 32 line → toLog s = true → log_ s = Some lg → AsyncLogging.inv SIZE lg →
  ∃ lg', log_info file line text s = Ok ((), set_log (Some lg') s) ∧ AsyncLogging.inv SIZE lg'.
Proof.
  intros Hline Ht Hl Hi. unfold ServerStart.LOG_INFO, Logger.LOG_INFO. destruct (_ <=? _).
  - rewrite (log_run g12 g12_width) by (done || by repeat constructor). unfold g_output, logOutput. rewrite Ht, Hl.
    assert (0 < SIZE < 2 ^ 31) as HS by lia.
    match goal with |- context [AsyncLogging.append SIZE ?l lg] => destruct (AsyncLogging.append_inv SIZE HS l lg Hi) as (lg' & E & Hi' & _) end.
    rewrite E. by exists lg'.
  - exists lg. split; [|done]. rewrite <-Hl. by destruct s.
Qed.

(** The workers of the pool, before they run. *)
Definition ready_pool (n : Z) (pool : PoolLife.t T) : Prop :=
  PoolLife.base pool = ThreadPool.pool (ThreadPool.start (Z.to_nat n) (ThreadPool.setMaxQueueSize 1024 ThreadPool.make)) ∧
  Thread.tid_ <$> PoolLife.threads_ pool = newTid <$> seq 0 (Z.to_nat n) ∧ Forall joinable (PoolLife.threads_ pool).

Lemma pool_run n : 0 <= n → ∃ pool k, PoolLife.start true n newTid 0 pool0 = Ok (pool, k, false) ∧ ready_pool n pool.
Proof.
  intros Hn. unfold PoolLife.start. change (PoolLife.threads_ pool0) with (@nil Thread.t). rewrite (bool_decide_true ([] = [])) by done.
  cbn [cassert mbind res_bind]. replace (n <? 0) with false by lia. cbn [mbind res_bind mret res_ret].
  set (p1 := PoolLife.mk _ _ _ _). destruct (pool_threads_run 0 (newTid <$> seq 0 (Z.to_nat n)) 0 p1) as (ths & k & E & _ & Hj & Ht & _).
  - apply Forall_fmap, Forall_true. intros i. apply HnewTid.
  - apply Forall_nil_2.
  - rewrite E. cbn [mbind res_bind mret res_ret]. rewrite andb_false_r. eexists _, k. split; [done|]. by split_and!.
Qed.

(** The outcome of [serve] that has to be shown. *)
Definition serving m p io n (w : TcpServer.t L K C) s : Prop :=
  configMap_ s = m ∧ proc s = p ∧ GServer s = true ∧ callbacks s = true ∧
  server_ s = Some w ∧ TcpServer.inv w ∧ zlen (EventLoopThreadPool.loops_ (TcpServer.threadPool_ w)) = io ∧
  (∃ pool, threadPool_ s = Some pool ∧ ready_pool n pool) ∧
  (∃ lg, log_ s = Some lg ∧ AsyncLogging.inv SIZE lg) ∧ toLog s = true.

Lemma after_start m p lg addr n w w' :
  only_holds [] lg → stoi (Server.config m "tpNum") = Ok n → 0 <= n → TcpServer.start None w = Ok ((), w') →
  ∃ s, run start (mk m (Some lg) true (Some pool0) (Some loop_addr) addr (Some w) true true 0 p) = (s, None) ∧
    configMap_ s = m ∧ proc s = p ∧ GServer s = true ∧ callbacks s = true ∧ server_ s = Some w' ∧
    (∃ pool, threadPool_ s = Some pool ∧ ready_pool n pool) ∧
    (∃ lg, log_ s = Some lg ∧ AsyncLogging.inv SIZE lg) ∧ toLog s = true.
Proof.
  intros (Hi & _) En Hn Ew. destruct (pool_run n Hn) as (pool & k & Ep & Hp). unfold ServerStart.start.
  set (s0 := mk m _ _ _ _ _ _ _ _ _ _).
  assert (start_pool newTid s0 = Ok ((), set_numCreated k (set_threadPool (Some pool) s0))) as E1.
  { unfold start_pool, number, entry, gets, lift, deref, mbind, st_bind, mret, st_ret. cbn [configMap_ s0]. rewrite En.
    cbn [mbind res_bind mret res_ret]. cbn [threadPool_ s0]. cbn [numCreated s0]. by rewrite Ep. }
  rewrite (run_ok _ _ _ _ E1). set (s1 := set_numCreated _ _).
  destruct (info_run "Server.cc" 75 "thread pool start running" s1 lg) as (lg1 & E2 & Hi1); [by vm_compute|done|done|done|].
  rewrite (run_ok _ _ _ _ E2). set (s2 := set_log _ _).
  assert (on_server (TcpServer.start None) s2 = Ok ((), set_server (Some w') s2)) as E3.
  { unfold on_server, gets, lift, deref, mbind, st_bind, mret, st_ret. cbn [server_ s2 s1 s0 set_log set_numCreated set_threadPool]. by rewrite Ew. }
  rewrite (run_ok _ _ _ _ E3). set (s3 := set_server _ _).
  destruct (info_run "Server.cc" 77 "server start running" s3 lg1) as (lg2 & E4 & Hi2); [by vm_compute|done|done|done|].
  rewrite (run_ok _ _ _ _ E4). eexists. split; [reflexivity|].
  cbn. split_and!; [done..|by exists pool|by exists lg2|done].
Qed.

Lemma configure_Ok m cfg :
  Server.configure m = Ok cfg →
  ReadConfig.toByte (Server.config m "logRollSie") = Ok (Server.logRollSize cfg) ∧
  stoi (Server.config m "logFlushInterval") = Ok (Server.logFlushInterval cfg) ∧
  (∃ port, stoi (Server.config m "port") = Ok port ∧ Server.port cfg = u16 port) ∧
  stoi (Server.config m "ioThreadNumber") = Ok (Server.ioThreadNumber cfg) ∧ 0 <= Server.ioThreadNumber cfg ∧
  Server.host cfg = Server.config m "host" ∧ Server.serverName cfg = Server.config m "serverName".
Proof.
  unfold Server.configure. intros E. destruct (ReadConfig.toByte _) as [r|]; [|done]. destruct (stoi (Server.config m "logFlushInterval")) as [fl|]; [|done].
  destruct (stoi (Server.config m "port")) as [port|]; [|done]. destruct (stoi (Server.config m "ioThreadNumber")) as [io|]; [|done].
  cbn [mbind res_bind] in E. destruct (0 <=? io) eqn:Hio; [|done]. injection E as <-. cbn. split_and!; try done; [by eexists|lia].
Qed.

Lemma stoi_range v z : stoi v = Ok z → - 2 ^ 31 <= z < 2 ^ 31.
Proof.
  unfold stoi. destruct (sign_of _) as [neg l]. destruct (lead_digits _ _ _) as [[x k] ?]. destruct k; [done|].
  destruct (_ && _) eqn:E; [|done]. intros [= <-]. lia.
Qed.

Lemma setIpPort_family ip port : sin_family (InetAddress.setIpPort ip port) = AF_INET.
Proof. unfold InetAddress.setIpPort, sockets.fromIpPort. by destruct (inet_pton ip). Qed.

(** The server object: it is made, gets its number of threads, and starts. *)
Lemma server_starts_inv addr name io w0 w :
  sin_family addr = AF_INET → 0 <= io < 2 ^ 31 →
  TcpServer.make (C := C) loop_addr addr name false channel_addr newLoop kernel = Ok w0 →
  (TcpServer.setThreadNum io ≫= λ _, TcpServer.start None) w0 = Ok ((), w) →
  isInLoopThread (Acceptor.loop_ (TcpServer.acceptor_ w)) = true →
  TcpServer.inv w ∧ zlen (EventLoopThreadPool.loops_ (TcpServer.threadPool_ w)) = io ∧
  ∃ w1, TcpServer.setThreadNum io w0 = Ok ((), w1) ∧ TcpServer.start None w1 = Ok ((), w).
Proof.
  intros Hf Hio Em Es Hth. assert (TcpServer.inv w) as Hinv by (by eapply (TcpServer.start_inv newTcpConnection)).
  apply st_bind_Ok in Es as ([] & w1 & E1 & E2). split; [done|]. split; [|by exists w1].
  unfold TcpServer.make in Em. destruct (InetAddress.toIpPort addr) as [ip|]; [|done]. cbn [mbind res_bind] in Em.
  destruct (Acceptor.make _ _ _ _ _ _) as [a|]; [|done]. injection Em as <-.
  unfold TcpServer.setThreadNum in E1. replace (0 <=? io) with true in E1 by lia. injection E1 as <-.
  apply TcpServer.start_run in E2 as (p & x & a' & -> & Hp); [|done..]. destruct Hp as (_ & _ & _ & Hp). cbn [EventLoopThreadPool.numThreads_ EventLoopThreadPool.loops_ EventLoopThreadPool.set_started EventLoopThreadPool.setThreadNum TcpServer.threadPool_ TcpServer.set_threadPool TcpServer.set_acceptor TcpServer.set_next_loop EventLoopThreadPool.make] in Hp |- *. rewrite Hp, zlen_nil. lia.
Qed.

(** The statement behind [setDaemon]. *)
Lemma serve_runs m cfg n p w0 w :
  Server.configure m = Ok cfg → Server.start m = Ok n → 0 <= n →
  TcpServer.make loop_addr (InetAddress.setIpPort (Server.host cfg) (Server.port cfg)) (string_of (Server.serverName cfg))
    false channel_addr newLoop kernel = Ok w0 →
  (TcpServer.setThreadNum (Server.ioThreadNumber cfg) ≫= λ _, TcpServer.start None) w0 = Ok ((), w) →
  isInLoopThread (Acceptor.loop_ (TcpServer.acceptor_ w)) = true →
  ∃ s, serve (fresh m p) = Loops s ∧ serving m p (Server.ioThreadNumber cfg) n w s.
Proof.
  intros Ec En Hn Em Es Hth. destruct (configure_Ok m cfg Ec) as (Er & Ef & (port & Eport & Epc) & Eio & Hio & Eh & Enm).
  pose proof (stoi_range _ _ Eio) as Hio2. rewrite Eh, Epc, Enm in Em.
  destruct (server_starts_inv _ _ (Server.ioThreadNumber cfg) _ _ (setIpPort_family _ _) ltac:(lia) Em Es Hth) as (Hinv & Hl & w1 & E1 & E2).
  unfold ServerStart.serve. destruct (after_log m p _ _ (set_GServer_ :: start) Er Ef) as (lg & Hlg & ->).
  rewrite (after_server m p lg port w0 _ Eport Em), (after_construct m p lg _ _ w0 w1 Eio E1).
  destruct (after_start m p lg (InetAddress.setIpPort (Server.config m "host") (u16 port)) n w1 w Hlg En Hn E2) as (s & -> & H). exists s. split; [done|].
  destruct H as (?&?&?&?&?&?&?&?). by split_and!.
Qed.

(** The handler of [main]: the line goes to the terminal before [setOutput] was called, and
    after it into the memory of the log. *)
Lemma serve_throws m p s e :
  run (construct ++ set_GServer_ :: start) (fresh m p) = (s, Some (Throw e)) → toLog s = false →
  serve (fresh m p) = Returns 0 (set_proc (System.write 1 (string_of (error_line e)) (proc s)) s).
Proof. intros E Ht. unfold ServerStart.serve. rewrite E, error_run. unfold g_output. by rewrite Ht. Qed.

Lemma serve_throws_late m p s e lg :
  run (construct ++ set_GServer_ :: start) (fresh m p) = (s, Some (Throw e)) → toLog s = true →
  log_ s = Some lg → only_holds [] lg →
  ∃ lg', only_holds (error_line e) lg' ∧ serve (fresh m p) = Returns 0 (set_log (Some lg') s).
Proof.
  intros E Ht El Hl. destruct (log_takes (error_line e) lg (error_line_short e) Hl) as (lg' & Ea & Hl').
  exists lg'. split; [done|]. unfold ServerStart.serve. rewrite E, error_run. unfold g_output, logOutput. by rewrite Ht, El, Ea.
Qed.

Lemma main_plain file p m :
  ReadConfig.readConfig file = Ok m → string_of (Server.config m "daemon") ≠ "yes"%string → main file p = [serve (fresh m p)].
Proof. intros E Hd. unfold ServerStart.main. rewrite E. by rewrite bool_decide_false. Qed.

Lemma main_daemon file p m c1 c2 :
  ReadConfig.readConfig file = Ok m → string_of (Server.config m "daemon") = "yes"%string →
  child1 = Some c1 → child2 = Some c2 → 0 < c1 → 0 < c2 → c1 ≠ pgid p →
  ∃ p1, main file p = [Exits 0 p; Exits 0 p1; serve (fresh m (daemon_of c1 c2 p))].
Proof.
  intros E Hd -> -> H1 H2 Hne. unfold ServerStart.main. rewrite E. rewrite bool_decide_true by done.
  destruct (setDaemon_run p c1 c2 H1 H2 Hne) as [p1 ->]. by exists p1.
Qed.

(** C3 (liveness). The program starts.  When the configuration file can be read and its
    numbers are numbers, the listening socket can be had, and the system gives threads and
    processes, [main] comes to the event loop with everything in place: the TCP server
    listens, its invariant (Server.v, TcpServer.v) holds and it has [ioThreadNumber]
    loops; the pool has its [tpNum] workers and a queue of at most 1024; the log takes
    lines; handlers and [GServer] are set.  As a daemon it is the grandchild that gets
    there, with no terminal; the two other processes have exited with status 0. *)
Theorem server_starts file p m cfg n w0 w :
  ReadConfig.readConfig file = Ok m → Server.configure m = Ok cfg → Server.start m = Ok n → 0 <= n →
  TcpServer.make loop_addr (InetAddress.setIpPort (Server.host cfg) (Server.port cfg)) (string_of (Server.serverName cfg))
    false channel_addr newLoop kernel = Ok w0 →
  (TcpServer.setThreadNum (Server.ioThreadNumber cfg) ≫= λ _, TcpServer.start None) w0 = Ok ((), w) →
  isInLoopThread (Acceptor.loop_ (TcpServer.acceptor_ w)) = true →
  (string_of (Server.config m "daemon") ≠ "yes"%string →
   ∃ s, main file p = [Loops s] ∧ serving m p (Server.ioThreadNumber cfg) n w s) ∧
  (∀ c1 c2, string_of (Server.config m "daemon") = "yes"%string → child1 = Some c1 → child2 = Some c2 →
   0 < c1 → 0 < c2 → c1 ≠ pgid p →
   ∃ p1 s, main file p = [Exits 0 p; Exits 0 p1; Loops s] ∧
     serving m (daemon_of c1 c2 p) (Server.ioThreadNumber cfg) n w s).
Proof.
  intros Em Ec En Hn Ew Es Hth. split.
  - intros Hd. destruct (serve_runs m cfg n p w0 w) as (s & Hs & H); [done..|]. exists s. by rewrite (main_plain file p m), Hs.
  - intros c1 c2 Hd H1 H2 Hc1 Hc2 Hne. destruct (main_daemon file p m c1 c2) as (p1 & ->); [done..|].
    destruct (serve_runs m cfg n (daemon_of c1 c2 p) w0 w) as (s & -> & H); [done..|]. by exists p1, s.
Qed.

(** A number in the configuration that is no number, or none.  [main] always
    returns 0.  Is it one of the log's or the port, the message is on the terminal, and
    nothing listens.  Is it [ioThreadNumber] or [tpNum], the message goes into the
    buffer of the asynchronous log; when [main] returns, and the process ends, neither a
    file nor the terminal has got it.  A negative [ioThreadNumber] fails
    an assertion, a negative [tpNum] is one more thing that throws. *)
Theorem bad_number m p e :
  (ReadConfig.toByte (Server.config m "logRollSie") = Fault (Throw e) →
   serve (fresh m p) = Returns 0 (set_proc (System.write 1 (string_of (error_line e)) p) (fresh m p))) ∧
  ∀ r, ReadConfig.toByte (Server.config m "logRollSie") = Ok r →
  (stoi (Server.config m "logFlushInterval") = Fault (Throw e) →
   serve (fresh m p) = Returns 0 (set_proc (System.write 1 (string_of (error_line e)) p) (fresh m p))) ∧
  ∀ fl, stoi (Server.config m "logFlushInterval") = Ok fl →
  (stoi (Server.config m "port") = Fault (Throw e) →
   ∃ s, serve (fresh m p) = Returns 0 s ∧ server_ s = None ∧ GServer s = false ∧
     proc s = System.write 1 (string_of (error_line e)) p) ∧
  ∀ port w0, stoi (Server.config m "port") = Ok port →
  TcpServer.make loop_addr (InetAddress.setIpPort (Server.config m "host") (u16 port)) (string_of (Server.config m "serverName"))
    false channel_addr newLoop kernel = Ok w0 →
  (stoi (Server.config m "ioThreadNumber") = Fault (Throw e) →
   ∃ s lg, serve (fresh m p) = Returns 0 s ∧ server_ s = Some w0 ∧ GServer s = false ∧ proc s = p ∧
     log_ s = Some lg ∧ only_holds (error_line e) lg) ∧
  ∀ io, stoi (Server.config m "ioThreadNumber") = Ok io →
  (io < 0 → serve (fresh m p) = Dies AssertFail) ∧
  (0 <= io →
   stoi (Server.config m "tpNum") = Fault (Throw e) ∨
   (∃ n, stoi (Server.config m "tpNum") = Ok n ∧ n < 0 ∧ e = "std::length_error: vector::reserve"%string) →
   ∃ s lg, serve (fresh m p) = Returns 0 s ∧ GServer s = true ∧ proc s = p ∧ log_ s = Some lg ∧ only_holds (error_line e) lg).
Proof.
  split; [|intros r Er; split; [|intros fl Ef; split; [|intros port w0 Ep Ew; split; [|intros io Ei; split]]]].
  - intros E. apply (serve_throws m p (fresh m p) e); [|done]. apply run_stops.
    unfold new_log, entry, gets, lift, mbind, st_bind. cbn [configMap_ fresh]. by rewrite E.
  - intros E. apply (serve_throws m p (fresh m p) e); [|done]. apply run_stops.
    unfold new_log, number, entry, gets, lift, mbind, st_bind. cbn [configMap_ fresh]. rewrite Er. cbn [mbind res_bind configMap_ fresh]. by rewrite E.
  - intros E. destruct (after_log m p r fl (set_GServer_ :: start) Er Ef) as (lg & _ & Erun).
    eexists. split; [eapply serve_throws; [rewrite Erun; apply run_stops|done]|done].
    unfold new_address, entry. rewrite run_gets. by apply number_bad.
  - intros E. destruct (after_log m p r fl (set_GServer_ :: start) Er Ef) as (lg & Hlg & Erun).
    rewrite (after_server m p lg port w0 _ Ep Ew) in Erun.
    edestruct (serve_throws_late m p) as (lg' & Hl' & Es); [rewrite Erun; apply run_stops; by apply number_bad|done|done|done|].
    eexists _, lg'. split; [exact Es|]. done.
  - intros Hio. destruct (after_log m p r fl (set_GServer_ :: start) Er Ef) as (lg & Hlg & Erun).
    rewrite (after_server m p lg port w0 _ Ep Ew) in Erun. unfold ServerStart.serve. rewrite Erun.
    unfold ServerStart.construct. cbn [app drop]. rewrite (run_stops _ _ _ AssertFail); [done|]. unfold set_threads. erewrite st_bind_run by (apply number_run; exact Ei).
    unfold on_server. rewrite run_gets. unfold deref. cbn [server_]. rewrite run_mret. unfold mbind, st_bind, lift, TcpServer.setThreadNum.
    by replace (0 <=? io) with false by lia.
  - intros Hio Hn. destruct (after_log m p r fl (set_GServer_ :: start) Er Ef) as (lg & Hlg & Erun).
    destruct (TcpServer.setThreadNum io w0) as [[[] w1]|] eqn:E1; [|by unfold TcpServer.setThreadNum in E1; replace (0 <=? io) with true in E1 by lia].
    rewrite (after_server m p lg port w0 _ Ep Ew), (after_construct m p lg _ _ w0 w1 Ei E1) in Erun.
    edestruct (serve_throws_late m p) as (lg' & Hl' & Es); [rewrite Erun; apply run_stops| | | |eexists _, lg'; split; [exact Es|done]]; [|done..].
    destruct Hn as [Hn|(n & Hn & Hneg & ->)]; [by apply number_bad|].
    unfold start_pool. erewrite st_bind_run by (apply number_run; exact Hn). rewrite run_gets. unfold deref. cbn [threadPool_]. rewrite run_mret, run_gets.
    unfold lift, mbind, st_bind, PoolLife.start. cbn. by replace (n <? 0) with true by lia.
Qed.

End Facts.

Section Witness.
Import ServerStart ToySys ToyDisk.

#[local] Existing Instance toy_channel_loop.
#[local] Existing Instance TcpServer.toy_served.
#[local] Existing Instance TcpServer.toy_served_laws.

(** A configuration file, with CR LF line ends. *)
Definition cfg_line (l : string) : list byte := bytes_of l ++ [byte_of_Z 13; byte_of_Z 10].
Definition toy_file (ioThreads : string) : list byte :=
  cfg_line "# settings" ++ cfg_line "host 0.0.0.0" ++ cfg_line "port 8888" ++ cfg_line ("ioThreadNumber " +:+ ioThreads) ++
  cfg_line "serverName IM" ++ cfg_line "tpNum 4" ++ cfg_line "daemon no" ++ cfg_line "logFlushInterval 3" ++ cfg_line "logRollSie 1KB".

Definition toy_config (ioThreads : string) : list (list byte * list byte) :=
  match ReadConfig.readConfig (Some (toy_file ioThreads)) with Ok m => m | Fault _ => [] end.

Definition toy_process : process := mkprocess 100 100 50 true {[0 := Terminal; 1 := Terminal; 2 := Terminal]} false [].

Abbreviation toy_main := (main (T := Z) 4096 (λ _, 1559910896) None 42 (λ _, ""%string) (λ _, []) Logger.INFO
  (1559910896 * 1000000) 4711 (Some 101) (Some 102) (λ i, 5000 + Z.of_nat i) true
  (ToySys.mk 0 [(7, toy_peer); (8, toy_peer)] ∅) 1 1).

Lemma server_starts_witness :
  ∃ s, toy_main (Some (toy_file "2")) toy_process = [Loops s] ∧ server_ s = Some TcpServer.toy_w ∧
    GServer s = true ∧ ∃ pool, threadPool_ s = Some pool ∧ Thread.tid_ <$> PoolLife.threads_ pool = [5000; 5001; 5002; 5003].
Proof.
  edestruct (server_starts (SCL := TcpServer.toy_served_laws) (T := Z) 4096 (λ _, 1559910896) None 42 (λ _, ""%string) (λ _, []) Logger.INFO
    (1559910896 * 1000000) 4711 (Some 101) (Some 102) (λ i, 5000 + Z.of_nat i) true
    (ToySys.mk 0 [(7, toy_peer); (8, toy_peer)] ∅) 1 1) with (file := Some (toy_file "2")) (p := toy_process) (m := toy_config "2")
    (w0 := TcpServer.toy_w0) (w := TcpServer.toy_w) (newTcpConnection := λ (_ : positive) (_ : string) (_ : Z) (_ _ : sockaddr_in), TcpServer.TNew) as [H _].
  all: try (by vm_compute).
  - intros i. lia.
  - destruct H as (s & E & _ & _ & Hg & _ & Hw & _ & _ & (pool & Hp & _ & Ht & _) & _); [by vm_compute|].
    exists s. split; [exact E|]. split; [exact Hw|]. split; [exact Hg|]. exists pool. split; [exact Hp|]. by rewrite Ht.
Defined.

(** Is the number of loops a word, [main] returns 0, and its message is in the memory of the
    log only. *)
Lemma bad_number_witness :
  ∃ s lg, serve (T := Z) 4096 (λ _, 1559910896) None 42 (λ _, ""%string) (λ _, []) Logger.INFO
      (1559910896 * 1000000) 4711 (λ i, 5000 + Z.of_nat i) true (ToySys.mk 0 [(7, toy_peer); (8, toy_peer)] ∅) 1 1
      (fresh (toy_config "two") toy_process) = Returns 0 s ∧
    out (proc s) = [] ∧ log_ s = Some lg ∧ log_bytes (AsyncLogging.output lg) = [] ∧
    AsyncLogging.currentBuffer_ lg = Some (bytes_of "20190607 12:34:56.000000  4711 ERROR stoi - main.cc:34" ++ [byte_of_Z 10]).
Proof.
  edestruct (bad_number (T := Z) 4096 (λ _, 1559910896) None 42 (λ _, ""%string) (λ _, []) Logger.INFO
    (1559910896 * 1000000) 4711 (λ i, 5000 + Z.of_nat i) true (ToySys.mk 0 [(7, toy_peer); (8, toy_peer)] ∅) 1 1)
    with (m := toy_config "two") (p := toy_process) (e := "std::invalid_argument: stoi"%string) as [_ H].
  all: try (by vm_compute).
  destruct (H 1024) as [_ H1]; [by vm_compute|]. destruct (H1 3) as [_ H2]; [by vm_compute|].
  destruct (H2 8888 TcpServer.toy_w0) as [H3 _]; [by vm_compute..|].
  destruct H3 as (s & lg & E & _ & _ & Hp & Hl & _ & Hc & _ & _ & Hb); [by vm_compute|].
  exists s, lg. split; [exact E|]. rewrite Hp, Hc. split; [done|]. split; [exact Hl|]. split; [exact Hb|]. by vm_compute.
Defined.
End Witness.
