(* ===== verification/ClientStart.v ===== *)
(** * client/src/Client.cc: starting a client

    [Client::start] runs in the caller's thread, [Client::runLoop] in the thread that it
    creates.  The two share the members of the [Client] and meet at two latches: one for
    the objects that [runLoop] makes, one for the connection.  Here each statement is a
    step; the steps of the two threads are interleaved.  Inside [loop_->loop()] a step is
    an event of the [TcpClient] (TcpClient.v) with the calls of [Client::onConnection]
    (Client.v) that it makes. *)
From stdpp Require Import relations.
From S2P Require Import Prelude Text State Buffer ProtobufCodec Inet Sockets Channel EPollPoller EventLoop Reactor.
From S2P Require Import TcpConnection IM Dispatcher Threads Connection Server TcpServer Connector TcpClient Client.

Module ClientStart.

(** Where [start] is: before a statement, or asleep in [wait]. *)
Inductive start_at := CreateThread | AtLatch | AsleepAtLatch | ToConnect | AtLatch2 | AsleepAtLatch2 | Returned.

(** Where [runLoop] is. *)
Inductive run_at :=
  | NotCreated
  | MakeLoop | MakeTcpClient | MakeDispatcher | MakeCodec | Register
  | SetConnectionCallback | SetMessageCallback | CountDown
  | InLoop.

#[export] Instance start_at_eq_dec : EqDecision start_at.
Proof. solve_decision. Defined.
#[export] Instance run_at_eq_dec : EqDecision run_at.
Proof. solve_decision. Defined.

Section ClientStart.
Context {L K C : Type} `{CL : ChannelLoop L, SY : Sys K, SC : Served C} {CO : Connection C}.
Context {IW : IMWire} {ZL : Zlib}.
Variable newTcpConnection : string → Z → sockaddr_in → sockaddr_in → C.
(** A new loop and its address, the kernel, and the address of the first channel of the
    connector. *)
Variables (newLoop : L) (kernel : K) (loop_addr channel_addr : positive).
Variable serverAddr : sockaddr_in.

Abbreviation callbacks := (@Dispatcher.t IM_protobuf im_type_eq_dec im_type_countable nat (Client.t C)).

(** The members of the client.  [codec_] is the codec, whose
    callback is [onProtobufMessage] of the object [dispatcher_]; [connectionCallback_] and
    [messageCallback_] say whether the callbacks of the [TcpClient] are the client's
    instead of the default ones. *)
Record t := mk {
  thread_ : option Thread.t;
  loop_ : option positive;
  tcpClient_ : option (TcpClient.t L K C);
  dispatcher_ : option callbacks;
  codec_ : bool;
  connectionCallback_ : bool;
  messageCallback_ : bool;
  latch_ : CountDownLatch.t;
  client : Client.t C;
  starter : start_at;
  runner : run_at
}.

Definition make : t :=
  mk None None None None false false false (CountDownLatch.make 1) Client.make CreateThread NotCreated.

Definition set_thread (v : option Thread.t) (s : t) : t :=
  mk v (loop_ s) (tcpClient_ s) (dispatcher_ s) (codec_ s) (connectionCallback_ s)
     (messageCallback_ s) (latch_ s) (client s) (starter s) (runner s).
Definition set_loop (v : option positive) (s : t) : t :=
  mk (thread_ s) v (tcpClient_ s) (dispatcher_ s) (codec_ s) (connectionCallback_ s)
     (messageCallback_ s) (latch_ s) (client s) (starter s) (runner s).
Definition set_tcpClient (v : option (TcpClient.t L K C)) (s : t) : t :=
  mk (thread_ s) (loop_ s) v (dispatcher_ s) (codec_ s) (connectionCallback_ s)
     (messageCallback_ s) (latch_ s) (client s) (starter s) (runner s).
Definition set_dispatcher (v : option callbacks) (s : t) : t :=
  mk (thread_ s) (loop_ s) (tcpClient_ s) v (codec_ s) (connectionCallback_ s)
     (messageCallback_ s) (latch_ s) (client s) (starter s) (runner s).
Definition set_codec (v : bool) (s : t) : t :=
  mk (thread_ s) (loop_ s) (tcpClient_ s) (dispatcher_ s) v (connectionCallback_ s)
     (messageCallback_ s) (latch_ s) (client s) (starter s) (runner s).
Definition set_connectionCallback (v : bool) (s : t) : t :=
  mk (thread_ s) (loop_ s) (tcpClient_ s) (dispatcher_ s) (codec_ s) v (messageCallback_
     s) (latch_ s) (client s) (starter s) (runner s).
Definition set_messageCallback (v : bool) (s : t) : t :=
  mk (thread_ s) (loop_ s) (tcpClient_ s) (dispatcher_ s) (codec_ s) (connectionCallback_
     s) v (latch_ s) (client s) (starter s) (runner s).
Definition set_latch (v : CountDownLatch.t) (s : t) : t :=
  mk (thread_ s) (loop_ s) (tcpClient_ s) (dispatcher_ s) (codec_ s) (connectionCallback_
     s) (messageCallback_ s) v (client s) (starter s) (runner s).
Definition set_client (v : Client.t C) (s : t) : t :=
  mk (thread_ s) (loop_ s) (tcpClient_ s) (dispatcher_ s) (codec_ s) (connectionCallback_
     s) (messageCallback_ s) (latch_ s) v (starter s) (runner s).
Definition set_starter (v : start_at) (s : t) : t :=
  mk (thread_ s) (loop_ s) (tcpClient_ s) (dispatcher_ s) (codec_ s) (connectionCallback_
     s) (messageCallback_ s) (latch_ s) (client s) v (runner s).
Definition set_runner (v : run_at) (s : t) : t :=
  mk (thread_ s) (loop_ s) (tcpClient_ s) (dispatcher_ s) (codec_ s) (connectionCallback_
     s) (messageCallback_ s) (latch_ s) (client s) (starter s) v.

(** ** [Client::start] *)

(** A pass through [latch.wait()] in the state [s]. *)
Definition pass (latch : CountDownLatch.t) (asleep next : start_at) : st t unit :=
  modify (set_starter (if CountDownLatch.wait latch then asleep else next)).

(** The statement that [start] is at.  [created] and [tid] are the outcome of
    [pthread_create], [numCreated] the number of threads so far.  Nothing happens when
    the thread sleeps or has returned. *)
Definition start (numCreated : Z) (created : bool) (tid : Z) : st t unit :=
  at_ ← gets starter;
  match at_ with
  | CreateThread =>
      let '(thread, _) := Thread.make numCreated "loop Thread" in
      thread ← lift (Thread.start created tid thread);
      _ ← modify (set_thread (Some thread));
      _ ← modify (set_runner MakeLoop);
      modify (set_starter AtLatch)
  | AtLatch => latch ← gets latch_; pass latch AsleepAtLatch ToConnect
  | ToConnect =>
      tc ← gets tcpClient_;
      tc ← deref tc;
      '(_, tc) ← lift (TcpClient.connect false tc);
      _ ← modify (set_tcpClient (Some tc));
      modify (set_starter AtLatch2)
  | AtLatch2 => latch ← gets (Client.latch2_ ∘ client); pass latch AsleepAtLatch2 Returned
  | AsleepAtLatch | AsleepAtLatch2 | Returned => mret ()
  end.

(** The sleeping caller is woken up. *)
Definition wake (s : t) : t :=
  match starter s with
  | AsleepAtLatch => set_starter AtLatch s
  | AsleepAtLatch2 => set_starter AtLatch2 s
  | _ => s
  end.

(** ** [Client::runLoop] *)

Definition goto (next : run_at) : st t unit := modify (set_runner next).

(** The statement that [runLoop] is at, up to [loop_->loop()]. *)
Definition runLoop : st t unit :=
  at_ ← gets runner;
  match at_ with
  | NotCreated | InLoop => mret ()
  | MakeLoop => _ ← modify (set_loop (Some loop_addr)); goto MakeTcpClient
  | MakeTcpClient =>
      loop ← gets loop_;
      loop ← deref loop;
      _ ← modify (set_tcpClient (Some (TcpClient.make newLoop kernel loop channel_addr serverAddr "Client")));
      goto MakeDispatcher
  | MakeDispatcher =>
      _ ← modify (set_dispatcher (Some (Dispatcher.make Client.onUnknownMessage)));
      goto MakeCodec
  | MakeCodec => d ← gets dispatcher_; _ ← deref d; _ ← modify (set_codec true); goto Register
  | Register =>
      d ← gets dispatcher_;
      d ← deref d;
      let d := Dispatcher.registerMessageCallback Client.onResponse d in
      let d := Dispatcher.registerMessageCallback Client.HongbaoResponse d in
      let d := Dispatcher.registerMessageCallback Client.RobHongbaoResponse d in
      let d := Dispatcher.registerMessageCallback Client.SingleChat d in
      let d := Dispatcher.registerMessageCallback Client.GroupChat d in
      _ ← modify (set_dispatcher (Some d));
      goto SetConnectionCallback
  | SetConnectionCallback =>
      tc ← gets tcpClient_; _ ← deref tc;
      _ ← modify (set_connectionCallback true);
      goto SetMessageCallback
  | SetMessageCallback =>
      tc ← gets tcpClient_; _ ← deref tc;
      _ ← modify (set_messageCallback true);
      goto CountDown
  | CountDown =>
      latch ← gets latch_;
      '(latch, notify) ← lift (CountDownLatch.countDown latch);
      _ ← modify (set_latch latch);
      _ ← (if notify : bool then modify wake else mret ());
      goto InLoop
  end.

(** ** [loop_->loop()] *)

(** The connection callback for the object [c]; it may notify [latch2_]. *)
Definition callback (c : nat) : st t unit :=
  own ← gets connectionCallback_;
  if own : bool then
    before ← gets (Client.latch2_ ∘ client);
    _ ← zoom client set_client (Client.onConnection c);
    after ← gets (Client.latch2_ ∘ client);
    if negb (CountDownLatch.getCount before =? CountDownLatch.getCount after) && (CountDownLatch.getCount after =? 0)
    then modify wake else mret ()
  else mret ().

Fixpoint callback_all (cs : list nat) : st t unit :=
  match cs with
  | [] => mret ()
  | c :: cs' => _ ← callback c; callback_all cs'
  end.

(** The client sees the connection objects of its [TcpClient]. *)
Definition view (tc : TcpClient.t L K C) : gmap nat C := snd <$> TcpClient.objects tc.
Definition sync (tc : TcpClient.t L K C) (s : t) : t :=
  set_client (Client.set_conns (view tc) (client s)) (set_tcpClient (Some tc) s).

(** The events of the loop: functors, timers and readiness of the connector; and what
    happens to a connection, which calls back when it goes down.  (The program never
    calls [disconnect], [stop] and [enableRetry], and the close callback of a connection
    is never called.) *)
Inductive loop_event :=
  | RunFunctor
  | Alarm
  | Ready (revents : Z)
  | Change (c : nat) (conn : C).

Definition event_of (e : loop_event) : TcpClient.event C :=
  match e with
  | RunFunctor => TcpClient.RunFunctor
  | Alarm => TcpClient.Alarm
  | Ready revents => TcpClient.Ready revents
  | Change c conn => TcpClient.Change c conn
  end.

Definition up (tc : TcpClient.t L K C) (c : nat) : bool :=
  match TcpClient.objects tc !! c with
  | Some o => conn_connected o.2
  | None => false
  end.

(** The connections that call back: new ones, and one that has gone down. *)
Definition calls (e : loop_event) (tc tc' : TcpClient.t L K C) : list nat :=
  match e with
  | Change c _ => if up tc c && negb (up tc' c) then [c] else []
  | _ => seq (TcpClient.next_object tc) (TcpClient.next_object tc' - TcpClient.next_object tc)
  end.

Definition run_event (e : loop_event) : st t unit :=
  tc ← gets tcpClient_;
  tc ← deref tc;
  '(_, tc') ← lift (TcpClient.run_event conn_shutdown newTcpConnection (event_of e) tc);
  _ ← modify (sync tc');
  callback_all (calls e tc tc').

(** ** The two threads *)

Definition start_blocked (s : t) : bool :=
  bool_decide (starter s = AsleepAtLatch ∨ starter s = AsleepAtLatch2 ∨ starter s = Returned).
Definition run_blocked (s : t) : bool := bool_decide (runner s = NotCreated ∨ runner s = InLoop).

(** The steps of the program. *)
Inductive step (s s' : t) : Prop :=
  | start_steps numCreated tid :
      start_blocked s = false → 0 < tid → start numCreated true tid s = Ok ((), s') → step s s'
  | run_steps : run_blocked s = false → runLoop s = Ok ((), s') → step s s'.

End ClientStart.
#[global] Arguments t L K C {_}.
#[global] Arguments loop_event C : clear implicits.
End ClientStart.

(** What the client asks of the objects that its [TcpClient] owns: established means
    connected, and only an open connection is connected. *)
Class ServedUp (C : Type) (SC : Served C) (SCL : ServedLaws C SC) (CO : Connection C) := {
  established_up c c' : srv_new c → srv_connectEstablished c = Ok c' → conn_connected c' = true;
  up_open c : conn_connected c = true → srv_open c = true
}.

(** ** What holds while a client starts *)
Section Start.
Import ClientStart.
Context {L K C : Type} `{CL : ChannelLoop L, CLL : !ChannelLoopLaws L CL, LI : !ChannelLife L CL CLL,
  SY : Sys K, SO : !SysOpen K SY, SC : Served C, SCL : !ServedLaws C SC} {CO : Connection C} {SU : ServedUp C SC SCL CO}.
Context {IW : IMWire} {ZL : Zlib}.
Variable newTcpConnection : string → Z → sockaddr_in → sockaddr_in → C.
Hypothesis Hnew : ∀ name fd local peer, srv_new (newTcpConnection name fd local peer).
Variables (newLoop : L) (kernel : K) (loop_addr channel_addr : positive) (h : gmap positive Channel.t).
Variable serverAddr : sockaddr_in.
Hypotheses (Hloop : loop_inv newLoop h) (Hthread : isInLoopThread newLoop = true) (Hself : loop_self newLoop = loop_addr)
  (Hfree : ∀ a, (channel_addr <= a)%positive → h !! a = None)
  (Hfds : ∀ a c, h !! a = Some c → ¬ unregistered c → is_open kernel (Channel.fd_ c)).
Implicit Types (s : ClientStart.t L K C) (tc : TcpClient.t L K C).

Abbreviation start := (ClientStart.start (L := L) (K := K) (C := C)).
Abbreviation runLoop := (ClientStart.runLoop newLoop kernel loop_addr channel_addr serverAddr).
Abbreviation run_event := (ClientStart.run_event newTcpConnection).
Abbreviation step := (ClientStart.step newLoop kernel loop_addr channel_addr serverAddr).

(** A connection changes only while it is open, and does not come up again; for the
    connector see [client_legal]. *)
Definition legal_event (e : loop_event C) tc : Prop :=
  client_legal conn_shutdown (event_of e) tc ∧
  match e with Change c x => conn_connected x = true → up tc c = true | _ => True end.

(** What comes from outside: an event in the loop, a spurious wakeup. *)
Inductive other s s' : Prop :=
  | loop_steps e tc :
      runner s = InLoop → tcpClient_ s = Some tc → legal_event e tc → run_event e s = Ok ((), s') → other s s'
  | wakes_up : s' = wake s → other s s'.

Definition any_step s s' : Prop := step s s' ∨ other s s'.

(** The [TcpClient] as [runLoop] leaves it. *)
Definition fresh : TcpClient.t L K C := TcpClient.make newLoop kernel loop_addr channel_addr serverAddr "Client".

(** What [runLoop] has made so far. *)
Definition before (a b : run_at) : bool :=
  let rank x := match x with
    | NotCreated => 0 | MakeLoop => 1 | MakeTcpClient => 2 | MakeDispatcher => 3 | MakeCodec => 4 | Register => 5
    | SetConnectionCallback => 6 | SetMessageCallback => 7 | CountDown => 8 | InLoop => 9 end in
  rank a <? rank b.

Record built s : Prop := {
  bu_loop : loop_ s = if before MakeLoop (runner s) then Some loop_addr else None;
  bu_client : is_Some (tcpClient_ s) ↔ before MakeTcpClient (runner s) = true;
  bu_dispatcher : is_Some (dispatcher_ s) ↔ before MakeDispatcher (runner s) = true;
  bu_registered : before Register (runner s) = true → dispatcher_ s = Some Client.dispatcher_;
  bu_empty : before MakeDispatcher (runner s) = true → before Register (runner s) = false →
    dispatcher_ s = Some (Dispatcher.make Client.onUnknownMessage);
  bu_codec : codec_ s = before MakeCodec (runner s);
  bu_connection : connectionCallback_ s = before SetConnectionCallback (runner s);
  bu_message : messageCallback_ s = before SetMessageCallback (runner s);
  bu_latch : CountDownLatch.count_ (latch_ s) = if before CountDown (runner s) then 0 else 1
}.

(** The [TcpClient] and the connections of the client. *)
Record joined s tc : Prop := {
  jo_inv : client_inv (is_open kernel) tc;
  jo_latch : CountDownLatch.count_ (Client.latch2_ (client s)) = 2 - Z.of_nat (TcpClient.next_object tc);
  jo_up c : up tc c = true → Client.conn_ (client s) = Some c;
  jo_view : Client.conns (client s) = view tc;
  jo_shown : (2 <= TcpClient.next_object tc)%nat → Connected ∈ Client.shown (client s)
}.

Definition start_ok s : Prop :=
  match starter s with
  | CreateThread => runner s = NotCreated
  | AtLatch => runner s ≠ NotCreated
  | AsleepAtLatch => runner s ≠ NotCreated ∧ runner s ≠ InLoop
  | ToConnect | AtLatch2 => runner s = InLoop
  | AsleepAtLatch2 => runner s = InLoop ∧ 0 < CountDownLatch.count_ (Client.latch2_ (client s))
  | Returned => runner s = InLoop ∧ CountDownLatch.count_ (Client.latch2_ (client s)) <= 0
  end.

(** Before [connect] nothing happens in the loop. *)
Definition connecting s : bool :=
  match starter s with AtLatch2 | AsleepAtLatch2 | Returned => true | _ => false end.

Record inv s : Prop := {
  in_built : built s;
  in_start : start_ok s;
  in_idle : tcpClient_ s = None → client s = Client.make;
  in_fresh tc : tcpClient_ s = Some tc → connecting s = false → tc = fresh ∧ Client.latch2_ (client s) = CountDownLatch.make 1;
  in_joined tc : tcpClient_ s = Some tc → joined s tc
}.

(** ** The events of the loop *)

(** An operation of the connector leaves the objects alone. *)
Definition keeps_client {A} (m : st (TcpClient.t L K C) A) : Prop := ∀ tc x tc', m tc = Ok (x, tc') → ∃ v, tc' = TcpClient.set_connector v tc.

Lemma on_connector_client {A} (m : st (Connector.t L K) A) : keeps_client (TcpClient.on_connector m).
Proof.
  intros tc x tc'. unfold TcpClient.on_connector, zoom. destruct (m _) as [[y v]|]; [|done]. intros [= _ <-]. by exists v.
Qed.

Lemma run_connector_Ok m tc tc' :
  TcpClient.run_connector newTcpConnection m tc = Ok ((), tc') →
  ∃ v, m (TcpClient.connector_ tc) = Ok ((), v) ∧
    TcpClient.new_connections newTcpConnection (drop (length (Connector.handed (TcpClient.connector_ tc))) (Connector.handed v))
      (TcpClient.set_connector v tc) = Ok ((), tc').
Proof.
  unfold TcpClient.run_connector. rewrite run_gets. intros ([] & w & E & H)%st_bind_Ok. rewrite run_gets in H.
  unfold TcpClient.on_connector, zoom in E. destruct (m _) as [[[] v]|]; [|done]. injection E as <-. by exists v.
Qed.

Lemma run_connector_keeps m tc tc' :
  keeps m → TcpClient.run_connector newTcpConnection m tc = Ok ((), tc') → ∃ v, tc' = TcpClient.set_connector v tc.
Proof.
  intros Hk (v & E & H)%run_connector_Ok. rewrite (Hk _ _ _ E), drop_all in H. injection H as <-. by exists v.
Qed.

Lemma newConnection_Ok fd tc tc' :
  TcpClient.newConnection newTcpConnection fd tc = Ok ((), tc') →
  ∃ name x0 x, srv_new x0 ∧ srv_connectEstablished x0 = Ok x ∧
    TcpClient.next_object tc' = S (TcpClient.next_object tc) ∧
    TcpClient.objects tc' = <[TcpClient.next_object tc := (name, x)]> (TcpClient.objects tc).
Proof.
  unfold TcpClient.newConnection. intros (? & w1 & (v1 & ->)%on_connector_client & H)%st_bind_Ok.
  apply st_bind_Ok in H as (peer & w2 & (v2 & ->)%on_connector_client & H).
  apply st_bind_Ok in H as (ip & w3 & H3 & H). unfold lift in H3.
  destruct (InetAddress.toIpPort peer); [|done]. injection H3 as -> <-. rewrite run_gets in H.
  apply st_bind_Ok in H as (? & w4 & H4 & H).
  destruct (_ =? _) in H4; [done|]. injection H4 as <- <-. rewrite run_gets in H.
  apply st_bind_Ok in H as (local & w5 & (v5 & ->)%on_connector_client & H). rewrite run_gets, !run_modify in H.
  unfold TcpClient.on_conn, on_object in H. cbn [TcpClient.objects TcpClient.set_objects TcpClient.set_connection TcpClient.next_object
    TcpClient.set_next_object TcpClient.set_connector TcpClient.set_nextConnId fst snd] in H. rewrite lookup_insert_eq in H. cbn [snd fst] in H.
  match type of H with context [srv_connectEstablished ?x0] => destruct (srv_connectEstablished x0) as [y|] eqn:Ey; [|done];
    injection H as <-; eexists _, x0, y end.
  split_and!; [apply Hnew|done|done|]. cbn. by rewrite insert_insert_eq.
Qed.

(** What an event of the loop does to the connections. *)
Inductive effect (e : loop_event C) tc : TcpClient.t L K C → Prop :=
  | quietly v : (∀ c x, e ≠ Change c x) → effect e tc (TcpClient.set_connector v tc)
  | connects tc' name x :
      (∀ c x, e ≠ Change c x) → TcpClient.connection_ tc = None → conn_connected x = true →
      TcpClient.next_object tc' = S (TcpClient.next_object tc) → Z.of_nat (TcpClient.next_object tc) < 2 ^ 31 - 1 →
      TcpClient.objects tc' = <[TcpClient.next_object tc := (name, x)]> (TcpClient.objects tc) → effect e tc tc'
  | changes c x o :
      e = Change c x → TcpClient.objects tc !! c = Some o →
      effect e tc (TcpClient.set_objects (<[c := (o.1, x)]> (TcpClient.objects tc)) tc).

Lemma event_effect O e tc tc' :
  client_inv O tc → legal_event e tc →
  TcpClient.run_event conn_shutdown newTcpConnection (event_of e) tc = Ok ((), tc') → effect e tc tc'.
Proof.
  intros Hi [Hl Hx] E. destruct e as [| |rev|c x]; cbn [event_of TcpClient.run_event] in E.
  - apply run_connector_keeps in E as (v & ->); [by apply quietly|apply keeps_functor].
  - apply run_connector_keeps in E as (v & ->); [by apply quietly|apply keeps_alarm].
  - apply run_connector_Ok in E as (v & E & H). destruct (ready_hands _ _ _ E) as [Hh|(fd & Hh & Hst)]; rewrite Hh in H.
    { rewrite drop_all in H. injection H as <-. by apply quietly. }
    rewrite drop_app_length in H. cbn [TcpClient.new_connections] in H. apply st_bind_Ok in H as ([] & w & H & [= <-]).
    apply newConnection_Ok in H as (name & x0 & x & Hx0 & Ex & Hn & Ho). cbn in Hn, Ho.
    destruct Hl as [[Hc _] Hid]. rewrite (ci_id _ _ Hi) in Hid.
    assert (TcpClient.connection_ tc = None) as Hnone.
    { destruct (TcpClient.connection_ tc) as [c|] eqn:Ec; [|done]. destruct (ci_current _ _ Hi c Ec) as (Hst' & _). congruence. }
    eapply connects; [done|done|by eapply established_up|done|lia|done].
  - destruct Hl as (o & Ho & Hop). unfold TcpClient.put_conn, TcpClient.on_conn, on_object in E. rewrite Ho in E. cbn in E.
    injection E as <-. by apply changes with (x := x).
Qed.

(** ** The invariant *)

Lemma fresh_inv : client_inv (is_open kernel) fresh.
Proof.
  split; cbn; try done; [by eapply make_inv_client|by intros c ?%elem_of_nil|apply NoDup_nil_2|].
  intros c. split; [by intros (o & Ho)|lia].
Qed.

Lemma fresh_joined s :
  CountDownLatch.count_ (Client.latch2_ (client s)) = 1 → Client.conns (client s) = ∅ → joined s fresh.
Proof.
  intros Hl Hc. split; [apply fresh_inv|done| | |cbn; lia].
  - intros c. unfold up. cbn. by rewrite lookup_empty.
  - rewrite Hc. unfold view. cbn. by rewrite fmap_empty.
Qed.

Lemma make_inv_start : inv ClientStart.make.
Proof. split; try done. split; try done; cbn; (split; [by intros [? ?]|done]). Qed.

Lemma joined_ext s s' tc : joined s tc → client s' = client s → joined s' tc.
Proof. intros [J1 J2 J3 J4 J5] E. by split; rewrite ?E. Qed.

(** The statements that are left, with the wakeups they cause. *)
Definition left_to_do s : nat :=
  (match starter s with
   | CreateThread => 23 | AtLatch => 6 | AsleepAtLatch => 5 | ToConnect => 4 | AtLatch2 => 2 | AsleepAtLatch2 => 1 | Returned => 0
   end +
   match runner s with
   | NotCreated | InLoop => 0 | MakeLoop => 16 | MakeTcpClient => 14 | MakeDispatcher => 12 | MakeCodec => 10 | Register => 8
   | SetConnectionCallback => 6 | SetMessageCallback => 4 | CountDown => 2
   end)%nat.

(** The statements of [runLoop]. *)
Lemma runLoop_inv s : inv s → run_blocked s = false → ∃ s', runLoop s = Ok ((), s') ∧ inv s' ∧ (left_to_do s' < left_to_do s)%nat.
Proof.
  intros [Hb Hs Hid Hf Hj] Hr. unfold run_blocked in Hr. apply bool_decide_eq_false in Hr.
  destruct s as [th lo tc di co cc mc la cl sa ru]. destruct Hb as [B1 B2 B3 B4 B5 B6 B7 B8 B9]. unfold start_ok in Hs. cbn in *.
  destruct ru; try (exfalso; by auto); cbn in *; subst.
  all: try (destruct tc as [tc|]; [|by destruct (proj2 B2 eq_refl)]).
  all: try (destruct di as [di|]; [|by destruct (proj2 B3 eq_refl)]).
  all: try (destruct tc as [tc|]; [discriminate (proj1 B2 (mk_is_Some _ _ eq_refl))|]).
  all: try (injection (B5 eq_refl eq_refl) as ->).
  all: try (destruct la as [n]; cbn in B9; subst n).
  all: unfold ClientStart.runLoop; rewrite run_gets; cbn [runner]; autorewrite with run; cbn [tcpClient_ dispatcher_ loop_];
    autorewrite with run; cbn [tcpClient_ dispatcher_ loop_].
  8: destruct sa; try (by destruct Hs).
  all: eexists; split; [reflexivity|]; split; [|unfold left_to_do; cbn; lia].
  all: split; [split; cbn; done || (split; done || by eexists)|try done; try (unfold start_ok; cbn; destruct sa; cbn in Hs; naive_solver)|try done|try (by intros tc0 [= <-])|].
  all: try (intros tc0 [= <-]; eapply joined_ext; [by apply Hj|done]).
  all: try done.
  - intros tc [= <-] _. by rewrite (Hid eq_refl).
  - intros tc [= <-]. apply fresh_joined; cbn; by rewrite (Hid eq_refl).
Qed.

Lemma joined_quiet s tc v s' :
  joined s tc → client_inv (is_open kernel) (TcpClient.set_connector v tc) → client s' = client s →
  joined s' (TcpClient.set_connector v tc).
Proof. intros [J1 J2 J3 J4 J5] Hi E. by split; rewrite ?E. Qed.

Lemma built_client s tc v : built s → tcpClient_ s = Some tc → built (set_tcpClient (Some v) s).
Proof. intros [B1 B2 B3 B4 B5 B6 B7 B8 B9] Htc. split; try done. rewrite <-B2, Htc. split; intros _; by eexists. Qed.

Lemma move_inv a s : inv s → start_ok (set_starter a s) → connecting (set_starter a s) = connecting s → inv (set_starter a s).
Proof.
  intros [[B1 B2 B3 B4 B5 B6 B7 B8 B9] Hs Hid Hf Hj] Ha Hc. split; [by split|done|done| |].
  - intros tc Htc. rewrite Hc. by apply Hf.
  - intros tc Htc. eapply joined_ext; [by apply Hj|done].
Qed.

(** The statements of [start]. *)
Lemma client_start_inv numCreated tid s :
  inv s → start_blocked s = false → 0 < tid →
  ∃ s', start numCreated true tid s = Ok ((), s') ∧ inv s' ∧ (left_to_do s' < left_to_do s)%nat.
Proof.
  intros Hi Hr Htid. pose proof (in_start _ Hi) as Hs. unfold start_blocked in Hr. apply bool_decide_eq_false in Hr.
  unfold ClientStart.start. rewrite run_gets. unfold start_ok in Hs.
  destruct (starter s) eqn:Es; try (exfalso; by auto).
  - cbn [Thread.make]. unfold Thread.start. cbn [Thread.started_ negb cassert mbind res_bind]. apply Z.ltb_lt in Htid as ->.
    cbn. eexists. split; [reflexivity|]. split; [|unfold left_to_do; rewrite Es; cbn; lia]. destruct Hi as [[B1 B2 B3 B4 B5 B6 B7 B8 B9] _ Hid Hf Hj]. rewrite Hs in *.
    assert (tcpClient_ s = None) as En by (destruct (tcpClient_ s); [discriminate (proj1 B2 (mk_is_Some _ _ eq_refl))|done]).
    split; [by split|done|done|..]; cbn; rewrite En; done.
  - rewrite run_gets. unfold pass, modify. eexists. split; [reflexivity|].
    split; [|unfold left_to_do; rewrite Es; cbn; destruct (CountDownLatch.wait _); lia].
    pose proof (bu_latch _ (in_built _ Hi)) as Hl. unfold CountDownLatch.wait. rewrite Hl.
    destruct (runner s) eqn:Er; try done; apply move_inv; unfold start_ok, connecting; cbn; rewrite ?Es, ?Er; done.
  - rewrite run_gets. pose proof (proj2 (bu_client _ (in_built _ Hi))) as [tc Htc]; [by rewrite Hs|]. rewrite Htc, run_some.
    destruct (in_fresh _ Hi tc Htc) as [-> Hl]; [unfold connecting; by rewrite Es|].
    destruct (in_joined _ Hi _ Htc) as [J1 J2 J3 J4 J5].
    destruct (client_event_inv conn_shutdown newTcpConnection Hnew (is_open kernel) (TcpClient.Connect false) fresh)
      as [(w & E & Hw)|[E _]]; [done|by vm_compute| |discriminate E].
    cbn [TcpClient.run_event] in E. rewrite E. eexists. split; [reflexivity|]. split; [|unfold left_to_do; rewrite Es; cbn; lia].
    assert (∃ v, w = TcpClient.set_connector v (TcpClient.set_connect true fresh)) as (v & ->).
    { unfold TcpClient.connect in E. rewrite run_modify in E. by apply on_connector_client in E. }
    destruct Hi as [[B1 B2 B3 B4 B5 B6 B7 B8 B9] _ _ _ _]. split; [|unfold start_ok; cbn; done|done|done|].
    + split; try done. cbn. rewrite <-B2, Htc. split; intros _; by eexists.
    + intros tc [= <-]. by split.
  - rewrite run_gets. unfold pass, modify, compose. eexists. split; [reflexivity|].
    split; [|unfold left_to_do; rewrite Es; cbn; destruct (CountDownLatch.wait _); lia].
    unfold CountDownLatch.wait. destruct (0 <? _) eqn:El; (apply move_inv; [done|unfold start_ok; cbn; split; [done|lia]|unfold connecting; cbn; by rewrite Es]).
Qed.

Lemma wake_inv s : inv s → inv (wake s).
Proof.
  intros Hi. pose proof (in_start _ Hi) as Hs. unfold wake, start_ok in *.
  destruct (starter s) eqn:Es; try done; (apply move_inv; [done|unfold start_ok; cbn; by destruct Hs|unfold connecting; cbn; by rewrite Es]).
Qed.

(** A connection that is up calls back: the client keeps it, counts its latch down and
    wakes [start] up, if it is the first. *)
Lemma callback_up s c x n :
  connectionCallback_ s = true → Client.conns (client s) !! c = Some x → conn_connected x = true →
  CountDownLatch.count_ (Client.latch2_ (client s)) = n → n ≠ - 2 ^ 31 →
  ∃ cl, callback c s = Ok ((), (if n =? 1 then wake else id) (set_client cl s)) ∧
    CountDownLatch.count_ (Client.latch2_ cl) = n - 1 ∧ Client.conn_ cl = Some c ∧
    Client.conns cl = Client.conns (client s) ∧ Client.shown cl = Client.shown (client s) ++ [Connected].
Proof.
  intros Hcb Hc Hx Hn Hov. unfold callback. rewrite run_gets, Hcb, run_gets.
  set (cl := Client.mk (Client.username_ (client s)) (Some c) (CountDownLatch.mk (n - 1)) (Client.redPackets (client s))
    (Client.conns (client s)) (Client.shown (client s) ++ [Connected])).
  assert (Client.onConnection c (client s) = Ok ((), cl)) as E.
  { unfold Client.onConnection. rewrite run_gets, Hc, run_some, Hx, run_modify, run_gets. unfold CountDownLatch.countDown.
    cbn [Client.latch2_ Client.set_conn]. rewrite Hn. replace (n =? - 2 ^ 31) with false by lia. reflexivity. }
  rewrite (st_bind_run _ _ s () (set_client cl s)) by by apply zoom_Ok. rewrite run_gets. exists cl. split; [|by split_and!].
  unfold compose, CountDownLatch.getCount. cbn [client set_client cl Client.latch2_ CountDownLatch.count_]. rewrite Hn.
  replace (n =? n - 1) with false by lia. cbn [negb andb]. replace (n - 1 =? 0) with (n =? 1) by lia. by destruct (n =? 1).
Qed.

(** One that has gone down is the current one, and is dropped. *)
Lemma callback_down s c x :
  connectionCallback_ s = true → Client.conns (client s) !! c = Some x → conn_connected x = false →
  is_Some (Client.conn_ (client s)) →
  ∃ cl, callback c s = Ok ((), set_client cl s) ∧ Client.latch2_ cl = Client.latch2_ (client s) ∧
    Client.conns cl = Client.conns (client s) ∧ Client.shown cl = Client.shown (client s) ++ [Disconnected].
Proof.
  intros Hcb Hc Hx [c0 Hc0]. unfold callback. rewrite run_gets, Hcb, run_gets.
  set (cl := Client.mk (Client.username_ (client s)) None (Client.latch2_ (client s)) (Client.redPackets (client s))
    (Client.conns (client s)) (Client.shown (client s) ++ [Disconnected])).
  assert (Client.onConnection c (client s) = Ok ((), cl)) as E.
  { unfold Client.onConnection. rewrite run_gets, Hc, run_some, Hx, run_gets, Hc0, run_some. reflexivity. }
  rewrite (st_bind_run _ _ s () (set_client cl s)) by by apply zoom_Ok. rewrite run_gets. exists cl. split; [|by split_and!].
  unfold compose, cl, CountDownLatch.getCount. cbn. by rewrite Z.eqb_refl.
Qed.

(** The state around the callbacks of an event. *)
Lemma start_event_inv s tc tc' cl :
  inv s → runner s = InLoop → connecting s = true → tcpClient_ s = Some tc → joined (set_client cl (sync tc' s)) tc' →
  CountDownLatch.count_ (Client.latch2_ cl) = CountDownLatch.count_ (Client.latch2_ (client s)) ∨
    (CountDownLatch.count_ (Client.latch2_ cl) <= 0 ∧ starter s ≠ AsleepAtLatch2) →
  inv (set_client cl (sync tc' s)).
Proof.
  intros [[B1 B2 B3 B4 B5 B6 B7 B8 B9] Hs Hid Hf Hj] Hr Hc Htc Hj' Hl. split; [split; try done| |done|..]; cbn.
  - rewrite <-B2, Htc. split; intros _; by eexists.
  - unfold start_ok, connecting in *. cbn. destruct (starter s); try done.
    + destruct Hs. split; [done|]. destruct Hl as [->|[_ ?]]; done.
    + destruct Hs. split; [done|]. destruct Hl as [->|[? _]]; lia.
  - intros tc0 [= <-]. unfold connecting in *. cbn. by rewrite Hc.
  - by intros tc0 [= <-].
Qed.

Lemma up_view tc c : up tc c = true ↔ ∃ x, view tc !! c = Some x ∧ conn_connected x = true.
Proof.
  unfold up, view. rewrite lookup_fmap. destruct (TcpClient.objects tc !! c) as [o|]; cbn.
  - split; [by exists o.2|by intros (? & [= <-] & ?)].
  - split; [done|by intros (? & ? & ?)].
Qed.

Lemma up_current tc c : client_inv (is_open kernel) tc → up tc c = true → TcpClient.connection_ tc = Some c.
Proof.
  intros Hi. unfold up. destruct (TcpClient.objects tc !! c) as [o|] eqn:Ho; [|done]. intros Hu.
  eapply ci_open; [done..|]. by apply up_open.
Qed.

Lemma wake_client cl tc s : wake (set_client cl (sync tc s)) = set_client cl (sync tc (wake s)).
Proof. destruct s as [? ? ? ? ? ? ? ? ? []]; reflexivity. Qed.

Lemma wake_keeps s :
  runner (wake s) = runner s ∧ connecting (wake s) = connecting s ∧ tcpClient_ (wake s) = tcpClient_ s ∧
  client (wake s) = client s ∧ (starter (wake s) ≠ AsleepAtLatch2 ∧ starter (wake s) ≠ AsleepAtLatch).
Proof. by destruct s as [? ? ? ? ? ? ? ? ? []]. Qed.

Lemma calls_new e tc tc' :
  (∀ c x, e ≠ Change c x) → calls e tc tc' = seq (TcpClient.next_object tc) (TcpClient.next_object tc' - TcpClient.next_object tc).
Proof. intros He. destruct e; try done. by destruct (He c conn). Qed.

(** A new connection. *)
Lemma connects_inv s e tc tc' name x :
  inv s → runner s = InLoop → connecting s = true → tcpClient_ s = Some tc → client_inv (is_open kernel) tc' →
  (∀ c x, e ≠ Change c x) → TcpClient.connection_ tc = None → conn_connected x = true →
  TcpClient.next_object tc' = S (TcpClient.next_object tc) → Z.of_nat (TcpClient.next_object tc) < 2 ^ 31 - 1 →
  TcpClient.objects tc' = <[TcpClient.next_object tc := (name, x)]> (TcpClient.objects tc) →
  ∃ s', callback_all (calls e tc tc') (sync tc' s) = Ok ((), s') ∧ inv s'.
Proof.
  intros Hi Hr Hc Htc Hi' Hq Hnone Hup Hn Hroom Ho. pose proof (in_joined _ Hi _ Htc) as [J1 J2 J3 J4 J5].
  pose proof (bu_connection _ (in_built _ Hi)) as Hcb. rewrite Hr in Hcb. rewrite calls_new, Hn, Nat.sub_succ_l, Nat.sub_diag by done.
  set (n := TcpClient.next_object tc) in *. cbn [seq callback_all].
  assert (view tc' = <[n := x]> (view tc)) as Hv by (unfold view; by rewrite Ho, fmap_insert).
  destruct (callback_up (sync tc' s) n x (2 - Z.of_nat n)) as (cl & E & L1 & L2 & L3 & L4); [done| |done|exact J2|lia|].
  { cbn. by rewrite Hv, lookup_insert_eq. }
  rewrite (st_bind_run _ _ _ _ _ E). eexists. split; [reflexivity|].
  assert (∀ s0, joined (set_client cl (sync tc' s0)) tc') as Hj.
  { intros s0. split; [done|cbn; rewrite L1; lia| |cbn; by rewrite L3|].
    - intros c (y & Hy & Hu)%up_view. cbn. rewrite L2. rewrite Hv, lookup_insert_Some in Hy. destruct Hy as [[-> _]|[_ Hy]]; [done|].
      rewrite (up_current tc c) in Hnone; [done|done|]. apply up_view. by exists y.
    - intros _. cbn. rewrite L4. apply elem_of_app. right. by apply list_elem_of_singleton. }
  pose proof (ci_count _ _ J1) as Hpos. fold n in Hpos. destruct (_ =? 1) eqn:E1; cbn [id].
  - rewrite wake_client. destruct (wake_keeps s) as (W1 & W2 & W3 & W4 & W5 & _).
    eapply start_event_inv; [by apply wake_inv|congruence|congruence|by rewrite W3|done|]. rewrite W4. right. split; [lia|done].
  - eapply start_event_inv; [done..|]. right. split; [lia|]. intros Hs. pose proof (in_start _ Hi) as Hst. unfold start_ok in Hst.
    rewrite Hs in Hst. lia.
Qed.

(** A connection that changes. *)
Lemma changes_inv s c x o tc :
  inv s → runner s = InLoop → connecting s = true → tcpClient_ s = Some tc → TcpClient.objects tc !! c = Some o →
  (conn_connected x = true → up tc c = true) →
  let tc' := TcpClient.set_objects (<[c := (o.1, x)]> (TcpClient.objects tc)) tc in client_inv (is_open kernel) tc' →
  ∃ s', callback_all (calls (Change c x) tc tc') (sync tc' s) = Ok ((), s') ∧ inv s'.
Proof.
  intros Hi Hr Hc Htc Ho Hx tc' Hi'. pose proof (in_joined _ Hi _ Htc) as [J1 J2 J3 J4 J5].
  pose proof (bu_connection _ (in_built _ Hi)) as Hcb. rewrite Hr in Hcb.
  assert (view tc' = <[c := x]> (view tc)) as Hv by (unfold view; cbn; by rewrite fmap_insert).
  assert (up tc' c = conn_connected x) as Hux by (unfold up; cbn; by rewrite lookup_insert_eq).
  assert (∀ c', up tc' c' = true → up tc c' = true) as Hmono.
  { intros c'. unfold up at 1. cbn. rewrite lookup_insert. case_decide as Hcc; [subst|done]. apply Hx. }
  cbn [calls]. rewrite Hux. destruct (up tc c && negb (conn_connected x)) eqn:Ed; cbn [callback_all].
  - apply andb_true_iff in Ed as [Hup Hdown%negb_true_iff].
    destruct (callback_down (sync tc' s) c x) as (cl & E & L1 & L3 & L4); [done| |done| |].
    { change (view tc' !! c = Some x). by rewrite Hv, lookup_insert_eq. } { cbn. rewrite (J3 c Hup). by eexists. }
    rewrite (st_bind_run _ _ _ _ _ E). eexists. split; [reflexivity|].
    eapply start_event_inv; [done..| |left; by rewrite L1]. split; [done|cbn; by rewrite L1| |cbn; by rewrite L3|].
    + intros c' Hc'. pose proof (up_current tc c J1 Hup). pose proof (up_current tc c' J1 (Hmono _ Hc')). simplify_eq. congruence.
    + intros Hn. cbn. rewrite L4. apply elem_of_app. left. by apply J5.
  - eexists. split; [reflexivity|]. apply (start_event_inv s tc _ (Client.set_conns _ (client s))); [done..| |by left].
    split; [done|done| |done|done]. intros c' Hc'. by apply J3, Hmono.
Qed.

(** An event on a client that has called [connect]. *)
Lemma effect_inv s e tc tc' :
  inv s → runner s = InLoop → connecting s = true → tcpClient_ s = Some tc → legal_event e tc →
  client_inv (is_open kernel) tc' → effect e tc tc' →
  ∃ s', callback_all (calls e tc tc') (sync tc' s) = Ok ((), s') ∧ inv s'.
Proof.
  intros Hi Hr Hc Htc [_ Hx] Hi' He. destruct He as [v Hq|tc' name x Hq Hnone Hup Hn Hroom Ho|c x o -> Ho].
  - rewrite calls_new by done. cbn [TcpClient.next_object TcpClient.set_connector]. rewrite Nat.sub_diag.
    eexists. split; [reflexivity|]. pose proof (in_joined _ Hi _ Htc) as [J1 J2 J3 J4 J5].
    apply (start_event_inv s tc _ (Client.set_conns _ (client s))); [done..| |by left]. by split.
  - by eapply connects_inv.
  - by apply changes_inv.
Qed.

(** Before [connect] there are no events. *)
Lemma fresh_event e tc' :
  legal_event e fresh → TcpClient.run_event conn_shutdown newTcpConnection (event_of e) fresh = Ok ((), tc') →
  tc' = fresh ∧ calls e fresh tc' = [].
Proof.
  intros [Hl _]. destruct e as [| |rev|c x]; cbn in Hl |- *.
  - by intros [= <-].
  - by intros [= <-].
  - by destruct Hl as [[Hst _] _].
  - destruct Hl as (o & Ho & _). by rewrite lookup_empty in Ho.
Qed.

Lemma run_event_inv s e tc :
  inv s → runner s = InLoop → tcpClient_ s = Some tc → legal_event e tc →
  (∃ s', run_event e s = Ok ((), s') ∧ inv s') ∨
  (run_event e s = Fault Fatal ∧ no_descriptor (TcpClient.connector_ tc)).
Proof.
  intros Hi Hr Htc Hl. pose proof (in_joined _ Hi _ Htc) as Hj. unfold ClientStart.run_event. rewrite run_gets, Htc, run_some.
  destruct (client_event_inv conn_shutdown newTcpConnection Hnew (is_open kernel) (event_of e) tc (jo_inv _ _ Hj) (proj1 Hl))
    as [(tc' & E & Hi')|[E Hno]].
  2:{ right. split; [|done]. unfold mbind at 1, st_bind, lift. by rewrite E. }
  left. rewrite E. rewrite (st_bind_run (lift (Ok _)) _ _ _ _ eq_refl), run_modify. destruct (connecting s) eqn:Hc.
  - eapply effect_inv; [done..|]. by eapply event_effect; [apply Hj|..].
  - destruct (in_fresh _ Hi tc Htc Hc) as [-> Hl2]. destruct (fresh_event e tc' Hl E) as [-> ->].
    eexists. split; [reflexivity|]. destruct Hj as [J1 J2 J3 J4 J5].
    destruct Hi as [[B1 B2 B3 B4 B5 B6 B7 B8 B9] Hs Hid Hf Hj]. split; [split; try done| |done|..]; cbn.
    + rewrite <-B2, Htc. split; intros _; by eexists.
    + unfold start_ok in *. cbn. by destruct (starter s).
    + intros tc0 [= <-] _. done.
    + intros tc0 [= <-]. by split.
Qed.

Lemma step_start_inv s s' : inv s → step s s' → inv s' ∧ (left_to_do s' < left_to_do s)%nat.
Proof.
  intros Hi [n tid Hb Ht E|Hb E].
  - destruct (client_start_inv n tid s Hi Hb Ht) as (s1 & E1 & H1). rewrite E in E1. by injection E1 as <-.
  - destruct (runLoop_inv s Hi Hb) as (s1 & E1 & H1). rewrite E in E1. by injection E1 as <-.
Qed.

Lemma steps_start_inv k s s' : inv s → nsteps step k s s' → inv s' ∧ (k + left_to_do s' <= left_to_do s)%nat.
Proof.
  intros Hi Hs. induction Hs as [s|k s1 s2 s3 H _ IH]; [done|]. destruct (step_start_inv _ _ Hi H) as [Hi2 Hm].
  destruct (IH Hi2). split; [done|lia].
Qed.

Lemma client_reachable_inv s : rtc any_step ClientStart.make s → inv s.
Proof.
  intros Hr. pose proof make_inv_start as Hi. revert Hi. generalize (@ClientStart.make L K C IW) as s0, Hr. clear Hr.
  intros s0 Hr. induction Hr as [|s1 s2 s3 [H|H] _ IH]; [done|..]; intros Hi; apply IH.
  - by eapply step_start_inv.
  - destruct H as [e tc Hrun Htc Hl E| ->]; [|by apply wake_inv].
    destruct (run_event_inv s1 e tc Hi Hrun Htc Hl) as [(s' & E' & Hi')|[E' _]]; congruence.
Qed.

(** At rest [start] has returned, or waits for a connection that has not come yet. *)
Lemma start_rest s :
  inv s → (∀ s', ¬ step s s') →
  runner s = InLoop ∧
  (starter s = Returned ∨ starter s = AsleepAtLatch2 ∧ ∃ tc, tcpClient_ s = Some tc ∧ TcpClient.next_object tc = 1%nat).
Proof.
  intros Hi Hst. assert (run_blocked s = true) as Hr.
  { destruct (run_blocked s) eqn:E; [done|]. destruct (runLoop_inv s Hi E) as (s1 & E1 & _). destruct (Hst s1). by apply run_steps. }
  assert (start_blocked s = true) as Hb.
  { destruct (start_blocked s) eqn:E; [done|]. destruct (client_start_inv 0 1 s Hi E) as (s1 & E1 & _); [done|].
    destruct (Hst s1). by eapply start_steps with (numCreated := 0) (tid := 1). }
  apply bool_decide_eq_true in Hr, Hb. pose proof (in_start _ Hi) as Hs. unfold start_ok in Hs.
  destruct Hb as [E|[E|E]]; rewrite E in Hs; [destruct Hs; destruct Hr; congruence| |split; [apply Hs|by left]].
  destruct Hs as [Hrun Hl]. split; [done|]. right. split; [done|].
  pose proof (proj2 (bu_client _ (in_built _ Hi))) as [tc Htc]; [by rewrite Hrun|]. exists tc. split; [done|].
  destruct (in_joined _ Hi _ Htc) as [J1 J2 _ _ _]. pose proof (ci_count _ _ J1). lia.
Qed.

(** C4 (liveness). Starting a client.  Whatever the interleaving of the thread that calls
    [start] with the thread of the loop, its events and spurious wakeups: no statement of
    the two fails, [connect] is called only on a client whose objects exist and whose
    callbacks are its own, and [start] returns only after a connection was established.
    The threads, left alone, come to rest after boundedly many steps, and then the loop
    runs and [start] has returned, or waits, correctly, as no connection was ever made. *)
Theorem client_starts s :
  rtc any_step ClientStart.make s →
  (∀ n tid, start_blocked s = false → 0 < tid → ∃ s', start n true tid s = Ok ((), s')) ∧
  (run_blocked s = false → ∃ s', runLoop s = Ok ((), s')) ∧
  (∀ e tc, runner s = InLoop → tcpClient_ s = Some tc → legal_event e tc →
    (∃ s', run_event e s = Ok ((), s')) ∨ (run_event e s = Fault Fatal ∧ no_descriptor (TcpClient.connector_ tc))) ∧
  (starter s = ToConnect →
    is_Some (tcpClient_ s) ∧ dispatcher_ s = Some Client.dispatcher_ ∧ codec_ s = true ∧
    connectionCallback_ s = true ∧ messageCallback_ s = true) ∧
  (starter s = Returned → Connected ∈ Client.shown (client s)) ∧
  (∀ k s', nsteps step k s s' → (k <= left_to_do s)%nat) ∧
  (∀ s', rtc step s s' → (∀ s'', ¬ step s' s'') →
    runner s' = InLoop ∧ (starter s' = Returned ∨
      starter s' = AsleepAtLatch2 ∧ ∃ tc, tcpClient_ s' = Some tc ∧ TcpClient.objects tc = ∅)).
Proof.
  intros Hi%client_reachable_inv. split_and!.
  - intros n tid Hb Ht. destruct (client_start_inv n tid s Hi Hb Ht) as (s' & E & _). by exists s'.
  - intros Hb. destruct (runLoop_inv s Hi Hb) as (s' & E & _). by exists s'.
  - intros e tc Hr Htc Hl. destruct (run_event_inv s e tc Hi Hr Htc Hl) as [(s' & E & _)|]; [left; by exists s'|by right].
  - intros Es. pose proof (in_start _ Hi) as Hs. unfold start_ok in Hs. rewrite Es in Hs.
    destruct (in_built _ Hi) as [B1 B2 B3 B4 B5 B6 B7 B8 B9]. rewrite Hs in *. split_and!; [by apply B2|by apply B4|done..].
  - intros Es. pose proof (in_start _ Hi) as Hs. unfold start_ok in Hs. rewrite Es in Hs. destruct Hs as [Hrun Hl].
    pose proof (proj2 (bu_client _ (in_built _ Hi))) as [tc Htc]; [by rewrite Hrun|].
    destruct (in_joined _ Hi _ Htc) as [J1 J2 _ _ J5]. apply J5. lia.
  - intros k s' Hs. destruct (steps_start_inv _ _ _ Hi Hs). lia.
  - intros s' (k & Hs)%rtc_nsteps Hst. destruct (steps_start_inv _ _ _ Hi Hs) as [Hi' _].
    destruct (start_rest s' Hi' Hst) as [Hr [?|[? (tc & Htc & Hn)]]]; (split; [done|]); [by left|right]. split; [done|].
    exists tc. split; [done|]. apply map_empty. intros c. destruct (TcpClient.objects tc !! c) eqn:E; [|done].
    assert (1 <= c < TcpClient.next_object tc)%nat; [|lia]. apply (ci_objects _ _ (jo_inv _ _ (in_joined _ Hi' _ Htc))). by eexists.
Qed.
End Start.

(** The connections of TcpConnection.v: the client's callback does not touch them. *)
Section Tcp.
Import TcpConnection.
Context {L S U : Type} `{CL : ChannelLoop L, CLL : !ChannelLoopLaws L CL,
  FL : FunctorLoop L functor, FLL : !FunctorLoopLaws L functor CL CLL FL,
  SO : Socket S, SL : !SocketLaws S SO}.
Variables (writeComplete : t L S U → res (t L S U)) (highWaterMark : Z → t L S U → res (t L S U)) (k : Z).
Hypotheses (Hcb : behaves k (λ c : t L S U, Ok c)) (Hk : 0 <= k).

Lemma tcp_served_up :
  ServedUp (t L S U) (tcp_served (λ c, Ok c)) (tcp_served_laws (λ c, Ok c) k Hcb Hk)
    (tcp_connection (λ c, Ok c) writeComplete highWaterMark).
Proof.
  split; cbn.
  - intros c c' _ E. unfold connectEstablished in E. destruct (assertInLoopThread c); [|done]. cbn [mbind res_bind] in E.
    destruct (cassert _); [|done]. cbn [mbind res_bind] in E. unfold on_channel in E.
    match type of E with context [ChannelOps.enableReading ?l ?ch] => destruct (ChannelOps.enableReading l ch) as [[l' ch']|]; [|done] end.
    cbn in E. injection E as <-. unfold TcpConnection.connected. by rewrite bool_decide_true.
  - intros c. unfold TcpConnection.connected, TcpConnection.is_open. intros Hc%bool_decide_eq_true. by rewrite Hc.
Qed.
End Tcp.

Section Witness.
Import ClientStart ToyNet ToyEpoll ToyEventfd ToyWire ToyProtobuf.
Abbreviation toy := TcpServer.toy.

#[local] Existing Instance toy_served.
#[local] Existing Instance toy_served_laws.

#[local] Instance toy_client_connection : Connection toy := {|
  conn_connected c := match c with TOpen => true | _ => false end;
  conn_send c _ := Ok c;
  conn_shutdown c := Ok c
|}.

#[local] Instance toy_served_up : ServedUp toy toy_served toy_served_laws toy_client_connection.
Proof. split; [by intros c c' -> [= <-]|by intros []]. Qed.

Abbreviation toy_client := (ClientStart.t (EventLoop.t interest_list N unit) ToyNet.t toy).

Definition toy_net0 : ToyNet.t := ToyNet.mk 0 [EINPROGRESS] [2; 1; 0].
Definition toy_start : st toy_client unit := ClientStart.start 0 true 7.
Definition toy_runLoop : st toy_client unit := ClientStart.runLoop toy_client_loop toy_net0 1 2 toy_server.
Definition toy_event (e : loop_event toy) : st toy_client unit := ClientStart.run_event toy_conn_new e.
Abbreviation toy_step := (any_step toy_conn_new toy_client_loop toy_net0 1 2 toy_server).

(** The state after a step that succeeds. *)
Definition next (m : st toy_client unit) (s : toy_client) : toy_client := match m s with Ok (_, s') => s' | Fault _ => s end.
Definition succeeds (m : st toy_client unit) (s : toy_client) : bool := match m s with Ok _ => true | Fault _ => false end.

Lemma succeeds_next m s : succeeds m s = true → m s = Ok ((), next m s).
Proof. unfold succeeds, next. by destruct (m s) as [[[] s']|]. Qed.

Lemma toy_starts s : start_blocked s = false → succeeds toy_start s = true → toy_step s (next toy_start s).
Proof. intros Hb Hs%succeeds_next. left. by eapply start_steps with (numCreated := 0) (tid := 7). Qed.
Lemma toy_runs s : run_blocked s = false → succeeds toy_runLoop s = true → toy_step s (next toy_runLoop s).
Proof. intros Hb Hs%succeeds_next. left. by apply run_steps. Qed.
Lemma toy_happens e tc s :
  runner s = InLoop → tcpClient_ s = Some tc → legal_event e tc → succeeds (toy_event e) s = true → toy_step s (next (toy_event e) s).
Proof. intros Hr Htc Hl Hs%succeeds_next. right. by eapply loop_steps. Qed.

(** [start] sleeps at both latches before it returns. *)
Definition toy_connecting : toy_client :=
  let s := next toy_start (next toy_start ClientStart.make) in
  let s := next toy_runLoop (next toy_runLoop (next toy_runLoop (next toy_runLoop s))) in
  let s := next toy_runLoop (next toy_runLoop (next toy_runLoop (next toy_runLoop s))) in
  next toy_start (next toy_start (next toy_start s)).

Definition toy_connected : toy_client :=
  next toy_start (next (toy_event (Ready EPOLLOUT)) (next (toy_event RunFunctor) toy_connecting)).

Lemma toy_connecting_reached : rtc toy_step ClientStart.make toy_connecting.
Proof.
  do 2 (eapply rtc_l; [apply toy_starts; vm_compute; reflexivity|]).
  do 8 (eapply rtc_l; [apply toy_runs; vm_compute; reflexivity|]).
  do 3 (eapply rtc_l; [apply toy_starts; vm_compute; reflexivity|]). unfold toy_connecting. cbv zeta. apply rtc_refl.
Qed.

Lemma toy_connected_reached : rtc toy_step ClientStart.make toy_connected.
Proof.
  etrans; [apply toy_connecting_reached|]. eapply rtc_l.
  { eapply (toy_happens RunFunctor); [vm_compute; reflexivity|vm_compute; reflexivity| |vm_compute; reflexivity].
    split; [|done]. intros c Hc. vm_compute in Hc. discriminate Hc. }
  eapply rtc_l.
  { eapply (toy_happens (Ready EPOLLOUT)); [vm_compute; reflexivity|vm_compute; reflexivity| |vm_compute; reflexivity].
    split; [|done]. split; [split; [reflexivity|]; intros c _ Hh; vm_compute in Hh; discriminate|vm_compute; reflexivity]. }
  eapply rtc_l; [apply toy_starts; vm_compute; reflexivity|]. unfold toy_connected. apply rtc_refl.
Qed.

Lemma client_starts_witness :
  starter toy_connecting = AsleepAtLatch2 ∧ starter toy_connected = Returned ∧ Client.conn_ (client toy_connected) = Some 1%nat ∧
  Connected ∈ Client.shown (client toy_connected).
Proof.
  do 3 (split; [vm_compute; reflexivity|]).
  destruct (client_starts (SCL := toy_served_laws) (SU := toy_served_up) toy_conn_new (λ _ _ _ _, eq_refl) toy_client_loop toy_net0 1 2 ∅ toy_server) with (s := toy_connected)
    as (_ & _ & _ & _ & Hs & _).
  - apply toy_client_loop_ok.
  - reflexivity.
  - reflexivity.
  - done.
  - done.
  - apply toy_connected_reached.
  - apply Hs. vm_compute. reflexivity.
Defined.
End Witness.
